(** * MacroAlpha: the ETL scripts, embedded and verified

    A shallow embedding of the repository's Python scripts:

    - [etl_import.py]: [clean_value], [parse_bloomberg_date], the six
      importers and [main];
    - [combine_memb.py]: the snapshot consolidator;
    - [fix_dates.py]: [fix_date_column] and its driver;
    - [make_ticker_list.py]: the list of the tickers of a snapshot.

    Python exceptions are results of an error monad, the SQLite connection is
    an explicit state (the database on disk and the open transaction), files
    are entries of a finite map from names to contents.  Strings are byte
    strings: the embedding follows Python on ASCII text. *)

From Stdlib Require Import ZArith Lia List Ascii String.
From stdpp Require Import base option list gmap strings sorting.

Open Scope nat_scope.

(** ** Python strings *)

(** [str.isspace] on one ASCII character: TAB, LF, VT, FF, CR, the four
    separators FS GS RS US, and the space. *)
Definition py_isspace (c : ascii) : bool :=
  let n := nat_of_ascii c in
  ((9 <=? n) && (n <=? 13)) || ((28 <=? n) && (n <=? 32)).

Fixpoint lstrip (s : string) : string :=
  match s with
  | EmptyString => EmptyString
  | String c s' => if py_isspace c then lstrip s' else s
  end.

Fixpoint rstrip (s : string) : string :=
  match s with
  | EmptyString => EmptyString
  | String c s' =>
      match rstrip s' with
      | EmptyString => if py_isspace c then EmptyString else String c EmptyString
      | r => String c r
      end
  end.

(** [s.strip()] *)
Definition strip (s : string) : string := rstrip (lstrip s).

(** [needle in hay] *)
Fixpoint contains (needle hay : string) : bool :=
  String.prefix needle hay ||
  match hay with
  | EmptyString => false
  | String _ hay' => contains needle hay'
  end.

(** [s.replace(c, '')] for a one-character [c] *)
Fixpoint remove_char (c : ascii) (s : string) : string :=
  match s with
  | EmptyString => EmptyString
  | String c' s' =>
      if Ascii.eqb c c' then remove_char c s' else String c' (remove_char c s')
  end.

Definition lower_char (c : ascii) : ascii :=
  let n := nat_of_ascii c in
  if (65 <=? n) && (n <=? 90) then ascii_of_nat (n + 32) else c.

(** [s.lower()] *)
Fixpoint lower (s : string) : string :=
  match s with
  | EmptyString => EmptyString
  | String c s' => String (lower_char c) (lower s')
  end.

(** [s[:n]] *)
Fixpoint take_chars (n : nat) (s : string) : string :=
  match n, s with
  | S n', String c s' => String c (take_chars n' s')
  | _, _ => EmptyString
  end.

Definition startswith (p s : string) : bool := String.prefix p s.

Definition digit_char (n : nat) : ascii := ascii_of_nat (48 + n).

Definition digit_val (c : ascii) : option nat :=
  let n := nat_of_ascii c in
  if (48 <=? n) && (n <=? 57) then Some (n - 48) else None.

Fixpoint str_nat_go (fuel n : nat) (acc : string) : string :=
  match fuel with
  | 0 => acc
  | S fuel' =>
      let acc' := String (digit_char (n mod 10)) acc in
      if n / 10 =? 0 then acc' else str_nat_go fuel' (n / 10) acc'
  end.

(** [str(n)] of a natural number *)
Definition str_nat (n : nat) : string := str_nat_go (S n) n EmptyString.

(** [str(z)] of an integer, also what [f"{z}"] prints *)
Definition str_int (z : Z) : string :=
  if (z <? 0)%Z then String "-" (str_nat (Z.to_nat (- z)))
  else str_nat (Z.to_nat z).

(** [f"{z:02d}"]: width two, zero filled; the sign counts in the width. *)
Definition fmt_02d (z : Z) : string :=
  if ((0 <=? z) && (z <? 10))%Z then String "0" (str_int z) else str_int z.

(** Two and four digits, zero filled, as [strftime] prints [%m], [%d], [%Y]. *)
Definition pad2 (n : nat) : string :=
  String (digit_char (n / 10)) (String (digit_char (n mod 10)) EmptyString).

Definition pad4 (n : nat) : string :=
  String (digit_char (n / 1000))
    (String (digit_char (n / 100 mod 10))
       (String (digit_char (n / 10 mod 10))
          (String (digit_char (n mod 10)) EmptyString))).

(** ** Calendar dates, [strftime] and [strptime] *)

Record date := mkdate { d_year : nat; d_month : nat; d_day : nat }.

#[global] Instance date_eq_dec : EqDecision date.
Proof. solve_decision. Defined.

Definition is_leap (y : nat) : bool :=
  (y mod 4 =? 0) && (negb (y mod 100 =? 0) || (y mod 400 =? 0)).

Definition days_in_month (y m : nat) : nat :=
  match m with
  | 1 | 3 | 5 | 7 | 8 | 10 | 12 => 31
  | 4 | 6 | 9 | 11 => 30
  | 2 => if is_leap y then 29 else 28
  | _ => 0
  end.

(** What the [datetime] constructor accepts: MINYEAR is 1, MAXYEAR 9999. *)
Definition valid_date (d : date) : bool :=
  (1 <=? d_year d) && (Z.of_nat (d_year d) <=? 9999)%Z &&
  (1 <=? d_month d) && (d_month d <=? 12) &&
  (1 <=? d_day d) && (d_day d <=? days_in_month (d_year d) (d_month d)).

Inductive directive := DirY | Dirm | Dird | Lit (c : ascii).

(** A format string read into its directives; [None] for a directive other
    than [%Y], [%m], [%d] (none occurs in the scripts). *)
Fixpoint compile_format (fmt : string) : option (list directive) :=
  match fmt with
  | EmptyString => Some []
  | String "%" (String "Y" r) => cons DirY <$> compile_format r
  | String "%" (String "m" r) => cons Dirm <$> compile_format r
  | String "%" (String "d" r) => cons Dird <$> compile_format r
  | String "%" _ => None
  | String c r => cons (Lit c) <$> compile_format r
  end.

Definition render_directive (d : date) (x : directive) : string :=
  match x with
  | DirY => str_nat (d_year d)
  | Dirm => pad2 (d_month d)
  | Dird => pad2 (d_day d)
  | Lit c => String c EmptyString
  end.

(** [d.strftime(fmt)].  [%Y] is the year in decimal without padding, as
    the C library under CPython prints it on Linux: four digits from the
    year 1000 on, fewer below ([datetime(5, 1, 1)] prints [5-01-01]).
    [%m] and [%d] are zero filled. *)
Definition strftime (d : date) (fmt : string) : string :=
  match compile_format fmt with
  | Some ds => foldr (λ x acc, render_directive d x +:+ acc) EmptyString ds
  | None => EmptyString
  end.

(** The regular expressions [_strptime] compiles the directives to; each
    function lists, in the order the regex engine tries them, the prefixes
    one alternative matches: the integer read and the rest of the input. *)
Definition alt1 (P : nat → bool) (s : string) : list (nat * string) :=
  match s with
  | String a r =>
      match digit_val a with
      | Some x => if P x then [(x, r)] else []
      | None => []
      end
  | _ => []
  end.

Definition alt2 (P : nat → nat → bool) (s : string) : list (nat * string) :=
  match s with
  | String a (String b r) =>
      match digit_val a, digit_val b with
      | Some x, Some y => if P x y then [(10 * x + y, r)] else []
      | _, _ => []
      end
  | _ => []
  end.

(** The alternative [ [1-9]] of [%d]: a space, then one digit. *)
Definition alt_space (s : string) : list (nat * string) :=
  match s with
  | String c r => if Ascii.eqb c " " then alt1 (λ x, 1 <=? x) r else []
  | _ => []
  end.

(** [%Y]: [\d\d\d\d] *)
Definition re_Y (s : string) : list (nat * string) :=
  match s with
  | String a (String b (String c (String d r))) =>
      match digit_val a, digit_val b, digit_val c, digit_val d with
      | Some x, Some y, Some z, Some w =>
          [(1000 * x + 100 * y + 10 * z + w, r)]
      | _, _, _, _ => []
      end
  | _ => []
  end.

(** [%m]: [1[0-2]|0[1-9]|[1-9]] *)
Definition re_m (s : string) : list (nat * string) :=
  alt2 (λ x y, (x =? 1) && (y <=? 2)) s ++
  alt2 (λ x y, (x =? 0) && (1 <=? y)) s ++
  alt1 (λ x, 1 <=? x) s.

(** [%d]: [3[0-1]|[1-2]\d|0[1-9]|[1-9]| [1-9]] *)
Definition re_d (s : string) : list (nat * string) :=
  alt2 (λ x y, (x =? 3) && (y <=? 1)) s ++
  alt2 (λ x _, (1 <=? x) && (x <=? 2)) s ++
  alt2 (λ x y, (x =? 0) && (1 <=? y)) s ++
  alt1 (λ x, 1 <=? x) s ++
  alt_space s.

(** The fields [_strptime] collects, with its defaults 1900-01-01. *)
Definition default_fields : date := mkdate 1900 1 1.

Definition set_field (x : directive) (v : nat) (f : date) : date :=
  match x with
  | DirY => mkdate v (d_month f) (d_day f)
  | Dirm => mkdate (d_year f) v (d_day f)
  | Dird => mkdate (d_year f) (d_month f) v
  | Lit _ => f
  end.

Definition re_directive (x : directive) (s : string) : list (nat * string) :=
  match x with
  | DirY => re_Y s
  | Dirm => re_m s
  | Dird => re_d s
  | Lit _ => []
  end.

Fixpoint first_some {A B} (f : A → option B) (l : list A) : option B :=
  match l with
  | [] => None
  | a :: l' => match f a with Some b => Some b | None => first_some f l' end
  end.

(** [format_regex.match(data_string)]: a backtracking match of the
    directives from the start of the input; the first way that matches the
    whole format wins, and the unmatched rest of the input is returned. *)
Fixpoint re_match (fmt : list directive) (s : string) (acc : date)
  : option (date * string) :=
  match fmt with
  | [] => Some (acc, s)
  | Lit c :: fmt' =>
      match s with
      | String c' s' => if Ascii.eqb c c' then re_match fmt' s' acc else None
      | EmptyString => None
      end
  | x :: fmt' =>
      first_some (λ '(v, s'), re_match fmt' s' (set_field x v acc))
        (re_directive x s)
  end.

(** [datetime.strptime(s, fmt)]; [None] stands for [ValueError]: no match,
    unconverted data after the match, or a date the calendar does not have. *)
Definition strptime (s fmt : string) : option date :=
  match compile_format fmt with
  | None => None
  | Some ds =>
      match re_match ds s default_fields with
      | Some (d, EmptyString) => if valid_date d then Some d else None
      | _ => None
      end
  end.

Definition formats : list string :=
  ["%Y-%m-%d"; "%m/%d/%Y"; "%d/%m/%Y"; "%Y/%m/%d"; "%d-%m-%Y"; "%m-%d-%Y"].

(** [d.strftime('%Y-%m-%d')], the string [parse_bloomberg_date] returns. *)
Definition isoformat (d : date) : string := strftime d "%Y-%m-%d".

(** The date with day and month exchanged: what an ambiguous string reads
    as under the other order. *)
Definition swap_day_month (d : date) : date :=
  mkdate (d_year d) (d_day d) (d_month d).

(** A directive that reads a number. *)
Definition is_field (x : directive) : Prop := x = DirY ∨ x = Dirm ∨ x = Dird.

(** Year first, as [%Y-%m-%d] and [%Y/%m/%d] print. *)
Definition year_first (sep : ascii) (y a b : nat) : string :=
  pad4 y +:+ String sep (pad2 a +:+ String sep (pad2 b +:+ "")).

(** Year last, as the four other formats print. *)
Definition year_last (sep : ascii) (a b y : nat) : string :=
  pad2 a +:+ String sep (pad2 b +:+ String sep (pad4 y +:+ "")).

(** What [strptime] makes of the match: no unconverted data, and a date of
    the calendar. *)
Definition checked (r : option (date * string)) : option date :=
  match r with
  | Some (d, EmptyString) => if valid_date d then Some d else None
  | _ => None
  end.

(** The loop of [parse_bloomberg_date] over a stripped string. *)
Definition try_formats (s : string) : option string :=
  first_some (λ fmt, (λ d, strftime d "%Y-%m-%d") <$> strptime s fmt) formats.

(** ** Exceptions and results *)

Inductive exn :=
  | FileNotFoundError (name : string)
  | KeyError (key : string)
  | IndexError
  | TypeError
  | ValueError (msg : string)
  | AttributeError
  | InvalidIndexError.

Inductive outcome (A : Type) :=
  | Return (a : A)
  | Raise (e : exn).
Arguments Return {A} a.
Arguments Raise {A} e.

Definition bindO {A B} (m : outcome A) (k : A → outcome B) : outcome B :=
  match m with
  | Return a => k a
  | Raise e => Raise e
  end.

(** ** Spreadsheet cells and Python values

    What the scripts do with numbers is independent of floating point: they
    print them ([str]), read them ([float]) and test them for NaN.  The
    interface below names these three operations; every definition and
    theorem is stated over an arbitrary implementation of it. *)
Class PyNumber := {
  number : Type;
  number_eq_dec :: EqDecision number;
  (** [math.isnan(x)] *)
  num_isnan : number → bool;
  (** [str(x)] *)
  num_str : number → string;
  (** [float(s)]; [None] stands for [ValueError] *)
  float_of_string : string → option number;
}.

Section Model.
Context {PN : PyNumber}.

(** A value pandas or openpyxl hands out for one cell: a missing value
    ([None], NaN, NaT), a string, a number or a [datetime] at midnight. *)
Inductive cell :=
  | Missing
  | Text (s : string)
  | Num (x : number)
  | Stamp (d : date).

#[global] Instance cell_eq_dec : EqDecision cell.
Proof. solve_decision. Defined.

(** [pd.isna(v)] *)
Definition isna (v : cell) : bool :=
  match v with
  | Missing => true
  | Num x => num_isnan x
  | _ => false
  end.

Definition notna (v : cell) : bool := negb (isna v).

(** [str(v)]; pandas marks a missing cell of a file by NaN, printed [nan].
    A [datetime] prints in ISO form, its year on four digits. *)
Definition str (v : cell) : string :=
  match v with
  | Missing => "nan"
  | Text s => s
  | Num x => num_str x
  | Stamp d => year_first "-" (d_year d) (d_month d) (d_day d) +:+ " 00:00:00"
  end.

(** What [clean_value] returns: [None], a float or a string. *)
Inductive cleaned :=
  | CNone
  | CFloat (x : number)
  | CStr (s : string).

#[global] Instance cleaned_eq_dec : EqDecision cleaned.
Proof. solve_decision. Defined.

Definition sentinels : list string :=
  ["#N/A"; "--"; "#N/A Requesting Data..."; "N/A"; ""].

Definition clean_value (val : cell) : cleaned :=
  if isna val then CNone
  else
    let val_str := strip (str val) in
    if bool_decide (val_str ∈ sentinels) then CNone
    else
      match float_of_string (remove_char "," val_str) with
      | Some x => CFloat x
      | None => CStr val_str
      end.

Definition parse_bloomberg_date (date_val : cell) : option string :=
  if isna date_val then None
  else
    match date_val with
    | Stamp d => Some (strftime d "%Y-%m-%d")
    | _ =>
        let date_str := strip (str date_val) in
        first_some
          (λ fmt, (λ d, strftime d "%Y-%m-%d") <$> strptime date_str fmt)
          formats
    end.

(** ** [import_macro]: the date of each value column *)

(** The date string the loop body computes for [col_offset]. *)
Definition macro_date (col_offset : nat) : string :=
  let year := (2024 - Z.of_nat (col_offset / 12))%Z in
  let month := (12 - Z.of_nat (col_offset mod 12))%Z in
  let '(year, month) :=
    if (month <=? 0)%Z then ((year - 1)%Z, (month + 12)%Z) else (year, month) in
  str_int year +:+ "-" +:+ fmt_02d month +:+ "-01".

(** [date_map] after the loop over [range(num_months)], for a sheet of
    [ncols] columns ([num_months] is [ncols - 2]; below two columns the range
    is empty). *)
Definition build_date_map (ncols : nat) : gmap nat string :=
  foldl (λ date_map col_offset, <[2 + col_offset := macro_date col_offset]> date_map)
    ∅ (seq 0 (ncols - 2)).




(** ** Data frames, sheets and files *)

(** A frame read with a header row ([pd.read_csv], [pd.read_excel]): the
    column labels and the data rows.  A row shorter than the header reads as
    missing cells, as pandas pads it. *)
Record frame := { columns : list cell; rows : list (list cell) }.

(** A sheet read with [header=None]: [len(df)] rows by [df.shape[1]]
    columns. *)
Record sheet := { nrows : nat; ncols : nat; at_ : nat → nat → cell }.

(** [df.iloc[r, c]] *)
Definition iloc (df : sheet) (r c : nat) : outcome cell :=
  if (r <? nrows df) && (c <? ncols df) then Return (at_ df r c)
  else Raise IndexError.

Definition sheet_of_rows (w : nat) (l : list (list cell)) : sheet :=
  {| nrows := length l; ncols := w;
     at_ := λ r c, nth c (nth r l []) Missing |}.

Fixpoint index_of (key : cell) (l : list cell) : option nat :=
  match l with
  | [] => None
  | x :: l' => if bool_decide (x = key) then Some 0 else S <$> index_of key l'
  end.

(** [row[key]] for a row of a frame with the labels [cols] *)
Definition getitem (cols row : list cell) (key : string) : outcome cell :=
  match index_of (Text key) cols with
  | Some i => Return (nth i row Missing)
  | None => Raise (KeyError key)
  end.

(** [row.get(key)]: [None] when the frame has no such column *)
Definition row_get (cols row : list cell) (key : string) : cell :=
  match index_of (Text key) cols with
  | Some i => nth i row Missing
  | None => Missing
  end.

(** The contents of a file, as the library that opens it presents them:
    pandas for a CSV file or an Excel file (without and with a header row),
    openpyxl for a workbook, whose active sheet maps (row, column), both from
    1, to the value of the cell. *)
Inductive file :=
  | CsvFile (f : frame)
  | ExcelSheet (df : sheet)
  | ExcelTable (f : frame)
  | Workbook (ws : gmap (nat * nat) cell)
  | TextFile (s : string).

(** The files of the working directory, by name. *)
Abbreviation filesystem := (gmap string file).

(** [pd.read_csv(name)] *)
Definition read_csv (fs : filesystem) (name : string) : outcome frame :=
  match fs !! name with
  | Some (CsvFile f) => Return f
  | Some _ => Raise (ValueError "not a CSV file")
  | None => Raise (FileNotFoundError name)
  end.

(** [pd.read_excel(name, header=None)] *)
Definition read_excel (fs : filesystem) (name : string) : outcome sheet :=
  match fs !! name with
  | Some (ExcelSheet df) => Return df
  | Some _ => Raise (ValueError "not a workbook")
  | None => Raise (FileNotFoundError name)
  end.

(** A Python [dict] with string keys, in insertion order: assigning to a key
    it has keeps the key's place. *)
Fixpoint dict_set {V} (k : string) (v : V) (d : list (string * V))
  : list (string * V) :=
  match d with
  | [] => [(k, v)]
  | (k', v') :: d' =>
      if String.eqb k k' then (k, v) :: d' else (k', v') :: dict_set k v d'
  end.

Fixpoint dict_get {V} (k : string) (d : list (string * V)) : option V :=
  match d with
  | [] => None
  | (k', v') :: d' => if String.eqb k k' then Some v' else dict_get k d'
  end.

(** ** The database *)

(** One entry of [records] in [import_companies]; a row of [companies] is
    such a record with the [company_id] SQLite gave it. *)
Record company_record := {
  c_ticker : string;
  c_company_name : cell;
  c_country_id : option string;
  c_currency : cell;
  c_gics_sector_name : cleaned;
  c_gics_industry_group_name : cleaned;
  c_gics_industry_name : cleaned;
  c_gics_sub_industry_name : cleaned;
  c_current_market_cap : cleaned;
  c_is_active : bool;
}.

Record membership_row := {
  m_index_id : cell;
  m_company_id : nat;
  m_as_of_date : string;
  m_weight : cleaned;
  m_shares_outstanding : cleaned;
  m_price : cleaned;
}.

Record price_row := {
  p_company_id : nat;
  p_price_date : string;
  p_close_price : cleaned;
  p_total_return : cleaned;
}.

Record financial_row := {
  f_company_id : nat;
  f_period_end_date : string;
  f_period_type : string;
  f_revenue : cleaned;
  f_ebitda : cleaned;
  f_interest_expense : cleaned;
  f_free_cash_flow : cleaned;
  f_gross_profit : cleaned;
  f_total_debt : cleaned;
  f_cost_of_goods_sold : cleaned;
  f_currency : cleaned;
}.

Record macro_row := {
  i_country_id : string;
  i_indicator_date : string;
  i_indicator_name : string;
  i_bloomberg_ticker : option string;
  i_indicator_value : cleaned;
  i_indicator_category : string;
}.

Record rate_row := {
  r_country_id : string;
  r_rate_date : string;
  r_rate_type : string;
  r_bloomberg_ticker : string;
  r_rate_value : cleaned;
}.

Record database := {
  companies : list (nat * company_record);
  index_membership : list membership_row;
  prices_weekly : list price_row;
  financials : list financial_row;
  macro_indicators : list macro_row;
  interest_rates : list rate_row;
}.

Definition empty_database : database :=
  {| companies := []; index_membership := []; prices_weekly := [];
     financials := []; macro_indicators := []; interest_rates := [] |}.

Definition set_companies (t : list (nat * company_record)) (db : database) :=
  {| companies := t; index_membership := index_membership db;
     prices_weekly := prices_weekly db; financials := financials db;
     macro_indicators := macro_indicators db;
     interest_rates := interest_rates db |}.

Definition set_index_membership (t : list membership_row) (db : database) :=
  {| companies := companies db; index_membership := t;
     prices_weekly := prices_weekly db; financials := financials db;
     macro_indicators := macro_indicators db;
     interest_rates := interest_rates db |}.

Definition set_prices_weekly (t : list price_row) (db : database) :=
  {| companies := companies db; index_membership := index_membership db;
     prices_weekly := t; financials := financials db;
     macro_indicators := macro_indicators db;
     interest_rates := interest_rates db |}.

Definition set_financials (t : list financial_row) (db : database) :=
  {| companies := companies db; index_membership := index_membership db;
     prices_weekly := prices_weekly db; financials := t;
     macro_indicators := macro_indicators db;
     interest_rates := interest_rates db |}.

Definition set_macro_indicators (t : list macro_row) (db : database) :=
  {| companies := companies db; index_membership := index_membership db;
     prices_weekly := prices_weekly db; financials := financials db;
     macro_indicators := t; interest_rates := interest_rates db |}.

Definition set_interest_rates (t : list rate_row) (db : database) :=
  {| companies := companies db; index_membership := index_membership db;
     prices_weekly := prices_weekly db; financials := financials db;
     macro_indicators := macro_indicators db; interest_rates := t |}.

(** Modelled from the spec: [schema.sql] is not among the sources.  The
    spec names two uniqueness constraints, one membership row per index,
    company and date and one financial row per company, period and type;
    [companies] has the integer key [company_id] that SQLite assigns and one
    row per ticker.  For the three other tables the constraint that makes
    [INSERT OR IGNORE] ignore a row is a key the schema chooses: it is a
    parameter here.  No other constraint (NOT NULL, CHECK) rejects a row, and
    key columns are compared as the values the script binds. *)
Class Schema := {
  price_key_t : Type;
  price_key_dec :: EqDecision price_key_t;
  price_key : price_row → price_key_t;
  macro_key_t : Type;
  macro_key_dec :: EqDecision macro_key_t;
  macro_key : macro_row → macro_key_t;
  rate_key_t : Type;
  rate_key_dec :: EqDecision rate_key_t;
  rate_key : rate_row → rate_key_t;
}.

Context {SC : Schema}.

Definition membership_key (r : membership_row) : cell * nat * string :=
  (m_index_id r, m_company_id r, m_as_of_date r).

Definition financial_key (r : financial_row) : nat * string * string :=
  (f_company_id r, f_period_end_date r, f_period_type r).

(** [INSERT OR IGNORE]: a row whose key the table holds is skipped. *)
Definition insert_or_ignore {R K} `{EqDecision K} (key : R → K)
    (r : R) (t : list R) : list R :=
  if bool_decide (key r ∈ key <$> t) then t else t ++ [r].

(** [INSERT OR REPLACE]: the row of the same key is deleted first. *)
Definition insert_or_replace {R K} `{EqDecision K} (key : R → K)
    (r : R) (t : list R) : list R :=
  filter (λ r', key r' ≠ key r) t ++ [r].

(** The rowid SQLite gives a new row: one more than the largest in use. *)
Definition next_rowid (t : list (nat * company_record)) : nat :=
  S (max_list (fst <$> t)).

Definition insert_company (r : company_record)
    (t : list (nat * company_record)) : list (nat * company_record) :=
  if bool_decide (c_ticker r ∈ (c_ticker ∘ snd) <$> t) then t
  else t ++ [(next_rowid t, r)].

(** [SELECT company_id FROM companies WHERE ticker = ?] and [fetchone()] *)
Definition select_company_id (ticker : string)
    (t : list (nat * company_record)) : option nat :=
  fst <$> find (λ row, String.eqb (c_ticker row.2) ticker) t.

(** The connection: the database file and the state the open transaction
    sees.  [commit] writes the second over the first; closing the
    connection drops what was not committed. *)
Record connection := { disk : database; cur : database }.

Definition connect (db : database) : connection := {| disk := db; cur := db |}.

(** Statements of the scripts: a result or an exception, and the
    connection after it. *)
Definition M (A : Type) : Type := connection → outcome A * connection.

Definition ret {A} (a : A) : M A := λ c, (Return a, c).
Definition raise {A} (e : exn) : M A := λ c, (Raise e, c).
Definition bind {A B} (m : M A) (k : A → M B) : M B :=
  λ c, match m c with
       | (Return a, c') => k a c'
       | (Raise e, c') => (Raise e, c')
       end.
Definition lift {A} (o : outcome A) : M A := λ c, (o, c).

Definition commit : M unit :=
  λ c, (Return tt, {| disk := cur c; cur := cur c |}).

(** [cursor.execute] of a statement that changes the database *)
Definition execute (f : database → database) : M unit :=
  λ c, (Return tt, {| disk := disk c; cur := f (cur c) |}).

(** The companies table as the open transaction sees it: what a [SELECT]
    on it reads. *)
Definition companies_now : M (list (nat * company_record)) :=
  λ c, (Return (companies (cur c)), c).

(** [for x in xs: acc = body(acc, x)] *)
Fixpoint for_each {A B} (body : B → A → M B) (acc : B) (xs : list A) : M B :=
  match xs with
  | [] => ret acc
  | x :: xs' => bind (body acc x) (λ acc', for_each body acc' xs')
  end.

(** ** Statements that read the companies and insert into one table

    [effect get set ins m f]: the statement [m] reads nothing of the
    database but the companies table, and changes nothing but the table
    that [get] reads and [set] writes, by inserting with [ins], one after
    the other, the rows [f] computes from the companies table ([f] also
    gives the result of [m], or the exception it raises). *)
Definition effect {R A : Type} (get : database → list R)
    (set : list R → database → database) (ins : R → list R → list R)
    (m : M A) (f : list (nat * company_record) → outcome (A * list R)) : Prop :=
  ∀ c,
    match f (companies (cur c)) with
    | Return (a, rs) =>
        ∃ dsk, m c = (Return a,
                      {| disk := dsk;
                         cur := set (foldl (λ t r, ins r t) (get (cur c)) rs) (cur c) |})
    | Raise e => ∃ c', m c = (Raise e, c')
    end.

(** What [get] and [set] must satisfy: they read and write one table, which
    is not the companies table. *)
Record table_lens {R : Type} (get : database → list R)
    (set : list R → database → database) : Prop := {
  lens_companies : ∀ t db, companies (set t db) = companies db;
  lens_get_set : ∀ t db, get (set t db) = t;
  lens_set_set : ∀ t t' db, set t (set t' db) = set t db;
  lens_set_get : ∀ db, set (get db) db = db;
}.

(** The rows of a statement, packed with the proof that they are its
    effect. *)
Definition inserts {R A : Type} (get : database → list R)
    (set : list R → database → database) (ins : R → list R → list R)
    (m : M A) : Type :=
  { f | effect get set ins m f }.

(** A statement that ends in a commit leaves the file and the transaction
    equal. *)
Definition commits {A} (m : M A) : Prop :=
  ∀ c a c1, m c = (Return a, c1) → disk c1 = cur c1.

End Model.

Abbreviation filesystem := (gmap string file).

Declare Scope py_scope.
Delimit Scope py_scope with py.
Notation "'do' x <- m ; k" := (bind m (λ x, k))
  (at level 10, x pattern, m at level 100, k at level 200) : py_scope.
Notation "'try' x <- o ; k" := (bindO o (λ x, k))
  (at level 10, x pattern, o at level 100, k at level 200) : py_scope.
Open Scope py_scope.

Section Importers.
Context {PN : PyNumber} {SC : Schema}.

(** ** [import_companies] *)

(** [str(row.iloc[0]).strip() if pd.notna(row.iloc[0]) else None]: the
    ticker of a row, [None] for a missing first cell; a frame without
    columns has no first cell. *)
Definition company_ticker (cols row : list cell) : outcome (option string) :=
  match cols with
  | [] => Raise IndexError
  | _ :: _ =>
      let c := nth 0 row Missing in
      Return (if notna c then Some (strip (str c)) else None)
  end.

(** [row.get('COUNTRY', '')[:2] if pd.notna(row.get('COUNTRY')) else None] *)
Definition country_of (c : cell) : outcome (option string) :=
  if notna c then
    match c with
    | Text s => Return (Some (take_chars 2 s))
    | _ => Raise TypeError
    end
  else Return None.

(** One turn of the first loop: the record appended for [row], [None] when
    the row is skipped. *)
Definition company_record_of (cols row : list cell)
  : outcome (option company_record) :=
  try ticker <- company_ticker cols row;
  match ticker with
  | None => Return None
  | Some ticker =>
      if bool_decide (ticker = "") || bool_decide (ticker = "#N/A")
      then Return None
      else
        try country <- country_of (row_get cols row "COUNTRY");
        Return (Some
          {| c_ticker := ticker;
             c_company_name := row_get cols row "NAME";
             c_country_id := country;
             c_currency := row_get cols row "CRNCY";
             c_gics_sector_name := clean_value (row_get cols row "GICS_SECTOR_NAME");
             c_gics_industry_group_name :=
               clean_value (row_get cols row "GICS_INDUSTRY_GROUP_NAME");
             c_gics_industry_name := clean_value (row_get cols row "GICS_INDUSTRY_NAME");
             c_gics_sub_industry_name :=
               clean_value (row_get cols row "GICS_SUB_INDUSTRY_NAME");
             c_current_market_cap := clean_value (row_get cols row "CUR_MKT_CAP");
             c_is_active := true |})
  end.

(** [records] after the first loop *)
Fixpoint company_records (cols : list cell) (rows : list (list cell))
  : outcome (list company_record) :=
  match rows with
  | [] => Return []
  | row :: rows' =>
      try r <- company_record_of cols row;
      try rs <- company_records cols rows';
      Return (match r with Some r => r :: rs | None => rs end)
  end.

(** [{r['ticker']: i+1 for i, r in enumerate(records)}] *)
Definition enumerate_ids (records : list company_record) : gmap string nat :=
  foldl (λ d ir, <[c_ticker ir.2 := ir.1 + 1]> d) ∅ (imap (λ i r, (i, r)) records).

(** [company_master.csv] is read with its first line skipped: the frame is
    the file from its second line on. *)
Definition import_companies (fs : filesystem) : M (gmap string nat) :=
  do df <- lift (read_csv fs "company_master.csv");
  do records <- lift (company_records (columns df) (rows df));
  do _ <- for_each (λ _ r, execute (λ db, set_companies (insert_company r (companies db)) db))
            tt records;
  do _ <- commit;
  ret (enumerate_ids records).

(** The table after the rows [rs] were given the ids 1, 2, ... in order. *)
Definition numbered (rs : list company_record) : list (nat * company_record) :=
  imap (λ i r, (i + 1, r)) rs.

(** ** Looking a ticker up *)

(** [ticker_to_id.get(ticker)], and the [SELECT] when that is falsy: the
    company id, [None] when the loop [continue]s. *)
Definition resolve_company (ticker_to_id : gmap string nat)
    (t : list (nat * company_record)) (ticker : string) : option nat :=
  match ticker_to_id !! ticker with
  | Some (S n) => Some (S n)
  | _ => select_company_id ticker t
  end.

(** The same with [ticker_to_id[ticker] = company_id] after a [SELECT] that
    found the company, as the price and financials loops do. *)
Definition resolve_and_cache (ticker_to_id : gmap string nat)
    (t : list (nat * company_record)) (ticker : string)
  : gmap string nat * option nat :=
  match ticker_to_id !! ticker with
  | Some (S n) => (ticker_to_id, Some (S n))
  | _ =>
      match select_company_id ticker t with
      | Some company_id => (<[ticker := company_id]> ticker_to_id, Some company_id)
      | None => (ticker_to_id, None)
      end
  end.

(** Every ticker the dictionary knows, with an id that is not zero, is a
    ticker of the table: what [import_companies] returns has this
    property, and the loops that store ids they [SELECT]ed keep it. *)
Definition dict_sound (ticker_to_id : gmap string nat)
    (t : list (nat * company_record)) : Prop :=
  ∀ ticker n, ticker_to_id !! ticker = Some (S n) →
              ticker ∈ (c_ticker ∘ snd) <$> t.

(** ** [import_index_membership] *)

(** The parameters of the [INSERT] one turn of the loop executes, [None]
    when the turn ends in [continue]. *)
Definition membership_values (ticker_to_id : gmap string nat)
    (t : list (nat * company_record)) (cols row : list cell)
  : outcome (option membership_row) :=
  try ticker_cell <- getitem cols row "Ticker";
  let ticker := strip (str ticker_cell) in
  try index_id <- getitem cols row "index_id";
  match resolve_company ticker_to_id t ticker with
  | None => Return None
  | Some company_id =>
      try date_cell <- getitem cols row "as_of_date";
      match parse_bloomberg_date date_cell with
      | None => Return None
      | Some as_of_date =>
          try weight <- getitem cols row "Weight";
          try shares <- getitem cols row "Shares";
          try price <- getitem cols row "Price";
          Return (Some
            {| m_index_id := index_id; m_company_id := company_id;
               m_as_of_date := as_of_date; m_weight := clean_value weight;
               m_shares_outstanding := clean_value shares;
               m_price := clean_value price |})
      end
  end.

Definition insert_membership (r : membership_row) : M unit :=
  execute (λ db, set_index_membership
                   (insert_or_ignore membership_key r (index_membership db)) db).

Definition membership_step (ticker_to_id : gmap string nat) (cols : list cell)
    (_ : unit) (row : list cell) : M unit :=
  do t <- companies_now;
  do r <- lift (membership_values ticker_to_id t cols row);
  match r with
  | None => ret tt
  | Some r => insert_membership r
  end.

Definition import_index_membership (fs : filesystem)
    (ticker_to_id : gmap string nat) : M unit :=
  do df <- lift (read_csv fs "index_membership_snapshot.csv");
  do _ <- for_each (membership_step ticker_to_id (columns df)) tt (rows df);
  commit.

(** ** [import_prices_weekly] *)

(** [df.iloc[r]]: one row as a series *)
Definition iloc_row (df : sheet) (r : nat) : outcome (list cell) :=
  if r <? nrows df then Return (at_ df r <$> seq 0 (ncols df))
  else Raise IndexError.

(** [series.iloc[i]] *)
Definition series_iloc (s : list cell) (i : nat) : outcome cell :=
  match s !! i with
  | Some c => Return c
  | None => Raise IndexError
  end.

(** [str(v).strip() if pd.notna(v) else None] *)
Definition label_of (v : cell) : option string :=
  if notna v then Some (strip (str v)) else None.

(** [str(field_row.iloc[col]).strip()
     if col < len(field_row) and pd.notna(field_row.iloc[col]) else ''] *)
Definition field_label (field_row : list cell) (col : nat) : outcome string :=
  if col <? length field_row then
    try v <- series_iloc field_row col;
    Return (if notna v then strip (str v) else "")
  else Return "".

Record price_cols := { price_col : nat; return_col : nat }.

(** The entry the loop stores for the block at [col]. *)
Definition block_cols (col : nat) (field1 field2 : string) : price_cols :=
  {| price_col :=
       if contains "Price" field1 then col
       else if contains "Price" field2 then col + 1 else col;
     return_col :=
       if contains "Return" field2 then col + 1
       else if contains "Return" field1 then col else col + 1 |}.

(** The body of the [while] loop at [col]. *)
Definition price_block (ticker_row field_row : list cell)
    (ticker_cols : list (string * price_cols)) (col : nat)
  : outcome (list (string * price_cols)) :=
  try ticker_cell <- series_iloc ticker_row col;
  match label_of ticker_cell with
  | Some ticker =>
      if negb (bool_decide (ticker = "")) &&
         negb (bool_decide (ticker ∈ ["nan"; "#N/A Requesting Data..."]))
      then
        try field1 <- field_label field_row col;
        try field2 <- field_label field_row (col + 1);
        Return (dict_set ticker (block_cols col field1 field2) ticker_cols)
      else Return ticker_cols
  | None => Return ticker_cols
  end.

(** The columns [col = 1; while col < n: ...; col += 2] visits. *)
Definition block_starts (n : nat) : list nat := (λ j, 1 + 2 * j) <$> seq 0 (n / 2).

Fixpoint foldO {A B} (body : B → A → outcome B) (acc : B) (xs : list A)
  : outcome B :=
  match xs with
  | [] => Return acc
  | x :: xs' => try acc' <- body acc x; foldO body acc' xs'
  end.

(** [ticker_cols] after the header loop *)
Definition build_ticker_cols (ticker_row field_row : list cell)
  : outcome (list (string * price_cols)) :=
  foldO (price_block ticker_row field_row) [] (block_starts (length ticker_row)).

(** The label the header loop reads at [col] of the field row, [''] for a
    missing cell or past the end of the row. *)
Definition field_text (field_row : list cell) (col : nat) : string :=
  match field_row !! col with
  | Some v => if notna v then strip (str v) else ""
  | None => ""
  end.

(** The ticker of the block at [col], when the loop stores an entry for
    it. *)
Definition block_ticker (ticker_row : list cell) (col : nat) : option string :=
  match ticker_row !! col with
  | Some c =>
      match label_of c with
      | Some ticker =>
          if negb (bool_decide (ticker = "")) &&
             negb (bool_decide (ticker ∈ ["nan"; "#N/A Requesting Data..."]))
          then Some ticker else None
      | None => None
      end
  | None => None
  end.
(** One turn of the header loop, as a function without exceptions. *)
Definition store_block (ticker_row field_row : list cell)
    (ticker_cols : list (string * price_cols)) (col : nat) :=
  match block_ticker ticker_row col with
  | Some ticker =>
      dict_set ticker
        (block_cols col (field_text field_row col) (field_text field_row (col + 1)))
        ticker_cols
  | None => ticker_cols
  end.

(** [clean_value(df.iloc[row_idx, col]) if col and col < df.shape[1] else None] *)
Definition guarded_value (df : sheet) (row_idx col : nat) : outcome cleaned :=
  if (0 <? col) && (col <? ncols df) then
    try v <- iloc df row_idx col; Return (clean_value v)
  else Return CNone.

(** One turn of the loop over [ticker_cols.items()]: the dictionary after
    it and the parameters of the [INSERT], if one is executed. *)
Definition price_values (df : sheet) (row_idx : nat) (price_date : string)
    (ticker_to_id : gmap string nat) (t : list (nat * company_record))
    (item : string * price_cols)
  : outcome (gmap string nat * option price_row) :=
  let '(ticker, cols) := item in
  match resolve_and_cache ticker_to_id t ticker with
  | (ticker_to_id', None) => Return (ticker_to_id', None)
  | (ticker_to_id', Some company_id) =>
      try close_price <- guarded_value df row_idx (price_col cols);
      try total_return <- guarded_value df row_idx (return_col cols);
      Return (ticker_to_id',
        match close_price with
        | CNone => None
        | _ => Some {| p_company_id := company_id; p_price_date := price_date;
                       p_close_price := close_price;
                       p_total_return := total_return |}
        end)
  end.

Definition insert_price (r : price_row) : M unit :=
  execute (λ db, set_prices_weekly
                   (insert_or_ignore price_key r (prices_weekly db)) db).

Definition price_ticker_step (df : sheet) (row_idx : nat) (price_date : string)
    (ticker_to_id : gmap string nat) (item : string * price_cols)
  : M (gmap string nat) :=
  do t <- companies_now;
  do (ticker_to_id', r) <-
    lift (price_values df row_idx price_date ticker_to_id t item);
  do _ <- match r with
          | None => ret tt
          | Some r => insert_price r
          end;
  ret ticker_to_id'.

Definition price_row_step (df : sheet) (ticker_cols : list (string * price_cols))
    (ticker_to_id : gmap string nat) (row_idx : nat) : M (gmap string nat) :=
  do date_val <- lift (iloc df row_idx 0);
  match parse_bloomberg_date date_val with
  | None => ret ticker_to_id
  | Some price_date =>
      do ticker_to_id' <-
        for_each (price_ticker_step df row_idx price_date) ticker_to_id ticker_cols;
      do _ <- (if row_idx mod 200 =? 0 then commit else ret tt);
      ret ticker_to_id'
  end.

(** The dictionary is the caller's: what the loops store in it is returned. *)
Definition import_prices_weekly (fs : filesystem)
    (ticker_to_id : gmap string nat) : M (gmap string nat) :=
  do df <- lift (read_excel fs "price_weekly.xlsx.xlsx");
  do ticker_row <- lift (iloc_row df 3);
  do field_row <- lift (iloc_row df 4);
  do ticker_cols <- lift (build_ticker_cols ticker_row field_row);
  do ticker_to_id' <-
    for_each (price_row_step df ticker_cols) ticker_to_id (seq 6 (nrows df - 6));
  do _ <- commit;
  ret ticker_to_id'.

(** ** [import_financials] *)

Definition field_map : list (string * string) :=
  [("SALES_REV_TURN", "revenue"); ("EBITDA", "ebitda");
   ("IS_INT_EXPENSE", "interest_expense");
   ("CF_FREE_CASH_FLOW", "free_cash_flow"); ("GROSS_PROFIT", "gross_profit");
   ("SHORT_AND_LONG_TERM_DEBT", "total_debt");
   ("ARD_COST_OF_GOODS_SOLD", "cost_of_goods_sold")].

Definition fields_per_ticker : nat := 7.

(** The body of the loop over [f_idx] for the block at [base_col]. *)
Definition financial_field (field_row : list cell) (base_col : nat)
    (field_cols : list (string * nat)) (f_idx : nat)
  : outcome (list (string * nat)) :=
  let col := base_col + f_idx in
  if col <? length field_row then
    try v <- series_iloc field_row col;
    match label_of v with
    | Some field =>
        if bool_decide (field = "") then Return field_cols
        else
          match dict_get field field_map with
          | Some name => Return (dict_set name col field_cols)
          | None => Return field_cols
          end
    | None => Return field_cols
    end
  else Return field_cols.

(** The body of the loop over [t_idx]. *)
Definition financial_block (ticker_row field_row : list cell)
    (ticker_fields : list (string * list (string * nat))) (t_idx : nat)
  : outcome (list (string * list (string * nat))) :=
  let base_col := 1 + t_idx * fields_per_ticker in
  try ticker_cell <- series_iloc ticker_row base_col;
  match label_of ticker_cell with
  | Some ticker =>
      if negb (bool_decide (ticker = "")) &&
         negb (bool_decide (ticker = "#N/A Requesting Data..."))
      then
        try field_cols <-
          foldO (financial_field field_row base_col) [] (seq 0 fields_per_ticker);
        Return (dict_set ticker field_cols ticker_fields)
      else Return ticker_fields
  | None => Return ticker_fields
  end.

(** [ticker_fields] after the header loop; [num_tickers] is
    [(len(ticker_row) - 1) // 7], and the range is empty when that is
    negative. *)
Definition build_ticker_fields (ticker_row field_row : list cell)
  : outcome (list (string * list (string * nat))) :=
  foldO (financial_block ticker_row field_row) []
    (seq 0 ((length ticker_row - 1) / fields_per_ticker)).

(** [{field: clean_value(df.iloc[row_idx, col]) for field, col in ...}] *)
Definition financial_cells (df : sheet) (row_idx : nat)
    (field_cols : list (string * nat)) : outcome (list (string * cleaned)) :=
  foldO (λ values fc,
           try v <- iloc df row_idx fc.2;
           Return (dict_set fc.1 (clean_value v) values))
    [] field_cols.

(** [values.get(field)] *)
Definition value_of (values : list (string * cleaned)) (field : string) : cleaned :=
  default CNone (dict_get field values).

Definition is_none (v : cleaned) : bool :=
  match v with CNone => true | _ => false end.

Definition financial_values (df : sheet) (row_idx : nat)
    (period_end_date period_type : string)
    (ticker_to_id : gmap string nat) (t : list (nat * company_record))
    (item : string * list (string * nat))
  : outcome (gmap string nat * option financial_row) :=
  let '(ticker, field_cols) := item in
  match resolve_and_cache ticker_to_id t ticker with
  | (ticker_to_id', None) => Return (ticker_to_id', None)
  | (ticker_to_id', Some company_id) =>
      try values <- financial_cells df row_idx field_cols;
      Return (ticker_to_id',
        if forallb (λ kv, is_none kv.2) values then None
        else Some
          {| f_company_id := company_id;
             f_period_end_date := period_end_date;
             f_period_type := period_type;
             f_revenue := value_of values "revenue";
             f_ebitda := value_of values "ebitda";
             f_interest_expense := value_of values "interest_expense";
             f_free_cash_flow := value_of values "free_cash_flow";
             f_gross_profit := value_of values "gross_profit";
             f_total_debt := value_of values "total_debt";
             f_cost_of_goods_sold := value_of values "cost_of_goods_sold";
             f_currency := CNone |})
  end.

Definition insert_financial (r : financial_row) : M unit :=
  execute (λ db, set_financials
                   (insert_or_replace financial_key r (financials db)) db).

Definition financial_ticker_step (df : sheet) (row_idx : nat)
    (period_end_date period_type : string)
    (ticker_to_id : gmap string nat) (item : string * list (string * nat))
  : M (gmap string nat) :=
  do t <- companies_now;
  do (ticker_to_id', r) <-
    lift (financial_values df row_idx period_end_date period_type
            ticker_to_id t item);
  do _ <- match r with
          | None => ret tt
          | Some r => insert_financial r
          end;
  ret ticker_to_id'.

Definition financial_row_step (df : sheet) (period_type : string)
    (ticker_fields : list (string * list (string * nat)))
    (ticker_to_id : gmap string nat) (row_idx : nat) : M (gmap string nat) :=
  do date_val <- lift (iloc df row_idx 0);
  match parse_bloomberg_date date_val with
  | None => ret ticker_to_id
  | Some period_end_date =>
      for_each (financial_ticker_step df row_idx period_end_date period_type)
        ticker_to_id ticker_fields
  end.

Definition import_financials (fs : filesystem)
    (ticker_to_id : gmap string nat) (filename period_type : string)
  : M (gmap string nat) :=
  do df <- lift (read_excel fs filename);
  do ticker_row <- lift (iloc_row df 3);
  do field_row <- lift (iloc_row df 5);
  do ticker_fields <- lift (build_ticker_fields ticker_row field_row);
  do ticker_to_id' <-
    for_each (financial_row_step df period_type ticker_fields) ticker_to_id
      (seq 6 (nrows df - 6));
  do _ <- commit;
  ret ticker_to_id'.

(** ** [import_macro] *)

Definition macro_category (name_lower : string) : string :=
  if contains "gdp" name_lower then "GDP"
  else if contains "cpi" name_lower || contains "price" name_lower
          || contains "inflation" name_lower then "CPI"
  else if contains "unemploy" name_lower || contains "employ" name_lower
       then "Employment"
  else if contains "housing" name_lower || contains "construction" name_lower
       then "Housing"
  else if contains "rate" name_lower || contains "yield" name_lower then "Rates"
  else if contains "trade" name_lower || contains "export" name_lower
          || contains "import" name_lower then "Trade"
  else "Other".

Definition insert_macro (r : macro_row) : M unit :=
  execute (λ db, set_macro_indicators
                   (insert_or_ignore macro_key r (macro_indicators db)) db).

(** The body of the loop over the value columns of one indicator row. *)
Definition macro_cell_step (df : sheet) (date_map : gmap nat string)
    (country_id indicator_name : string) (bloomberg_ticker : option string)
    (category : string) (row_idx : nat) (_ : unit) (col : nat) : M unit :=
  match date_map !! col with
  | None => ret tt
  | Some indicator_date =>
      do v <- lift (iloc df row_idx col);
      match clean_value v with
      | CNone => ret tt
      | value =>
          insert_macro
            {| i_country_id := country_id; i_indicator_date := indicator_date;
               i_indicator_name := indicator_name;
               i_bloomberg_ticker := bloomberg_ticker;
               i_indicator_value := value; i_indicator_category := category |}
      end
  end.

Definition macro_row_step (df : sheet) (date_map : gmap nat string)
    (country_id : string) (_ : unit) (row_idx : nat) : M unit :=
  do name_cell <- lift (iloc df row_idx 0);
  do ticker_cell <- lift (iloc df row_idx 1);
  match label_of name_cell with
  | None => ret tt
  | Some indicator_name =>
      if bool_decide (indicator_name = "") || bool_decide (indicator_name = "nan")
      then ret tt
      else
        for_each
          (macro_cell_step df date_map country_id indicator_name
             (label_of ticker_cell) (macro_category (lower indicator_name)) row_idx)
          tt (seq 2 (ncols df - 2))
  end.

Definition import_macro (fs : filesystem) (filename country_id : string) : M unit :=
  do df <- lift (read_excel fs filename);
  do _ <- for_each (macro_row_step df (build_date_map (ncols df)) country_id)
            tt (seq 2 (nrows df - 2));
  commit.

(** ** [import_interest_rates] *)

Definition col_map : list (nat * (string * string * string)) :=
  [(1, ("US", "10Y_YIELD", "USGG10YR Index"));
   (2, ("GB", "10Y_YIELD", "GTGBP10Y Govt"));
   (3, ("DE", "10Y_YIELD", "GTDEM10Y Govt"));
   (4, ("JP", "10Y_YIELD", "GTJPY10Y Govt"));
   (5, ("CN", "10Y_YIELD", "GTCNY10Y Govt"));
   (6, ("US", "POLICY_RATE", "FDTR Index"));
   (7, ("GB", "POLICY_RATE", "UKBRBASE Index"));
   (8, ("DE", "POLICY_RATE", "EURR002W Index"));
   (9, ("JP", "POLICY_RATE", "BOJDTR Index"));
   (10, ("CN", "POLICY_RATE", "PBOC7P Index"))].

Definition insert_rate (r : rate_row) : M unit :=
  execute (λ db, set_interest_rates
                   (insert_or_ignore rate_key r (interest_rates db)) db).

Definition rate_cell_step (df : sheet) (rate_date : string) (row_idx : nat)
    (_ : unit) (entry : nat * (string * string * string)) : M unit :=
  let '(col, (country_id, rate_type, ticker)) := entry in
  if ncols df <=? col then ret tt
  else
    do v <- lift (iloc df row_idx col);
    match clean_value v with
    | CNone => ret tt
    | value =>
        insert_rate
          {| r_country_id := country_id; r_rate_date := rate_date;
             r_rate_type := rate_type; r_bloomberg_ticker := ticker;
             r_rate_value := value |}
    end.

Definition rate_row_step (df : sheet) (_ : unit) (row_idx : nat) : M unit :=
  do date_val <- lift (iloc df row_idx 0);
  match parse_bloomberg_date date_val with
  | None => ret tt
  | Some rate_date => for_each (rate_cell_step df rate_date row_idx) tt col_map
  end.

Definition import_interest_rates (fs : filesystem) : M unit :=
  do df <- lift (read_excel fs "5 countries 10y yield and policy rate.xlsx");
  do _ <- for_each (rate_row_step df) tt (seq 6 (nrows df - 6));
  commit.

(** ** [main] *)

(** Modelled from the spec: the schema initializer runs the static DDL
    script [schema.sql], which is not among the sources; it raises when the
    file cannot be opened, and otherwise creates the tables and leaves the
    rows of the database as they are ([executescript] commits). *)
Definition create_database (fs : filesystem) : M unit :=
  match fs !! "schema.sql" with
  | Some _ => commit
  | None => raise (FileNotFoundError "schema.sql")
  end.

(** [Path(name).exists()] *)
Definition file_exists (fs : filesystem) (name : string) : bool :=
  bool_decide (is_Some (fs !! name)).

Definition macro_files : list (string * string) :=
  [("usa_macros_2024~2005.xlsx", "US"); ("uk_macros_2024~2005.xlsx", "GB");
   ("de_macros_2024~2005.xlsx", "DE"); ("jp_macros_2024~2005.xlsx", "JP");
   ("cn_macros_2024~2005.xlsx", "CN")].

(** The body of the [try] block, the printed summary apart. *)
Definition run_imports (fs : filesystem) : M unit :=
  do _ <- create_database fs;
  do ticker_to_id <- import_companies fs;
  do _ <- import_index_membership fs ticker_to_id;
  do ticker_to_id <- import_prices_weekly fs ticker_to_id;
  do ticker_to_id <- import_financials fs ticker_to_id "financials_annual.xlsx" "ANNUAL";
  do ticker_to_id <-
    (if file_exists fs "financials_quarterly.xlsx"
     then import_financials fs ticker_to_id "financials_quarterly.xlsx" "QUARTERLY"
     else ret ticker_to_id);
  do _ <- for_each (λ _ fc, if file_exists fs fc.1 then import_macro fs fc.1 fc.2
                            else ret tt) tt macro_files;
  import_interest_rates fs.

(** What one run of the script leaves: the exception its [except] clause
    caught and printed, if any, and the database file after
    [conn.close()].  [main] itself never raises. *)
Definition main (fs : filesystem) (db : database) : option exn * database :=
  match run_imports fs (connect db) with
  | (Return _, c) => (None, disk c)
  | (Raise e, c) => (Some e, disk c)
  end.

(** ** What a run that fails leaves *)

(** The importers of [main] in the order it calls them, each from the
    [ticker_to_id] dictionary it is given to the one the next importer is
    given: the quarterly financials and the five macro files are imported
    only when the file exists. *)
Definition stages (fs : filesystem)
  : list (gmap string nat → M (gmap string nat)) :=
  [ (λ _, import_companies fs);
    (λ d, do _ <- import_index_membership fs d; ret d);
    (λ d, import_prices_weekly fs d);
    (λ d, import_financials fs d "financials_annual.xlsx" "ANNUAL");
    (λ d, if file_exists fs "financials_quarterly.xlsx"
          then import_financials fs d "financials_quarterly.xlsx" "QUARTERLY"
          else ret d) ]
  ++ ((λ fc d, do _ <- (if file_exists fs fc.1 then import_macro fs fc.1 fc.2
                        else ret tt);
               ret d) <$> macro_files)
  ++ [ (λ d, do _ <- import_interest_rates fs; ret d) ].

(** The importers [sts] called one after the other. *)
Definition run_stages (sts : list (gmap string nat → M (gmap string nat)))
    (d : gmap string nat) : M (gmap string nat) :=
  for_each (λ d st, st d) d sts.

(** [keeps db db']: the database [db'] holds every row of [db]; of the
    financials table, where [INSERT OR REPLACE] deletes the row of a key it
    inserts, it holds every key. *)
Definition keeps (db db' : database) : Prop :=
  companies db ⊆ companies db' ∧
  index_membership db ⊆ index_membership db' ∧
  prices_weekly db ⊆ prices_weekly db' ∧
  financial_key <$> financials db ⊆ financial_key <$> financials db' ∧
  macro_indicators db ⊆ macro_indicators db' ∧
  interest_rates db ⊆ interest_rates db'.

(** A statement that only adds: from a connection whose transaction holds
    what the file holds, the file and the transaction keep what they held,
    whether the statement returns or raises. *)
Definition grows {A} (m : M A) : Prop :=
  ∀ c o c', m c = (o, c') → keeps (disk c) (cur c) →
    keeps (disk c) (disk c') ∧ keeps (cur c) (cur c') ∧ keeps (disk c') (cur c').

End Importers.

(** * [combine_memb.py]: the snapshot consolidator *)

Section Consolidator.
Context {PN : PyNumber}.

Definition endswith (suffix s : string) : bool :=
  String.prefix (String.rev suffix) (String.rev s).

(** [fnmatch] of a name against [<index> as of*.xlsx] *)
Definition glob_match (index name : string) : bool :=
  startswith (index +:+ " as of") name && endswith ".xlsx" name &&
  (String.length (index +:+ " as of") + String.length ".xlsx" <=? String.length name).

(** [files]: the names both patterns match, sorted, temporary files of
    Excel left out. *)
Definition membership_files (fs : filesystem) : list string :=
  filter (λ name, negb (startswith "~$" name))
    (merge_sort String.le
       (filter (λ name, glob_match "SPX" name) (map_to_list fs).*1 ++
        filter (λ name, glob_match "UKX" name) (map_to_list fs).*1)).

(** A match of [20\d{2}] at the start of [s] *)
Definition year_at (s : string) : option nat :=
  match s with
  | String "2" (String "0" (String a (String b _))) =>
      match digit_val a, digit_val b with
      | Some x, Some y => Some (2000 + 10 * x + y)
      | _, _ => None
      end
  | _ => None
  end.

(** [re.search(r"(20\d{2})", name)] and [int(m.group(1))] *)
Fixpoint search_year (name : string) : option nat :=
  match year_at name with
  | Some y => Some y
  | None =>
      match name with
      | EmptyString => None
      | String _ name' => search_year name'
      end
  end.

Definition kept_labels : list string := ["Ticker"; "Name"; "Weight"; "Shares"; "Price"].

(** [pd.read_excel(f, engine="openpyxl")] *)
Definition read_excel_table (fs : filesystem) (name : string) : outcome frame :=
  match fs !! name with
  | Some (ExcelTable f) => Return f
  | Some _ => Raise (ValueError "not a workbook")
  | None => Raise (FileNotFoundError name)
  end.

(** The positions, counted from [i], of the columns that bear [label]. *)
Fixpoint occurrences_from (i : nat) (labels : list cell) (label : string) : list nat :=
  match labels with
  | [] => []
  | c :: labels' =>
      if bool_decide (c = Text label)
      then i :: occurrences_from (S i) labels' label
      else occurrences_from (S i) labels' label
  end.

Definition occurrences (labels : list cell) (label : string) : list nat :=
  occurrences_from 0 labels label.

(** A label two columns bear once the labels are stripped ([Weight] and
    [Weight ]: pandas renames a header that repeats as it stands, not one
    that repeats after line 33). *)
Definition repeated (labels : list cell) (label : string) : bool :=
  bool_decide (1 < length (occurrences labels label)).

(** [df[keep]]: for each kept label, every column that bears it. *)
Definition selected_columns (labels : list cell) (keep : list string)
  : list (string * nat) :=
  keep ≫= (λ label, (λ i, (label, i)) <$> occurrences labels label).

(** One row of the frame appended for a file: the selected columns of
    [row], ticker and name as stripped strings, behind the two inserted
    columns. *)
Definition snapshot_row (index_id as_of_date : string)
    (selected : list (string * nat)) (row : list cell) : list cell :=
  Text index_id :: Text as_of_date ::
  ((λ li : string * nat,
      let v := nth li.2 row Missing in
      if bool_decide (li.1 = "Ticker") || bool_decide (li.1 = "Name")
      then Text (strip (str v)) else v) <$> selected).

(** The body of the loop over [files]: the frame appended to [rows].  When
    two columns are labelled [Ticker] (or [Name]) after line 33,
    [df["Ticker"]] is a frame and not a series, and the run ends in an
    exception of pandas no later than line 44 (line 47), where a frame has
    no [.str]. *)
Definition snapshot_of_file (fs : filesystem) (name : string) : outcome frame :=
  let index_id := take_chars 3 name in
  match search_year name with
  | None => Raise (ValueError ("Cannot find year in filename: " +:+ name))
  | Some year =>
      let as_of_date := str_nat year +:+ "-12-31" in
      try df <- read_excel_table fs name;
      let labels := (λ c, Text (strip (str c))) <$> columns df in
      let keep := filter (λ c, bool_decide (Text c ∈ labels)) kept_labels in
      if negb (bool_decide ("Ticker" ∈ keep))
      then Raise (ValueError (name +:+ ": missing 'Ticker' column"))
      else if repeated labels "Ticker" || repeated labels "Name"
      then Raise AttributeError
      else
        let selected := selected_columns labels keep in
        Return
          {| columns :=
               Text "index_id" :: Text "as_of_date" :: ((λ li, Text li.1) <$> selected);
             rows :=
               snapshot_row index_id as_of_date selected <$>
               filter (λ row, notna (row_get labels row "Ticker")) (rows df) |}
  end.

Fixpoint snapshots (fs : filesystem) (files : list string) : outcome (list frame) :=
  match files with
  | [] => Return []
  | f :: files' =>
      try df <- snapshot_of_file fs f;
      try dfs <- snapshots fs files';
      Return (df :: dfs)
  end.

(** The labels of [pd.concat]: those of the frames, in order of first
    appearance. *)
Definition concat_labels (dfs : list frame) : list cell :=
  foldl (λ acc c, if bool_decide (c ∈ acc) then acc else acc ++ [c])
    [] (dfs ≫= columns).

(** [pd.concat(rows, ignore_index=True)].  Frames without a repeated
    label are reindexed to the labels of the result: a column a frame lacks
    is filled with missing values.  When a frame has a repeated label, the
    frames are appended as they are if all have the labels of the first;
    otherwise one of them must be reindexed, which pandas refuses for a
    frame with a repeated label. *)
Definition concat (dfs : list frame) : outcome frame :=
  match dfs with
  | [] => Raise (ValueError "No objects to concatenate")
  | df0 :: _ =>
      if bool_decide (Forall (λ df, NoDup (columns df)) dfs) then
        let labels := concat_labels dfs in
        Return
          {| columns := labels;
             rows := dfs ≫= (λ df,
               (λ row, (λ c, match index_of c (columns df) with
                             | Some i => nth i row Missing
                             | None => Missing
                             end) <$> labels) <$> rows df) |}
      else if bool_decide (Forall (λ df, columns df = columns df0) dfs) then
        Return {| columns := columns df0; rows := dfs ≫= rows |}
      else Raise InvalidIndexError
  end.

Definition snapshot_key (labels row : list cell) : cell * cell * cell :=
  (row_get labels row "index_id", row_get labels row "as_of_date",
   row_get labels row "Ticker").

(** [out.drop_duplicates(subset=["index_id", "as_of_date", "Ticker"])]: the
    first row of each key stays. *)
Definition drop_duplicates (df : frame) : frame :=
  {| columns := columns df;
     rows := foldl (λ acc row,
                      insert_or_ignore (snapshot_key (columns df)) row acc)
               [] (rows df) |}.

(** The table the script builds. *)
Definition combined (fs : filesystem) : outcome frame :=
  try dfs <- snapshots fs (membership_files fs);
  try out <- concat dfs;
  Return (drop_duplicates out).

(** The script: the files after it, or the exception that ends it. *)
Definition combine_memb (fs : filesystem) : outcome filesystem :=
  try out <- combined fs;
  Return (<["index_membership_snapshot.csv" := CsvFile out]> fs).

(** The labels of an export after line 33. *)
Definition stripped_labels (f : frame) : list cell :=
  (λ c, Text (strip (str c))) <$> columns f.

(** An export in which no label the script keeps is borne by two
    columns. *)
Definition plain_export (f : frame) : Prop :=
  ∀ label, label ∈ kept_labels → repeated (stripped_labels f) label = false.

(** The row [row], read through the labels [cols], is made of the row
    [src] of the export [f] named [name]: [src] has a ticker; the index and
    the date are those of the name; ticker and name are the stripped
    strings of the cells of [src]; weight, shares and price are its cells,
    missing when the export has no such column. *)
Definition consolidated_from (name : string) (year : nat) (f : frame)
    (src cols row : list cell) : Prop :=
  let labels := stripped_labels f in
  notna (row_get labels src "Ticker") = true ∧
  row_get cols row "index_id" = Text (take_chars 3 name) ∧
  row_get cols row "as_of_date" = Text (str_nat year +:+ "-12-31") ∧
  row_get cols row "Ticker" = Text (strip (str (row_get labels src "Ticker"))) ∧
  row_get cols row "Name" =
    (if bool_decide (Text "Name" ∈ labels)
     then Text (strip (str (row_get labels src "Name"))) else Missing) ∧
  ∀ label, label ∈ ["Weight"; "Shares"; "Price"] →
    row_get cols row label = row_get labels src label.


End Consolidator.

(** * [fix_dates.py] *)

Section FixDates.
Context {PN : PyNumber}.

(** The loop of the ANNUAL branch over the rows still to visit;
    [year > 2024] breaks out of it. *)
Fixpoint annual_loop (todo : list nat) (ws : gmap (nat * nat) cell)
  : gmap (nat * nat) cell :=
  match todo with
  | [] => ws
  | row :: todo' =>
      let year := 2005 + (row - 7) in
      if 2024 <? year then ws
      else annual_loop todo' (<[(row, 1) := Stamp (mkdate year 12 31)]> ws)
  end.

Definition quarters : list (nat * nat) := [(3, 31); (6, 30); (9, 30); (12, 31)].

Fixpoint quarterly_loop (todo : list nat) (ws : gmap (nat * nat) cell)
  : gmap (nat * nat) cell :=
  match todo with
  | [] => ws
  | row :: todo' =>
      let quarter_idx := row - 7 in
      let year := 2005 + quarter_idx / 4 in
      let q := quarter_idx mod 4 in
      if 2024 <? year then ws
      else
        let '(month, day) := nth q quarters (0, 0) in
        quarterly_loop todo' (<[(row, 1) := Stamp (mkdate year month day)]> ws)
  end.

(** What [fix_date_column] does to the active sheet between
    [load_workbook] and [save]. *)
Definition fix_sheet (period_type : string) (ws : gmap (nat * nat) cell)
  : gmap (nat * nat) cell :=
  if bool_decide (period_type = "ANNUAL") then annual_loop (seq 7 21) ws
  else if bool_decide (period_type = "QUARTERLY") then quarterly_loop (seq 7 81) ws
  else ws.

Definition load_workbook (fs : filesystem) (filename : string)
  : outcome (gmap (nat * nat) cell) :=
  match fs !! filename with
  | Some (Workbook ws) => Return ws
  | Some _ => Raise (ValueError "not a workbook")
  | None => Raise (FileNotFoundError filename)
  end.

Definition fix_date_column (fs : filesystem) (filename period_type : string)
  : outcome filesystem :=
  try ws <- load_workbook fs filename;
  Return (<[filename := Workbook (fix_sheet period_type ws)]> fs).

Definition fix_files : list (string * string) :=
  [("financials_annual.xlsx", "ANNUAL"); ("financials_quarterly.xlsx", "QUARTERLY");
   ("financials_fiscal_annual.xlsx", "ANNUAL");
   ("financials_fiscal_quarterly.xlsx", "QUARTERLY")].

(** The driver: an exception of one file is printed and the loop goes on.
    The result is the files after the run and the exceptions printed. *)
Definition fix_dates_main (fs : filesystem) : filesystem * list exn :=
  foldl (λ st fp,
           match fix_date_column st.1 fp.1 fp.2 with
           | Return fs' => (fs', st.2)
           | Raise e => (st.1, st.2 ++ [e])
           end)
    (fs, []) fix_files.

(** The quarter ends of the years 2005 to 2024, in order. *)
Definition quarter_ends : list date :=
  seq 2005 20 ≫= (λ y, [mkdate y 3 31; mkdate y 6 30; mkdate y 9 30; mkdate y 12 31]).

Definition year_ends : list date := (λ y, mkdate y 12 31) <$> seq 2005 20.

(** The date the QUARTERLY branch writes for the quarter of index [i]. *)
Definition quarter_date (i : nat) : date :=
  let '(month, day) := nth (i mod 4) quarters (0, 0) in
  mkdate (2005 + i / 4) month day.

End FixDates.

(** * Predicates on the financials sheet *)

Section FinancialCells.
Context {PN : PyNumber}.

(** The column [col] of the block at [base_col] bears a label that
    [field_map] maps to [name]. *)
Definition mapped_field (field_row : list cell) (base_col : nat)
    (name : string) (col : nat) : Prop :=
  base_col ≤ col < base_col + fields_per_ticker ∧ col < length field_row ∧
  ∃ v field, field_row !! col = Some v ∧ label_of v = Some field ∧
             dict_get field field_map = Some name.

(** What the header loop of [import_financials] stores for a ticker: the
    ticker stands at the head of a block of seven columns inside the ticker
    row, and every field is stored with a column of that block whose label
    [field_map] maps to it, each field once. *)
Definition header_entry (ticker_row field_row : list cell) (ticker : string)
    (field_cols : list (string * nat)) : Prop :=
  ∃ t_idx v,
    1 + t_idx * fields_per_ticker + fields_per_ticker ≤ length ticker_row ∧
    ticker_row !! (1 + t_idx * fields_per_ticker) = Some v ∧
    label_of v = Some ticker ∧ ticker ≠ "" ∧ ticker ≠ "#N/A Requesting Data..." ∧
    Forall (λ nc, mapped_field field_row (1 + t_idx * fields_per_ticker) nc.1 nc.2)
      field_cols ∧
    NoDup field_cols.*1.

(** The cleaned cell of the column stored for the field [name], [None] when
    no column is stored for it: what [values.get(name)] is. *)
Definition measure_cell (df : sheet) (row_idx : nat)
    (field_cols : list (string * nat)) (name : string) : cleaned :=
  match dict_get name field_cols with
  | Some col => clean_value (at_ df row_idx col)
  | None => CNone
  end.

End FinancialCells.

(** * [make_ticker_list.py] *)

Section TickerList.
Context {PN : PyNumber}.

(** [df[label]]: the cells of one column, [KeyError] when the frame has no
    such label. *)
Definition column (df : frame) (label : string) : outcome (list cell) :=
  match index_of (Text label) (columns df) with
  | Some i => Return ((λ row, nth i row Missing) <$> rows df)
  | None => Raise (KeyError label)
  end.

(** [series.drop_duplicates()]: the first occurrence of each value stays. *)
Definition unique_values (l : list string) : list string :=
  foldl (λ acc t, insert_or_ignore (λ x, x) t acc) [] l.

(** [tickers]: the cells of the ticker column that are not missing, as
    stripped strings, each once, sorted. *)
Definition ticker_list (df : frame) : outcome (list string) :=
  let ticker_col :=
    if bool_decide (Text "Ticker" ∈ columns df) then "Ticker" else "ticker" in
  try cells <- column df ticker_col;
  Return (merge_sort String.le
            (unique_values ((λ c, strip (str c)) <$> filter (λ c, notna c) cells))).

(** The script: the files after it, or the exception that ends it.  The
    file written is the table [to_csv] is given, one column under the
    header [ticker]. *)
Definition make_ticker_list (fs : filesystem) : outcome filesystem :=
  try df <- read_csv fs "index_membership_snapshot.csv";
  try tickers <- ticker_list df;
  Return (<["tickers_unique.csv" :=
              CsvFile {| columns := [Text "ticker"];
                         rows := (λ t, [Text t]) <$> tickers |}]> fs).

End TickerList.

(** * The imports of [main] *)

Section RunOfImports.
Context {PN : PyNumber} {SC : Schema}.

(** The imports of [main], in its order: what its [try] block runs once
    [create_database] has returned. *)
Definition load_all (fs : filesystem) : M unit :=
  do ticker_to_id <- import_companies fs;
  do _ <- import_index_membership fs ticker_to_id;
  do ticker_to_id <- import_prices_weekly fs ticker_to_id;
  do ticker_to_id <- import_financials fs ticker_to_id "financials_annual.xlsx" "ANNUAL";
  do ticker_to_id <-
    (if file_exists fs "financials_quarterly.xlsx"
     then import_financials fs ticker_to_id "financials_quarterly.xlsx" "QUARTERLY"
     else ret ticker_to_id);
  do _ <- for_each (λ _ fc, if file_exists fs fc.1 then import_macro fs fc.1 fc.2
                            else ret tt) tt macro_files;
  import_interest_rates fs.

(** The two imports into the financials table, and the loop of imports
    into the macro table, each as one statement. *)
Definition load_financials (fs : filesystem) (ticker_to_id : gmap string nat)
  : M (gmap string nat) :=
  do ticker_to_id <- import_financials fs ticker_to_id "financials_annual.xlsx" "ANNUAL";
  if file_exists fs "financials_quarterly.xlsx"
  then import_financials fs ticker_to_id "financials_quarterly.xlsx" "QUARTERLY"
  else ret ticker_to_id.

Definition load_macro (fs : filesystem) : M unit :=
  for_each (λ _ fc, if file_exists fs fc.1 then import_macro fs fc.1 fc.2
                    else ret tt) tt macro_files.

End RunOfImports.

(** * Sample inputs

    One implementation of the number interface, over the integers, and one
    choice of keys for the schema: the closed instances below are stated on
    them. *)

Fixpoint nat_of_digits (acc : nat) (s : string) : option nat :=
  match s with
  | EmptyString => Some acc
  | String c s' =>
      match digit_val c with
      | Some x => nat_of_digits (10 * acc + x) s'
      | None => None
      end
  end.

Definition int_of_string (s : string) : option Z :=
  match s with
  | EmptyString => None
  | String "-" (String c s') => Z.opp <$> (Z.of_nat <$> nat_of_digits 0 (String c s'))
  | _ => Z.of_nat <$> nat_of_digits 0 s
  end.

#[global] Instance integer_numbers : PyNumber :=
  {| number := Z;
     num_isnan := λ _, false;
     num_str := str_int;
     float_of_string := int_of_string |}.

#[global] Instance natural_keys : @Schema integer_numbers :=
  {| price_key := λ r, (p_company_id r, p_price_date r);
     macro_key := λ r, (i_country_id r, i_indicator_date r, i_indicator_name r);
     rate_key := λ r, (r_country_id r, r_rate_date r, r_rate_type r) |}.

Definition sample_workbook : gmap (nat * nat) (@cell integer_numbers) :=
  {[ (6, 1) := Text "Dates"; (7, 1) := Text "2005"; (7, 2) := Num 10%Z;
     (27, 1) := Text "total" ]}.

Definition sample_company_master : @frame integer_numbers :=
  {| columns := [Text "Ticker"; Text "NAME"; Text "COUNTRY"; Text "CRNCY";
                 Text "CUR_MKT_CAP"];
     rows := [[Text "AAPL US Equity"; Text "Apple Inc"; Text "US"; Text "USD";
               Text "3,000"];
              [Missing; Missing; Missing; Missing; Missing];
              [Text "#N/A"; Missing; Missing; Missing; Missing];
              [Text " VOD LN Equity "; Text "Vodafone"; Text "GB"; Text "GBp";
               Text "#N/A"]] |}.

Definition sample_records : list (@company_record integer_numbers) :=
  [{| c_ticker := "AAPL US Equity"; c_company_name := Text "Apple Inc";
      c_country_id := Some "US"; c_currency := Text "USD";
      c_gics_sector_name := CNone; c_gics_industry_group_name := CNone;
      c_gics_industry_name := CNone; c_gics_sub_industry_name := CNone;
      c_current_market_cap := CFloat 3000%Z; c_is_active := true |};
   {| c_ticker := "VOD LN Equity"; c_company_name := Text "Vodafone";
      c_country_id := Some "GB"; c_currency := Text "GBp";
      c_gics_sector_name := CNone; c_gics_industry_group_name := CNone;
      c_gics_industry_name := CNone; c_gics_sub_industry_name := CNone;
      c_current_market_cap := CNone; c_is_active := true |}].

Definition sample_company_files : gmap string (@file integer_numbers) :=
  {[ "company_master.csv" := CsvFile sample_company_master ]}.

(** A database with the two sample companies, and a snapshot row for a
    ticker it does not hold. *)
Definition sample_database : @database integer_numbers :=
  set_companies [(1, {| c_ticker := "AAPL US Equity"; c_company_name := Text "Apple Inc";
      c_country_id := Some "US"; c_currency := Text "USD";
      c_gics_sector_name := CNone; c_gics_industry_group_name := CNone;
      c_gics_industry_name := CNone; c_gics_sub_industry_name := CNone;
      c_current_market_cap := CFloat 3000%Z; c_is_active := true |})]
    empty_database.

Definition sample_snapshot_labels : list (@cell integer_numbers) :=
  [Text "index_id"; Text "as_of_date"; Text "Ticker"; Text "Weight";
   Text "Shares"; Text "Price"].

Definition sample_unknown_row : list (@cell integer_numbers) :=
  [Text "SPX"; Text "2024-12-31"; Text "ZZZZ US Equity"; Num 1%Z; Num 2%Z; Num 3%Z].

Definition sample_rates_sheet : @sheet integer_numbers :=
  sheet_of_rows 2 [[Text "header"; Missing]; [Text "31/31/2024"; Num 4%Z]].

(** Two exports, the first with a ticker that repeats, and a file the
    patterns do not match. *)
Definition sample_exports : gmap string (@file integer_numbers) :=
  {[ "SPX as of Dec 31 20051.xlsx" :=
       ExcelTable {| columns := [Text " Ticker"; Text "Weight "; Text "Other"];
                     rows := [[Text "AAPL US Equity "; Num 5%Z; Num 0%Z];
                              [Missing; Num 1%Z; Num 0%Z];
                              [Text "AAPL US Equity"; Num 6%Z; Num 0%Z]] |};
     "UKX as of Dec 31 2006.xlsx" :=
       ExcelTable {| columns := [Text "Ticker"; Text "Name"];
                     rows := [[Text "VOD LN Equity"; Text " Vodafone "]] |};
     "notes.txt" := TextFile "2007" ]}.

(** An export two columns of which bear the label [Weight] once the
    labels are stripped. *)
Definition sample_repeated_export : gmap string (@file integer_numbers) :=
  {[ "SPX as of Dec 31 2005.xlsx" :=
       ExcelTable {| columns := [Text "Ticker"; Text "Weight"; Text "Weight "];
                     rows := [[Text "AAPL US Equity"; Num 5%Z; Num 6%Z]] |} ]}.

(** A working directory with the schema and the company master, and no
    membership snapshot. *)
Definition sample_partial_files : gmap string (@file integer_numbers) :=
  {[ "schema.sql" := TextFile "CREATE TABLE companies (...)";
     "company_master.csv" := CsvFile sample_company_master ]}.

(** A working directory with the quarterly workbook only. *)
Definition sample_fix_files : gmap string (@file integer_numbers) :=
  {[ "financials_quarterly.xlsx" := Workbook sample_workbook ]}.

(** A snapshot with a row that repeats, a row in another date format and a
    row for a ticker the company master does not have. *)
Definition sample_snapshot : @frame integer_numbers :=
  {| columns := sample_snapshot_labels;
     rows := [[Text "SPX"; Text "2024-12-31"; Text "AAPL US Equity"; Num 7%Z;
               Text "15,000"; Text "--"];
              [Text "SPX"; Text "12/31/2024"; Text "AAPL US Equity "; Num 8%Z;
               Missing; Missing];
              sample_unknown_row;
              [Text "UKX"; Text "2024-12-31"; Text "VOD LN Equity"; Text "N/A";
               Missing; Num 70%Z]] |}.

Definition sample_import_files : gmap string (@file integer_numbers) :=
  {[ "company_master.csv" := CsvFile sample_company_master;
     "index_membership_snapshot.csv" := CsvFile sample_snapshot ]}.

(** The connection after the company and membership imports of the
    sample files, from an empty database. *)
Definition sample_loaded : @connection integer_numbers :=
  (import_index_membership sample_import_files (enumerate_ids sample_records)
     (import_companies sample_import_files (connect empty_database)).2).2.

(** A price sheet: the ticker row, the field row and two data rows, the
    second with a close price that is a sentinel. *)
Definition sample_price_sheet : @sheet integer_numbers :=
  sheet_of_rows 3
    [[Text "Start Date"; Missing; Missing];
     [Text "End Date"; Missing; Missing];
     [Missing; Missing; Missing];
     [Missing; Text "AAPL US Equity"; Missing];
     [Text "Dates"; Text "Last Price"; Text "Total Return"];
     [Missing; Missing; Missing];
     [Text "2024-01-05"; Num 185%Z; Num 200%Z];
     [Text "2024-01-12"; Text "#N/A"; Num 201%Z]].

(** A financials sheet with one block of seven columns and one data
    row. *)
Definition sample_financial_sheet : @sheet integer_numbers :=
  sheet_of_rows 8
    [[Text "Start Date"]; [Text "End Date"]; [];
     [Missing; Text "AAPL US Equity"];
     [];
     [Text "Dates"; Text "SALES_REV_TURN"; Text "EBITDA"; Text "IS_INT_EXPENSE";
      Text "CF_FREE_CASH_FLOW"; Text "GROSS_PROFIT"; Text "SHORT_AND_LONG_TERM_DEBT";
      Text "ARD_COST_OF_GOODS_SOLD"];
     [Text "2023-12-31"; Num 100%Z; Num 30%Z; Missing; Text "#N/A"; Num 40%Z;
      Num 7%Z; Num 60%Z]].

(** A macro sheet with one indicator and two months. *)
Definition sample_macro_sheet : @sheet integer_numbers :=
  sheet_of_rows 4
    [[Missing; Missing; Text "Dec 2024"; Text "Nov 2024"];
     [Missing; Missing; Missing; Missing];
     [Text "GDP YoY"; Text "GDP CYOY Index"; Num 3%Z; Num 2%Z]].

(** A rates sheet with two data rows. *)
Definition sample_rates_table : @sheet integer_numbers :=
  sheet_of_rows 3
    [[]; []; []; []; []; [];
     [Text "2024-01-05"; Num 4%Z; Missing];
     [Text "2024-01-12"; Num 5%Z; Num 3%Z]].

(** A working directory with every file the importers of [main] need,
    and the macro file of one country. *)
Definition sample_run_files : gmap string (@file integer_numbers) :=
  {[ "company_master.csv" := CsvFile sample_company_master;
     "index_membership_snapshot.csv" := CsvFile sample_snapshot;
     "price_weekly.xlsx.xlsx" := ExcelSheet sample_price_sheet;
     "financials_annual.xlsx" := ExcelSheet sample_financial_sheet;
     "usa_macros_2024~2005.xlsx" := ExcelSheet sample_macro_sheet;
     "5 countries 10y yield and policy rate.xlsx" := ExcelSheet sample_rates_table ]}.

(** The connection after the imports of [main] on these files, from an
    empty database. *)
Definition sample_run : @connection integer_numbers :=
  (load_all sample_run_files (connect empty_database)).2.

(** A dictionary that knows one ticker, and the connections after each
    importer has run on the sample files, from the sample database. *)
Definition sample_dict : gmap string nat := {[ "AAPL US Equity" := 1 ]}.

Definition sample_membership_run : @connection integer_numbers :=
  (import_index_membership sample_run_files sample_dict (connect sample_database)).2.

Definition sample_prices_run : @connection integer_numbers :=
  (import_prices_weekly sample_run_files sample_dict (connect sample_database)).2.

Definition sample_financials_run : @connection integer_numbers :=
  (import_financials sample_run_files sample_dict "financials_annual.xlsx" "ANNUAL"
     (connect sample_database)).2.

Definition sample_macro_run : @connection integer_numbers :=
  (import_macro sample_run_files "usa_macros_2024~2005.xlsx" "US"
     (connect sample_database)).2.

Definition sample_rates_run : @connection integer_numbers :=
  (import_interest_rates sample_run_files (connect sample_database)).2.

(** A company master in which the first ticker comes again. *)
Definition sample_apple : @company_record integer_numbers :=
  {| c_ticker := "AAPL US Equity"; c_company_name := Text "Apple Inc";
     c_country_id := Some "US"; c_currency := Text "USD";
     c_gics_sector_name := CNone; c_gics_industry_group_name := CNone;
     c_gics_industry_name := CNone; c_gics_sub_industry_name := CNone;
     c_current_market_cap := CFloat 3000%Z; c_is_active := true |}.

Definition sample_vodafone : @company_record integer_numbers :=
  {| c_ticker := "VOD LN Equity"; c_company_name := Text "Vodafone";
     c_country_id := Some "GB"; c_currency := Text "GBp";
     c_gics_sector_name := CNone; c_gics_industry_group_name := CNone;
     c_gics_industry_name := CNone; c_gics_sub_industry_name := CNone;
     c_current_market_cap := CNone; c_is_active := true |}.

Definition sample_repeated_master : @frame integer_numbers :=
  {| columns := columns sample_company_master;
     rows := [[Text "AAPL US Equity"; Text "Apple Inc"; Text "US"; Text "USD";
               Text "3,000"];
              [Text " VOD LN Equity "; Text "Vodafone"; Text "GB"; Text "GBp";
               Text "#N/A"];
              [Text "AAPL US Equity"; Text "Apple Inc"; Text "US"; Text "USD";
               Text "3,000"]] |}.

Definition sample_repeated_files : gmap string (@file integer_numbers) :=
  {[ "company_master.csv" := CsvFile sample_repeated_master ]}.

(** The table the consolidator makes of the sample exports, and the
    directory with that table written. *)
Definition sample_combined : @frame integer_numbers :=
  {| columns := [Text "index_id"; Text "as_of_date"; Text "Ticker";
                 Text "Weight"; Text "Name"];
     rows := [[Text "SPX"; Text "2005-12-31"; Text "AAPL US Equity";
               Num 5%Z; Missing];
              [Text "UKX"; Text "2006-12-31"; Text "VOD LN Equity";
               Missing; Text "Vodafone"]] |}.

Definition sample_combined_files : gmap string (@file integer_numbers) :=
  <["index_membership_snapshot.csv" := CsvFile sample_combined]> sample_exports.

(** The sample workbooks after [fix_date_column] on the quarterly one. *)
Definition sample_fixed_files : gmap string (@file integer_numbers) :=
  <["financials_quarterly.xlsx" := Workbook (fix_sheet "QUARTERLY" sample_workbook)]>
    sample_fix_files.

(** * Verification *)

(** Membership in a list of constants, decided by evaluation. *)
Ltac not_elem_tac :=
  let H := fresh in
  intros H; apply (bool_decide_pack _) in H; vm_compute in H; destruct H.

Ltac elem_tac := apply (bool_decide_unpack _); vm_compute; exact I.
(** ** [clean_value] *)

Section CleanValue.
Context {PN : PyNumber}.

Lemma clean_value_none_iff (val : cell) :
  clean_value val = CNone ↔ isna val = true ∨ strip (str val) ∈ sentinels.
Proof.
  unfold clean_value. destruct (isna val) eqn:Hna.
  - split; auto.
  - case_bool_decide as Hs.
    + split; auto.
    + destruct (float_of_string _); split; try discriminate;
        intros [?|?]; done.
Qed.

(** C4.  [clean_value] returns [None] exactly for a missing value and for a
    value whose stripped string is one of the five sentinels; every other
    value comes back as the float its string reads as once the commas are
    removed, or, when it does not read as a number, as the stripped string
    itself (commas kept). *)
Theorem clean_value_spec (val : cell) :
  (clean_value val = CNone ↔
     isna val = true ∨
     strip (str val) ∈ ["#N/A"; "--"; "#N/A Requesting Data..."; "N/A"; ""]) ∧
  (∀ x, isna val = false →
        strip (str val) ∉ ["#N/A"; "--"; "#N/A Requesting Data..."; "N/A"; ""] →
        float_of_string (remove_char "," (strip (str val))) = Some x →
        clean_value val = CFloat x) ∧
  (isna val = false →
   strip (str val) ∉ ["#N/A"; "--"; "#N/A Requesting Data..."; "N/A"; ""] →
   float_of_string (remove_char "," (strip (str val))) = None →
   clean_value val = CStr (strip (str val))).
Proof.
  split; [apply clean_value_none_iff|].
  split.
  - intros x Hna Hs Hf. unfold clean_value. rewrite Hna.
    rewrite bool_decide_eq_false_2 by exact Hs. by rewrite Hf.
  - intros Hna Hs Hf. unfold clean_value. rewrite Hna.
    rewrite bool_decide_eq_false_2 by exact Hs. by rewrite Hf.
Qed.

End CleanValue.

Lemma clean_value_spec_witness :
  clean_value (Text " 1,234 ") = CFloat 1234%Z ∧
  clean_value (Text "n/a ") = CStr "n/a" ∧
  clean_value (Text " N/A") = CNone.
Proof.
  split; [|split].
  - apply (proj1 (proj2 (@clean_value_spec integer_numbers (Text " 1,234 ")))).
    + reflexivity.
    + not_elem_tac.
    + reflexivity.
  - apply (proj2 (proj2 (@clean_value_spec integer_numbers (Text "n/a ")))).
    + reflexivity.
    + not_elem_tac.
    + reflexivity.
  - apply (proj1 (@clean_value_spec integer_numbers (Text " N/A"))).
    right. elem_tac.
Defined.
(** ** [import_macro]: the reconstructed dates *)

Section MacroDates.



Lemma macro_date_closed (k : nat) :
  macro_date k =
  str_int (2024 - Z.of_nat (k / 12)) +:+ "-" +:+
  fmt_02d (12 - Z.of_nat (k mod 12)) +:+ "-01".
Proof.
  unfold macro_date.
  pose proof (Nat.mod_upper_bound k 12 ltac:(lia)).
  destruct (Z.leb_spec (12 - Z.of_nat (k mod 12)) 0); [lia|]. reflexivity.
Qed.


Lemma fmt_02d_pad2 (m : nat) :
  1 ≤ m ≤ 12 → fmt_02d (Z.of_nat m) = pad2 m.
Proof.
  intros Hm.
  assert (Hin : m ∈ seq 1 12) by (apply elem_of_seq; lia).
  revert Hin. generalize m. apply Forall_forall.
  apply (bool_decide_unpack _). vm_compute. exact I.
Qed.

Lemma str_int_pad4 (y : nat) :
  (1000 ≤ Z.of_nat y ≤ 2024)%Z → str_int (Z.of_nat y) = pad4 y.
Proof.
  intros Hy.
  assert (Hin : y ∈ seq 1000 1025) by (apply elem_of_seq; lia).
  revert Hin. generalize y. apply Forall_forall.
  apply (bool_decide_unpack _). vm_compute. exact I.
Qed.

Lemma build_date_map_go (m : gmap nat string) (a n j : nat) :
  foldl (λ date_map col_offset, <[2 + col_offset := macro_date col_offset]> date_map)
    m (seq a n) !! (2 + j) =
  if bool_decide (a ≤ j < a + n) then Some (macro_date j) else m !! (2 + j).
Proof.
  revert m a. induction n as [|n IH]; intros m a; simpl.
  - rewrite bool_decide_eq_false_2 by lia. done.
  - rewrite IH. destruct (decide (a = j)) as [->|Hne].
    + rewrite lookup_insert_eq. repeat case_bool_decide; try lia; done.
    + rewrite lookup_insert_ne by lia. repeat case_bool_decide; try lia; done.
Qed.

Lemma build_date_map_lookup (ncols k : nat) :
  k < ncols - 2 → build_date_map ncols !! (2 + k) = Some (macro_date k).
Proof.
  intros Hk. unfold build_date_map. rewrite build_date_map_go.
  rewrite bool_decide_eq_true_2 by lia. done.
Qed.

End MacroDates.


(** ** [fix_date_column] *)

Section FixDatesProofs.
Context {PN : PyNumber}.

Lemma annual_loop_lookup (n a : nat) (ws : gmap (nat * nat) cell) (r c : nat) :
  annual_loop (seq a n) ws !! (r, c) =
  if bool_decide (c = 1 ∧ a ≤ r < a + n ∧ r ≤ 26)
  then Some (Stamp (mkdate (2005 + (r - 7)) 12 31))
  else ws !! (r, c).
Proof.
  revert a ws. induction n as [|n IH]; intros a ws; cbn [annual_loop seq].
  - rewrite bool_decide_eq_false_2 by lia. done.
  - destruct (Nat.ltb_spec 2024 (2005 + (a - 7))) as [Hbreak|Hgo].
    + rewrite bool_decide_eq_false_2 by lia. done.
    + rewrite IH. destruct (decide ((a, 1) = (r, c))) as [Heq|Hne].
      * injection Heq as Ha Hc. subst a c. rewrite lookup_insert_eq.
        repeat case_bool_decide; try lia; done.
      * rewrite lookup_insert_ne by exact Hne.
        repeat case_bool_decide; try done; exfalso;
          first [ apply Hne; f_equal; lia | lia ].
Qed.

Lemma quarterly_loop_lookup (n a : nat) (ws : gmap (nat * nat) cell) (r c : nat) :
  quarterly_loop (seq a n) ws !! (r, c) =
  if bool_decide (c = 1 ∧ a ≤ r < a + n ∧ r ≤ 86)
  then Some (Stamp (quarter_date (r - 7)))
  else ws !! (r, c).
Proof.
  revert a ws. induction n as [|n IH]; intros a ws; cbn [quarterly_loop seq].
  - rewrite bool_decide_eq_false_2 by lia. done.
  - assert (Hdiv : (a - 7) / 4 ≤ 19 ↔ a ≤ 86).
    { pose proof (Nat.div_mod_eq (a - 7) 4).
      pose proof (Nat.mod_upper_bound (a - 7) 4 ltac:(lia)). lia. }
    destruct (Nat.ltb_spec 2024 (2005 + (a - 7) / 4)) as [Hbreak|Hgo].
    + rewrite bool_decide_eq_false_2 by lia. done.
    + destruct (nth ((a - 7) mod 4) quarters (0, 0)) as [month day] eqn:Hq.
      rewrite IH. destruct (decide ((a, 1) = (r, c))) as [Heq|Hne].
      * injection Heq as Ha Hc. subst a c. rewrite lookup_insert_eq.
        unfold quarter_date. rewrite Hq.
        repeat case_bool_decide; try lia; done.
      * rewrite lookup_insert_ne by exact Hne.
        repeat case_bool_decide; try done; exfalso;
          first [ apply Hne; f_equal; lia | lia ].
Qed.

Lemma year_ends_nth : year_ends = (λ i, mkdate (2005 + i) 12 31) <$> seq 0 20.
Proof. reflexivity. Qed.

Lemma quarter_ends_nth : quarter_ends = quarter_date <$> seq 0 80.
Proof. vm_compute. reflexivity. Qed.

Lemma fix_sheet_annual (ws : gmap (nat * nat) cell) :
  fix_sheet "ANNUAL" ws = annual_loop (seq 7 21) ws.
Proof. reflexivity. Qed.

Lemma fix_sheet_quarterly (ws : gmap (nat * nat) cell) :
  fix_sheet "QUARTERLY" ws = quarterly_loop (seq 7 81) ws.
Proof. reflexivity. Qed.

(** C10.  [fix_date_column] writes column A of rows 7 to 26 (ANNUAL) or 7
    to 86 (QUARTERLY) only: read in order, these cells hold the year ends
    of 2005 to 2024, or the eighty quarter ends from 2005-03-31 to
    2024-12-31; the header in row 6 and every other cell of the sheet keep
    their values, and so does every other file. *)
Theorem fix_date_column_frame (fs : filesystem) (filename : string)
    (ws : gmap (nat * nat) cell) :
  fs !! filename = Some (Workbook ws) →
  (fix_date_column fs filename "ANNUAL"
     = Return (<[filename := Workbook (fix_sheet "ANNUAL" ws)]> fs) ∧
   (λ i, fix_sheet "ANNUAL" ws !! (7 + i, 1)) <$> seq 0 20
     = (λ d, Some (Stamp d)) <$> year_ends ∧
   (∀ r c, ¬ (c = 1 ∧ 7 ≤ r ≤ 26) →
           fix_sheet "ANNUAL" ws !! (r, c) = ws !! (r, c)) ∧
   fix_sheet "ANNUAL" ws !! (6, 1) = ws !! (6, 1)) ∧
  (fix_date_column fs filename "QUARTERLY"
     = Return (<[filename := Workbook (fix_sheet "QUARTERLY" ws)]> fs) ∧
   (λ i, fix_sheet "QUARTERLY" ws !! (7 + i, 1)) <$> seq 0 80
     = (λ d, Some (Stamp d)) <$> quarter_ends ∧
   (∀ r c, ¬ (c = 1 ∧ 7 ≤ r ≤ 86) →
           fix_sheet "QUARTERLY" ws !! (r, c) = ws !! (r, c)) ∧
   fix_sheet "QUARTERLY" ws !! (6, 1) = ws !! (6, 1)) ∧
  head year_ends = Some (mkdate 2005 12 31) ∧
  last year_ends = Some (mkdate 2024 12 31) ∧
  head quarter_ends = Some (mkdate 2005 3 31) ∧
  last quarter_ends = Some (mkdate 2024 12 31).
Proof.
  intros Hfile.
  assert (Hload : load_workbook fs filename = Return ws).
  { unfold load_workbook. by rewrite Hfile. }
  assert (Hann : ∀ r c, ¬ (c = 1 ∧ 7 ≤ r ≤ 26) →
            fix_sheet "ANNUAL" ws !! (r, c) = ws !! (r, c)).
  { intros r c Hout. rewrite fix_sheet_annual, annual_loop_lookup.
    rewrite bool_decide_eq_false_2 by lia. done. }
  assert (Hqua : ∀ r c, ¬ (c = 1 ∧ 7 ≤ r ≤ 86) →
            fix_sheet "QUARTERLY" ws !! (r, c) = ws !! (r, c)).
  { intros r c Hout. rewrite fix_sheet_quarterly, quarterly_loop_lookup.
    rewrite bool_decide_eq_false_2 by lia. done. }
  split; [|split].
  - split; [|split; [|split]].
    + unfold fix_date_column. by rewrite Hload.
    + rewrite year_ends_nth, <- list_fmap_compose.
      apply list_fmap_ext. intros j i [Hij Hj]%lookup_seq.
      cbn [Nat.add] in Hij. subst i.
      cbn [compose]. rewrite fix_sheet_annual, annual_loop_lookup.
      rewrite bool_decide_eq_true_2 by lia.
      replace (7 + j - 7) with j by lia. reflexivity.
    + exact Hann.
    + apply Hann. lia.
  - split; [|split; [|split]].
    + unfold fix_date_column. by rewrite Hload.
    + rewrite quarter_ends_nth, <- list_fmap_compose.
      apply list_fmap_ext. intros j i [Hij Hj]%lookup_seq.
      cbn [Nat.add] in Hij. subst i.
      cbn [compose]. rewrite fix_sheet_quarterly, quarterly_loop_lookup.
      rewrite bool_decide_eq_true_2 by lia.
      replace (7 + j - 7) with j by lia. reflexivity.
    + exact Hqua.
    + apply Hqua. lia.
  - repeat split.
Qed.

End FixDatesProofs.

Lemma fix_date_column_frame_witness :
  fix_sheet "ANNUAL" sample_workbook !! (6, 1) = Some (Text "Dates") ∧
  fix_sheet "ANNUAL" sample_workbook !! (27, 1) = Some (Text "total") ∧
  fix_sheet "QUARTERLY" sample_workbook !! (7, 2) = Some (Num 10%Z).
Proof.
  pose proof (@fix_date_column_frame integer_numbers
                {[ "financials_annual.xlsx" := Workbook sample_workbook ]}
                "financials_annual.xlsx" sample_workbook
                ltac:(apply lookup_singleton_eq)) as (Ha & Hq & _).
  split; [|split].
  - exact (proj2 (proj2 (proj2 Ha))).
  - exact (proj1 (proj2 (proj2 Ha)) 27 1 ltac:(lia)).
  - exact (proj1 (proj2 (proj2 Hq)) 7 2 ltac:(lia)).
Defined.
(** ** [import_prices_weekly]: the header loop *)

Section PriceHeader.
Context {PN : PyNumber}.

Lemma dict_get_set {V} (k k' : string) (v : V) (d : list (string * V)) :
  dict_get k (dict_set k' v d) = if String.eqb k k' then Some v else dict_get k d.
Proof.
  induction d as [|[k0 v0] d IH]; simpl.
  - reflexivity.
  - destruct (String.eqb_spec k' k0) as [->|Hne]; simpl.
    + destruct (String.eqb_spec k k0); reflexivity.
    + rewrite IH. destruct (String.eqb_spec k k0) as [->|]; [|reflexivity].
      destruct (String.eqb_spec k0 k'); congruence.
Qed.

Lemma field_label_text (field_row : list cell) (col : nat) :
  field_label field_row col = Return (field_text field_row col).
Proof.
  unfold field_label, field_text, series_iloc.
  destruct (Nat.ltb_spec col (length field_row)) as [Hlt|Hge].
  - destruct (lookup_lt_is_Some_2 field_row col Hlt) as [v ->]. reflexivity.
  - by rewrite lookup_ge_None_2.
Qed.

Lemma price_block_total (ticker_row field_row : list cell)
    (ticker_cols : list (string * price_cols)) (col : nat) :
  col < length ticker_row →
  price_block ticker_row field_row ticker_cols col
  = Return (store_block ticker_row field_row ticker_cols col).
Proof.
  intros Hlt. unfold price_block, store_block, block_ticker, series_iloc.
  destruct (lookup_lt_is_Some_2 ticker_row col Hlt) as [c ->]. cbn [bindO].
  destruct (label_of c) as [ticker|]; [|reflexivity].
  destruct (negb _ && negb _); [|reflexivity].
  by rewrite !field_label_text.
Qed.

Lemma foldO_total {A B} (body : B → A → outcome B) (f : B → A → B)
    (P : A → Prop) (xs : list A) (acc : B) :
  (∀ b x, P x → body b x = Return (f b x)) →
  Forall P xs →
  foldO body acc xs = Return (foldl f acc xs).
Proof.
  intros Hbody Hxs. revert acc.
  induction Hxs as [|x xs Hx _ IH]; intros acc; simpl; [done|].
  rewrite Hbody by exact Hx. simpl. apply IH.
Qed.

Lemma block_starts_bound (n : nat) : Forall (λ col, col < n) (block_starts n).
Proof.
  apply Forall_forall. intros col [j [-> [_ Hj]%elem_of_seq]]%list_elem_of_fmap.
  pose proof (Nat.div_mod_eq n 2). lia.
Qed.

Lemma build_ticker_cols_total (ticker_row field_row : list cell) :
  build_ticker_cols ticker_row field_row
  = Return (foldl (store_block ticker_row field_row) []
              (block_starts (length ticker_row))).
Proof.
  apply foldO_total with (P := λ col, col < length ticker_row).
  - intros. by apply price_block_total.
  - apply block_starts_bound.
Qed.

Lemma store_block_other (ticker_row field_row : list cell) (t : string)
    (later : list nat) (acc : list (string * price_cols)) :
  Forall (λ col, block_ticker ticker_row col ≠ Some t) later →
  dict_get t (foldl (store_block ticker_row field_row) acc later) = dict_get t acc.
Proof.
  intros Hlater. revert acc.
  induction Hlater as [|col later Hcol _ IH]; intros acc; simpl; [done|].
  rewrite IH. unfold store_block.
  destruct (block_ticker ticker_row col) as [t'|]; [|done].
  rewrite dict_get_set. destruct (String.eqb_spec t t'); congruence.
Qed.

Lemma block_starts_split (n j : nat) :
  1 + 2 * j < n →
  block_starts n =
  ((λ j, 1 + 2 * j) <$> seq 0 j) ++ (1 + 2 * j) ::
  ((λ j, 1 + 2 * j) <$> seq (S j) (n / 2 - S j)).
Proof.
  intros Hj. unfold block_starts.
  assert (Hlt : j < n / 2).
  { pose proof (Nat.div_mod_eq n 2).
    pose proof (Nat.mod_upper_bound n 2 ltac:(lia)). lia. }
  replace (n / 2) with (j + S (n / 2 - S j)) at 1 by lia.
  rewrite seq_app, fmap_app. simpl. reflexivity.
Qed.

(** C8.  The header loop of the weekly prices never raises, whatever the
    labels.  For every block (the two columns from [1 + 2 * j]) whose ticker
    is stored, and that no later block overwrites, the stored entry takes
    the block's first column as the price column when neither label
    contains [Price], and the block's second column as the return column
    when neither label contains [Return]. *)
Theorem price_header_defaults (ticker_row field_row : list cell) :
  ∃ ticker_cols,
    build_ticker_cols ticker_row field_row = Return ticker_cols ∧
    ∀ j ticker,
      1 + 2 * j < length ticker_row →
      block_ticker ticker_row (1 + 2 * j) = Some ticker →
      (∀ j', j < j' → block_ticker ticker_row (1 + 2 * j') ≠ Some ticker) →
      ∃ cols,
        dict_get ticker ticker_cols = Some cols ∧
        cols = block_cols (1 + 2 * j) (field_text field_row (1 + 2 * j))
                 (field_text field_row (1 + 2 * j + 1)) ∧
        (contains "Price" (field_text field_row (1 + 2 * j)) = false →
         contains "Price" (field_text field_row (1 + 2 * j + 1)) = false →
         price_col cols = 1 + 2 * j) ∧
        (contains "Return" (field_text field_row (1 + 2 * j)) = false →
         contains "Return" (field_text field_row (1 + 2 * j + 1)) = false →
         return_col cols = 1 + 2 * j + 1).
Proof.
  eexists. split; [apply build_ticker_cols_total|].
  intros j ticker Hj Hticker Hlast.
  eexists. split; [|split; [reflexivity|]].
  - rewrite (block_starts_split _ j Hj), foldl_app. cbn [foldl].
    rewrite store_block_other.
    + unfold store_block at 1. rewrite Hticker, dict_get_set.
      by rewrite String.eqb_refl.
    + apply Forall_forall.
      intros col [j' [-> [Hj' _]%elem_of_seq]]%list_elem_of_fmap.
      apply Hlast. lia.
  - unfold block_cols. cbn [price_col return_col].
    split; intros -> ->; reflexivity.
Qed.

End PriceHeader.

Example price_header_sample :
  build_ticker_cols
    [Missing; Text "AAPL US Equity"; Missing; Text " MSFT US Equity"; Missing]
    [Missing; Text "PX_LAST"; Text "Day to Day Total Return"; Text "Volume"; Text "Last Price"]
  = Return [("AAPL US Equity", {| price_col := 1; return_col := 2 |});
            ("MSFT US Equity", {| price_col := 4; return_col := 4 |})].
Proof. reflexivity. Qed.
(** ** [strptime] on what [strftime] prints *)

Section Strptime.

Ltac digit_cases n :=
  do 10 (destruct n as [|n]; [try reflexivity|]); try lia.

Lemma digit_val_digit_char (n : nat) : n < 10 → digit_val (digit_char n) = Some n.
Proof. intros Hn. digit_cases n. Qed.

Lemma py_isspace_digit_char (n : nat) : n < 10 → py_isspace (digit_char n) = false.
Proof. intros Hn. digit_cases n. Qed.

Lemma digit_char_not_sep (c : ascii) (n : nat) :
  n < 10 → digit_val c = None → Ascii.eqb c (digit_char n) = false.
Proof.
  intros Hn Hc. destruct (Ascii.eqb_spec c (digit_char n)) as [->|]; [|done].
  rewrite digit_val_digit_char in Hc by done. done.
Qed.

Lemma first_some_none {A B} (f : A → option B) (l : list A) :
  Forall (λ a, f a = None) l → first_some f l = None.
Proof. induction 1 as [|a l Ha _ IH]; simpl; [done|]. by rewrite Ha. Qed.

Lemma pad2_app (n : nat) (r : string) :
  pad2 n +:+ r = String (digit_char (n / 10)) (String (digit_char (n mod 10)) r).
Proof. reflexivity. Qed.

Lemma pad4_app (n : nat) (r : string) :
  pad4 n +:+ r =
  String (digit_char (n / 1000)) (String (digit_char (n / 100 mod 10))
    (String (digit_char (n / 10 mod 10)) (String (digit_char (n mod 10)) r))).
Proof. reflexivity. Qed.

(** *** What each directive matches at the start of a printed field *)

Lemma re_Y_pad4 (y : nat) (r : string) :
  (Z.of_nat y <= 9999)%Z → re_Y (pad4 y +:+ r) = [(y, r)].
Proof.
  intros Hy. rewrite pad4_app. unfold re_Y.
  pose proof (Nat.mod_upper_bound y 10 ltac:(lia)).
  pose proof (Nat.mod_upper_bound (y / 10) 10 ltac:(lia)).
  pose proof (Nat.mod_upper_bound (y / 100) 10 ltac:(lia)).
  assert (y / 1000 < 10).
  { apply Nat.Div0.div_lt_upper_bound. lia. }
  rewrite !digit_val_digit_char by done.
  do 2 f_equal.
  pose proof (Nat.div_mod_eq y 10).
  pose proof (Nat.div_mod_eq (y / 10) 10).
  pose proof (Nat.div_mod_eq (y / 100) 10).
  replace (y / 100) with (y / 10 / 10) in * by (rewrite Nat.Div0.div_div; done).
  replace (y / 1000) with (y / 10 / 10 / 10) in * by (rewrite !Nat.Div0.div_div; done).
  lia.
Qed.

(** Two characters and then one that is no digit: no year starts here. *)
Lemma re_Y_short (c1 c2 c3 : ascii) (r : string) :
  digit_val c3 = None → re_Y (String c1 (String c2 (String c3 r))) = [].
Proof.
  intros Hc. unfold re_Y. destruct r; [done|].
  rewrite Hc. by destruct (digit_val c1), (digit_val c2).
Qed.

Ltac range_cases n :=
  do 32 (destruct n as [|n]; [try lia; try reflexivity|]); try lia.

Lemma re_m_pad2_units (n : nat) (r : string) :
  1 ≤ n ≤ 9 → re_m (pad2 n +:+ r) = [(n, r)].
Proof. intros Hn. range_cases n. Qed.

Lemma re_m_pad2_tens (n : nat) (r : string) :
  10 ≤ n ≤ 12 →
  re_m (pad2 n +:+ r) = [(n, r); (1, String (digit_char (n mod 10)) r)].
Proof. intros Hn. range_cases n. Qed.

Lemma re_m_pad2_high (n : nat) (r : string) :
  13 ≤ n ≤ 31 →
  re_m (pad2 n +:+ r) = [(n / 10, String (digit_char (n mod 10)) r)].
Proof. intros Hn. range_cases n. Qed.

Lemma re_d_pad2_units (n : nat) (r : string) :
  1 ≤ n ≤ 9 → re_d (pad2 n +:+ r) = [(n, r)].
Proof. intros Hn. range_cases n. Qed.

Lemma re_d_pad2_tens (n : nat) (r : string) :
  10 ≤ n ≤ 31 →
  re_d (pad2 n +:+ r) = [(n, r); (n / 10, String (digit_char (n mod 10)) r)].
Proof. intros Hn. range_cases n. Qed.

(** A month or a day takes one or two characters of the input. *)
Lemma re_md_consumes (x : directive) (s : string) (v : nat) (s' : string) :
  x = Dirm ∨ x = Dird →
  (v, s') ∈ re_directive x s →
  (∃ c1, s = String c1 s') ∨ (∃ c1 c2, s = String c1 (String c2 s')).
Proof.
  assert (H1 : ∀ P, (v, s') ∈ alt1 P s → ∃ c1, s = String c1 s').
  { intros P. unfold alt1. destruct s as [|c1 r]; [by intros ?%elem_of_nil|].
    destruct (digit_val c1); [|by intros ?%elem_of_nil].
    destruct (P n); [|by intros ?%elem_of_nil].
    intros Heq%list_elem_of_singleton. inversion Heq; subst. eauto. }
  assert (H2 : ∀ P, (v, s') ∈ alt2 P s → ∃ c1 c2, s = String c1 (String c2 s')).
  { intros P. unfold alt2. destruct s as [|c1 [|c2 r]]; try by intros ?%elem_of_nil.
    destruct (digit_val c1); [|by intros ?%elem_of_nil].
    destruct (digit_val c2); [|by intros ?%elem_of_nil].
    destruct (P n n0); [|by intros ?%elem_of_nil].
    intros Heq%list_elem_of_singleton. inversion Heq; subst. eauto. }
  assert (H3 : (v, s') ∈ alt_space s → ∃ c1 c2, s = String c1 (String c2 s')).
  { unfold alt_space. destruct s as [|c1 r]; [by intros ?%elem_of_nil|].
    destruct (Ascii.eqb c1 " "); [|by intros ?%elem_of_nil].
    unfold alt1. destruct r as [|c2 r]; [by intros ?%elem_of_nil|].
    destruct (digit_val c2); [|by intros ?%elem_of_nil].
    destruct (1 <=? n); [|by intros ?%elem_of_nil].
    intros Heq%list_elem_of_singleton. inversion Heq; subst. eauto. }
  intros [-> | ->]; cbn [re_directive]; unfold re_m, re_d;
    rewrite !elem_of_app.
  - intros [Hin|[Hin|Hin]]; [right; by apply H2 in Hin.. | left; by apply H1 in Hin].
  - intros [Hin|[Hin|[Hin|[Hin|Hin]]]];
      [right; by apply H2 in Hin.. | left; by apply H1 in Hin | right; by apply H3].
Qed.

(** After a month or a day the separator must follow: if neither the second
    nor the third character of the input is the separator, nothing
    matches. *)
Lemma re_match_md_lit_fail (x : directive) (sep : ascii) (fmt : list directive)
    (c1 c2 c3 : ascii) (r : string) (acc : date) :
  x = Dirm ∨ x = Dird →
  Ascii.eqb sep c2 = false → Ascii.eqb sep c3 = false →
  re_match (x :: Lit sep :: fmt) (String c1 (String c2 (String c3 r))) acc = None.
Proof.
  intros Hx H2 H3.
  assert (re_match (x :: Lit sep :: fmt) (String c1 (String c2 (String c3 r))) acc
          = first_some (λ '(v, s'), re_match (Lit sep :: fmt) s' (set_field x v acc))
              (re_directive x (String c1 (String c2 (String c3 r))))) as ->.
  { by destruct Hx as [-> | ->]. }
  apply first_some_none, Forall_forall. intros [v s'] Hin.
  apply re_md_consumes in Hin as [(c & [= _ <-])|(c & c' & [= _ _ <-])]; [| |done].
  - cbn [re_match]. by rewrite H2.
  - cbn [re_match]. by rewrite H3.
Qed.


Lemma re_m_pad2_head (n : nat) (r : string) :
  1 ≤ n ≤ 12 → ∃ tl, re_directive Dirm (pad2 n +:+ r) = (n, r) :: tl.
Proof.
  intros Hn. destruct (decide (n ≤ 9)).
  - eexists. apply re_m_pad2_units. lia.
  - eexists. apply re_m_pad2_tens. lia.
Qed.

Lemma re_d_pad2_head (n : nat) (r : string) :
  1 ≤ n ≤ 31 → ∃ tl, re_directive Dird (pad2 n +:+ r) = (n, r) :: tl.
Proof.
  intros Hn. destruct (decide (n ≤ 9)).
  - eexists. apply re_d_pad2_units. lia.
  - eexists. apply re_d_pad2_tens. lia.
Qed.

Lemma re_Y_pad4_head (y : nat) (r : string) :
  (Z.of_nat y <= 9999)%Z → ∃ tl, re_directive DirY (pad4 y +:+ r) = (y, r) :: tl.
Proof. intros Hy. eexists. by apply re_Y_pad4. Qed.

(** *** Matching a whole format *)

Lemma re_match_field (x : directive) (fmt : list directive) (s : string) (acc : date) :
  is_field x →
  re_match (x :: fmt) s acc
  = first_some (λ '(v, s'), re_match fmt s' (set_field x v acc)) (re_directive x s).
Proof. by intros [-> | [-> | ->]]. Qed.

Lemma re_match_head (x : directive) (fmt : list directive) (s r : string)
    (acc : date) (v : nat) (b : date * string) :
  is_field x →
  (∃ tl, re_directive x s = (v, r) :: tl) →
  re_match fmt r (set_field x v acc) = Some b →
  re_match (x :: fmt) s acc = Some b.
Proof.
  intros Hx [tl Hre] Hrest. rewrite re_match_field, Hre by done.
  cbn [first_some]. by rewrite Hrest.
Qed.

Lemma re_match_lit (c : ascii) (fmt : list directive) (s : string) (acc : date) :
  re_match (Lit c :: fmt) (String c s) acc = re_match fmt s acc.
Proof. cbn [re_match]. by rewrite Ascii.eqb_refl. Qed.

Lemma re_match_lit_fail (c c' : ascii) (fmt : list directive) (s : string) (acc : date) :
  Ascii.eqb c c' = false → re_match (Lit c :: fmt) (String c' s) acc = None.
Proof. intros Hc. cbn [re_match]. by rewrite Hc. Qed.

Lemma re_match_no_field (x : directive) (fmt : list directive) (s : string) (acc : date) :
  is_field x → re_directive x s = [] → re_match (x :: fmt) s acc = None.
Proof. intros Hx Hre. by rewrite re_match_field, Hre. Qed.

Lemma valid_date_bounds (d : date) :
  valid_date d = true →
  1 ≤ d_year d ∧ (Z.of_nat (d_year d) <= 9999)%Z ∧
  1 ≤ d_month d ≤ 12 ∧ 1 ≤ d_day d ≤ 31.
Proof.
  destruct d as [y m dd]. unfold valid_date. cbn [d_year d_month d_day].
  rewrite !andb_true_iff, !Nat.leb_le, Z.leb_le.
  intros (((((? & ?) & ?) & ?) & ?) & Hday).
  assert (days_in_month y m ≤ 31).
  { unfold days_in_month. destruct (is_leap _); clear; range_cases m. }
  lia.
Qed.

Lemma valid_date_swap (d : date) :
  valid_date d = true → d_day d ≤ 12 → valid_date (swap_day_month d) = true.
Proof.
  intros Hd Hday. pose proof (valid_date_bounds d Hd) as (? & ? & ? & ?).
  destruct d as [y m dd]. unfold valid_date, swap_day_month.
  cbn [d_year d_month d_day] in *.
  rewrite !andb_true_iff, !Nat.leb_le, Z.leb_le.
  assert (28 ≤ days_in_month y dd).
  { unfold days_in_month. destruct (is_leap _); range_cases dd. }
  lia.
Qed.

Lemma digit_bounds (n : nat) : n ≤ 99 → n / 10 < 10 ∧ n mod 10 < 10.
Proof.
  intros Hn. split; [|apply Nat.mod_upper_bound; lia].
  apply Nat.Div0.div_lt_upper_bound. lia.
Qed.

Lemma year_digit_bounds (y : nat) :
  (Z.of_nat y <= 9999)%Z →
  y / 1000 < 10 ∧ y / 100 mod 10 < 10 ∧ y / 10 mod 10 < 10 ∧ y mod 10 < 10.
Proof.
  intros Hy. repeat split; try (apply Nat.mod_upper_bound; lia).
  apply Nat.Div0.div_lt_upper_bound. lia.
Qed.


(** *** The strings of the six formats *)

Local Abbreviation ymd x1 sep x2 x3 := [x1; Lit sep; x2; Lit sep; x3].

Lemma re_match_year_first (sep : ascii) (y m dd : nat) :
  (Z.of_nat y <= 9999)%Z → 1 ≤ m ≤ 12 → 1 ≤ dd ≤ 31 →
  re_match (ymd DirY sep Dirm Dird) (year_first sep y m dd) default_fields
  = Some (mkdate y m dd, "").
Proof.
  intros Hy Hm Hd. unfold year_first.
  eapply re_match_head; [unfold is_field; auto | by apply re_Y_pad4_head |].
  rewrite re_match_lit.
  eapply re_match_head; [unfold is_field; auto | by apply re_m_pad2_head |].
  rewrite re_match_lit.
  eapply re_match_head; [unfold is_field; auto | by apply re_d_pad2_head |].
  reflexivity.
Qed.

(** A year-first format on a string that starts with two digits and a
    separator. *)
Lemma re_match_year_first_short (sep sep' : ascii) (a b y : nat) (fmt : list directive) :
  digit_val sep' = None →
  re_match (DirY :: fmt) (year_last sep' a b y) default_fields = None.
Proof.
  intros Hsep. apply re_match_no_field; [unfold is_field; auto|].
  unfold year_last. rewrite pad2_app. by apply re_Y_short.
Qed.

(** A year-first format on a string with the other separator. *)
Lemma re_match_year_first_sep (sep sep' : ascii) (y a b : nat) (fmt : list directive) :
  (Z.of_nat y <= 9999)%Z → Ascii.eqb sep sep' = false →
  re_match (DirY :: Lit sep :: fmt) (year_first sep' y a b) default_fields = None.
Proof.
  intros Hy Hsep. rewrite re_match_field by (unfold is_field; auto).
  unfold year_first. cbn [re_directive]. rewrite re_Y_pad4 by done.
  cbn [first_some]. by rewrite re_match_lit_fail.
Qed.

(** A format that starts with the month or the day, on a year-first
    string. *)
Lemma re_match_year_last_long (x : directive) (sep sep' : ascii) (y a b : nat)
    (fmt : list directive) :
  x = Dirm ∨ x = Dird → (Z.of_nat y <= 9999)%Z → digit_val sep = None →
  re_match (x :: Lit sep :: fmt) (year_first sep' y a b) default_fields = None.
Proof.
  intros Hx Hy Hsep. unfold year_first. rewrite pad4_app.
  pose proof (year_digit_bounds y Hy) as (? & ? & ? & ?).
  apply re_match_md_lit_fail; [done|..]; by apply digit_char_not_sep.
Qed.

(** The same on a year-last string with the other separator. *)
Lemma re_match_year_last_sep (x : directive) (sep sep' : ascii) (a b y : nat)
    (fmt : list directive) :
  x = Dirm ∨ x = Dird → a ≤ 99 → digit_val sep = None →
  Ascii.eqb sep sep' = false →
  re_match (x :: Lit sep :: fmt) (year_last sep' a b y) default_fields = None.
Proof.
  intros Hx Ha Hsep Hne. unfold year_last. rewrite pad2_app.
  pose proof (digit_bounds a Ha) as [? ?].
  apply re_match_md_lit_fail; [done| |done]. by apply digit_char_not_sep.
Qed.

(** Month first: read as written when the first number can be a month. *)
Lemma re_match_month_first (sep : ascii) (a b y : nat) :
  1 ≤ a ≤ 12 → 1 ≤ b ≤ 31 → (Z.of_nat y <= 9999)%Z →
  re_match (ymd Dirm sep Dird DirY) (year_last sep a b y) default_fields
  = Some (mkdate y a b, "").
Proof.
  intros Ha Hb Hy. unfold year_last.
  eapply re_match_head; [unfold is_field; auto | by apply re_m_pad2_head |].
  rewrite re_match_lit.
  eapply re_match_head; [unfold is_field; auto | by apply re_d_pad2_head |].
  rewrite re_match_lit.
  eapply re_match_head; [unfold is_field; auto | by apply re_Y_pad4_head |].
  reflexivity.
Qed.

(** Day first: read as written when the second number can be a month. *)
Lemma re_match_day_first (sep : ascii) (a b y : nat) :
  1 ≤ a ≤ 31 → 1 ≤ b ≤ 12 → (Z.of_nat y <= 9999)%Z →
  re_match (ymd Dird sep Dirm DirY) (year_last sep a b y) default_fields
  = Some (mkdate y b a, "").
Proof.
  intros Ha Hb Hy. unfold year_last.
  eapply re_match_head; [unfold is_field; auto | by apply re_d_pad2_head |].
  rewrite re_match_lit.
  eapply re_match_head; [unfold is_field; auto | by apply re_m_pad2_head |].
  rewrite re_match_lit.
  eapply re_match_head; [unfold is_field; auto | by apply re_Y_pad4_head |].
  reflexivity.
Qed.

(** Month first on a string whose first number is past 12: no match. *)
Lemma re_match_month_first_high (sep : ascii) (a b y : nat) :
  13 ≤ a ≤ 31 → digit_val sep = None →
  re_match (ymd Dirm sep Dird DirY) (year_last sep a b y) default_fields = None.
Proof.
  intros Ha Hsep. unfold year_last.
  rewrite re_match_field by (unfold is_field; auto).
  cbn [re_directive]. rewrite re_m_pad2_high by done. cbn [first_some].
  pose proof (digit_bounds a ltac:(lia)) as [? ?].
  rewrite re_match_lit_fail; [done|]. by apply digit_char_not_sep.
Qed.

(** Day first on a string whose second number is past 12: no match,
    whichever way the day is read. *)
Lemma re_match_day_first_high (sep : ascii) (a b y : nat) :
  1 ≤ a ≤ 31 → 13 ≤ b ≤ 31 → digit_val sep = None →
  re_match (ymd Dird sep Dirm DirY) (year_last sep a b y) default_fields = None.
Proof.
  intros Ha Hb Hsep. unfold year_last.
  pose proof (digit_bounds a ltac:(lia)) as [? ?].
  pose proof (digit_bounds b ltac:(lia)) as [? ?].
  assert (Hm : ∀ acc, re_match [Dirm; Lit sep; DirY]
                 (pad2 b +:+ String sep (pad4 y +:+ "")) acc = None).
  { intros acc. rewrite re_match_field by (unfold is_field; auto).
    cbn [re_directive]. rewrite re_m_pad2_high by done. cbn [first_some].
    rewrite re_match_lit_fail; [done|]. by apply digit_char_not_sep. }
  rewrite re_match_field by (unfold is_field; auto). cbn [re_directive].
  destruct (decide (a ≤ 9)).
  - rewrite re_d_pad2_units by lia. cbn [first_some].
    by rewrite re_match_lit, Hm.
  - rewrite re_d_pad2_tens by lia. cbn [first_some].
    rewrite re_match_lit, Hm.
    rewrite re_match_lit_fail; [done|]. by apply digit_char_not_sep.
Qed.


(** *** [strptime] and the loop over the formats *)

Lemma strptime_formats (s : string) :
  strptime s "%Y-%m-%d" = checked (re_match (ymd DirY "-" Dirm Dird) s default_fields) ∧
  strptime s "%m/%d/%Y" = checked (re_match (ymd Dirm "/" Dird DirY) s default_fields) ∧
  strptime s "%d/%m/%Y" = checked (re_match (ymd Dird "/" Dirm DirY) s default_fields) ∧
  strptime s "%Y/%m/%d" = checked (re_match (ymd DirY "/" Dirm Dird) s default_fields) ∧
  strptime s "%d-%m-%Y" = checked (re_match (ymd Dird "-" Dirm DirY) s default_fields) ∧
  strptime s "%m-%d-%Y" = checked (re_match (ymd Dirm "-" Dird DirY) s default_fields).
Proof. repeat split. Qed.

Lemma try_formats_unfold (s : string) :
  try_formats s =
  match checked (re_match (ymd DirY "-" Dirm Dird) s default_fields) with
  | Some d => Some (isoformat d)
  | None =>
  match checked (re_match (ymd Dirm "/" Dird DirY) s default_fields) with
  | Some d => Some (isoformat d)
  | None =>
  match checked (re_match (ymd Dird "/" Dirm DirY) s default_fields) with
  | Some d => Some (isoformat d)
  | None =>
  match checked (re_match (ymd DirY "/" Dirm Dird) s default_fields) with
  | Some d => Some (isoformat d)
  | None =>
  match checked (re_match (ymd Dird "-" Dirm DirY) s default_fields) with
  | Some d => Some (isoformat d)
  | None =>
  match checked (re_match (ymd Dirm "-" Dird DirY) s default_fields) with
  | Some d => Some (isoformat d)
  | None => None
  end end end end end end.
Proof.
  unfold try_formats, formats. cbn [first_some].
  destruct (strptime_formats s) as (-> & -> & -> & -> & -> & ->).
  unfold isoformat.
  repeat (match goal with |- context [checked ?r] => destruct (checked r) end;
          cbn [fmap option_fmap option_map]; try reflexivity).
Qed.

Lemma all_nonspace_strip (s : string) :
  forallb (λ c, negb (py_isspace c)) (list_ascii_of_string s) = true → strip s = s.
Proof.
  intros Hs. unfold strip.
  assert (Hl : lstrip s = s).
  { destruct s as [|c s]; [done|]. cbn in Hs.
    apply andb_true_iff in Hs as [Hc _]. simpl. by destruct (py_isspace c). }
  rewrite Hl. clear Hl. induction s as [|c s IH]; [done|].
  cbn in Hs. apply andb_true_iff in Hs as [Hc Hs].
  cbn [rstrip]. rewrite IH by done.
  destruct s; [|done]. by destruct (py_isspace c).
Qed.

Lemma strip_year_first (sep : ascii) (y a b : nat) :
  py_isspace sep = false → (Z.of_nat y <= 9999)%Z → a ≤ 99 → b ≤ 99 →
  strip (year_first sep y a b) = year_first sep y a b.
Proof.
  intros Hsep Hy Ha Hb. apply all_nonspace_strip.
  pose proof (year_digit_bounds y Hy) as (? & ? & ? & ?).
  pose proof (digit_bounds a Ha) as [? ?].
  pose proof (digit_bounds b Hb) as [? ?].
  unfold year_first. rewrite pad4_app, !pad2_app.
  cbn [list_ascii_of_string forallb]. rewrite Hsep.
  by rewrite !py_isspace_digit_char.
Qed.

Lemma strip_year_last (sep : ascii) (a b y : nat) :
  py_isspace sep = false → (Z.of_nat y <= 9999)%Z → a ≤ 99 → b ≤ 99 →
  strip (year_last sep a b y) = year_last sep a b y.
Proof.
  intros Hsep Hy Ha Hb. apply all_nonspace_strip.
  pose proof (year_digit_bounds y Hy) as (? & ? & ? & ?).
  pose proof (digit_bounds a Ha) as [? ?].
  pose proof (digit_bounds b Hb) as [? ?].
  unfold year_last. rewrite pad4_app, !pad2_app.
  cbn [list_ascii_of_string forallb]. rewrite Hsep.
  by rewrite !py_isspace_digit_char.
Qed.

(** *** The year as [%Y] prints it *)

Lemma str_nat_go_step (fuel n : nat) (acc : string) :
  str_nat_go (S fuel) n acc =
  if n / 10 =? 0 then String (digit_char (n mod 10)) acc
  else str_nat_go fuel (n / 10) (String (digit_char (n mod 10)) acc).
Proof. reflexivity. Qed.

Lemma str_nat_go_length (fuel n : nat) (acc : string) :
  String.length acc < String.length (str_nat_go (S fuel) n acc).
Proof.
  revert n acc. induction fuel as [|fuel IH]; intros n acc.
  - rewrite str_nat_go_step. destruct (n / 10 =? 0); cbn; lia.
  - rewrite str_nat_go_step. destruct (n / 10 =? 0); [cbn; lia|].
    specialize (IH (n / 10) (String (digit_char (n mod 10)) acc)).
    cbn [String.length] in IH. lia.
Qed.

(** The year in decimal: four digits exactly from 1000 to 9999. *)
Lemma str_nat_year (y : nat) :
  1000 ≤ y → (Z.of_nat y <= 9999)%Z → str_nat y = pad4 y.
Proof.
  intros Hlo Hhi. unfold str_nat, pad4.
  pose proof (Nat.div_mod_eq y 10). pose proof (Nat.mod_upper_bound y 10 ltac:(lia)).
  pose proof (Nat.div_mod_eq (y / 10) 10).
  pose proof (Nat.mod_upper_bound (y / 10) 10 ltac:(lia)).
  pose proof (Nat.div_mod_eq (y / 10 / 10) 10).
  pose proof (Nat.mod_upper_bound (y / 10 / 10) 10 ltac:(lia)).
  pose proof (Nat.div_mod_eq (y / 10 / 10 / 10) 10).
  pose proof (Nat.mod_upper_bound (y / 10 / 10 / 10) 10 ltac:(lia)).
  replace (S y) with (S (S (S (S (y - 3))))) by lia.
  rewrite str_nat_go_step.
  destruct (Nat.eqb_spec (y / 10) 0) as [Hz|_]; [lia|].
  rewrite str_nat_go_step.
  destruct (Nat.eqb_spec (y / 10 / 10) 0) as [Hz|_]; [lia|].
  rewrite str_nat_go_step.
  destruct (Nat.eqb_spec (y / 10 / 10 / 10) 0) as [Hz|_]; [lia|].
  rewrite str_nat_go_step.
  destruct (Nat.eqb_spec (y / 10 / 10 / 10 / 10) 0) as [_|Hz]; [|lia].
  replace (y / 10 / 10 / 10 mod 10) with (y / 10 / 10 / 10) by lia.
  rewrite !Nat.Div0.div_div. reflexivity.
Qed.

Lemma str_nat_year_length (y : nat) :
  String.length (str_nat y) = 4 ↔ 1000 ≤ y ∧ (Z.of_nat y <= 9999)%Z.
Proof.
  pose proof (Nat.div_mod_eq y 10). pose proof (Nat.mod_upper_bound y 10 ltac:(lia)).
  pose proof (Nat.div_mod_eq (y / 10) 10).
  pose proof (Nat.mod_upper_bound (y / 10) 10 ltac:(lia)).
  pose proof (Nat.div_mod_eq (y / 10 / 10) 10).
  pose proof (Nat.mod_upper_bound (y / 10 / 10) 10 ltac:(lia)).
  pose proof (Nat.div_mod_eq (y / 10 / 10 / 10) 10).
  pose proof (Nat.mod_upper_bound (y / 10 / 10 / 10) 10 ltac:(lia)).
  split.
  - intros Hlen.
    destruct (Nat.lt_ge_cases y 1000) as [Hlt|Hge].
    + exfalso. revert Hlen. unfold str_nat.
      rewrite str_nat_go_step.
      destruct (Nat.eqb_spec (y / 10) 0) as [_|Hn1]; [done|].
      replace y with (S (y - 1)) at 1 by lia. rewrite str_nat_go_step.
      destruct (Nat.eqb_spec (y / 10 / 10) 0) as [_|Hn2]; [done|].
      replace (y - 1) with (S (y - 2)) by lia. rewrite str_nat_go_step.
      destruct (Nat.eqb_spec (y / 10 / 10 / 10) 0) as [_|Hn3]; [done|lia].
    + split; [done|].
      destruct (Z.le_gt_cases (Z.of_nat y) 9999) as [|Hgt]; [done|].
      exfalso. revert Hlen. unfold str_nat.
      replace (S y) with (S (S (S (S (S (y - 4)))))) by lia.
      rewrite str_nat_go_step.
      destruct (Nat.eqb_spec (y / 10) 0) as [Hz|_]; [lia|].
      rewrite str_nat_go_step.
      destruct (Nat.eqb_spec (y / 10 / 10) 0) as [Hz|_]; [lia|].
      rewrite str_nat_go_step.
      destruct (Nat.eqb_spec (y / 10 / 10 / 10) 0) as [Hz|_]; [lia|].
      rewrite str_nat_go_step.
      destruct (Nat.eqb_spec (y / 10 / 10 / 10 / 10) 0) as [Hz|_]; [lia|].
      match goal with
      | |- context [str_nat_go (S ?f) ?n ?acc] =>
          pose proof (str_nat_go_length f n acc) as Hl
      end.
      cbn [String.length] in Hl. lia.
  - intros [Hlo Hhi]. by rewrite str_nat_year.
Qed.

Lemma strftime_formats (d : date) :
  1000 ≤ d_year d → (Z.of_nat (d_year d) <= 9999)%Z →
  strftime d "%Y-%m-%d" = year_first "-" (d_year d) (d_month d) (d_day d) ∧
  strftime d "%m/%d/%Y" = year_last "/" (d_month d) (d_day d) (d_year d) ∧
  strftime d "%d/%m/%Y" = year_last "/" (d_day d) (d_month d) (d_year d) ∧
  strftime d "%Y/%m/%d" = year_first "/" (d_year d) (d_month d) (d_day d) ∧
  strftime d "%d-%m-%Y" = year_last "-" (d_day d) (d_month d) (d_year d) ∧
  strftime d "%m-%d-%Y" = year_last "-" (d_month d) (d_day d) (d_year d).
Proof.
  intros Hlo Hhi. unfold strftime, year_first, year_last.
  cbn [compile_format fmap option_fmap option_map foldr render_directive].
  rewrite (str_nat_year _ Hlo Hhi). repeat split.
Qed.

Section Roundtrip.
Variable d : date.
Hypothesis Hvalid : valid_date d = true.

Let y := d_year d.
Let m := d_month d.
Let dd := d_day d.

Lemma checked_valid : checked (Some (mkdate y m dd, "")) = Some d.
Proof. unfold checked, y, m, dd. destruct d. cbn in *. by rewrite Hvalid. Qed.

Lemma checked_swap :
  dd ≤ 12 → checked (Some (mkdate y dd m, "")) = Some (swap_day_month d).
Proof.
  intros Hdd. unfold checked.
  change (mkdate y dd m) with (swap_day_month d).
  by rewrite valid_date_swap.
Qed.

Lemma try_formats_ymd_dash : try_formats (year_first "-" y m dd) = Some (isoformat d).
Proof.
  pose proof (valid_date_bounds d Hvalid) as (? & ? & ? & ?).
  rewrite try_formats_unfold.
  rewrite re_match_year_first by done.
  by rewrite checked_valid.
Qed.

Lemma try_formats_mdy_slash : try_formats (year_last "/" m dd y) = Some (isoformat d).
Proof.
  pose proof (valid_date_bounds d Hvalid) as (? & ? & ? & ?).
  rewrite try_formats_unfold.
  rewrite (re_match_year_first_short "-") by done. cbn [checked].
  rewrite re_match_month_first by done. by rewrite checked_valid.
Qed.

Lemma try_formats_dmy_slash :
  try_formats (year_last "/" dd m y)
  = Some (isoformat (if dd <=? 12 then swap_day_month d else d)).
Proof.
  pose proof (valid_date_bounds d Hvalid) as (? & ? & ? & ?).
  rewrite try_formats_unfold.
  rewrite (re_match_year_first_short "-") by done. cbn [checked].
  destruct (Nat.leb_spec dd 12) as [Hle|Hgt].
  - rewrite re_match_month_first by (unfold dd, m in *; lia).
    by rewrite checked_swap.
  - rewrite re_match_month_first_high by (unfold dd in *; done || lia).
    cbn [checked]. rewrite re_match_day_first by done.
    by rewrite checked_valid.
Qed.

Lemma try_formats_ymd_slash : try_formats (year_first "/" y m dd) = Some (isoformat d).
Proof.
  pose proof (valid_date_bounds d Hvalid) as (? & ? & ? & ?).
  rewrite try_formats_unfold.
  rewrite (re_match_year_first_sep "-" "/") by done. cbn [checked].
  rewrite !re_match_year_last_long by (done || auto). cbn [checked].
  rewrite re_match_year_first by done. by rewrite checked_valid.
Qed.

Lemma try_formats_dash_prefix (a b : nat) :
  a ≤ 99 →
  try_formats (year_last "-" a b y) =
  match checked (re_match (ymd Dird "-" Dirm DirY) (year_last "-" a b y) default_fields) with
  | Some d' => Some (isoformat d')
  | None =>
      match checked (re_match (ymd Dirm "-" Dird DirY) (year_last "-" a b y) default_fields) with
      | Some d' => Some (isoformat d')
      | None => None
      end
  end.
Proof.
  intros Ha.
  rewrite try_formats_unfold.
  rewrite (re_match_year_first_short "-") by done. cbn [checked].
  rewrite !(re_match_year_last_sep _ "/" "-") by (done || auto). cbn [checked].
  rewrite (re_match_year_first_short "/") by done. by cbn [checked].
Qed.

Lemma try_formats_dmy_dash : try_formats (year_last "-" dd m y) = Some (isoformat d).
Proof.
  pose proof (valid_date_bounds d Hvalid) as (? & ? & ? & ?).
  rewrite try_formats_dash_prefix by (unfold dd in *; lia).
  rewrite re_match_day_first by done. by rewrite checked_valid.
Qed.

Lemma try_formats_mdy_dash :
  try_formats (year_last "-" m dd y)
  = Some (isoformat (if dd <=? 12 then swap_day_month d else d)).
Proof.
  pose proof (valid_date_bounds d Hvalid) as (? & ? & ? & ?).
  rewrite try_formats_dash_prefix by (unfold m in *; lia).
  destruct (Nat.leb_spec dd 12) as [Hle|Hgt].
  - rewrite re_match_day_first by (unfold dd, m in *; lia).
    by rewrite checked_swap.
  - rewrite re_match_day_first_high by (unfold dd, m in *; done || lia).
    cbn [checked]. rewrite re_match_month_first by done.
    by rewrite checked_valid.
Qed.

End Roundtrip.

End Strptime.
(** ** [parse_bloomberg_date] *)

Section ParseBloombergDate.
Context {PN : PyNumber}.

Lemma parse_bloomberg_date_text (s : string) :
  parse_bloomberg_date (Text s) = try_formats (strip s).
Proof. reflexivity. Qed.

Lemma parse_bloomberg_date_missing (v : cell) :
  isna v = true → parse_bloomberg_date v = None.
Proof. intros Hv. unfold parse_bloomberg_date. by rewrite Hv. Qed.

(** C2, as the code has it.  A date of the years 1000 to 9999 printed as
    [%Y-%m-%d], [%m/%d/%Y], [%Y/%m/%d] or [%d-%m-%Y] parses back to the
    same date in ISO form (below 1000 [%Y] prints fewer than four digits,
    which [strptime] does not read as a year).  A
    date printed as [%d/%m/%Y] or [%m-%d-%Y] does so when its day is past
    12; up to 12 the format tried before ([%m/%d/%Y], [%d-%m-%Y]) matches
    first and the result is the date with day and month exchanged (the same
    date when they are equal).  A [datetime] is printed directly; a missing
    value and a string no format matches give [None]. *)
Theorem parse_bloomberg_date_formats (d : date) :
  valid_date d = true → 1000 ≤ d_year d →
  (∀ fmt, fmt ∈ ["%Y-%m-%d"; "%m/%d/%Y"; "%Y/%m/%d"; "%d-%m-%Y"] →
     parse_bloomberg_date (Text (strftime d fmt)) = Some (isoformat d)) ∧
  (∀ fmt, fmt ∈ ["%d/%m/%Y"; "%m-%d-%Y"] →
     parse_bloomberg_date (Text (strftime d fmt))
     = Some (isoformat (if d_day d <=? 12 then swap_day_month d else d))) ∧
  parse_bloomberg_date (Stamp d) = Some (isoformat d) ∧
  (∀ v, isna v = true → parse_bloomberg_date v = None) ∧
  (∀ s, Forall (λ fmt, strptime (strip s) fmt = None) formats →
        parse_bloomberg_date (Text s) = None).
Proof.
  intros Hd Hyear.
  pose proof (valid_date_bounds d Hd) as (? & ? & ? & ?).
  destruct (strftime_formats d) as (E1 & E2 & E3 & E4 & E5 & E6); [done|lia|].
  split; [|split; [|split; [|split]]].
  - intros fmt Hfmt. rewrite parse_bloomberg_date_text.
    repeat (apply elem_of_cons in Hfmt as [->|Hfmt]);
      [..|by apply elem_of_nil in Hfmt].
    + rewrite E1, strip_year_first by (done || lia).
      by apply try_formats_ymd_dash.
    + rewrite E2, strip_year_last by (done || lia).
      by apply try_formats_mdy_slash.
    + rewrite E4, strip_year_first by (done || lia).
      by apply try_formats_ymd_slash.
    + rewrite E5, strip_year_last by (done || lia).
      by apply try_formats_dmy_dash.
  - intros fmt Hfmt. rewrite parse_bloomberg_date_text.
    repeat (apply elem_of_cons in Hfmt as [->|Hfmt]);
      [..|by apply elem_of_nil in Hfmt].
    + rewrite E3, strip_year_last by (done || lia).
      by apply try_formats_dmy_slash.
    + rewrite E6, strip_year_last by (done || lia).
      by apply try_formats_mdy_dash.
  - reflexivity.
  - apply parse_bloomberg_date_missing.
  - intros s Hnone. rewrite parse_bloomberg_date_text. unfold try_formats.
    apply first_some_none. eapply Forall_impl; [exact Hnone|].
    intros fmt ->. reflexivity.
Qed.

End ParseBloombergDate.

(** The claim as written fails on an ambiguous date: 4 March 2024 printed
    day first reads back as 3 April. *)
Lemma parse_bloomberg_date_ambiguous :
  ¬ (∀ d fmt, valid_date d = true → fmt ∈ formats →
       @parse_bloomberg_date integer_numbers (Text (strftime d fmt))
       = Some (isoformat d)).
Proof.
  intros H.
  specialize (H (mkdate 2024 3 4) "%d/%m/%Y" eq_refl ltac:(elem_tac)).
  vm_compute in H. discriminate H.
Qed.

Lemma parse_bloomberg_date_formats_witness :
  @parse_bloomberg_date integer_numbers (Text "03/04/2024") = Some "2024-03-04" ∧
  @parse_bloomberg_date integer_numbers (Text "04/03/2024") = Some "2024-04-03" ∧
  @parse_bloomberg_date integer_numbers (Text "14/03/2024") = Some "2024-03-14".
Proof.
  split; [|split].
  - exact (proj1 (@parse_bloomberg_date_formats integer_numbers
                    (mkdate 2024 3 4) eq_refl ltac:(cbn [d_year]; lia)) "%m/%d/%Y" ltac:(elem_tac)).
  - exact (proj1 (proj2 (@parse_bloomberg_date_formats integer_numbers
                    (mkdate 2024 3 4) eq_refl ltac:(cbn [d_year]; lia))) "%d/%m/%Y" ltac:(elem_tac)).
  - exact (proj1 (proj2 (@parse_bloomberg_date_formats integer_numbers
                    (mkdate 2024 3 14) eq_refl ltac:(cbn [d_year]; lia))) "%d/%m/%Y" ltac:(elem_tac)).
Defined.
(** ** [import_companies]: the returned ids and the ids of the table *)

Section Companies.
Context {PN : PyNumber} {SC : Schema}.

Lemma bind_lift_return {A B} (o : outcome A) (a : A) (k : A → M B) (c : connection) :
  o = Return a → bind (lift o) k c = k a c.
Proof. by intros ->. Qed.

Lemma bind_lift_raise {A B} (o : outcome A) (e : exn) (k : A → M B) (c : connection) :
  o = Raise e → bind (lift o) k c = (Raise e, c).
Proof. by intros ->. Qed.

(** A loop whose body only executes a statement never raises. *)
Lemma for_each_execute {A} (f : A → database → database) (xs : list A)
    (c : connection) :
  for_each (λ _ x, execute (f x)) tt xs c
  = (Return tt, {| disk := disk c; cur := foldl (λ db x, f x db) (cur c) xs |}).
Proof.
  revert c. induction xs as [|x xs IH]; intros c; cbn [for_each foldl].
  - by destruct c.
  - unfold bind at 1. cbn [execute]. by rewrite IH.
Qed.

Lemma companies_foldl (rs : list company_record) (db : database) :
  companies (foldl (λ db r, set_companies (insert_company r (companies db)) db) db rs)
  = foldl (λ t r, insert_company r t) (companies db) rs.
Proof. revert db. induction rs as [|r rs IH]; intros db; [done|]. cbn [foldl]. by rewrite IH. Qed.

Lemma numbered_snoc (rs : list company_record) (r : company_record) :
  numbered (rs ++ [r]) = numbered rs ++ [(length rs + 1, r)].
Proof. unfold numbered. rewrite imap_app. cbn. by rewrite Nat.add_0_r. Qed.

Lemma numbered_ids (rs : list company_record) : (numbered rs).*1 = seq 1 (length rs).
Proof.
  induction rs as [|r rs IH] using rev_ind; [done|].
  rewrite numbered_snoc, fmap_app, IH, length_app, seq_app. cbn.
  do 3 f_equal. lia.
Qed.

Lemma numbered_tickers (rs : list company_record) :
  (c_ticker ∘ snd) <$> numbered rs = c_ticker <$> rs.
Proof.
  induction rs as [|r rs IH] using rev_ind; [done|].
  by rewrite numbered_snoc, !fmap_app, IH.
Qed.

Lemma max_list_seq_from (a n : nat) : max_list (seq a (S n)) = a + n.
Proof.
  revert a. induction n as [|n IH]; intros a.
  - cbn. lia.
  - change (max_list (seq a (S (S n)))) with (a `max` max_list (seq (S a) (S n))).
    rewrite IH. lia.
Qed.

Lemma max_list_seq (n : nat) : max_list (seq 1 n) = n.
Proof. destruct n as [|n]; [done|]. rewrite max_list_seq_from. lia. Qed.

Lemma next_rowid_numbered (rs : list company_record) :
  next_rowid (numbered rs) = length rs + 1.
Proof. unfold next_rowid. rewrite numbered_ids, max_list_seq. lia. Qed.

(** On an empty table, rows of distinct tickers are all inserted and get
    the ids 1, 2, ... in order. *)
Lemma insert_companies_numbered (rs : list company_record) :
  NoDup (c_ticker <$> rs) →
  foldl (λ t r, insert_company r t) [] rs = numbered rs.
Proof.
  induction rs as [|r rs IH] using rev_ind; intros Hnd; [done|].
  rewrite fmap_app in Hnd. apply NoDup_app in Hnd as (Hrs & Hr & _).
  rewrite foldl_app, IH by done. cbn [foldl]. unfold insert_company.
  rewrite numbered_tickers, bool_decide_eq_false_2.
  - by rewrite next_rowid_numbered, numbered_snoc.
  - intros Hin. apply (Hr _ Hin). cbn. left.
Qed.

Lemma enumerate_ids_snoc (rs : list company_record) (r : company_record) :
  enumerate_ids (rs ++ [r]) = <[c_ticker r := length rs + 1]> (enumerate_ids rs).
Proof.
  unfold enumerate_ids. rewrite imap_app, foldl_app. cbn.
  by rewrite Nat.add_0_r.
Qed.

Lemma select_company_id_app (ticker : string) (t1 t2 : list (nat * company_record)) :
  select_company_id ticker (t1 ++ t2) =
  match select_company_id ticker t1 with
  | Some id => Some id
  | None => select_company_id ticker t2
  end.
Proof.
  unfold select_company_id. induction t1 as [|row t1 IH]; [done|]. cbn.
  destruct (String.eqb _ _); [done|]. exact IH.
Qed.

Lemma select_company_id_absent (ticker : string) (t : list (nat * company_record)) :
  ticker ∉ (c_ticker ∘ snd) <$> t → select_company_id ticker t = None.
Proof.
  unfold select_company_id. induction t as [|row t IH]; [done|]. cbn.
  intros Hnot. apply not_elem_of_cons in Hnot as [Hne Hnot].
  destruct (String.eqb_spec (c_ticker row.2) ticker); [done|]. by apply IH.
Qed.

(** With distinct tickers the dictionary and the table give every ticker
    the same id, and know the same tickers. *)
Lemma enumerate_ids_select (rs : list company_record) (ticker : string) :
  NoDup (c_ticker <$> rs) →
  enumerate_ids rs !! ticker = select_company_id ticker (numbered rs).
Proof.
  induction rs as [|r rs IH] using rev_ind; intros Hnd; [done|].
  rewrite fmap_app in Hnd. apply NoDup_app in Hnd as (Hrs & Hr & _).
  rewrite enumerate_ids_snoc, numbered_snoc, select_company_id_app.
  destruct (decide (c_ticker r = ticker)) as [<-|Hne].
  - rewrite lookup_insert_eq, select_company_id_absent.
    + unfold select_company_id. cbn. by rewrite String.eqb_refl.
    + rewrite numbered_tickers. intros Hin. apply (Hr _ Hin). left.
  - rewrite lookup_insert_ne, IH by done.
    destruct (select_company_id ticker (numbered rs)); [done|].
    unfold select_company_id. cbn.
    by destruct (String.eqb_spec (c_ticker r) ticker).
Qed.

(** C9.  When the companies table is empty and the records of
    [company_master.csv] (its rows with a ticker, sentinels left out) bear
    distinct tickers, [import_companies] returns normally, commits, leaves
    the records in the table under the ids 1, 2, ... in order, and the
    dictionary it returns gives every ticker the id the table holds for it
    (and no id to a ticker the table does not hold). *)
Theorem import_companies_ids (fs : filesystem) (df : frame)
    (records : list company_record) (c : connection) :
  fs !! "company_master.csv" = Some (CsvFile df) →
  company_records (columns df) (rows df) = Return records →
  NoDup (c_ticker <$> records) →
  companies (cur c) = [] →
  ∃ c',
    import_companies fs c = (Return (enumerate_ids records), c') ∧
    disk c' = cur c' ∧
    companies (cur c') = imap (λ i r, (i + 1, r)) records ∧
    ∀ ticker,
      enumerate_ids records !! ticker
      = select_company_id ticker (companies (cur c')).
Proof.
  intros Hfile Hrecords Hnd Hempty.
  assert (Hread : read_csv fs "company_master.csv" = Return df).
  { unfold read_csv. by rewrite Hfile. }
  eexists. split; [|split; [|split]].
  - unfold import_companies.
    rewrite (bind_lift_return _ _ _ _ Hread).
    rewrite (bind_lift_return _ _ _ _ Hrecords).
    unfold bind at 1. rewrite for_each_execute. reflexivity.
  - reflexivity.
  - cbn [cur]. rewrite companies_foldl, Hempty.
    by apply insert_companies_numbered.
  - intros ticker. cbn [cur]. rewrite companies_foldl, Hempty.
    rewrite insert_companies_numbered by done.
    by apply enumerate_ids_select.
Qed.

End Companies.

Lemma import_companies_ids_witness :
  ∃ c',
    import_companies sample_company_files (connect empty_database)
    = (Return (enumerate_ids sample_records), c') ∧
    (companies (disk c')).*1 = [1; 2] ∧
    enumerate_ids sample_records !! "VOD LN Equity" = Some 2 ∧
    select_company_id "VOD LN Equity" (companies (cur c')) = Some 2.
Proof.
  assert (Hfile : sample_company_files !! "company_master.csv"
                  = Some (CsvFile sample_company_master)) by reflexivity.
  assert (Hrecords : company_records (columns sample_company_master)
                       (rows sample_company_master) = Return sample_records)
    by reflexivity.
  assert (Hnd : NoDup (c_ticker <$> sample_records)) by elem_tac.
  destruct (@import_companies_ids integer_numbers sample_company_files
              sample_company_master sample_records (connect empty_database)
              Hfile Hrecords Hnd eq_refl)
    as (c' & Hrun & Hdisk & Htable & Hids).
  exists c'. split; [exact Hrun|]. split; [by rewrite Hdisk, Htable|].
  split; [reflexivity|]. rewrite <- Hids. reflexivity.
Defined.
(** ** Rows the importers skip *)

Section SkippedRows.
Context {PN : PyNumber} {SC : Schema}.

Lemma getitem_row_get (cols row : list cell) (key : string) :
  Text key ∈ cols → getitem cols row key = Return (row_get cols row key).
Proof.
  intros Hin. unfold getitem, row_get.
  assert (Hidx : is_Some (index_of (Text key) cols)).
  { induction cols as [|x cols IH]; [by apply elem_of_nil in Hin|].
    cbn [index_of]. case_bool_decide; [done|].
    apply elem_of_cons in Hin as [Heq|Hin]; [congruence|].
    apply fmap_is_Some. by apply IH. }
  by destruct Hidx as [i ->].
Qed.

Lemma select_company_id_present (ticker : string) (t : list (nat * company_record)) :
  ticker ∈ (c_ticker ∘ snd) <$> t → is_Some (select_company_id ticker t).
Proof.
  unfold select_company_id. induction t as [|row t IH]; [by intros ?%elem_of_nil|].
  cbn. intros [Heq|Hin]%elem_of_cons.
  - cbn [compose] in Heq. rewrite <- Heq, String.eqb_refl. done.
  - destruct (String.eqb _ _); [done|]. by apply IH.
Qed.

Lemma resolve_company_unknown (d : gmap string nat)
    (t : list (nat * company_record)) (ticker : string) :
  dict_sound d t → select_company_id ticker t = None →
  resolve_company d t ticker = None.
Proof.
  intros Hsound Hnone. unfold resolve_company.
  destruct (d !! ticker) as [[|n]|] eqn:Hd; try done.
  apply Hsound, select_company_id_present in Hd as [id Hid]. congruence.
Qed.

Lemma resolve_and_cache_unknown (d : gmap string nat)
    (t : list (nat * company_record)) (ticker : string) :
  dict_sound d t → select_company_id ticker t = None →
  resolve_and_cache d t ticker = (d, None).
Proof.
  intros Hsound Hnone. unfold resolve_and_cache.
  destruct (d !! ticker) as [[|n]|] eqn:Hd; rewrite ?Hnone; try done.
  apply Hsound, select_company_id_present in Hd as [id Hid]. congruence.
Qed.

Lemma for_each_skip {A B} (body : B → A → M B) (acc : B) (x : A) (xs : list A)
    (c : connection) :
  body acc x c = (Return acc, c) →
  for_each body acc (x :: xs) c = for_each body acc xs c.
Proof. intros Hskip. cbn [for_each]. unfold bind. by rewrite Hskip. Qed.

Lemma membership_step_skip (d : gmap string nat) (cols row : list cell)
    (c : connection) :
  dict_sound d (companies (cur c)) →
  Text "Ticker" ∈ cols → Text "index_id" ∈ cols → Text "as_of_date" ∈ cols →
  select_company_id (strip (str (row_get cols row "Ticker"))) (companies (cur c)) = None
  ∨ parse_bloomberg_date (row_get cols row "as_of_date") = None →
  membership_step d cols tt row c = (Return tt, c).
Proof.
  intros Hsound Ht Hi Hd Hskip.
  assert (Hvalues : membership_values d (companies (cur c)) cols row = Return None).
  { unfold membership_values.
    rewrite !getitem_row_get by done. cbn [bindO].
    destruct Hskip as [Hticker|Hdate].
    - by rewrite resolve_company_unknown.
    - destruct (resolve_company _ _ _); [|done]. by rewrite Hdate. }
  unfold membership_step, bind, companies_now, lift. by rewrite Hvalues.
Qed.

Lemma price_row_step_skip (df : sheet) (ticker_cols : list (string * price_cols))
    (d : gmap string nat) (row_idx : nat) (c : connection) :
  row_idx < nrows df → 0 < ncols df →
  parse_bloomberg_date (at_ df row_idx 0) = None →
  price_row_step df ticker_cols d row_idx c = (Return d, c).
Proof.
  intros Hr Hc Hdate. unfold price_row_step, bind, lift, iloc.
  rewrite (proj2 (Nat.ltb_lt _ _) Hr), (proj2 (Nat.ltb_lt _ _) Hc).
  cbn [andb]. by rewrite Hdate.
Qed.

Lemma price_ticker_step_skip (df : sheet) (row_idx : nat) (price_date : string)
    (d : gmap string nat) (ticker : string) (cols : price_cols) (c : connection) :
  dict_sound d (companies (cur c)) →
  select_company_id ticker (companies (cur c)) = None →
  price_ticker_step df row_idx price_date d (ticker, cols) c = (Return d, c).
Proof.
  intros Hsound Hnone. unfold price_ticker_step, bind, companies_now, lift, price_values.
  by rewrite resolve_and_cache_unknown.
Qed.

Lemma financial_row_step_skip (df : sheet) (period_type : string)
    (ticker_fields : list (string * list (string * nat)))
    (d : gmap string nat) (row_idx : nat) (c : connection) :
  row_idx < nrows df → 0 < ncols df →
  parse_bloomberg_date (at_ df row_idx 0) = None →
  financial_row_step df period_type ticker_fields d row_idx c = (Return d, c).
Proof.
  intros Hr Hc Hdate. unfold financial_row_step, bind, lift, iloc.
  rewrite (proj2 (Nat.ltb_lt _ _) Hr), (proj2 (Nat.ltb_lt _ _) Hc).
  cbn [andb]. by rewrite Hdate.
Qed.

Lemma financial_ticker_step_skip (df : sheet) (row_idx : nat)
    (period_end_date period_type : string) (d : gmap string nat)
    (ticker : string) (field_cols : list (string * nat)) (c : connection) :
  dict_sound d (companies (cur c)) →
  select_company_id ticker (companies (cur c)) = None →
  financial_ticker_step df row_idx period_end_date period_type d
    (ticker, field_cols) c = (Return d, c).
Proof.
  intros Hsound Hnone.
  unfold financial_ticker_step, bind, companies_now, lift, financial_values.
  by rewrite resolve_and_cache_unknown.
Qed.

Lemma rate_row_step_skip (df : sheet) (row_idx : nat) (c : connection) :
  row_idx < nrows df → 0 < ncols df →
  parse_bloomberg_date (at_ df row_idx 0) = None →
  rate_row_step df tt row_idx c = (Return tt, c).
Proof.
  intros Hr Hc Hdate. unfold rate_row_step, bind, lift, iloc.
  rewrite (proj2 (Nat.ltb_lt _ _) Hr), (proj2 (Nat.ltb_lt _ _) Hc).
  cbn [andb]. by rewrite Hdate.
Qed.

(** C6.  With a dictionary that knows only tickers of the companies table,
    a turn of a loop for a row whose date does not parse, or for a ticker
    the table does not hold, returns normally and leaves the connection
    (the open transaction and the database file) as it was, and the loop
    goes on with the rest: in the membership loop, in the row and ticker
    loops of the weekly prices and of the financials, and in the row loop
    of the interest rates. *)
Theorem skipped_rows_leave_database (d : gmap string nat) (c : connection)
    (cols row : list cell) (rest : list (list cell))
    (df : sheet) (row_idx : nat) (rows_left : list nat)
    (ticker_cols : list (string * price_cols)) (pcols : price_cols)
    (ticker_fields : list (string * list (string * nat)))
    (field_cols : list (string * nat))
    (ticker price_date period_type : string) :
  dict_sound d (companies (cur c)) →
  (Text "Ticker" ∈ cols → Text "index_id" ∈ cols → Text "as_of_date" ∈ cols →
   select_company_id (strip (str (row_get cols row "Ticker"))) (companies (cur c)) = None
   ∨ parse_bloomberg_date (row_get cols row "as_of_date") = None →
   membership_step d cols tt row c = (Return tt, c) ∧
   for_each (membership_step d cols) tt (row :: rest) c
   = for_each (membership_step d cols) tt rest c) ∧
  (row_idx < nrows df → 0 < ncols df →
   parse_bloomberg_date (at_ df row_idx 0) = None →
   (price_row_step df ticker_cols d row_idx c = (Return d, c) ∧
    for_each (price_row_step df ticker_cols) d (row_idx :: rows_left) c
    = for_each (price_row_step df ticker_cols) d rows_left c) ∧
   (financial_row_step df period_type ticker_fields d row_idx c = (Return d, c) ∧
    for_each (financial_row_step df period_type ticker_fields) d (row_idx :: rows_left) c
    = for_each (financial_row_step df period_type ticker_fields) d rows_left c) ∧
   (rate_row_step df tt row_idx c = (Return tt, c) ∧
    for_each (rate_row_step df) tt (row_idx :: rows_left) c
    = for_each (rate_row_step df) tt rows_left c)) ∧
  (select_company_id ticker (companies (cur c)) = None →
   (price_ticker_step df row_idx price_date d (ticker, pcols) c = (Return d, c) ∧
    for_each (price_ticker_step df row_idx price_date) d ((ticker, pcols) :: ticker_cols) c
    = for_each (price_ticker_step df row_idx price_date) d ticker_cols c) ∧
   (financial_ticker_step df row_idx price_date period_type d (ticker, field_cols) c
    = (Return d, c) ∧
    for_each (financial_ticker_step df row_idx price_date period_type) d
      ((ticker, field_cols) :: ticker_fields) c
    = for_each (financial_ticker_step df row_idx price_date period_type) d
        ticker_fields c)).
Proof.
  intros Hsound. split; [|split].
  - intros Ht Hi Hd Hskip.
    pose proof (membership_step_skip d cols row c Hsound Ht Hi Hd Hskip) as Hstep.
    split; [exact Hstep|]. by apply for_each_skip.
  - intros Hr Hc Hdate. split; [|split].
    + pose proof (price_row_step_skip df ticker_cols d row_idx c Hr Hc Hdate) as Hstep.
      split; [exact Hstep|]. by apply for_each_skip.
    + pose proof (financial_row_step_skip df period_type ticker_fields d row_idx c
                    Hr Hc Hdate) as Hstep.
      split; [exact Hstep|]. by apply for_each_skip.
    + pose proof (rate_row_step_skip df row_idx c Hr Hc Hdate) as Hstep.
      split; [exact Hstep|]. by apply for_each_skip.
  - intros Hnone. split.
    + pose proof (price_ticker_step_skip df row_idx price_date d ticker pcols c
                    Hsound Hnone) as Hstep.
      split; [exact Hstep|]. by apply for_each_skip.
    + pose proof (financial_ticker_step_skip df row_idx price_date period_type d
                    ticker field_cols c Hsound Hnone) as Hstep.
      split; [exact Hstep|]. by apply for_each_skip.
Qed.

Lemma enumerate_ids_key (rs : list company_record) (ticker : string) (id : nat) :
  enumerate_ids rs !! ticker = Some id → ticker ∈ c_ticker <$> rs.
Proof.
  induction rs as [|r rs IH] using rev_ind; [done|].
  rewrite enumerate_ids_snoc, fmap_app, elem_of_app.
  destruct (decide (c_ticker r = ticker)) as [<-|Hne].
  - intros _. right. cbn. left.
  - rewrite lookup_insert_ne by done. auto.
Qed.

Lemma insert_company_tickers (r : company_record) (t : list (nat * company_record))
    (ticker : string) :
  ticker = c_ticker r ∨ ticker ∈ (c_ticker ∘ snd) <$> t →
  ticker ∈ (c_ticker ∘ snd) <$> insert_company r t.
Proof.
  unfold insert_company. case_bool_decide as Hin.
  - by intros [->|?].
  - rewrite fmap_app, elem_of_app. cbn. intros [->|?]; [right; left|by left].
Qed.

Lemma insert_companies_tickers (rs : list company_record)
    (t : list (nat * company_record)) (ticker : string) :
  ticker ∈ c_ticker <$> rs ∨ ticker ∈ (c_ticker ∘ snd) <$> t →
  ticker ∈ (c_ticker ∘ snd) <$> foldl (λ t r, insert_company r t) t rs.
Proof.
  revert t. induction rs as [|r rs IH]; intros t; cbn [foldl].
  - by intros [?%elem_of_nil|?].
  - rewrite fmap_cons, elem_of_cons. intros Hin. apply IH.
    destruct Hin as [[->|Hin]|Hin]; [|by left|];
      right; apply insert_company_tickers; auto.
Qed.

(** The dictionary [import_companies] returns knows only tickers of the
    table it leaves, whatever the table held before. *)
Lemma import_companies_dict_sound (fs : filesystem) (c c' : connection)
    (d : gmap string nat) :
  import_companies fs c = (Return d, c') → dict_sound d (companies (cur c')).
Proof.
  unfold import_companies.
  destruct (read_csv fs "company_master.csv") as [df|e] eqn:Hread;
    [rewrite (bind_lift_return (Return df) df) by done
    |rewrite (bind_lift_raise (Raise e) e) by done; discriminate].
  destruct (company_records (columns df) (rows df)) as [records|e] eqn:Hrec;
    [rewrite (bind_lift_return (Return records) records) by done
    |rewrite (bind_lift_raise (Raise e) e) by done; discriminate].
  unfold bind at 1. rewrite for_each_execute.
  intros [= <- <-] ticker n Hd. cbn [cur]. rewrite companies_foldl.
  apply insert_companies_tickers. left. by eapply enumerate_ids_key.
Qed.

End SkippedRows.

Lemma skipped_rows_leave_database_witness :
  membership_step {[ "AAPL US Equity" := 1 ]} sample_snapshot_labels tt
    sample_unknown_row (connect sample_database)
  = (Return tt, connect sample_database) ∧
  rate_row_step sample_rates_sheet tt 1 (connect sample_database)
  = (Return tt, connect sample_database).
Proof.
  assert (Hsound : dict_sound ({[ "AAPL US Equity" := 1 ]} : gmap string nat)
                     (companies (cur (connect sample_database)))).
  { intros ticker n Hd. apply lookup_singleton_Some in Hd as [<- _]. elem_tac. }
  pose proof (@skipped_rows_leave_database integer_numbers natural_keys
                {[ "AAPL US Equity" := 1 ]} (connect sample_database)
                sample_snapshot_labels sample_unknown_row []
                sample_rates_sheet 1 [] [] {| price_col := 1; return_col := 2 |}
                [] [] "ZZZZ US Equity" "2024-12-31" "ANNUAL" Hsound)
    as (Hmembership & Hrows & _).
  split.
  - apply Hmembership; [elem_tac..|]. left. reflexivity.
  - apply Hrows; [vm_compute; lia..|reflexivity].
Defined.
(** ** Tables with a key: [INSERT OR IGNORE] and [drop_duplicates] *)

Section KeyedTables.
Context {R K : Type} `{EqDecision K} (key : R → K).

Lemma insert_or_ignore_keys (r : R) (t : list R) (k : K) :
  k ∈ key <$> insert_or_ignore key r t ↔ k = key r ∨ k ∈ key <$> t.
Proof.
  unfold insert_or_ignore. case_bool_decide as Hin.
  - split; [auto|]. by intros [->|?].
  - rewrite fmap_app, elem_of_app. cbn. rewrite list_elem_of_singleton. tauto.
Qed.

Lemma insert_or_ignore_NoDup (r : R) (t : list R) :
  NoDup (key <$> t) → NoDup (key <$> insert_or_ignore key r t).
Proof.
  intros Hnd. unfold insert_or_ignore. case_bool_decide as Hin; [done|].
  rewrite fmap_app. apply NoDup_app. split; [done|]. split.
  - intros k Hk ->%list_elem_of_singleton. done.
  - apply NoDup_singleton.
Qed.

Lemma insert_or_ignore_rows (r r' : R) (t : list R) :
  r' ∈ insert_or_ignore key r t → r' = r ∨ r' ∈ t.
Proof.
  unfold insert_or_ignore. case_bool_decide; [auto|].
  rewrite elem_of_app, list_elem_of_singleton. tauto.
Qed.

Lemma insert_all_keys (rs t : list R) (k : K) :
  k ∈ key <$> foldl (λ acc r, insert_or_ignore key r acc) t rs
  ↔ k ∈ key <$> rs ∨ k ∈ key <$> t.
Proof.
  revert t. induction rs as [|r rs IH]; intros t; cbn [foldl].
  - rewrite fmap_nil, elem_of_nil. tauto.
  - rewrite IH, insert_or_ignore_keys, fmap_cons, elem_of_cons. tauto.
Qed.

Lemma insert_all_NoDup (rs t : list R) :
  NoDup (key <$> t) →
  NoDup (key <$> foldl (λ acc r, insert_or_ignore key r acc) t rs).
Proof.
  revert t. induction rs as [|r rs IH]; intros t Hnd; [done|].
  cbn [foldl]. by apply IH, insert_or_ignore_NoDup.
Qed.

Lemma insert_all_rows (rs t : list R) (r' : R) :
  r' ∈ foldl (λ acc r, insert_or_ignore key r acc) t rs → r' ∈ rs ∨ r' ∈ t.
Proof.
  revert t. induction rs as [|r rs IH]; intros t; cbn [foldl]; [auto|].
  intros [?|[->|?]%insert_or_ignore_rows]%IH; rewrite elem_of_cons; auto.
Qed.

(** Rows whose keys the table holds leave it as it is. *)
Lemma insert_all_present (rs t : list R) :
  Forall (λ r, key r ∈ key <$> t) rs →
  foldl (λ acc r, insert_or_ignore key r acc) t rs = t.
Proof.
  induction 1 as [|r rs Hr _ IH]; [done|]. cbn [foldl].
  unfold insert_or_ignore at 2. by rewrite bool_decide_eq_true_2.
Qed.

(** Inserting the same rows a second time changes nothing. *)
Lemma insert_all_idempotent (rs t : list R) :
  let t' := foldl (λ acc r, insert_or_ignore key r acc) t rs in
  foldl (λ acc r, insert_or_ignore key r acc) t' rs = t'.
Proof.
  intros t'. apply insert_all_present, Forall_forall. intros r Hr.
  unfold t'. apply insert_all_keys. left. by apply list_elem_of_fmap_2.
Qed.

End KeyedTables.
(** ** The snapshot consolidator *)

Section ConsolidatorProofs.
Context {PN : PyNumber}.

Lemma index_of_Some (key : cell) (l : list cell) (i : nat) :
  index_of key l = Some i → l !! i = Some key.
Proof.
  revert i. induction l as [|x l IH]; intros i; [done|]. cbn [index_of].
  case_bool_decide as Hx.
  - intros [= <-]. by rewrite Hx.
  - destruct (index_of key l) as [j|]; [|done]. intros [= <-]. by apply IH.
Qed.

Lemma index_of_None (key : cell) (l : list cell) :
  index_of key l = None → key ∉ l.
Proof.
  induction l as [|x l IH]; [intros _; apply not_elem_of_nil|]. cbn [index_of].
  case_bool_decide as Hx; [done|].
  destruct (index_of key l) as [j|]; [done|]. intros _.
  apply not_elem_of_cons. split; [congruence|]. by apply IH.
Qed.

(** A row of [pd.concat], read through the labels of the result, is the
    row of its frame read through the labels of the frame. *)
Lemma row_get_reindex (labels cols row : list cell) (key : string) :
  (Text key ∈ cols → Text key ∈ labels) →
  row_get labels
    ((λ c, match index_of c cols with
           | Some i => nth i row Missing
           | None => Missing
           end) <$> labels) key
  = row_get cols row key.
Proof.
  intros Hsub. unfold row_get at 1.
  destruct (index_of (Text key) labels) as [i|] eqn:Hi.
  - apply index_of_Some in Hi.
    erewrite nth_lookup_Some; [reflexivity|].
    by rewrite list_lookup_fmap, Hi.
  - apply index_of_None in Hi. unfold row_get.
    destruct (index_of (Text key) cols) as [j|] eqn:Hj; [|done].
    apply index_of_Some, list_elem_of_lookup_2 in Hj. by apply Hsub in Hj.
Qed.

Lemma concat_labels_elem (dfs : list frame) (c : cell) :
  c ∈ concat_labels dfs ↔ ∃ df, df ∈ dfs ∧ c ∈ columns df.
Proof.
  unfold concat_labels.
  assert (Hgo : ∀ l acc,
            c ∈ foldl (λ acc c, if bool_decide (c ∈ acc) then acc else acc ++ [c]) acc l
            ↔ c ∈ l ∨ c ∈ acc).
  { induction l as [|x l IH]; intros acc; cbn [foldl].
    - rewrite elem_of_nil. tauto.
    - rewrite IH, elem_of_cons. case_bool_decide as Hx.
      + split; [tauto|]. intros [[->|?]|?]; auto.
      + rewrite elem_of_app, list_elem_of_singleton. tauto. }
  rewrite Hgo, elem_of_nil, list_elem_of_bind. split.
  - intros [(df & ? & ?)|[]]. eauto.
  - intros (df & ? & ?). left. eauto.
Qed.

Lemma snapshots_Forall2 (fs : filesystem) (files : list string) (dfs : list frame) :
  snapshots fs files = Return dfs →
  Forall2 (λ name df, snapshot_of_file fs name = Return df) files dfs.
Proof.
  revert dfs. induction files as [|f files IH]; intros dfs; cbn [snapshots].
  - intros [= <-]. constructor.
  - destruct (snapshot_of_file fs f) as [df|e] eqn:Hf; [|done]. cbn [bindO].
    destruct (snapshots fs files) as [dfs'|e]; [|done]. cbn [bindO].
    intros [= <-]. constructor; [done|]. by apply IH.
Qed.

(** *** Reading a row through its labels *)

Lemma row_get_cons_ne (c v : cell) (cols row : list cell) (key : string) :
  c ≠ Text key → row_get (c :: cols) (v :: row) key = row_get cols row key.
Proof.
  intros Hne. unfold row_get. cbn [index_of].
  rewrite bool_decide_eq_false_2 by done.
  by destruct (index_of (Text key) cols).
Qed.

Lemma row_get_cons_eq (v : cell) (cols row : list cell) (key : string) :
  row_get (Text key :: cols) (v :: row) key = v.
Proof. unfold row_get. cbn [index_of]. by rewrite bool_decide_eq_true_2. Qed.

Lemma row_get_absent (cols row : list cell) (key : string) :
  Text key ∉ cols → row_get cols row key = Missing.
Proof.
  intros Hnot. unfold row_get.
  destruct (index_of (Text key) cols) as [i|] eqn:Hi; [|done].
  by apply index_of_Some, list_elem_of_lookup_2 in Hi.
Qed.

Lemma index_of_present (key : cell) (l : list cell) :
  key ∈ l → ∃ i, index_of key l = Some i.
Proof.
  intros Hin. destruct (index_of key l) as [i|] eqn:Hi; [by exists i|].
  by apply index_of_None in Hi.
Qed.

(** *** The columns [df[keep]] selects *)

Lemma occurrences_from_head (i : nat) (labels : list cell) (label : string) :
  head (occurrences_from i labels label)
  = (λ j, i + j) <$> index_of (Text label) labels.
Proof.
  revert i. induction labels as [|c labels IH]; intros i; [done|].
  cbn [occurrences_from index_of]. case_bool_decide.
  - cbn. f_equal. lia.
  - rewrite IH. destruct (index_of (Text label) labels) as [j|]; [|done].
    cbn. f_equal. lia.
Qed.

Lemma occurrences_head (labels : list cell) (label : string) :
  head (occurrences labels label) = index_of (Text label) labels.
Proof.
  unfold occurrences. rewrite occurrences_from_head.
  by destruct (index_of (Text label) labels).
Qed.

Lemma occurrences_from_bound (i : nat) (labels : list cell) (label : string) :
  Forall (λ j, i ≤ j) (occurrences_from i labels label) ∧
  NoDup (occurrences_from i labels label).
Proof.
  revert i. induction labels as [|c labels IH]; intros i.
  - split; [constructor|apply NoDup_nil_2].
  - cbn [occurrences_from]. destruct (IH (S i)) as [Hb Hnd].
    assert (Hb' : Forall (λ j, i ≤ j) (occurrences_from (S i) labels label)).
    { eapply Forall_impl; [exact Hb|]. intros j Hj. cbn in Hj. lia. }
    case_bool_decide; [|done]. split; [by constructor|].
    apply NoDup_cons. split; [|done].
    intros Hin. eapply Forall_forall in Hb; [|exact Hin]. cbn in Hb. lia.
Qed.

(** A row of [df[keep]] with a function of the label and the position in
    each cell, read through its labels: the first column of the label. *)
Lemma row_get_selected (labels : list cell) (keep : list string)
    (g : string * nat → cell) (key : string) :
  row_get ((λ li, Text li.1) <$> selected_columns labels keep)
    (g <$> selected_columns labels keep) key
  = match index_of (Text key) labels with
    | Some i => if bool_decide (key ∈ keep) then g (key, i) else Missing
    | None => Missing
    end.
Proof.
  induction keep as [|k keep IH].
  - cbn. rewrite bool_decide_eq_false_2 by apply not_elem_of_nil.
    by destruct (index_of (Text key) labels).
  - unfold selected_columns. cbn [mbind list_bind]. fold (selected_columns labels keep).
    rewrite !fmap_app, <- !list_fmap_compose.
    pose proof (occurrences_head labels k) as Hhead.
    destruct (decide (key = k)) as [->|Hne].
    + rewrite (bool_decide_eq_true_2 (k ∈ k :: keep)) by left.
      destruct (occurrences labels k) as [|i occ]; cbn [head] in Hhead.
      * cbn [fmap list_fmap app]. rewrite IH, <- Hhead. done.
      * rewrite <- Hhead. cbn [fmap list_fmap app compose fst].
        apply row_get_cons_eq.
    + assert (Hskip : ∀ occ,
                row_get (((λ li : string * nat, Text li.1) ∘ (λ i, (k, i)) <$> occ) ++
                         ((λ li, Text li.1) <$> selected_columns labels keep))
                  ((g ∘ (λ i, (k, i)) <$> occ) ++ (g <$> selected_columns labels keep)) key
                = row_get ((λ li, Text li.1) <$> selected_columns labels keep)
                    (g <$> selected_columns labels keep) key).
      { induction occ as [|i occ IHocc]; [done|].
        cbn [fmap list_fmap app compose fst]. rewrite row_get_cons_ne; [done|].
        congruence. }
      rewrite Hskip, IH.
      destruct (index_of (Text key) labels); [|done].
      destruct (decide (key ∈ keep)) as [Hin|Hnot].
      * rewrite !bool_decide_eq_true_2; [done|by right|done].
      * rewrite !bool_decide_eq_false_2; [done| |done].
        intros [?|?]%elem_of_cons; done.
Qed.

Lemma selected_columns_labels (labels : list cell) (keep : list string) (c : cell) :
  c ∈ (λ li : string * nat, Text li.1) <$> selected_columns labels keep →
  ∃ label, c = Text label ∧ label ∈ keep ∧ Text label ∈ labels.
Proof.
  intros ([label i] & -> & Hin)%list_elem_of_fmap.
  apply list_elem_of_bind in Hin as (k & (j & [= -> ->] & Hj)%list_elem_of_fmap & Hk).
  exists k. split; [done|]. split; [done|].
  assert (is_Some (head (occurrences labels k))) as [i0 Hi0].
  { destruct (occurrences labels k); [by apply elem_of_nil in Hj|by eexists]. }
  rewrite occurrences_head in Hi0.
  by apply index_of_Some, list_elem_of_lookup_2 in Hi0.
Qed.

Lemma selected_columns_elem (labels : list cell) (keep : list string) (label : string) :
  label ∈ keep → Text label ∈ labels →
  Text label ∈ (λ li : string * nat, Text li.1) <$> selected_columns labels keep.
Proof.
  intros Hkeep Hin.
  destruct (decide (Text label ∈ (λ li : string * nat, Text li.1) <$>
                                 selected_columns labels keep)) as [|Hnot]; [done|].
  pose proof (row_get_selected labels keep (λ _, Text "") label) as Hget.
  rewrite row_get_absent in Hget by done.
  destruct (index_of_present _ _ Hin) as [i Hi].
  by rewrite Hi, bool_decide_eq_true_2 in Hget.
Qed.

Lemma selected_columns_NoDup (labels : list cell) (keep : list string) :
  NoDup keep → (∀ label, label ∈ keep → repeated labels label = false) →
  NoDup ((λ li : string * nat, Text li.1) <$> selected_columns labels keep).
Proof.
  induction 1 as [|k keep Hk Hnd IH]; intros Hrep; [apply NoDup_nil_2|].
  unfold selected_columns. cbn [mbind list_bind]. fold (selected_columns labels keep).
  rewrite fmap_app. apply NoDup_app. split; [|split].
  - specialize (Hrep k ltac:(left)). unfold repeated in Hrep.
    apply bool_decide_eq_false in Hrep.
    destruct (occurrences labels k) as [|i [|j occ]]; cbn in *;
      [apply NoDup_nil_2|apply NoDup_singleton|lia].
  - intros c Hc (label & -> & Hin & _)%selected_columns_labels.
    apply list_elem_of_fmap in Hc as ([k' i] & [= ->] & Hki).
    apply list_elem_of_fmap in Hki as (j & [= -> ->] & _). done.
  - apply IH. intros label Hin. apply Hrep. by right.
Qed.

(** *** The frame of one file *)

(** The frame appended for a file, when the file is read to the end. *)
Lemma snapshot_of_file_Return (fs : filesystem) (name : string) (df : frame) :
  snapshot_of_file fs name = Return df →
  ∃ year f,
    search_year name = Some year ∧ fs !! name = Some (ExcelTable f) ∧
    Text "Ticker" ∈ stripped_labels f ∧
    repeated (stripped_labels f) "Ticker" = false ∧
    repeated (stripped_labels f) "Name" = false ∧
    let keep := filter (λ c, bool_decide (Text c ∈ stripped_labels f)) kept_labels in
    let selected := selected_columns (stripped_labels f) keep in
    df = {| columns :=
              Text "index_id" :: Text "as_of_date" :: ((λ li, Text li.1) <$> selected);
            rows :=
              snapshot_row (take_chars 3 name) (str_nat year +:+ "-12-31") selected <$>
              filter (λ row, notna (row_get (stripped_labels f) row "Ticker")) (rows f) |}.
Proof.
  unfold snapshot_of_file.
  destruct (search_year name) as [year|]; [|done].
  unfold read_excel_table.
  destruct (fs !! name) as [[|?|f| |]|] eqn:Hfile; try done. cbn [bindO].
  fold (stripped_labels f).
  case_bool_decide as Hticker; [|done]. cbn [negb].
  destruct (repeated (stripped_labels f) "Ticker") eqn:H1; [done|].
  destruct (repeated (stripped_labels f) "Name") eqn:H2; [done|]. cbn [orb].
  intros [= <-]. exists year, f. do 2 (split; [done|]).
  split; [|done].
  apply list_elem_of_filter in Hticker as [Hin _]. by apply bool_decide_unpack in Hin.
Qed.

Lemma kept_labels_filter (labels : list cell) (label : string) :
  label ∈ filter (λ c, bool_decide (Text c ∈ labels)) kept_labels ↔
  label ∈ kept_labels ∧ Text label ∈ labels.
Proof.
  rewrite list_elem_of_filter. split.
  - intros [?%bool_decide_unpack ?]. done.
  - intros [? ?]. split; [by apply bool_decide_pack|done].
Qed.

(** What a row of that frame holds, read through the labels of the
    frame. *)
Lemma snapshot_row_cells (index_id as_of_date : string) (labels : list cell)
    (src : list cell) :
  let keep := filter (λ c, bool_decide (Text c ∈ labels)) kept_labels in
  let selected := selected_columns labels keep in
  let cols := Text "index_id" :: Text "as_of_date" :: ((λ li, Text li.1) <$> selected) in
  let row := snapshot_row index_id as_of_date selected src in
  row_get cols row "index_id" = Text index_id ∧
  row_get cols row "as_of_date" = Text as_of_date ∧
  (Text "Ticker" ∈ labels →
   row_get cols row "Ticker" = Text (strip (str (row_get labels src "Ticker")))) ∧
  row_get cols row "Name" =
    (if bool_decide (Text "Name" ∈ labels)
     then Text (strip (str (row_get labels src "Name"))) else Missing) ∧
  (∀ label, label ∈ ["Weight"; "Shares"; "Price"] →
     row_get cols row label = row_get labels src label) ∧
  (∀ key, Text key ∉ cols → row_get cols row key = Missing) ∧
  length row = length cols.
Proof.
  intros keep selected cols row.
  assert (Hkept : ∀ label, label ∈ kept_labels →
            row_get cols row label =
            match index_of (Text label) labels with
            | Some i =>
                if bool_decide (label = "Ticker") || bool_decide (label = "Name")
                then Text (strip (str (nth i src Missing))) else nth i src Missing
            | None => Missing
            end).
  { intros label Hlabel. unfold cols, row, snapshot_row.
    rewrite !row_get_cons_ne.
    2:{ intros [= <-]. revert Hlabel. unfold kept_labels. elem_tac. }
    2:{ intros [= <-]. revert Hlabel. unfold kept_labels. elem_tac. }
    rewrite (row_get_selected labels keep _ label).
    destruct (index_of (Text label) labels) as [i|] eqn:Hi; [|done].
    rewrite bool_decide_eq_true_2; [done|].
    apply kept_labels_filter. split; [done|].
    by apply index_of_Some, list_elem_of_lookup_2 in Hi. }
  split; [apply row_get_cons_eq|].
  split; [unfold cols, row, snapshot_row; rewrite row_get_cons_ne by done;
          apply row_get_cons_eq|].
  split; [|split; [|split; [|split]]].
  - intros Hin. rewrite Hkept by (unfold kept_labels; elem_tac).
    unfold row_get. destruct (index_of_present _ _ Hin) as [i ->]. done.
  - rewrite Hkept by (unfold kept_labels; elem_tac). unfold row_get.
    destruct (decide (Text "Name" ∈ labels)) as [Hin|Hnot].
    + rewrite (bool_decide_eq_true_2 _ Hin).
      destruct (index_of_present _ _ Hin) as [i ->]. done.
    + rewrite (bool_decide_eq_false_2 _ Hnot).
      destruct (index_of (Text "Name") labels) as [i|] eqn:Hi; [|done].
      by apply index_of_Some, list_elem_of_lookup_2 in Hi.
  - intros label Hlabel.
    rewrite Hkept
      by (unfold kept_labels; repeat (apply elem_of_cons in Hlabel as [->|Hlabel]);
          [elem_tac..|by apply elem_of_nil in Hlabel]).
    unfold row_get. destruct (index_of (Text label) labels) as [i|]; [|done].
    repeat (apply elem_of_cons in Hlabel as [->|Hlabel]);
      [done..|by apply elem_of_nil in Hlabel].
  - intros key. apply row_get_absent.
  - unfold row, cols, snapshot_row. cbn [length]. by rewrite !length_fmap.
Qed.

(** The rows a file contributes are its rows that have a ticker. *)
Lemma snapshot_of_file_rows (fs : filesystem) (name : string) (df : frame)
    (row : list cell) :
  snapshot_of_file fs name = Return df → row ∈ rows df →
  ∃ year f src,
    search_year name = Some year ∧ fs !! name = Some (ExcelTable f) ∧
    src ∈ rows f ∧ consolidated_from name year f src (columns df) row.
Proof.
  intros (year & f & Hyear & Hfile & Hticker & _ & _ & ->)%snapshot_of_file_Return.
  cbn [rows columns].
  intros (src & -> & [Hna Hsrc]%list_elem_of_filter)%list_elem_of_fmap.
  exists year, f, src. do 3 (split; [done|]).
  destruct (snapshot_row_cells (take_chars 3 name) (str_nat year +:+ "-12-31")
              (stripped_labels f) src) as (H1 & H2 & H3 & H4 & H5 & _).
  split; [by apply Is_true_true|]. split; [done|]. split; [done|].
  split; [by apply H3|]. split; done.
Qed.


(** The labels of the frame of a file, and the length of its rows. *)
Lemma snapshot_of_file_shape (fs : filesystem) (name : string) (df : frame) :
  snapshot_of_file fs name = Return df →
  Text "index_id" ∈ columns df ∧ Text "as_of_date" ∈ columns df ∧
  Text "Ticker" ∈ columns df ∧
  (∀ c, c ∈ columns df →
        c = Text "index_id" ∨ c = Text "as_of_date" ∨
        ∃ label, c = Text label ∧ label ∈ kept_labels) ∧
  Forall (λ row, length row = length (columns df)) (rows df) ∧
  (∀ f, fs !! name = Some (ExcelTable f) → plain_export f → NoDup (columns df)).
Proof.
  intros (year & f & Hyear & Hfile & Hticker & _ & _ & ->)%snapshot_of_file_Return.
  cbn [rows columns]. split; [left|]. split; [right; left|].
  assert (Hsel : ∀ c,
            c ∈ (λ li : string * nat, Text li.1) <$>
                selected_columns (stripped_labels f)
                  (filter (λ c, bool_decide (Text c ∈ stripped_labels f)) kept_labels) →
            ∃ label, c = Text label ∧ label ∈ kept_labels).
  { intros c (label & -> & [Hin _]%kept_labels_filter & _)%selected_columns_labels.
    eauto. }
  split; [|split; [|split]].
  - do 2 right. apply selected_columns_elem; [|done].
    apply kept_labels_filter. split; [unfold kept_labels; elem_tac|done].
  - intros c [->|[->|Hc]%elem_of_cons]%elem_of_cons; auto.
  - apply Forall_forall. intros row (src & -> & _)%list_elem_of_fmap.
    apply snapshot_row_cells.
  - intros f' Hf' Hplain. rewrite Hfile in Hf'. injection Hf' as <-.
    apply NoDup_cons. split.
    { intros [[=]|(label & [= <-] & Hl)%Hsel]%elem_of_cons.
      revert Hl. unfold kept_labels. elem_tac. }
    apply NoDup_cons. split.
    { intros (label & [= <-] & Hl)%Hsel. revert Hl. unfold kept_labels. elem_tac. }
    apply selected_columns_NoDup.
    + apply NoDup_filter. unfold kept_labels. elem_tac.
    + intros label [Hin _]%kept_labels_filter. by apply Hplain.
Qed.

(** *** The frames together *)

(** A row of [pd.concat] is a row of one of the frames, and reads through
    the labels of the result as it reads through the labels of its frame;
    every row of every frame gives one. *)
Lemma concat_rows (dfs : list frame) (out : frame) :
  concat dfs = Return out →
  (∀ c, c ∈ columns out ↔ ∃ df, df ∈ dfs ∧ c ∈ columns df) ∧
  (∀ row, row ∈ rows out →
     ∃ df row0, df ∈ dfs ∧ row0 ∈ rows df ∧
       (length row0 = length (columns df) → length row = length (columns out)) ∧
       ∀ key, row_get (columns out) row key = row_get (columns df) row0 key) ∧
  (∀ df row0, df ∈ dfs → row0 ∈ rows df →
     ∃ row, row ∈ rows out ∧
       ∀ key, row_get (columns out) row key = row_get (columns df) row0 key) ∧
  (Forall (λ df, NoDup (columns df)) dfs → NoDup (columns out)).
Proof.
  unfold concat. destruct dfs as [|df0 dfs0]; [done|].
  remember (df0 :: dfs0) as dfs eqn:Edfs.
  assert (Hreindex : ∀ df row0 key, df ∈ dfs →
            row_get (concat_labels dfs)
              ((λ c, match index_of c (columns df) with
                     | Some i => nth i row0 Missing
                     | None => Missing
                     end) <$> concat_labels dfs) key
            = row_get (columns df) row0 key).
  { intros df row0 key Hdf. apply row_get_reindex. intros Hkey.
    apply concat_labels_elem. eauto. }
  case_bool_decide as Hnd.
  - intros [= <-]. cbn [rows columns].
    split; [apply concat_labels_elem|]. split; [|split].
    + intros row (df & (row0 & -> & Hrow0)%list_elem_of_fmap & Hdf)%list_elem_of_bind.
      exists df, row0. do 2 (split; [done|]).
      split; [by rewrite length_fmap|]. intros key. by apply Hreindex.
    + intros df row0 Hdf Hrow0. eexists. split.
      * apply list_elem_of_bind. exists df. split; [|done].
        by apply list_elem_of_fmap_2.
      * intros key. by apply Hreindex.
    + intros _. unfold concat_labels.
      generalize (dfs ≫= columns). intros l.
      assert (Hgo : ∀ acc, NoDup acc →
                NoDup (foldl (λ acc c, if bool_decide (c ∈ acc) then acc else acc ++ [c])
                         acc l)).
      { induction l as [|c l IH]; intros acc Hacc; [done|]. cbn [foldl]. apply IH.
        case_bool_decide as Hc; [done|]. apply NoDup_app. split; [done|].
        split; [|apply NoDup_singleton].
        intros x Hx ->%list_elem_of_singleton. done. }
      apply Hgo, NoDup_nil_2.
  - case_bool_decide as Hsame; [|done]. intros [= <-]. cbn [rows columns].
    assert (Hcols : ∀ df, df ∈ dfs → columns df = columns df0).
    { intros df Hdf. by eapply Forall_forall in Hsame. }
    split; [|split; [|split]].
    + intros c. split.
      * intros Hc. exists df0. split; [|done]. rewrite Edfs. left.
      * intros (df & Hdf & Hc). by rewrite <- (Hcols df Hdf).
    + intros row (df & Hrow & Hdf)%list_elem_of_bind.
      exists df, row. do 2 (split; [done|]). rewrite (Hcols df Hdf). done.
    + intros df row0 Hdf Hrow0. exists row0. split.
      * apply list_elem_of_bind. eauto.
      * by rewrite (Hcols df Hdf).
    + intros Hall. done.
Qed.



Lemma membership_files_elem (fs : filesystem) (name : string) :
  name ∈ membership_files fs ↔
  is_Some (fs !! name) ∧
  (glob_match "SPX" name = true ∨ glob_match "UKX" name = true) ∧
  startswith "~$" name = false.
Proof.
  unfold membership_files.
  rewrite list_elem_of_filter, merge_sort_Permutation, elem_of_app,
    !list_elem_of_filter.
  assert (Hkeys : name ∈ (map_to_list fs).*1 ↔ is_Some (fs !! name)).
  { rewrite list_elem_of_fmap. split.
    - intros ([k v] & -> & Hkv%elem_of_map_to_list). by eexists.
    - intros [v Hv]. exists (name, v). split; [done|].
      by apply elem_of_map_to_list. }
  rewrite Hkeys, !Is_true_true, negb_true_iff. tauto.
Qed.

(** *** The table *)

Lemma combined_Return (fs : filesystem) (out : frame) :
  combined fs = Return out →
  ∃ dfs all,
    Forall2 (λ name df, snapshot_of_file fs name = Return df) (membership_files fs) dfs ∧
    concat dfs = Return all ∧ out = drop_duplicates all.
Proof.
  unfold combined.
  destruct (snapshots fs (membership_files fs)) as [dfs|e] eqn:Hdfs; [|done].
  cbn [bindO]. destruct (concat dfs) as [all|e] eqn:Hall; [|done]. cbn [bindO].
  intros [= <-]. exists dfs, all. split; [by apply snapshots_Forall2|done].
Qed.

(** Every row of the table is made of a row of one of the files. *)
Lemma combined_from (fs : filesystem) (out : frame) (row : list cell) :
  combined fs = Return out → row ∈ rows out →
  length row = length (columns out) ∧
  ∃ name year f src,
    name ∈ membership_files fs ∧ search_year name = Some year ∧
    fs !! name = Some (ExcelTable f) ∧ src ∈ rows f ∧
    consolidated_from name year f src (columns out) row.
Proof.
  intros (dfs & all & Hdfs & Hall & ->)%combined_Return.
  cbn [drop_duplicates columns rows].
  intros [Hrow|[]%elem_of_nil]%insert_all_rows.
  destruct (concat_rows dfs all Hall) as (_ & Hfrom & _).
  destruct (Hfrom row Hrow) as (df & row0 & Hdf & Hrow0 & Hlen & Hget).
  apply list_elem_of_lookup in Hdf as [i Hi].
  destruct (Forall2_lookup_r _ _ _ _ _ Hdfs Hi) as (name & Hname & Hfile).
  destruct (snapshot_of_file_rows fs name df row0 Hfile Hrow0)
    as (year & f & src & Hyear & Hf & Hsrc & Hna & H1 & H2 & H3 & H4 & H5).
  split.
  - apply Hlen.
    destruct (snapshot_of_file_shape fs name df Hfile) as (_ & _ & _ & _ & Hrows & _).
    by eapply Forall_forall in Hrows.
  - exists name, year, f, src. split; [by eapply list_elem_of_lookup_2|].
    do 3 (split; [done|]). unfold consolidated_from. rewrite !Hget.
    split; [done|]. do 4 (split; [done|]).
    intros label Hlabel. rewrite Hget. by apply H5.
Qed.

(** The labels of the table are those of the frames of the files, and
    there is such a frame. *)
Lemma combined_columns (fs : filesystem) (out : frame) :
  combined fs = Return out →
  (∃ name df, name ∈ membership_files fs ∧ snapshot_of_file fs name = Return df) ∧
  (∀ c, c ∈ columns out ↔
        ∃ name df, name ∈ membership_files fs ∧
                   snapshot_of_file fs name = Return df ∧ c ∈ columns df) ∧
  ((∀ name f, name ∈ membership_files fs → fs !! name = Some (ExcelTable f) →
              plain_export f) →
   NoDup (columns out)).
Proof.
  intros (dfs & all & Hdfs & Hall & ->)%combined_Return.
  cbn [drop_duplicates columns].
  destruct (concat_rows dfs all Hall) as (Hcols & _ & _ & Hnd).
  assert (Hframe : ∀ df, df ∈ dfs ↔
            ∃ name, name ∈ membership_files fs ∧ snapshot_of_file fs name = Return df).
  { intros df. split.
    - intros [i Hi]%list_elem_of_lookup.
      destruct (Forall2_lookup_r _ _ _ _ _ Hdfs Hi) as (name & Hname & Hfile).
      exists name. split; [by eapply list_elem_of_lookup_2|done].
    - intros (name & [i Hi]%list_elem_of_lookup & Hfile).
      destruct (Forall2_lookup_l _ _ _ _ _ Hdfs Hi) as (df' & Hdf' & Hfile').
      rewrite Hfile in Hfile'. injection Hfile' as <-.
      by eapply list_elem_of_lookup_2. }
  split; [|split].
  - destruct dfs as [|df dfs]; [done|].
    destruct (proj1 (Hframe df) ltac:(left)) as (name & ? & ?). eauto.
  - intros c. rewrite Hcols. split.
    + intros (df & (name & ? & ?)%Hframe & Hc). eauto.
    + intros (name & df & Hname & Hfile & Hc). exists df. split; [|done].
      apply Hframe. eauto.
  - intros Hplain. apply Hnd, Forall_forall. intros df (name & Hname & Hfile)%Hframe.
    destruct (snapshot_of_file_Return fs name df Hfile) as (year & f & _ & Hf & _).
    destruct (snapshot_of_file_shape fs name df Hfile) as (_ & _ & _ & _ & _ & Hcols').
    apply (Hcols' f Hf). by eapply Hplain.
Qed.


End ConsolidatorProofs.

Example combine_memb_sample :
  combined sample_exports =
  Return {| columns := [Text "index_id"; Text "as_of_date"; Text "Ticker";
                        Text "Weight"; Text "Name"];
            rows := [[Text "SPX"; Text "2005-12-31"; Text "AAPL US Equity";
                      Num 5%Z; Missing];
                     [Text "UKX"; Text "2006-12-31"; Text "VOD LN Equity";
                      Missing; Text "Vodafone"]] |}.
Proof. reflexivity. Qed.
(** ** Idempotent loaders *)

Section ReplaceTables.
Context {R K : Type} `{EqDecision K} (key : R → K).

Lemma filter_all {A} (P : A → Prop) `{!∀ x, Decision (P x)} (l : list A) :
  Forall P l → filter P l = l.
Proof.
  induction 1 as [|x l Hx _ IH]; [done|]. by rewrite filter_cons_True, IH.
Qed.

Lemma filter_none {A} (P : A → Prop) `{!∀ x, Decision (P x)} (l : list A) :
  Forall (λ x, ¬ P x) l → filter P l = [].
Proof.
  induction 1 as [|x l Hx _ IH]; [done|]. by rewrite filter_cons_False, IH.
Qed.

Lemma insert_or_replace_NoDup (r : R) (t : list R) :
  NoDup (key <$> t) → NoDup (key <$> insert_or_replace key r t).
Proof.
  intros Hnd. unfold insert_or_replace. rewrite fmap_app. apply NoDup_app.
  split; [|split].
  - eapply sublist_NoDup; [exact Hnd|]. apply fmap_sublist, sublist_filter.
  - intros k (r' & -> & [Hne _]%list_elem_of_filter)%list_elem_of_fmap Hk.
    cbn in Hk. apply list_elem_of_singleton in Hk. done.
  - apply NoDup_singleton.
Qed.

Lemma replace_all_NoDup (rs t : list R) :
  NoDup (key <$> t) →
  NoDup (key <$> foldl (λ acc r, insert_or_replace key r acc) t rs).
Proof.
  revert t. induction rs as [|r rs IH]; intros t Hnd; [done|].
  cbn [foldl]. by apply IH, insert_or_replace_NoDup.
Qed.

(** The table after the rows [rs]: the old rows of other keys, then the
    last row of each key of [rs]. *)
Lemma replace_all_split (rs t : list R) :
  foldl (λ acc r, insert_or_replace key r acc) t rs
  = filter (λ r, key r ∉ key <$> rs) t
    ++ foldl (λ acc r, insert_or_replace key r acc) [] rs.
Proof.
  revert t. induction rs as [|r rs IH]; intros t; cbn [foldl].
  - rewrite app_nil_r. symmetry. apply filter_all.
    apply Forall_forall. intros r _. apply not_elem_of_nil.
  - rewrite IH. rewrite (IH (insert_or_replace key r [])).
    unfold insert_or_replace. rewrite filter_nil, app_nil_l, filter_app, <- app_assoc.
    f_equal. rewrite list_filter_filter. apply list_filter_iff.
    intros r'. rewrite fmap_cons, not_elem_of_cons. tauto.
Qed.

Lemma replace_all_rows (rs t : list R) (r' : R) :
  r' ∈ foldl (λ acc r, insert_or_replace key r acc) t rs → r' ∈ rs ∨ r' ∈ t.
Proof.
  revert t. induction rs as [|r rs IH]; intros t; cbn [foldl]; [auto|].
  intros [?|Hin]%IH; [rewrite elem_of_cons; auto|].
  unfold insert_or_replace in Hin.
  apply elem_of_app in Hin as [[_ ?]%list_elem_of_filter| ->%list_elem_of_singleton];
    rewrite elem_of_cons; auto.
Qed.

(** Replacing by the same rows a second time changes nothing. *)
Lemma replace_all_idempotent (rs t : list R) :
  let t' := foldl (λ acc r, insert_or_replace key r acc) t rs in
  foldl (λ acc r, insert_or_replace key r acc) t' rs = t'.
Proof.
  intros t'. rewrite replace_all_split. unfold t'.
  rewrite (replace_all_split rs t) at 2.
  rewrite (replace_all_split rs t) at 1.
  f_equal. rewrite filter_app, list_filter_filter.
  assert (Hnone : filter (λ r, key r ∉ key <$> rs)
                    (foldl (λ acc r, insert_or_replace key r acc) [] rs) = []).
  { apply filter_none, Forall_forall. intros r Hr Hnot.
    apply replace_all_rows in Hr as [Hr|[]%elem_of_nil].
    apply Hnot. by apply list_elem_of_fmap_2. }
  rewrite Hnone, app_nil_r. apply list_filter_iff. tauto.
Qed.

End ReplaceTables.

Section Effects.
Context {PN : PyNumber} {R : Type}.
Variable get : database → list R.
Variable set : list R → database → database.
Variable ins : R → list R → list R.
Hypothesis lens : table_lens get set.

Lemma inserts_ret {A} (a : A) : (inserts get set ins) (ret a).
Proof.
  exists (λ _, Return (a, [])). intros c. exists (disk c).
  cbn [foldl]. rewrite (lens_set_get _ _ lens). by destruct c.
Qed.

Lemma inserts_lift {A} (o : outcome A) : (inserts get set ins) (lift o).
Proof.
  exists (λ _, match o with Return a => Return (a, []) | Raise e => Raise e end).
  intros c. destruct o as [a|e]; [|by eexists].
  exists (disk c). cbn [foldl]. rewrite (lens_set_get _ _ lens). by destruct c.
Qed.

Lemma inserts_raise {A} (e : exn) : (inserts get set ins) (raise (A:=A) e).
Proof. exists (λ _, Raise e). intros c. by eexists. Qed.

Lemma inserts_companies_now : (inserts get set ins) companies_now.
Proof.
  exists (λ t, Return (t, [])). intros c. exists (disk c).
  cbn [foldl]. rewrite (lens_set_get _ _ lens). by destruct c.
Qed.

Lemma inserts_commit : (inserts get set ins) commit.
Proof.
  exists (λ _, Return (tt, [])). intros c. exists (cur c).
  cbn [foldl]. by rewrite (lens_set_get _ _ lens).
Qed.

Lemma inserts_execute (r : R) :
  (inserts get set ins) (execute (λ db, set (ins r (get db)) db)).
Proof. exists (λ _, Return (tt, [r])). intros c. by exists (disk c). Qed.

Lemma inserts_bind {A B} (m : M A) (k : A → M B) :
  (inserts get set ins) m → (∀ a, (inserts get set ins) (k a)) → (inserts get set ins) (bind m k).
Proof.
  intros [f Hf] Hk.
  exists (λ t, match f t with
               | Return (a, rs) =>
                   match proj1_sig (Hk a) t with
                   | Return (b, rs') => Return (b, rs ++ rs')
                   | Raise e => Raise e
                   end
               | Raise e => Raise e
               end).
  intros c. specialize (Hf c). unfold bind.
  destruct (f (companies (cur c))) as [[a rs]|e].
  - destruct Hf as [dsk ->].
    pose proof (proj2_sig (Hk a)
                  {| disk := dsk;
                     cur := set (foldl (λ t r, ins r t) (get (cur c)) rs) (cur c) |})
      as Hka.
    cbn [cur] in Hka.
    rewrite (lens_companies _ _ lens), (lens_get_set _ _ lens) in Hka.
    destruct (proj1_sig (Hk a) (companies (cur c))) as [[b rs']|e].
    + destruct Hka as [dsk' ->]. exists dsk'.
      by rewrite (lens_set_set _ _ lens), foldl_app.
    + destruct Hka as [c' ->]. by eexists.
  - destruct Hf as [c' ->]. by eexists.
Qed.

Lemma inserts_for_each {A B} (body : B → A → M B) (acc : B) (xs : list A) :
  (∀ b x, (inserts get set ins) (body b x)) → (inserts get set ins) (for_each body acc xs).
Proof.
  intros Hbody. revert acc. induction xs as [|x xs IH]; intros acc.
  - apply inserts_ret.
  - cbn [for_each]. apply inserts_bind; [apply Hbody|]. intros b. apply IH.
Qed.

Lemma commits_bind {A B} (m : M A) (k : A → M B) :
  (∀ a, commits (k a)) → commits (bind m k).
Proof.
  intros Hk c b c1. unfold bind.
  destruct (m c) as [[a|e] c0]; [|done]. apply Hk.
Qed.

Lemma commits_commit : commits commit.
Proof. by intros c a c1 [= _ <-]. Qed.

Lemma commits_commit_ret {A} (a : A) : commits (bind commit (λ _, ret a)).
Proof. by intros c a' c1 [= _ <-]. Qed.

Lemma effect_table {A} (m : M A) (c c1 : connection) (a : A) :
  (inserts get set ins) m → m c = (Return a, c1) →
  ∃ rs, cur c1 = set (foldl (λ t r, ins r t) (get (cur c)) rs) (cur c).
Proof.
  intros [f Hf] Hrun. specialize (Hf c).
  destruct (f (companies (cur c))) as [[a' rs]|e].
  - destruct Hf as [dsk Hf]. rewrite Hf in Hrun. injection Hrun as _ <-.
    by exists rs.
  - destruct Hf as [c' Hf]. by rewrite Hf in Hrun.
Qed.

(** A loader that (inserts get set ins) rows computed from the companies table, with an
    insertion that absorbs a repetition of the same rows, and commits at
    the end, is idempotent. *)
Lemma inserts_idempotent {A} (m : M A) :
  (∀ rs t, let t' := foldl (λ t r, ins r t) t rs in
           foldl (λ t r, ins r t) t' rs = t') →
  (inserts get set ins) m → commits m →
  ∀ c a c1, m c = (Return a, c1) → m c1 = (Return a, c1).
Proof.
  intros Hins [f Hf] Hcommit c a c1 Hrun.
  pose proof (Hf c) as Hc. pose proof (Hf c1) as Hc1.
  destruct (f (companies (cur c))) as [[a' rs]|e] eqn:Hfc.
  - destruct Hc as [dsk Hc]. rewrite Hc in Hrun. injection Hrun as <- <-.
    cbn [cur] in Hc1.
    rewrite (lens_companies _ _ lens), Hfc in Hc1.
    destruct Hc1 as [dsk' Hc1].
    rewrite (lens_get_set _ _ lens), (lens_set_set _ _ lens), Hins in Hc1.
    pose proof (Hcommit _ _ _ Hc) as Hd. pose proof (Hcommit _ _ _ Hc1) as Hd'.
    cbn [disk cur] in Hd, Hd'. rewrite Hc1. by rewrite Hd, Hd'.
  - destruct Hc as [c' Hc]. by rewrite Hc in Hrun.
Qed.

End Effects.

Section Loaders.
Context {PN : PyNumber} {SC : Schema}.

Lemma membership_lens : table_lens index_membership set_index_membership.
Proof. split; intros; by destruct db. Qed.

Lemma prices_lens : table_lens prices_weekly set_prices_weekly.
Proof. split; intros; by destruct db. Qed.

Lemma financials_lens : table_lens financials set_financials.
Proof. split; intros; by destruct db. Qed.

Lemma macro_lens : table_lens macro_indicators set_macro_indicators.
Proof. split; intros; by destruct db. Qed.

Lemma rates_lens : table_lens interest_rates set_interest_rates.
Proof. split; intros; by destruct db. Qed.

(** Follows the structure of a statement: binds, loops and branches. *)
Ltac inserts_tac L :=
  repeat first
    [ apply (inserts_ret _ _ _ L)
    | apply (inserts_lift _ _ _ L)
    | apply (inserts_raise _ _ _)
    | apply (inserts_companies_now _ _ _ L)
    | apply (inserts_commit _ _ _ L)
    | apply (inserts_execute _ _ _)
    | apply (inserts_bind _ _ _ L); [|intros ?]
    | apply (inserts_for_each _ _ _ L); intros ? ?
    | match goal with
      | |- inserts _ _ _ (match ?x with _ => _ end) => destruct x
      | |- inserts _ _ _ (if ?x then _ else _) => destruct x
      end ].

Lemma import_index_membership_inserts (fs : filesystem) (d : gmap string nat) :
  inserts index_membership set_index_membership (insert_or_ignore membership_key)
    (import_index_membership fs d).
Proof.
  unfold import_index_membership, membership_step, insert_membership.
  inserts_tac membership_lens.
Qed.

Lemma import_prices_weekly_inserts (fs : filesystem) (d : gmap string nat) :
  inserts prices_weekly set_prices_weekly (insert_or_ignore price_key)
    (import_prices_weekly fs d).
Proof.
  unfold import_prices_weekly, price_row_step, price_ticker_step, insert_price.
  inserts_tac prices_lens.
Qed.

Lemma import_financials_inserts (fs : filesystem) (d : gmap string nat)
    (filename period_type : string) :
  inserts financials set_financials (insert_or_replace financial_key)
    (import_financials fs d filename period_type).
Proof.
  unfold import_financials, financial_row_step, financial_ticker_step,
    insert_financial.
  inserts_tac financials_lens.
Qed.

Lemma import_macro_inserts (fs : filesystem) (filename country_id : string) :
  inserts macro_indicators set_macro_indicators (insert_or_ignore macro_key)
    (import_macro fs filename country_id).
Proof.
  unfold import_macro, macro_row_step, macro_cell_step, insert_macro.
  inserts_tac macro_lens.
Qed.

Lemma import_interest_rates_inserts (fs : filesystem) :
  inserts interest_rates set_interest_rates (insert_or_ignore rate_key)
    (import_interest_rates fs).
Proof.
  unfold import_interest_rates, rate_row_step, rate_cell_step, insert_rate.
  inserts_tac rates_lens.
Qed.

Ltac commits_tac :=
  repeat match goal with
         | |- commits (bind _ _) =>
             first [ apply commits_commit_ret | apply commits_bind; intros ? ]
         end;
  try apply commits_commit.

Lemma import_index_membership_commits (fs : filesystem) (d : gmap string nat) :
  commits (import_index_membership fs d).
Proof. unfold import_index_membership. commits_tac. Qed.

Lemma import_prices_weekly_commits (fs : filesystem) (d : gmap string nat) :
  commits (import_prices_weekly fs d).
Proof. unfold import_prices_weekly. commits_tac. Qed.

Lemma import_financials_commits (fs : filesystem) (d : gmap string nat)
    (filename period_type : string) :
  commits (import_financials fs d filename period_type).
Proof. unfold import_financials. commits_tac. Qed.

Lemma import_macro_commits (fs : filesystem) (filename country_id : string) :
  commits (import_macro fs filename country_id).
Proof. unfold import_macro. commits_tac. Qed.

Lemma import_interest_rates_commits (fs : filesystem) :
  commits (import_interest_rates fs).
Proof. unfold import_interest_rates. commits_tac. Qed.

End Loaders.

Section Idempotence.
Context {PN : PyNumber} {SC : Schema}.

Lemma insert_companies_foldl (rs : list company_record) (db : database) :
  foldl (λ db r, set_companies (insert_company r (companies db)) db) db rs
  = set_companies (foldl (λ t r, insert_company r t) (companies db) rs) db.
Proof.
  revert db. induction rs as [|r rs IH]; intros db; cbn [foldl].
  - by destruct db.
  - by rewrite IH.
Qed.

Lemma insert_companies_present (rs : list company_record)
    (t : list (nat * company_record)) :
  Forall (λ r, c_ticker r ∈ (c_ticker ∘ snd) <$> t) rs →
  foldl (λ t r, insert_company r t) t rs = t.
Proof.
  induction 1 as [|r rs Hr _ IH]; [done|]. cbn [foldl].
  unfold insert_company at 2. by rewrite bool_decide_eq_true_2.
Qed.

Lemma insert_company_NoDup (r : company_record) (t : list (nat * company_record)) :
  NoDup ((c_ticker ∘ snd) <$> t) → NoDup ((c_ticker ∘ snd) <$> insert_company r t).
Proof.
  intros Hnd. unfold insert_company. case_bool_decide as Hin; [done|].
  rewrite fmap_app. apply NoDup_app. split; [done|]. split.
  - intros k Hk Hk'. cbn in Hk'. apply list_elem_of_singleton in Hk'. by subst.
  - apply NoDup_singleton.
Qed.

Lemma insert_companies_NoDup (rs : list company_record)
    (t : list (nat * company_record)) :
  NoDup ((c_ticker ∘ snd) <$> t) →
  NoDup ((c_ticker ∘ snd) <$> foldl (λ t r, insert_company r t) t rs).
Proof.
  revert t. induction rs as [|r rs IH]; intros t Hnd; [done|].
  cbn [foldl]. by apply IH, insert_company_NoDup.
Qed.

(** What a run of [import_companies] that returns did. *)
Lemma import_companies_run (fs : filesystem) (c c1 : connection)
    (d : gmap string nat) :
  import_companies fs c = (Return d, c1) →
  ∃ df records,
    read_csv fs "company_master.csv" = Return df ∧
    company_records (columns df) (rows df) = Return records ∧
    d = enumerate_ids records ∧
    disk c1 = cur c1 ∧
    cur c1 = set_companies
               (foldl (λ t r, insert_company r t) (companies (cur c)) records) (cur c).
Proof.
  unfold import_companies.
  destruct (read_csv fs "company_master.csv") as [df|e0] eqn:Hread;
    [rewrite (bind_lift_return (Return df) df) by done
    |rewrite (bind_lift_raise (Raise e0) e0) by done; discriminate].
  destruct (company_records (columns df) (rows df)) as [records|e0] eqn:Hrec;
    [rewrite (bind_lift_return (Return records) records) by done
    |rewrite (bind_lift_raise (Raise e0) e0) by done; discriminate].
  unfold bind at 1. rewrite for_each_execute. intros [= <- <-].
  exists df, records. cbn [disk cur]. by rewrite insert_companies_foldl.
Qed.

Lemma import_companies_idempotent (fs : filesystem) (c c1 : connection)
    (d : gmap string nat) :
  import_companies fs c = (Return d, c1) → import_companies fs c1 = (Return d, c1).
Proof.
  intros Hrun.
  destruct (import_companies_run fs c c1 d Hrun)
    as (df & records & Hread & Hrec & -> & Hdisk & Hcur).
  unfold import_companies.
  rewrite (bind_lift_return _ _ _ _ Hread), (bind_lift_return _ _ _ _ Hrec).
  unfold bind at 1. rewrite for_each_execute. cbn [commit bind ret].
  rewrite insert_companies_foldl.
  assert (Hsame : foldl (λ t r, insert_company r t) (companies (cur c1)) records
                  = companies (cur c1)).
  { apply insert_companies_present, Forall_forall. intros r Hr.
    rewrite Hcur. destruct (cur c) as [t0 ? ? ? ? ?]; cbn [companies set_companies].
    apply insert_companies_tickers. left. by apply list_elem_of_fmap_2. }
  rewrite Hsame.
  assert (Hid : set_companies (companies (cur c1)) (cur c1) = cur c1)
    by (by destruct (cur c1)).
  rewrite Hid. destruct c1 as [dsk1 cur1]. cbn [disk cur] in *. by subst.
Qed.

(** C3.  Each of the six loaders, run a second time on the same input
    (and the same dictionary) right after a run that returned, returns the
    same result and leaves the connection, the database file included, as
    the first run left it.  A run that returns leaves at most one row per
    key in the table it loads when the table had at most one before: one
    company per ticker, one membership row per index, company and date
    ([INSERT OR IGNORE]), one financials row per company, period end and
    period type ([INSERT OR REPLACE]), and one row per key of the schema in
    the three other tables. *)
Theorem loaders_idempotent (fs : filesystem) (ticker_to_id : gmap string nat)
    (filename period_type country_id : string) (c c1 : connection) :
  (∀ d, import_companies fs c = (Return d, c1) →
        import_companies fs c1 = (Return d, c1) ∧
        (NoDup ((c_ticker ∘ snd) <$> companies (cur c)) →
         NoDup ((c_ticker ∘ snd) <$> companies (disk c1)))) ∧
  (∀ u, import_index_membership fs ticker_to_id c = (Return u, c1) →
        import_index_membership fs ticker_to_id c1 = (Return u, c1) ∧
        (NoDup (membership_key <$> index_membership (cur c)) →
         NoDup (membership_key <$> index_membership (disk c1)))) ∧
  (∀ d, import_prices_weekly fs ticker_to_id c = (Return d, c1) →
        import_prices_weekly fs ticker_to_id c1 = (Return d, c1) ∧
        (NoDup (price_key <$> prices_weekly (cur c)) →
         NoDup (price_key <$> prices_weekly (disk c1)))) ∧
  (∀ d, import_financials fs ticker_to_id filename period_type c = (Return d, c1) →
        import_financials fs ticker_to_id filename period_type c1 = (Return d, c1) ∧
        (NoDup (financial_key <$> financials (cur c)) →
         NoDup (financial_key <$> financials (disk c1)))) ∧
  (∀ u, import_macro fs filename country_id c = (Return u, c1) →
        import_macro fs filename country_id c1 = (Return u, c1) ∧
        (NoDup (macro_key <$> macro_indicators (cur c)) →
         NoDup (macro_key <$> macro_indicators (disk c1)))) ∧
  (∀ u, import_interest_rates fs c = (Return u, c1) →
        import_interest_rates fs c1 = (Return u, c1) ∧
        (NoDup (rate_key <$> interest_rates (cur c)) →
         NoDup (rate_key <$> interest_rates (disk c1)))).
Proof.
  split; [|split; [|split; [|split; [|split]]]].
  - intros d Hrun. split; [by apply (import_companies_idempotent fs c)|].
    destruct (import_companies_run fs c c1 d Hrun)
      as (df & records & _ & _ & _ & -> & ->).
    intros Hnd. destruct (cur c) as [t0 ? ? ? ? ?]; cbn [companies set_companies] in *.
    by apply insert_companies_NoDup.
  - intros u Hrun. split.
    + eapply (inserts_idempotent _ _ _ membership_lens);
        [apply (insert_all_idempotent membership_key)
        |apply import_index_membership_inserts
        |apply import_index_membership_commits|exact Hrun].
    + rewrite (import_index_membership_commits _ _ _ _ _ Hrun).
      destruct (effect_table _ _ _ _ c c1 u
                  (import_index_membership_inserts fs ticker_to_id) Hrun) as [rs ->].
      rewrite (lens_get_set _ _ membership_lens). by apply (insert_all_NoDup membership_key).
  - intros d Hrun. split.
    + eapply (inserts_idempotent _ _ _ prices_lens);
        [apply (insert_all_idempotent price_key)
        |apply import_prices_weekly_inserts
        |apply import_prices_weekly_commits|exact Hrun].
    + rewrite (import_prices_weekly_commits _ _ _ _ _ Hrun).
      destruct (effect_table _ _ _ _ c c1 d
                  (import_prices_weekly_inserts fs ticker_to_id) Hrun) as [rs ->].
      rewrite (lens_get_set _ _ prices_lens). by apply (insert_all_NoDup price_key).
  - intros d Hrun. split.
    + eapply (inserts_idempotent _ _ _ financials_lens);
        [apply (replace_all_idempotent financial_key)
        |apply import_financials_inserts
        |apply import_financials_commits|exact Hrun].
    + rewrite (import_financials_commits _ _ _ _ _ _ _ Hrun).
      destruct (effect_table _ _ _ _ c c1 d
                  (import_financials_inserts fs ticker_to_id filename period_type) Hrun)
        as [rs ->].
      rewrite (lens_get_set _ _ financials_lens). by apply (replace_all_NoDup financial_key).
  - intros u Hrun. split.
    + eapply (inserts_idempotent _ _ _ macro_lens);
        [apply (insert_all_idempotent macro_key)
        |apply import_macro_inserts
        |apply import_macro_commits|exact Hrun].
    + rewrite (import_macro_commits _ _ _ _ _ _ Hrun).
      destruct (effect_table _ _ _ _ c c1 u
                  (import_macro_inserts fs filename country_id) Hrun) as [rs ->].
      rewrite (lens_get_set _ _ macro_lens). by apply (insert_all_NoDup macro_key).
  - intros u Hrun. split.
    + eapply (inserts_idempotent _ _ _ rates_lens);
        [apply (insert_all_idempotent rate_key)
        |apply import_interest_rates_inserts
        |apply import_interest_rates_commits|exact Hrun].
    + rewrite (import_interest_rates_commits _ _ _ _ Hrun).
      destruct (effect_table _ _ _ _ c c1 u
                  (import_interest_rates_inserts fs) Hrun) as [rs ->].
      rewrite (lens_get_set _ _ rates_lens). by apply (insert_all_NoDup rate_key).
Qed.

End Idempotence.

Example import_index_membership_sample :
  index_membership (disk sample_loaded)
  = [ {| m_index_id := Text "SPX"; m_company_id := 1; m_as_of_date := "2024-12-31";
         m_weight := CFloat 7%Z; m_shares_outstanding := CFloat 15000%Z;
         m_price := CNone |};
      {| m_index_id := Text "UKX"; m_company_id := 2; m_as_of_date := "2024-12-31";
         m_weight := CNone; m_shares_outstanding := CNone;
         m_price := CFloat 70%Z |} ] ∧
  import_index_membership sample_import_files (enumerate_ids sample_records)
    sample_loaded
  = (Return tt, sample_loaded).
Proof. split; reflexivity. Qed.
(** ** Errors that end a run, and errors that do not *)

Section FatalErrors.
Context {PN : PyNumber} {SC : Schema}.

Lemma bind_raise {A B} (m : M A) (k : A → M B) (c c' : connection) (e : exn) :
  m c = (Raise e, c') → bind m k c = (Raise e, c').
Proof. intros Hm. unfold bind. by rewrite Hm. Qed.

Lemma bind_return {A B} (m : M A) (k : A → M B) (c c' : connection) (a : A) :
  m c = (Return a, c') → bind m k c = k a c'.
Proof. intros Hm. unfold bind. by rewrite Hm. Qed.

(** A loop whose turns keep the database file keeps it, also when a turn
    raises. *)
Lemma for_each_disk {A B} (body : B → A → M B) (xs : list A) (acc : B)
    (c : connection) :
  (∀ b x c0, disk (body b x c0).2 = disk c0) →
  disk (for_each body acc xs c).2 = disk c.
Proof.
  intros Hbody. revert acc c.
  induction xs as [|x xs IH]; intros acc c; cbn [for_each]; [done|].
  unfold bind. specialize (Hbody acc x c).
  destruct (body acc x c) as [[acc'|e] c']; cbn [snd] in *; [|done].
  by rewrite IH.
Qed.

Lemma membership_step_disk (d : gmap string nat) (cols : list cell) (u : unit)
    (row : list cell) (c : connection) :
  disk (membership_step d cols u row c).2 = disk c.
Proof.
  unfold membership_step, bind, companies_now, lift.
  destruct (membership_values _ _ _ _) as [[r|]|e]; done.
Qed.

(** When the membership import raises, the database file is as the
    company import committed it. *)
Lemma import_index_membership_raise (fs : filesystem) (d : gmap string nat)
    (c c' : connection) (e : exn) :
  import_index_membership fs d c = (Raise e, c') → disk c' = disk c.
Proof.
  unfold import_index_membership.
  destruct (read_csv fs "index_membership_snapshot.csv") as [df|e0].
  - rewrite (bind_lift_return (Return df) df) by done. unfold bind at 1.
    pose proof (for_each_disk (membership_step d (columns df)) (rows df) tt c
                  (membership_step_disk d (columns df))) as Hdisk.
    destruct (for_each _ _ _ c) as [[u|e1] c1]; cbn [snd] in Hdisk.
    + discriminate.
    + by intros [= _ <-].
  - rewrite (bind_lift_raise (Raise e0) e0) by done. by intros [= _ <-].
Qed.

Lemma snapshots_stop (fs : filesystem) (before after : list string)
    (name : string) (e : exn) :
  Forall (λ n, ∃ df, snapshot_of_file fs n = Return df) before →
  snapshot_of_file fs name = Raise e →
  snapshots fs (before ++ name :: after) = Raise e.
Proof.
  intros Hbefore Hname.
  induction Hbefore as [|n before [df Hdf] _ IH]; cbn [snapshots app].
  - by rewrite Hname.
  - by rewrite Hdf, IH.
Qed.

Lemma fix_dates_main_lookup (fs : filesystem) (filename period_type : string)
    (ws : gmap (nat * nat) cell) :
  (filename, period_type) ∈ fix_files →
  fs !! filename = Some (Workbook ws) →
  (fix_dates_main fs).1 !! filename = Some (Workbook (fix_sheet period_type ws)).
Proof.
  intros Hin Hfile. unfold fix_dates_main, fix_files in *.
  assert (Hstep : ∀ (st : filesystem * list exn) fp,
            (match fix_date_column st.1 fp.1 fp.2 with
             | Return fs' => (fs', st.2)
             | Raise e => (st.1, st.2 ++ [e])
             end).1 !! filename =
            if decide (fp.1 = filename) then
              match st.1 !! filename with
              | Some (Workbook ws') => Some (Workbook (fix_sheet fp.2 ws'))
              | other => other
              end
            else st.1 !! filename).
  { intros [fs0 es] [f p]. cbn [fst snd]. unfold fix_date_column, load_workbook.
    destruct (decide (f = filename)) as [->|Hne].
    - destruct (fs0 !! filename) as [[]|] eqn:Hf; cbn [bindO fst]; try done.
      by rewrite lookup_insert_eq.
    - destruct (fs0 !! f) as [[]|]; cbn [bindO fst]; try done.
      by rewrite lookup_insert_ne. }
  cbn [foldl]. rewrite !Hstep. cbn [fst snd].
  repeat (apply elem_of_cons in Hin as [[= -> ->]|Hin]);
    [..|by apply elem_of_nil in Hin];
    repeat (case_decide; try discriminate); by rewrite Hfile.
Qed.

(** *** What a failed import keeps *)

Global Instance keeps_refl : Reflexive keeps.
Proof. intros db. by repeat split. Qed.

Global Instance keeps_trans : Transitive keeps.
Proof.
  intros db1 db2 db3 (?&?&?&?&?&?) (?&?&?&?&?&?).
  repeat split; by etrans.
Qed.

Lemma insert_or_ignore_subseteq {R K} `{EqDecision K} (key : R → K)
    (r : R) (t : list R) :
  t ⊆ insert_or_ignore key r t.
Proof.
  unfold insert_or_ignore. case_bool_decide; [done|].
  intros x Hx. apply elem_of_app. by left.
Qed.

Lemma insert_company_subseteq (r : company_record)
    (t : list (nat * company_record)) :
  t ⊆ insert_company r t.
Proof.
  unfold insert_company. case_bool_decide; [done|].
  intros x Hx. apply elem_of_app. by left.
Qed.

Lemma insert_or_replace_keys {R K} `{EqDecision K} (key : R → K)
    (r : R) (t : list R) :
  key <$> t ⊆ key <$> insert_or_replace key r t.
Proof.
  intros k [r' [-> Hr']]%list_elem_of_fmap.
  unfold insert_or_replace. rewrite fmap_app. apply elem_of_app.
  destruct (decide (key r' = key r)) as [->|Hne].
  - right. cbn. left.
  - left. apply list_elem_of_fmap. exists r'. split; [done|].
    by apply list_elem_of_filter.
Qed.

Lemma keeps_companies (r : company_record) (db : database) :
  keeps db (set_companies (insert_company r (companies db)) db).
Proof. repeat split; try done. apply insert_company_subseteq. Qed.

Lemma keeps_membership (r : membership_row) (db : database) :
  keeps db (set_index_membership
              (insert_or_ignore membership_key r (index_membership db)) db).
Proof. repeat split; try done. apply insert_or_ignore_subseteq. Qed.

Lemma keeps_price (r : price_row) (db : database) :
  keeps db (set_prices_weekly
              (insert_or_ignore price_key r (prices_weekly db)) db).
Proof. repeat split; try done. apply insert_or_ignore_subseteq. Qed.

Lemma keeps_financial (r : financial_row) (db : database) :
  keeps db (set_financials
              (insert_or_replace financial_key r (financials db)) db).
Proof. repeat split; try done. apply insert_or_replace_keys. Qed.

Lemma keeps_macro (r : macro_row) (db : database) :
  keeps db (set_macro_indicators
              (insert_or_ignore macro_key r (macro_indicators db)) db).
Proof. repeat split; try done. apply insert_or_ignore_subseteq. Qed.

Lemma keeps_rate (r : rate_row) (db : database) :
  keeps db (set_interest_rates
              (insert_or_ignore rate_key r (interest_rates db)) db).
Proof. repeat split; try done. apply insert_or_ignore_subseteq. Qed.

Lemma grows_ret {A} (a : A) : grows (ret a).
Proof. intros c o c' [= _ <-] Hinv. by split; [|split]. Qed.

Lemma grows_raise {A} (e : exn) : grows (raise e : M A).
Proof. intros c o c' [= _ <-] Hinv. by split; [|split]. Qed.

Lemma grows_lift {A} (o : outcome A) : grows (lift o).
Proof. intros c o' c' [= _ <-] Hinv. by split; [|split]. Qed.

Lemma grows_companies_now : grows companies_now.
Proof. intros c o c' [= _ <-] Hinv. by split; [|split]. Qed.

Lemma grows_commit : grows commit.
Proof. intros c o c' [= _ <-] Hinv. by split; [|split]. Qed.

Lemma grows_execute (f : database → database) :
  (∀ db, keeps db (f db)) → grows (execute f).
Proof.
  intros Hf c o c' [= _ <-] Hinv. cbn [disk cur].
  split; [done|split; [apply Hf|by etrans]].
Qed.

Lemma grows_bind {A B} (m : M A) (k : A → M B) :
  grows m → (∀ a, grows (k a)) → grows (bind m k).
Proof.
  intros Hm Hk c o c' Hrun Hinv. unfold bind in Hrun.
  destruct (m c) as [[a|e] c1] eqn:E.
  - destruct (Hm c _ _ E Hinv) as (H1 & H2 & H3).
    destruct (Hk a c1 o c' Hrun H3) as (H4 & H5 & H6).
    split; [by etrans|split; [by etrans|done]].
  - injection Hrun as <- <-. by apply (Hm c _ _ E).
Qed.

Lemma grows_for_each {A B} (body : B → A → M B) (acc : B) (xs : list A) :
  (∀ b x, grows (body b x)) → grows (for_each body acc xs).
Proof.
  intros Hbody. revert acc. induction xs as [|x xs IH]; intros acc.
  - apply grows_ret.
  - cbn [for_each]. apply grows_bind; [apply Hbody|]. intros b. apply IH.
Qed.

(** Follows the structure of a statement: binds, loops and branches. *)
Ltac grows_tac :=
  repeat first
    [ apply grows_ret
    | apply grows_lift
    | apply grows_raise
    | apply grows_companies_now
    | apply grows_commit
    | apply grows_execute; intros ?;
      first [ apply keeps_companies | apply keeps_membership
            | apply keeps_price | apply keeps_financial
            | apply keeps_macro | apply keeps_rate ]
    | apply grows_bind; [|intros ?]
    | apply grows_for_each; intros ? ?
    | match goal with
      | |- grows (match ?x with _ => _ end) => destruct x
      | |- grows (if ?x then _ else _) => destruct x
      end ].

Lemma import_companies_adds (fs : filesystem) : grows (import_companies fs).
Proof. unfold import_companies. grows_tac. Qed.

Lemma import_index_membership_adds (fs : filesystem) (d : gmap string nat) :
  grows (import_index_membership fs d).
Proof.
  unfold import_index_membership, membership_step, insert_membership.
  grows_tac.
Qed.

Lemma import_prices_weekly_adds (fs : filesystem) (d : gmap string nat) :
  grows (import_prices_weekly fs d).
Proof.
  unfold import_prices_weekly, price_row_step, price_ticker_step, insert_price.
  grows_tac.
Qed.

Lemma import_financials_adds (fs : filesystem) (d : gmap string nat)
    (filename period_type : string) :
  grows (import_financials fs d filename period_type).
Proof.
  unfold import_financials, financial_row_step, financial_ticker_step,
    insert_financial.
  grows_tac.
Qed.

Lemma import_macro_adds (fs : filesystem) (filename country_id : string) :
  grows (import_macro fs filename country_id).
Proof.
  unfold import_macro, macro_row_step, macro_cell_step, insert_macro.
  grows_tac.
Qed.

Lemma import_interest_rates_adds (fs : filesystem) :
  grows (import_interest_rates fs).
Proof.
  unfold import_interest_rates, rate_row_step, rate_cell_step, insert_rate.
  grows_tac.
Qed.

Lemma import_companies_commits (fs : filesystem) : commits (import_companies fs).
Proof.
  unfold import_companies.
  do 3 (apply commits_bind; intros ?). apply commits_commit_ret.
Qed.

Lemma commits_then_ret {A B} (m : M A) (b : B) :
  commits m → commits (bind m (λ _, ret b)).
Proof.
  intros Hm c b' c1. unfold bind, ret.
  destruct (m c) as [[a|e] c0] eqn:E; [|discriminate].
  intros [= _ <-]. by apply (Hm c a).
Qed.

(** Each importer of [main] only adds, and one that returns leaves nothing
    uncommitted. *)
Lemma stages_grow (fs : filesystem) (st : gmap string nat → M (gmap string nat))
    (d : gmap string nat) :
  st ∈ stages fs →
  grows (st d) ∧
  ∀ c d' c', st d c = (Return d', c') → disk c = cur c → disk c' = cur c'.
Proof.
  unfold stages, macro_files. cbn [fmap list_fmap app fst snd].
  intros Hst.
  repeat (apply elem_of_cons in Hst as [->|Hst]);
    [..|by apply elem_of_nil in Hst]; cbn beta.
  - split; [apply import_companies_adds|].
    intros c d' c' Hrun _. exact (import_companies_commits fs c d' c' Hrun).
  - split; [apply grows_bind; [apply import_index_membership_adds
                              |intros; apply grows_ret]|].
    intros c d' c' Hrun _.
    exact (commits_then_ret _ d (import_index_membership_commits fs d) c d' c' Hrun).
  - split; [apply import_prices_weekly_adds|].
    intros c d' c' Hrun _. exact (import_prices_weekly_commits fs d c d' c' Hrun).
  - split; [apply import_financials_adds|].
    intros c d' c' Hrun _. exact (import_financials_commits fs d _ _ c d' c' Hrun).
  - destruct (file_exists fs _).
    + split; [apply import_financials_adds|].
      intros c d' c' Hrun _. exact (import_financials_commits fs d _ _ c d' c' Hrun).
    + split; [apply grows_ret|]. by intros c d' c' [= _ <-].
  - destruct (file_exists fs _).
    + split; [apply grows_bind; [apply import_macro_adds|intros; apply grows_ret]|].
      intros c d' c' Hrun _.
      exact (commits_then_ret _ d (import_macro_commits fs _ _) c d' c' Hrun).
    + split; [apply grows_bind; intros; apply grows_ret|].
      by intros c d' c' [= _ <-].
  - destruct (file_exists fs _).
    + split; [apply grows_bind; [apply import_macro_adds|intros; apply grows_ret]|].
      intros c d' c' Hrun _.
      exact (commits_then_ret _ d (import_macro_commits fs _ _) c d' c' Hrun).
    + split; [apply grows_bind; intros; apply grows_ret|].
      by intros c d' c' [= _ <-].
  - destruct (file_exists fs _).
    + split; [apply grows_bind; [apply import_macro_adds|intros; apply grows_ret]|].
      intros c d' c' Hrun _.
      exact (commits_then_ret _ d (import_macro_commits fs _ _) c d' c' Hrun).
    + split; [apply grows_bind; intros; apply grows_ret|].
      by intros c d' c' [= _ <-].
  - destruct (file_exists fs _).
    + split; [apply grows_bind; [apply import_macro_adds|intros; apply grows_ret]|].
      intros c d' c' Hrun _.
      exact (commits_then_ret _ d (import_macro_commits fs _ _) c d' c' Hrun).
    + split; [apply grows_bind; intros; apply grows_ret|].
      by intros c d' c' [= _ <-].
  - destruct (file_exists fs _).
    + split; [apply grows_bind; [apply import_macro_adds|intros; apply grows_ret]|].
      intros c d' c' Hrun _.
      exact (commits_then_ret _ d (import_macro_commits fs _ _) c d' c' Hrun).
    + split; [apply grows_bind; intros; apply grows_ret|].
      by intros c d' c' [= _ <-].
  - split; [apply grows_bind; [apply import_interest_rates_adds
                              |intros; apply grows_ret]|].
    intros c d' c' Hrun _.
    exact (commits_then_ret _ d (import_interest_rates_commits fs) c d' c' Hrun).
Qed.

(** The importers that returned left everything committed, and nothing of
    what the database held is lost. *)
Lemma run_stages_returns (fs : filesystem)
    (sts : list (gmap string nat → M (gmap string nat)))
    (d d' : gmap string nat) (c c' : connection) :
  sts ⊆ stages fs →
  run_stages sts d c = (Return d', c') → disk c = cur c →
  disk c' = cur c' ∧ keeps (cur c) (cur c').
Proof.
  unfold run_stages. revert d c.
  induction sts as [|st sts IH]; intros d c Hsub; cbn [for_each].
  - by intros [= _ <-] Hc.
  - unfold bind. destruct (st d c) as [[d1|e] c1] eqn:E; [|discriminate].
    intros Hrun Hc.
    assert (Hst : st ∈ stages fs) by (apply Hsub; left).
    destruct (stages_grow fs st d Hst) as [Hgrow Hcommit].
    destruct (Hgrow c _ _ E) as (_ & Hcur & _); [by rewrite Hc|].
    destruct (IH d1 c1) as [Hc' Hkeep]; [|done|by eapply Hcommit|].
    { intros x Hx. apply Hsub. by right. }
    split; [done|by etrans].
Qed.

Lemma for_each_app {A B} (body : B → A → M B) (acc : B) (xs ys : list A)
    (c : connection) :
  for_each body acc (xs ++ ys) c
  = bind (for_each body acc xs) (λ acc', for_each body acc' ys) c.
Proof.
  revert acc c. induction xs as [|x xs IH]; intros acc c; [done|].
  cbn [app for_each]. unfold bind.
  destruct (body acc x c) as [[b|e] c1]; [|done].
  rewrite IH. reflexivity.
Qed.

(** [main] is the schema initializer followed by the importers. *)
Lemma run_imports_stages (fs : filesystem) (c : connection) :
  run_imports fs c
  = (do _ <- create_database fs; do _ <- run_stages (stages fs) ∅; ret tt) c.
Proof.
  unfold run_imports, run_stages, stages, macro_files.
  cbn [fmap list_fmap app for_each fst snd]. unfold bind, ret.
  repeat (match goal with
          | |- context [match ?m ?c0 with (_, _) => _ end] =>
              destruct (m c0) as [[?|?] ?]
          end; try reflexivity).
  repeat match goal with u : unit |- _ => destruct u end. reflexivity.
Qed.

(** C5, as the code has it.  In the consolidator the first file that
    cannot be consolidated (no year in its name, unreadable, no [Ticker]
    label) ends the run with its exception: the files after it are not
    read and no table is written.  [main] is the schema initializer
    followed by its importers, and the exception of any of them is caught:
    [main] returns with it, the importers after it do not run, the
    importers before it had committed everything, and the database file
    holds every row they left, with every row the database held before
    the run (of the financials every key).  So with [schema.sql] missing,
    or with it present and [company_master.csv] missing, the database is
    left as it was; and when the membership import raises, the database
    file is the one the company import committed.  In [fix_dates] the
    exception of one file is caught and the files after it are still
    fixed. *)
Theorem fatal_errors (fs : filesystem) (db : database) :
  (∀ before name after e,
     membership_files fs = before ++ name :: after →
     Forall (λ n, ∃ df, snapshot_of_file fs n = Return df) before →
     snapshot_of_file fs name = Raise e →
     combine_memb fs = Raise e) ∧
  (∀ name, search_year name = None →
     snapshot_of_file fs name
     = Raise (ValueError ("Cannot find year in filename: " +:+ name))) ∧
  (∀ name year f,
     search_year name = Some year → fs !! name = Some (ExcelTable f) →
     Text "Ticker" ∉ (λ c, Text (strip (str c))) <$> columns f →
     snapshot_of_file fs name
     = Raise (ValueError (name +:+ ": missing 'Ticker' column"))) ∧
  (∀ c, run_imports fs c
        = (do _ <- create_database fs;
           do _ <- run_stages (stages fs) ∅;
           ret tt) c) ∧
  (∀ before st after d c1 e c2,
     is_Some (fs !! "schema.sql") →
     stages fs = before ++ st :: after →
     run_stages before ∅ (connect db) = (Return d, c1) →
     st d c1 = (Raise e, c2) →
     main fs db = (Some e, disk c2) ∧
     disk c1 = cur c1 ∧ keeps db (cur c1) ∧ keeps (cur c1) (disk c2)) ∧
  (fs !! "schema.sql" = None →
   main fs db = (Some (FileNotFoundError "schema.sql"), db)) ∧
  (is_Some (fs !! "schema.sql") → fs !! "company_master.csv" = None →
   main fs db = (Some (FileNotFoundError "company_master.csv"), db)) ∧
  (∀ d c1 e c2,
     is_Some (fs !! "schema.sql") →
     import_companies fs (connect db) = (Return d, c1) →
     import_index_membership fs d c1 = (Raise e, c2) →
     main fs db = (Some e, cur c1)) ∧
  (∀ d, fs !! "index_membership_snapshot.csv" = None → ∀ c1,
     import_index_membership fs d c1
     = (Raise (FileNotFoundError "index_membership_snapshot.csv"), c1)) ∧
  (∀ filename period_type ws,
     (filename, period_type) ∈ fix_files →
     fs !! filename = Some (Workbook ws) →
     (fix_dates_main fs).1 !! filename = Some (Workbook (fix_sheet period_type ws))).
Proof.
  split; [|split; [|split; [|split; [|split; [|split; [|split; [|split; [|split]]]]]]]].
  - intros before name after e Hfiles Hbefore Hname.
    unfold combine_memb, combined.
    by rewrite Hfiles, (snapshots_stop fs before after name e).
  - intros name Hyear. unfold snapshot_of_file. by rewrite Hyear.
  - intros name year f Hyear Hfile Hticker. unfold snapshot_of_file.
    rewrite Hyear. unfold read_excel_table. rewrite Hfile. cbn [bindO].
    rewrite bool_decide_eq_false_2; [done|].
    intros [Hin _]%list_elem_of_filter. by apply bool_decide_unpack in Hin.
  - apply run_imports_stages.
  - intros before st after d c1 e c2 [script Hschema] Hstages Hbefore Hst.
    assert (Hsub : before ⊆ stages fs).
    { rewrite Hstages. intros x Hx. apply elem_of_app. by left. }
    assert (Hin : st ∈ stages fs).
    { rewrite Hstages. apply elem_of_app. right. left. }
    destruct (run_stages_returns fs before ∅ d (connect db) c1 Hsub Hbefore eq_refl)
      as [Hc1 Hkeep].
    destruct (stages_grow fs st d Hin) as [Hgrow _].
    destruct (Hgrow c1 _ _ Hst) as (Hdisk & _ & _); [by rewrite Hc1|].
    rewrite Hc1 in Hdisk. split; [|done].
    unfold main. rewrite run_imports_stages. unfold create_database.
    rewrite Hschema. unfold bind at 1. cbn [commit].
    change {| disk := cur (connect db); cur := cur (connect db) |} with (connect db).
    unfold run_stages in *. rewrite Hstages. unfold bind at 1.
    rewrite for_each_app. unfold bind at 1. rewrite Hbefore.
    cbn [for_each]. unfold bind at 1. by rewrite Hst.
  - intros Hschema. unfold main, run_imports, create_database.
    rewrite Hschema. reflexivity.
  - intros [script Hschema] Hmaster. unfold main, run_imports, create_database.
    rewrite Hschema. unfold bind at 1. cbn [commit].
    change {| disk := cur (connect db); cur := cur (connect db) |} with (connect db).
    unfold import_companies.
    rewrite (bind_raise _ _ (connect db) (connect db)
               (FileNotFoundError "company_master.csv")); [done|].
    apply bind_lift_raise. unfold read_csv. by rewrite Hmaster.
  - intros d c1 e c2 [script Hschema] Hcompanies Hmembership.
    assert (Hcommit : disk c1 = cur c1).
    { revert Hcompanies. unfold import_companies.
      destruct (read_csv fs "company_master.csv") as [df|e0];
        [rewrite (bind_lift_return (Return df) df) by done
        |rewrite (bind_lift_raise (Raise e0) e0) by done; discriminate].
      destruct (company_records (columns df) (rows df)) as [records|e0];
        [rewrite (bind_lift_return (Return records) records) by done
        |rewrite (bind_lift_raise (Raise e0) e0) by done; discriminate].
      unfold bind at 1. rewrite for_each_execute. by intros [= _ <-]. }
    unfold main, run_imports, create_database. rewrite Hschema.
    unfold bind at 1. cbn [commit].
    change {| disk := cur (connect db); cur := cur (connect db) |} with (connect db).
    rewrite (bind_return _ _ _ _ _ Hcompanies).
    rewrite (bind_raise _ _ _ _ _ Hmembership).
    cbn beta iota.
    by rewrite (import_index_membership_raise _ _ _ _ _ Hmembership), Hcommit.
  - intros d Hfile c1. unfold import_index_membership.
    apply bind_lift_raise. unfold read_csv. by rewrite Hfile.
  - apply fix_dates_main_lookup.
Qed.

End FatalErrors.

(** The claim as written fails in [main]: with the membership snapshot
    missing, the run reports the error and its companies stay in the
    database file; and in [fix_dates]: with the annual workbook missing, the
    quarterly one is still fixed. *)
Lemma fatal_error_keeps_committed_rows :
  (main sample_partial_files empty_database).1
    = Some (FileNotFoundError "index_membership_snapshot.csv") ∧
  (companies (main sample_partial_files empty_database).2).*1 = [1; 2] ∧
  (fix_dates_main sample_fix_files).2
    = [FileNotFoundError "financials_annual.xlsx";
       FileNotFoundError "financials_fiscal_annual.xlsx";
       FileNotFoundError "financials_fiscal_quarterly.xlsx"] ∧
  (fix_dates_main sample_fix_files).1 !! "financials_quarterly.xlsx"
    = Some (Workbook (fix_sheet "QUARTERLY" sample_workbook)).
Proof. repeat split; reflexivity. Qed.
(** ** What the cleaning functions return *)

(** ** Stripped strings *)

Section Stripping.

Lemma lstrip_head (s : string) :
  lstrip s = "" ∨ ∃ c r, lstrip s = String c r ∧ py_isspace c = false.
Proof.
  induction s as [|c s IH]; [by left|].
  cbn [lstrip]. destruct (py_isspace c) eqn:Hc; [done|]. right. eauto.
Qed.

Lemma rstrip_head (c : ascii) (s : string) :
  py_isspace c = false → ∃ r, rstrip (String c s) = String c r.
Proof.
  intros Hc. cbn [rstrip]. rewrite Hc. destruct (rstrip s); eauto.
Qed.

Lemma rstrip_idem (s : string) : rstrip (rstrip s) = rstrip s.
Proof.
  induction s as [|c s IH]; [done|].
  cbn [rstrip]. destruct (rstrip s) as [|c2 r2] eqn:Hr.
  - destruct (py_isspace c) eqn:Hc; [done|]. cbn [rstrip]. by rewrite Hc.
  - change (rstrip (String c (String c2 r2)))
      with (match rstrip (String c2 r2) with
            | "" => if py_isspace c then "" else String c ""
            | r => String c r
            end).
    by rewrite IH.
Qed.

Lemma strip_idem (s : string) : strip (strip s) = strip s.
Proof.
  unfold strip. destruct (lstrip_head s) as [->|(c & r & -> & Hc)]; [done|].
  destruct (rstrip_head c r Hc) as [r' Hr]. rewrite Hr.
  cbn [lstrip]. rewrite Hc, <- Hr. apply rstrip_idem.
Qed.

End Stripping.

Section DateResults.
Context {PN : PyNumber}.

Lemma first_some_elem {A B} (f : A → option B) (l : list A) (b : B) :
  first_some f l = Some b → ∃ a, a ∈ l ∧ f a = Some b.
Proof.
  induction l as [|a l IH]; [done|]. cbn [first_some].
  destruct (f a) as [b'|] eqn:Hfa.
  - intros [= <-]. exists a. split; [left|done].
  - intros (a' & Hin & Ha')%IH. exists a'. split; [by right|done].
Qed.

Lemma strptime_valid (s fmt : string) (d : date) :
  strptime s fmt = Some d → valid_date d = true.
Proof.
  unfold strptime. destruct (compile_format fmt) as [ds|]; [|done].
  destruct (re_match ds s default_fields) as [[d' [|]]|]; try done.
  destruct (valid_date d') eqn:Hd; [|done]. by intros [= <-].
Qed.

Lemma try_formats_valid (s r : string) :
  try_formats s = Some r → ∃ d, valid_date d = true ∧ r = isoformat d.
Proof.
  unfold try_formats. intros (fmt & _ & Hfmt)%first_some_elem.
  destruct (strptime s fmt) as [d|] eqn:Hd; [|done].
  injection Hfmt as <-. exists d. split; [by eapply strptime_valid|done].
Qed.

Lemma string_length_app (s1 s2 : string) :
  String.length (s1 +:+ s2) = String.length s1 + String.length s2.
Proof.
  induction s1 as [|c s1 IH]; [done|].
  change (S (String.length (s1 +:+ s2)) = S (String.length s1 + String.length s2)).
  by rewrite IH.
Qed.

Lemma isoformat_length (d : date) :
  String.length (isoformat d) = String.length (str_nat (d_year d)) + 6.
Proof.
  unfold isoformat, strftime.
  cbn [compile_format fmap option_fmap option_map foldr render_directive].
  by rewrite string_length_app.
Qed.

Lemma isoformat_ten (d : date) :
  String.length (isoformat d) = 10 ↔
  1000 ≤ d_year d ∧ (Z.of_nat (d_year d) <= 9999)%Z.
Proof. rewrite isoformat_length, <- str_nat_year_length. lia. Qed.

Lemma parse_bloomberg_date_result (v : cell) (r : string) :
  parse_bloomberg_date v = Some r →
  ∃ d, r = isoformat d ∧ (v = Stamp d ∨ valid_date d = true).
Proof.
  unfold parse_bloomberg_date. destruct (isna v); [done|].
  destruct v as [|s|x|d].
  - intros (d & Hd & ->)%try_formats_valid. eauto.
  - intros (d & Hd & ->)%try_formats_valid. eauto.
  - intros (d & Hd & ->)%try_formats_valid. eauto.
  - intros [= <-]. eauto.
Qed.

Lemma parse_bloomberg_date_iso (d : date) :
  valid_date d = true → 1000 ≤ d_year d →
  parse_bloomberg_date (Text (isoformat d)) = Some (isoformat d).
Proof.
  intros Hd Hyear. pose proof (valid_date_bounds d Hd) as (? & ? & ? & ?).
  rewrite parse_bloomberg_date_text.
  destruct (strftime_formats d) as (E1 & _); [done..|].
  change (strftime d "%Y-%m-%d") with (isoformat d) in E1. rewrite E1 at 1.
  rewrite strip_year_first by (done || lia).
  by apply try_formats_ymd_dash.
Qed.

(** X1.  What [parse_bloomberg_date] returns is the ISO form of a date,
    and, unless the input was a [datetime], of a date of the calendar.  It
    has ten characters exactly when the year of that date has four digits:
    a date before the year 1000 comes back with a shorter year. *)
Theorem parse_bloomberg_date_canonical (v : cell) (r : string) :
  parse_bloomberg_date v = Some r →
  ∃ d, r = isoformat d ∧ (v = Stamp d ∨ valid_date d = true) ∧
       (String.length r = 10 ↔ 1000 ≤ d_year d ∧ (Z.of_nat (d_year d) <= 9999)%Z).
Proof.
  intros (d & -> & Hd)%parse_bloomberg_date_result.
  exists d. split; [done|]. split; [done|]. apply isoformat_ten.
Qed.

(** X2.  Parsing is idempotent on a result of ten characters: such a
    string, returned for a text or a number, parses to itself. *)
Theorem parse_bloomberg_date_stable (v : cell) (r : string) :
  (∀ d, v ≠ Stamp d) →
  parse_bloomberg_date v = Some r →
  String.length r = 10 →
  parse_bloomberg_date (Text r) = Some r.
Proof.
  intros Hv (d & -> & [->|Hd])%parse_bloomberg_date_result Hlen;
    [by destruct (Hv d)|].
  apply isoformat_ten in Hlen as [Hyear _].
  by apply parse_bloomberg_date_iso.
Qed.

(** X3.  Blanks around a text cell do not matter to [clean_value] and
    [parse_bloomberg_date]. *)
Theorem text_cells_stripped (s : string) :
  clean_value (Text s) = clean_value (Text (strip s)) ∧
  parse_bloomberg_date (Text s) = parse_bloomberg_date (Text (strip s)).
Proof.
  split.
  - unfold clean_value. cbn [isna str]. by rewrite strip_idem.
  - rewrite !parse_bloomberg_date_text. by rewrite strip_idem.
Qed.

(** X4.  A string that [clean_value] returns is stripped, is none of the
    sentinels, and cleans to itself. *)
Theorem clean_value_string (v : cell) (s : string) :
  clean_value v = CStr s →
  strip s = s ∧ (s ∉ sentinels) ∧ clean_value (Text s) = CStr s.
Proof.
  unfold clean_value at 1. destruct (isna v); [done|].
  case_bool_decide as Hs; [done|].
  destruct (float_of_string _) eqn:Hf; [done|]. intros [= <-].
  split; [apply strip_idem|]. split; [done|].
  unfold clean_value. cbn [isna str]. rewrite strip_idem.
  rewrite bool_decide_eq_false_2 by done. by rewrite Hf.
Qed.

End DateResults.

Lemma parse_bloomberg_date_canonical_witness :
  ∃ d, "2024-12-31" = isoformat d ∧
       (@Text integer_numbers "12/31/2024" = Stamp d ∨ valid_date d = true) ∧
       (String.length "2024-12-31" = 10 ↔
        1000 ≤ d_year d ∧ (Z.of_nat (d_year d) <= 9999)%Z).
Proof.
  apply (@parse_bloomberg_date_canonical integer_numbers (Text "12/31/2024")).
  reflexivity.
Defined.

Lemma parse_bloomberg_date_stable_witness :
  @parse_bloomberg_date integer_numbers (Text "2024-12-31") = Some "2024-12-31".
Proof.
  apply (@parse_bloomberg_date_stable integer_numbers (Text " 31-12-2024")).
  - intros d. discriminate.
  - reflexivity.
  - reflexivity.
Defined.

(** A date before the year 1000: the year comes back without its leading
    zeros, and the string returned does not parse again. *)
Example parse_bloomberg_date_short_year :
  @parse_bloomberg_date integer_numbers (Text "0005-01-01") = Some "5-01-01" ∧
  @parse_bloomberg_date integer_numbers (Text "5-01-01") = None.
Proof. split; reflexivity. Qed.

Lemma clean_value_string_witness :
  strip "n/a" = "n/a" ∧ ("n/a" ∉ sentinels) ∧
  @clean_value integer_numbers (Text "n/a") = CStr "n/a".
Proof.
  apply (@clean_value_string integer_numbers (Text " n/a ")). reflexivity.
Defined.
(** ** The rows the importers insert *)

Section Loops.
Context {PN : PyNumber}.

(** A property of the accumulator and the connection that every turn which
    returns keeps holds after a loop that returns. *)
Lemma for_each_inv {A B} (J : B → connection → Prop) (body : B → A → M B)
    (xs : list A) (acc : B) (c : connection) (b' : B) (c' : connection) :
  (∀ b x c0 b1 c1, x ∈ xs → J b c0 → body b x c0 = (Return b1, c1) → J b1 c1) →
  J acc c → for_each body acc xs c = (Return b', c') → J b' c'.
Proof.
  revert acc c. induction xs as [|x xs IH]; intros acc c Hbody HJ.
  - cbn [for_each]. unfold ret. by intros [= <- <-].
  - cbn [for_each]. unfold bind at 1.
    destruct (body acc x c) as [[b1|e] c1] eqn:Hx; [|done].
    apply IH.
    + intros b y c0 b2 c2 Hy. apply Hbody. by right.
    + eapply Hbody; [left|exact HJ|exact Hx].
Qed.

(** A loop whose turns all return, returns. *)
Lemma for_each_returns {A B} (J : B → connection → Prop) (body : B → A → M B)
    (xs : list A) (acc : B) (c : connection) :
  (∀ b x c0, x ∈ xs → J b c0 → ∃ b1 c1, body b x c0 = (Return b1, c1) ∧ J b1 c1) →
  J acc c → ∃ b' c', for_each body acc xs c = (Return b', c') ∧ J b' c'.
Proof.
  revert acc c. induction xs as [|x xs IH]; intros acc c Hbody HJ.
  - cbn [for_each]. unfold ret. eauto.
  - cbn [for_each]. unfold bind at 1.
    destruct (Hbody acc x c) as (b1 & c1 & -> & HJ1); [left|done|].
    apply IH; [|done]. intros b y c0 Hy. apply Hbody. by right.
Qed.

End Loops.

Section RowInvariants.
Context {PN : PyNumber} {R K : Type} `{EqDecision K}.
Context (get : database → list R) (set : list R → database → database).
Context (L : table_lens get set) (key : R → K).
Context (T : list (nat * company_record)) (Q : R → Prop).

(** The companies are [T] and every row of the table satisfies [Q]. *)
Local Abbreviation rows_ok c := (companies (cur c) = T ∧ Forall Q (get (cur c))).

Lemma rows_ok_ignore (r : R) (c : connection) :
  rows_ok c → Q r →
  rows_ok (execute (λ db, set (insert_or_ignore key r (get db)) db) c).2.
Proof.
  intros [HT HQ] Hr. split; cbn.
  - by rewrite (lens_companies _ _ L).
  - rewrite (lens_get_set _ _ L). unfold insert_or_ignore.
    case_bool_decide; [done|]. apply Forall_app. split; [done|]. by constructor.
Qed.

Lemma rows_ok_replace (r : R) (c : connection) :
  rows_ok c → Q r →
  rows_ok (execute (λ db, set (insert_or_replace key r (get db)) db) c).2.
Proof.
  intros [HT HQ] Hr. split; cbn.
  - by rewrite (lens_companies _ _ L).
  - rewrite (lens_get_set _ _ L). unfold insert_or_replace.
    apply Forall_app. split; [|by constructor].
    apply Forall_forall. intros x [_ Hx]%list_elem_of_filter.
    by eapply Forall_forall.
Qed.

Lemma rows_ok_commit (c : connection) : rows_ok c → rows_ok (commit c).2.
Proof. done. Qed.

End RowInvariants.

Section RateRows.
Context {PN : PyNumber} {SC : Schema}.

Local Abbreviation rows_ok get T Q c :=
  (companies (cur c) = T ∧ Forall Q (get (cur c))).

Lemma rate_cell_step_ok (T : list (nat * company_record)) (Q : rate_row → Prop)
    (df : sheet) (rate_date : string) (row_idx : nat)
    (entry : nat * (string * string * string)) (c c1 : connection) (u u1 : unit) :
  (entry.1 < ncols df → row_idx < nrows df →
   clean_value (at_ df row_idx entry.1) ≠ CNone →
   Q {| r_country_id := entry.2.1.1; r_rate_date := rate_date;
        r_rate_type := entry.2.1.2; r_bloomberg_ticker := entry.2.2;
        r_rate_value := clean_value (at_ df row_idx entry.1) |}) →
  rows_ok interest_rates T Q c →
  rate_cell_step df rate_date row_idx u entry c = (Return u1, c1) →
  rows_ok interest_rates T Q c1.
Proof.
  destruct entry as [col [[country_id rate_type] ticker]]. cbn [fst snd].
  intros HQ Hok. unfold rate_cell_step.
  destruct (ncols df <=? col); [unfold ret; by intros [= _ <-]|].
  unfold bind, lift, iloc.
  destruct (Nat.ltb_spec row_idx (nrows df)) as [Hr|]; [|done].
  destruct (Nat.ltb_spec col (ncols df)) as [Hc|]; [|done]. cbn [andb].
  specialize (HQ Hc Hr).
  destruct (clean_value (at_ df row_idx col)) as [|x|s] eqn:Hv.
  - unfold ret. by intros [= _ <-].
  - intros [= _ <-]. apply (rows_ok_ignore _ _ rates_lens); [done|]. by apply HQ.
  - intros [= _ <-]. apply (rows_ok_ignore _ _ rates_lens); [done|]. by apply HQ.
Qed.

End RateRows.

Section LoaderRows.
Context {PN : PyNumber} {SC : Schema}.

Local Abbreviation rows_ok get T Q c :=
  (companies (cur c) = T ∧ Forall Q (get (cur c))).

(** The dictionary gives a ticker no other id than the table does. *)
Local Abbreviation dict_exact d T :=
  (∀ ticker n, d !! ticker = Some (S n) → select_company_id ticker T = Some (S n)).

Lemma resolve_company_select (d : gmap string nat) (T : list (nat * company_record))
    (ticker : string) (id : nat) :
  dict_exact d T → resolve_company d T ticker = Some id →
  select_company_id ticker T = Some id.
Proof.
  intros Hd. unfold resolve_company.
  destruct (d !! ticker) as [[|n]|] eqn:Hl; try done.
  intros [= <-]. by apply Hd.
Qed.

Lemma resolve_and_cache_select (d d' : gmap string nat)
    (T : list (nat * company_record)) (ticker : string) (r : option nat) :
  dict_exact d T → resolve_and_cache d T ticker = (d', r) →
  dict_exact d' T ∧
  (∀ t n, d !! t = Some (S n) → d' !! t = Some (S n)) ∧
  (∀ t id, d' !! t = Some id → d !! t = Some id ∨ select_company_id t T = Some id) ∧
  (∀ id, r = Some id → select_company_id ticker T = Some id).
Proof.
  intros Hd. unfold resolve_and_cache.
  assert (Hins : ∀ id, select_company_id ticker T = Some id →
            (∀ n, d !! ticker ≠ Some (S n)) →
            dict_exact (<[ticker:=id]> d) T ∧
            (∀ t n, d !! t = Some (S n) → <[ticker:=id]> d !! t = Some (S n)) ∧
            (∀ t id', <[ticker:=id]> d !! t = Some id' →
                      d !! t = Some id' ∨ select_company_id t T = Some id')).
  { intros id Hs Hl. split; [|split].
    - intros t n. destruct (decide (ticker = t)) as [<-|Hne].
      + rewrite lookup_insert_eq. by intros [= ->].
      + rewrite lookup_insert_ne by done. apply Hd.
    - intros t n Ht. rewrite lookup_insert_ne; [done|]. intros <-. by apply Hl in Ht.
    - intros t id'. destruct (decide (ticker = t)) as [<-|Hne].
      + rewrite lookup_insert_eq. intros [= <-]. by right.
      + rewrite lookup_insert_ne by done. by left. }
  destruct (d !! ticker) as [[|n]|] eqn:Hl.
  - destruct (select_company_id ticker T) as [id|] eqn:Hs; intros [= <- <-].
    + destruct (Hins id) as (? & ? & ?); [done|done|].
      repeat split; try done; by intros ? [= <-].
    + repeat split; auto; done.
  - intros [= <- <-]. repeat split; auto; intros ? [= <-]; by apply Hd.
  - destruct (select_company_id ticker T) as [id|] eqn:Hs; intros [= <- <-].
    + destruct (Hins id) as (? & ? & ?); [done|done|].
      repeat split; try done; by intros ? [= <-].
    + repeat split; auto; done.
Qed.

(** *** [import_interest_rates] *)

Lemma rate_row_step_ok (T : list (nat * company_record)) (Q : rate_row → Prop)
    (df : sheet) (row_idx : nat) (c c1 : connection) (u u1 : unit) :
  (∀ rate_date col country_id rate_type ticker,
     row_idx < nrows df → col < ncols df →
     parse_bloomberg_date (at_ df row_idx 0) = Some rate_date →
     (col, (country_id, rate_type, ticker)) ∈ col_map →
     clean_value (at_ df row_idx col) ≠ CNone →
     Q {| r_country_id := country_id; r_rate_date := rate_date;
          r_rate_type := rate_type; r_bloomberg_ticker := ticker;
          r_rate_value := clean_value (at_ df row_idx col) |}) →
  rows_ok interest_rates T Q c →
  rate_row_step df u row_idx c = (Return u1, c1) →
  rows_ok interest_rates T Q c1.
Proof.
  intros HQ Hok. unfold rate_row_step, bind at 1, lift, iloc.
  destruct ((row_idx <? nrows df) && (0 <? ncols df)); [|done].
  destruct (parse_bloomberg_date (at_ df row_idx 0)) as [rate_date|] eqn:Hd.
  - apply (for_each_inv (λ _ c, rows_ok interest_rates T Q c)); [|done].
    intros b [col [[country_id rate_type] ticker]] c0 b1 c2 Hin Hok0.
    apply rate_cell_step_ok; [|done]. cbn [fst snd]. intros Hc Hr Hv.
    by eapply HQ.
  - unfold ret. by intros [= _ <-].
Qed.

(** X18.  After [import_interest_rates] has returned, every row of the rates
    table was there before or comes from one cell of the sheet: a data row
    (the seventh or a later one) whose first cell parses to the date of the
    row, and a column of [col_map] that gives its country, rate type and
    ticker; its value is the cleaned cell, which is not [None]. *)
Theorem import_interest_rates_rows (fs : filesystem) (c c1 : connection) (u : unit) :
  import_interest_rates fs c = (Return u, c1) →
  ∃ df,
    fs !! "5 countries 10y yield and policy rate.xlsx" = Some (ExcelSheet df) ∧
    ∀ r, r ∈ interest_rates (cur c1) →
      r ∈ interest_rates (cur c) ∨
      ∃ row_idx col,
        6 ≤ row_idx < nrows df ∧ col < ncols df ∧
        (col, (r_country_id r, r_rate_type r, r_bloomberg_ticker r)) ∈ col_map ∧
        parse_bloomberg_date (at_ df row_idx 0) = Some (r_rate_date r) ∧
        r_rate_value r = clean_value (at_ df row_idx col) ∧
        r_rate_value r ≠ CNone.
Proof.
  unfold import_interest_rates, bind at 1, lift, read_excel.
  destruct (fs !! "5 countries 10y yield and policy rate.xlsx") as [[| df | | |]|];
    try done.
  intros Hrun. exists df. split; [done|].
  set (Q := λ r : rate_row, r ∈ interest_rates (cur c) ∨
      ∃ row_idx col,
        6 ≤ row_idx < nrows df ∧ col < ncols df ∧
        (col, (r_country_id r, r_rate_type r, r_bloomberg_ticker r)) ∈ col_map ∧
        parse_bloomberg_date (at_ df row_idx 0) = Some (r_rate_date r) ∧
        r_rate_value r = clean_value (at_ df row_idx col) ∧
        r_rate_value r ≠ CNone).
  enough (rows_ok interest_rates (companies (cur c)) Q c1) as [_ HQ].
  { intros r Hr. by eapply Forall_forall in HQ. }
  revert Hrun. unfold bind at 1.
  destruct (for_each _ _ _ c) as [[u'|e] c2] eqn:Hloop; [|done].
  unfold commit. intros [= _ <-]. cbn [cur].
  revert Hloop.
  apply (for_each_inv (λ _ c0, rows_ok interest_rates (companies (cur c)) Q c0)).
  - intros b row_idx c0 b1 c3 [Hlo Hhi]%elem_of_seq Hok.
    apply rate_row_step_ok; [|done].
    intros rate_date col country_id rate_type ticker Hr Hc Hd Hin Hv.
    right. exists row_idx, col. cbn. repeat split; try done; lia.
  - split; [done|]. apply Forall_forall. intros r Hr. by left.
Qed.

Lemma rate_cell_step_returns (df : sheet) (rate_date : string) (row_idx : nat)
    (entry : nat * (string * string * string)) (c : connection) (u : unit) :
  row_idx < nrows df → ∃ c1, rate_cell_step df rate_date row_idx u entry c = (Return tt, c1).
Proof.
  destruct entry as [col [[country_id rate_type] ticker]]. intros Hr.
  unfold rate_cell_step. destruct (Nat.leb_spec (ncols df) col) as [|Hc].
  - unfold ret. eauto.
  - unfold bind, lift, iloc.
    destruct (Nat.ltb_spec row_idx (nrows df)); [|lia].
    destruct (Nat.ltb_spec col (ncols df)); [|lia]. cbn [andb].
    destruct (clean_value _); unfold ret, insert_rate, execute; eauto.
Qed.

Lemma rate_row_step_returns (df : sheet) (row_idx : nat) (c : connection) (u : unit) :
  row_idx < nrows df → 0 < ncols df →
  ∃ c1, rate_row_step df u row_idx c = (Return tt, c1).
Proof.
  intros Hr Hc. unfold rate_row_step, bind at 1, lift, iloc.
  destruct (Nat.ltb_spec row_idx (nrows df)); [|lia].
  destruct (Nat.ltb_spec 0 (ncols df)); [|lia]. cbn [andb].
  destruct (parse_bloomberg_date _).
  - destruct (for_each_returns (λ _ _, True) (rate_cell_step df s row_idx)
                col_map tt c) as ([] & c1 & -> & _); [|done|eauto].
    intros [] entry c0 _ _.
    destruct (rate_cell_step_returns df s row_idx entry c0 tt) as [c1 ->]; eauto.
  - unfold ret. eauto.
Qed.

Lemma import_interest_rates_returns (fs : filesystem) (df : sheet) (c : connection) :
  fs !! "5 countries 10y yield and policy rate.xlsx" = Some (ExcelSheet df) →
  0 < ncols df ∨ nrows df ≤ 6 →
  ∃ c1, import_interest_rates fs c = (Return tt, c1) ∧ disk c1 = cur c1.
Proof.
  intros Hfile Hshape. unfold import_interest_rates, bind at 1, lift, read_excel.
  rewrite Hfile. unfold bind at 1.
  destruct (for_each_returns (λ _ _, True) (rate_row_step df)
              (seq 6 (nrows df - 6)) tt c) as ([] & c1 & -> & _); [|done|].
  - intros [] row_idx c0 [Hlo Hhi]%elem_of_seq _.
    destruct (rate_row_step_returns df row_idx c0 tt) as [c1 ->]; [lia..|eauto].
  - unfold commit. eauto.
Qed.

(** *** [import_macro] *)

Lemma macro_cell_step_ok (T : list (nat * company_record)) (Q : macro_row → Prop)
    (df : sheet) (country_id indicator_name : string)
    (bloomberg_ticker : option string) (category : string) (row_idx k : nat)
    (c c1 : connection) (u u1 : unit) :
  k < ncols df - 2 →
  (row_idx < nrows df → clean_value (at_ df row_idx (2 + k)) ≠ CNone →
   Q {| i_country_id := country_id; i_indicator_date := macro_date k;
        i_indicator_name := indicator_name;
        i_bloomberg_ticker := bloomberg_ticker;
        i_indicator_value := clean_value (at_ df row_idx (2 + k));
        i_indicator_category := category |}) →
  rows_ok macro_indicators T Q c →
  macro_cell_step df (build_date_map (ncols df)) country_id indicator_name
    bloomberg_ticker category row_idx u (2 + k) c = (Return u1, c1) →
  rows_ok macro_indicators T Q c1.
Proof.
  intros Hk HQ Hok. unfold macro_cell_step.
  rewrite build_date_map_lookup by done.
  unfold bind, lift, iloc.
  destruct (Nat.ltb_spec row_idx (nrows df)) as [Hr|]; [|done].
  destruct (Nat.ltb_spec (2 + k) (ncols df)) as [Hc|]; [|done]. cbn [andb].
  specialize (HQ Hr).
  destruct (clean_value (at_ df row_idx (2 + k))) as [|x|s] eqn:Hv.
  - unfold ret. by intros [= _ <-].
  - intros [= _ <-]. apply (rows_ok_ignore _ _ macro_lens); [done|]. by apply HQ.
  - intros [= _ <-]. apply (rows_ok_ignore _ _ macro_lens); [done|]. by apply HQ.
Qed.

Lemma macro_row_step_ok (T : list (nat * company_record)) (Q : macro_row → Prop)
    (df : sheet) (country_id : string) (row_idx : nat)
    (c c1 : connection) (u u1 : unit) :
  (∀ indicator_name k,
     row_idx < nrows df → k < ncols df - 2 →
     label_of (at_ df row_idx 0) = Some indicator_name →
     indicator_name ≠ "" → indicator_name ≠ "nan" →
     clean_value (at_ df row_idx (2 + k)) ≠ CNone →
     Q {| i_country_id := country_id; i_indicator_date := macro_date k;
          i_indicator_name := indicator_name;
          i_bloomberg_ticker := label_of (at_ df row_idx 1);
          i_indicator_value := clean_value (at_ df row_idx (2 + k));
          i_indicator_category := macro_category (lower indicator_name) |}) →
  rows_ok macro_indicators T Q c →
  macro_row_step df (build_date_map (ncols df)) country_id u row_idx c = (Return u1, c1) →
  rows_ok macro_indicators T Q c1.
Proof.
  intros HQ Hok. unfold macro_row_step, bind at 1, lift, iloc.
  destruct (Nat.ltb_spec row_idx (nrows df)) as [Hr|]; [|done].
  destruct (0 <? ncols df); [|done]. cbn [andb].
  unfold bind at 1. destruct (1 <? ncols df); [|done].
  destruct (label_of (at_ df row_idx 0)) as [indicator_name|] eqn:Hname;
    [|unfold ret; by intros [= _ <-]].
  case_bool_decide as He; [unfold ret; by intros [= _ <-]|].
  case_bool_decide as Hn; [unfold ret; by intros [= _ <-]|]. cbn [orb].
  apply (for_each_inv (λ _ c0, rows_ok macro_indicators T Q c0)); [|done].
  intros b col c0 b1 c2 [Hlo Hhi]%elem_of_seq Hok0.
  replace col with (2 + (col - 2)) by lia.
  apply macro_cell_step_ok; [lia| |done].
  intros _ Hv. apply HQ; try done. lia.
Qed.

(** X15.  After [import_macro] has returned, every row of the macro table was
    there before or comes from one value cell of the sheet: its country is
    the one passed, its date the month of the column, its name the first
    cell of the row (neither empty nor [nan]), its ticker the second cell,
    its value the cleaned cell, which is not [None], and its category the
    one computed from the name in lower case. *)
Theorem import_macro_rows (fs : filesystem) (filename country_id : string)
    (c c1 : connection) (u : unit) :
  import_macro fs filename country_id c = (Return u, c1) →
  ∃ df,
    fs !! filename = Some (ExcelSheet df) ∧
    ∀ r, r ∈ macro_indicators (cur c1) →
      r ∈ macro_indicators (cur c) ∨
      ∃ row_idx k,
        2 ≤ row_idx < nrows df ∧ k < ncols df - 2 ∧
        i_country_id r = country_id ∧
        i_indicator_date r = macro_date k ∧
        label_of (at_ df row_idx 0) = Some (i_indicator_name r) ∧
        i_indicator_name r ≠ "" ∧ i_indicator_name r ≠ "nan" ∧
        i_bloomberg_ticker r = label_of (at_ df row_idx 1) ∧
        i_indicator_value r = clean_value (at_ df row_idx (2 + k)) ∧
        i_indicator_value r ≠ CNone ∧
        i_indicator_category r = macro_category (lower (i_indicator_name r)).
Proof.
  unfold import_macro, bind at 1, lift, read_excel.
  destruct (fs !! filename) as [[| df | | |]|]; try done.
  intros Hrun. exists df. split; [done|].
  set (Q := λ r : macro_row, r ∈ macro_indicators (cur c) ∨
      ∃ row_idx k,
        2 ≤ row_idx < nrows df ∧ k < ncols df - 2 ∧
        i_country_id r = country_id ∧
        i_indicator_date r = macro_date k ∧
        label_of (at_ df row_idx 0) = Some (i_indicator_name r) ∧
        i_indicator_name r ≠ "" ∧ i_indicator_name r ≠ "nan" ∧
        i_bloomberg_ticker r = label_of (at_ df row_idx 1) ∧
        i_indicator_value r = clean_value (at_ df row_idx (2 + k)) ∧
        i_indicator_value r ≠ CNone ∧
        i_indicator_category r = macro_category (lower (i_indicator_name r))).
  enough (rows_ok macro_indicators (companies (cur c)) Q c1) as [_ HQ].
  { intros r Hr. by eapply Forall_forall in HQ. }
  revert Hrun. unfold bind at 1.
  destruct (for_each _ _ _ c) as [[u'|e] c2] eqn:Hloop; [|done].
  unfold commit. intros [= _ <-]. cbn [cur].
  revert Hloop.
  apply (for_each_inv (λ _ c0, rows_ok macro_indicators (companies (cur c)) Q c0)).
  - intros b row_idx c0 b1 c3 [Hlo Hhi]%elem_of_seq Hok.
    apply macro_row_step_ok; [|done].
    intros indicator_name k Hr Hk Hname He Hn Hv.
    right. exists row_idx, k. cbn. repeat split; try done; lia.
  - split; [done|]. apply Forall_forall. intros r Hr. by left.
Qed.

Lemma macro_row_step_returns (df : sheet) (date_map : gmap nat string)
    (country_id : string) (row_idx : nat) (c : connection) (u : unit) :
  row_idx < nrows df → 2 ≤ ncols df →
  ∃ c1, macro_row_step df date_map country_id u row_idx c = (Return tt, c1).
Proof.
  intros Hr Hc. unfold macro_row_step, bind at 1, lift, iloc.
  destruct (Nat.ltb_spec row_idx (nrows df)); [|lia].
  destruct (Nat.ltb_spec 0 (ncols df)); [|lia]. cbn [andb].
  unfold bind at 1. destruct (Nat.ltb_spec 1 (ncols df)); [|lia].
  destruct (label_of _) as [indicator_name|]; [|unfold ret; eauto].
  destruct (_ || _); [unfold ret; eauto|].
  destruct (for_each_returns (λ _ _, True)
              (macro_cell_step df date_map country_id indicator_name
                 (label_of (at_ df row_idx 1))
                 (macro_category (lower indicator_name)) row_idx)
              (seq 2 (ncols df - 2)) tt c) as ([] & c1 & -> & _); [|done|eauto].
  intros [] col c0 [Hlo Hhi]%elem_of_seq _. unfold macro_cell_step.
  destruct (date_map !! col); [|unfold ret; eauto].
  unfold bind, lift, iloc.
  destruct (Nat.ltb_spec row_idx (nrows df)); [|lia].
  destruct (Nat.ltb_spec col (ncols df)); [|lia]. cbn [andb].
  destruct (clean_value _); unfold ret, insert_macro, execute; eauto.
Qed.

Lemma import_macro_returns (fs : filesystem) (filename country_id : string)
    (df : sheet) (c : connection) :
  fs !! filename = Some (ExcelSheet df) →
  2 ≤ ncols df ∨ nrows df ≤ 2 →
  ∃ c1, import_macro fs filename country_id c = (Return tt, c1) ∧ disk c1 = cur c1.
Proof.
  intros Hfile Hshape. unfold import_macro, bind at 1, lift, read_excel.
  rewrite Hfile. unfold bind at 1.
  destruct (for_each_returns (λ _ _, True)
              (macro_row_step df (build_date_map (ncols df)) country_id)
              (seq 2 (nrows df - 2)) tt c) as ([] & c1 & -> & _); [|done|].
  - intros [] row_idx c0 [Hlo Hhi]%elem_of_seq _.
    destruct (macro_row_step_returns df (build_date_map (ncols df)) country_id
                row_idx c0 tt) as [c1 ->]; [lia..|eauto].
  - unfold commit. eauto.
Qed.

(** *** [import_index_membership] *)

Lemma getitem_Return (cols row : list cell) (key : string) (v : cell) :
  getitem cols row key = Return v → v = row_get cols row key.
Proof.
  unfold getitem, row_get. destruct (index_of _ _); [|done]. by intros [= <-].
Qed.

Lemma membership_values_row (d : gmap string nat) (T : list (nat * company_record))
    (cols row : list cell) (r : membership_row) :
  dict_exact d T →
  membership_values d T cols row = Return (Some r) →
  select_company_id (strip (str (row_get cols row "Ticker"))) T = Some (m_company_id r) ∧
  m_index_id r = row_get cols row "index_id" ∧
  parse_bloomberg_date (row_get cols row "as_of_date") = Some (m_as_of_date r) ∧
  m_weight r = clean_value (row_get cols row "Weight") ∧
  m_shares_outstanding r = clean_value (row_get cols row "Shares") ∧
  m_price r = clean_value (row_get cols row "Price").
Proof.
  intros Hd. unfold membership_values.
  destruct (getitem cols row "Ticker") as [ticker_cell|] eqn:H1; [|done].
  apply getitem_Return in H1 as ->. cbn [bindO].
  destruct (getitem cols row "index_id") as [index_id|] eqn:H2; [|done].
  apply getitem_Return in H2 as ->. cbn [bindO].
  destruct (resolve_company d T _) as [company_id|] eqn:Hc; [|done].
  apply resolve_company_select in Hc; [|done].
  destruct (getitem cols row "as_of_date") as [date_cell|] eqn:H3; [|done].
  apply getitem_Return in H3 as ->. cbn [bindO].
  destruct (parse_bloomberg_date _) as [as_of_date|] eqn:Hp; [|done].
  destruct (getitem cols row "Weight") as [weight|] eqn:H4; [|done].
  apply getitem_Return in H4 as ->. cbn [bindO].
  destruct (getitem cols row "Shares") as [shares|] eqn:H5; [|done].
  apply getitem_Return in H5 as ->. cbn [bindO].
  destruct (getitem cols row "Price") as [price|] eqn:H6; [|done].
  apply getitem_Return in H6 as ->. cbn [bindO].
  by intros [= <-].
Qed.

(** X7.  With a dictionary whose ids agree with the companies table, after
    [import_index_membership] has returned every row of the membership
    table was there before or comes from one row of the snapshot: its
    company is the one the table has for the stripped ticker, its date is
    the parsed date of the row, and weight, shares and price are the
    cleaned cells. *)
Theorem import_index_membership_rows (fs : filesystem) (d : gmap string nat)
    (c c1 : connection) (u : unit) :
  (∀ ticker n, d !! ticker = Some (S n) →
               select_company_id ticker (companies (cur c)) = Some (S n)) →
  import_index_membership fs d c = (Return u, c1) →
  ∃ df,
    fs !! "index_membership_snapshot.csv" = Some (CsvFile df) ∧
    ∀ r, r ∈ index_membership (cur c1) →
      r ∈ index_membership (cur c) ∨
      ∃ row,
        row ∈ rows df ∧
        select_company_id (strip (str (row_get (columns df) row "Ticker")))
          (companies (cur c1)) = Some (m_company_id r) ∧
        m_index_id r = row_get (columns df) row "index_id" ∧
        parse_bloomberg_date (row_get (columns df) row "as_of_date")
          = Some (m_as_of_date r) ∧
        m_weight r = clean_value (row_get (columns df) row "Weight") ∧
        m_shares_outstanding r = clean_value (row_get (columns df) row "Shares") ∧
        m_price r = clean_value (row_get (columns df) row "Price").
Proof.
  intros Hd. unfold import_index_membership, bind at 1, lift, read_csv.
  destruct (fs !! "index_membership_snapshot.csv") as [[df| | | |]|]; try done.
  intros Hrun. exists df. split; [done|].
  set (Q := λ r : membership_row, r ∈ index_membership (cur c) ∨
      ∃ row,
        row ∈ rows df ∧
        select_company_id (strip (str (row_get (columns df) row "Ticker")))
          (companies (cur c)) = Some (m_company_id r) ∧
        m_index_id r = row_get (columns df) row "index_id" ∧
        parse_bloomberg_date (row_get (columns df) row "as_of_date")
          = Some (m_as_of_date r) ∧
        m_weight r = clean_value (row_get (columns df) row "Weight") ∧
        m_shares_outstanding r = clean_value (row_get (columns df) row "Shares") ∧
        m_price r = clean_value (row_get (columns df) row "Price")).
  enough (rows_ok index_membership (companies (cur c)) Q c1) as [HT HQ].
  { intros r Hr. rewrite HT. by eapply Forall_forall in HQ. }
  revert Hrun. unfold bind at 1.
  destruct (for_each _ _ _ c) as [[u'|e] c2] eqn:Hloop; [|done].
  unfold commit. intros [= _ <-]. cbn [cur].
  revert Hloop.
  apply (for_each_inv (λ _ c0, rows_ok index_membership (companies (cur c)) Q c0)).
  - intros b row c0 b1 c3 Hrow [HT HQ].
    unfold membership_step, bind at 1, companies_now. unfold bind at 1, lift.
    rewrite HT.
    destruct (membership_values d _ (columns df) row) as [[r|]|] eqn:Hv; [| |done].
    + intros [= _ <-]. apply (rows_ok_ignore _ _ membership_lens); [done|].
      right. exists row. split; [done|]. by apply (membership_values_row d).
    + unfold ret. by intros [= _ <-].
  - split; [done|]. apply Forall_forall. intros r Hr. by left.
Qed.

(** *** [import_prices_weekly] *)

(** What the loops over the tickers keep of the dictionary [d] they were
    given: it still agrees with the table, its entries with an id are
    still there, and an entry is one of [d] or one of the table. *)
Local Abbreviation cache_ok d T d' :=
  (dict_exact d' T ∧
   (∀ t n, d !! t = Some (S n) → d' !! t = Some (S n)) ∧
   (∀ t id, d' !! t = Some id → d !! t = Some id ∨ select_company_id t T = Some id)).

Lemma cache_ok_refl (d : gmap string nat) (T : list (nat * company_record)) :
  dict_exact d T → cache_ok d T d.
Proof. intros Hd. repeat split; auto. Qed.

Lemma cache_ok_step (d d1 d2 : gmap string nat) (T : list (nat * company_record))
    (ticker : string) (r : option nat) :
  cache_ok d T d1 → resolve_and_cache d1 T ticker = (d2, r) →
  cache_ok d T d2 ∧ (∀ id, r = Some id → select_company_id ticker T = Some id).
Proof.
  intros (H1 & H2 & H3) Hr.
  destruct (resolve_and_cache_select d1 d2 T ticker r H1 Hr) as (G1 & G2 & G3 & G4).
  repeat split; auto.
  intros t id Ht. destruct (G3 t id Ht) as [?|?]; auto.
Qed.

Lemma guarded_value_Return (df : sheet) (row_idx col : nat) (v : cleaned) :
  guarded_value df row_idx col = Return v →
  v = if (0 <? col) && (col <? ncols df)
      then clean_value (at_ df row_idx col) else CNone.
Proof.
  unfold guarded_value. destruct ((0 <? col) && (col <? ncols df)).
  - unfold iloc. destruct (_ && _); [|done]. by intros [= <-].
  - by intros [= <-].
Qed.

Lemma price_values_row (d0 d d' : gmap string nat) (T : list (nat * company_record))
    (df : sheet) (row_idx : nat) (price_date ticker : string) (cols : price_cols)
    (o : option price_row) :
  cache_ok d0 T d →
  price_values df row_idx price_date d T (ticker, cols) = Return (d', o) →
  cache_ok d0 T d' ∧
  ∀ r, o = Some r →
    select_company_id ticker T = Some (p_company_id r) ∧
    p_price_date r = price_date ∧
    p_close_price r = clean_value (at_ df row_idx (price_col cols)) ∧
    p_close_price r ≠ CNone ∧
    p_total_return r =
      (if (0 <? return_col cols) && (return_col cols <? ncols df)
       then clean_value (at_ df row_idx (return_col cols)) else CNone).
Proof.
  intros Hd. unfold price_values.
  destruct (resolve_and_cache d T ticker) as [d1 [company_id|]] eqn:Hr.
  - destruct (cache_ok_step d0 d d1 T ticker _ Hd Hr) as [Hd1 Hid].
    destruct (guarded_value df row_idx (price_col cols)) as [close_price|] eqn:H1;
      [|done].
    apply guarded_value_Return in H1. cbn [bindO].
    destruct (guarded_value df row_idx (return_col cols)) as [total_return|] eqn:H2;
      [|done].
    apply guarded_value_Return in H2. cbn [bindO].
    intros [= <- <-]. split; [done|]. intros r Hr'.
    destruct ((0 <? price_col cols) && (price_col cols <? ncols df)) eqn:Hg;
      [|by subst close_price].
    destruct close_price as [|x|s0] eqn:Hcp; [done|..]; injection Hr' as <-; cbn;
      (split; [by apply Hid|]); repeat split; try done.
  - destruct (cache_ok_step d0 d d1 T ticker _ Hd Hr) as [Hd1 Hid].
    intros [= <- <-]. split; [done|]. done.
Qed.

Lemma price_ticker_step_unfold (df : sheet) (row_idx : nat) (price_date : string)
    (d : gmap string nat) (item : string * price_cols) (c : connection) :
  price_ticker_step df row_idx price_date d item c =
  match price_values df row_idx price_date d (companies (cur c)) item with
  | Return (d', Some r) => (Return d', (insert_price r c).2)
  | Return (d', None) => (Return d', c)
  | Raise e => (Raise e, c)
  end.
Proof.
  unfold price_ticker_step, bind at 1, companies_now. unfold bind at 1, lift.
  by destruct (price_values _ _ _ _ _ _) as [[d' [r|]]|].
Qed.

Lemma price_row_step_ok (T : list (nat * company_record)) (Q : price_row → Prop)
    (df : sheet) (ticker_cols : list (string * price_cols))
    (d0 d d' : gmap string nat) (row_idx : nat) (c c1 : connection) :
  (∀ r ticker cols,
     row_idx < nrows df → (ticker, cols) ∈ ticker_cols →
     select_company_id ticker T = Some (p_company_id r) →
     parse_bloomberg_date (at_ df row_idx 0) = Some (p_price_date r) →
     p_close_price r = clean_value (at_ df row_idx (price_col cols)) →
     p_close_price r ≠ CNone →
     p_total_return r =
       (if (0 <? return_col cols) && (return_col cols <? ncols df)
        then clean_value (at_ df row_idx (return_col cols)) else CNone) →
     Q r) →
  rows_ok prices_weekly T Q c ∧ cache_ok d0 T d →
  price_row_step df ticker_cols d row_idx c = (Return d', c1) →
  rows_ok prices_weekly T Q c1 ∧ cache_ok d0 T d'.
Proof.
  intros HQ Hok. unfold price_row_step, bind at 1, lift, iloc.
  destruct (Nat.ltb_spec row_idx (nrows df)) as [Hr|]; [|done].
  destruct (0 <? ncols df); [|done]. cbn [andb].
  destruct (parse_bloomberg_date (at_ df row_idx 0)) as [price_date|] eqn:Hd;
    [|unfold ret; by intros [= <- <-]].
  unfold bind at 1.
  destruct (for_each _ _ _ c) as [[d1|e] c2] eqn:Hloop; [|done].
  assert (rows_ok prices_weekly T Q c2 ∧ cache_ok d0 T d1) as Hok2.
  { revert Hloop.
    apply (for_each_inv (λ d c0, rows_ok prices_weekly T Q c0 ∧ cache_ok d0 T d));
      [|done].
    intros b [ticker cols] c0 b1 c3 Hin [[HT HQ0] Hb].
    rewrite price_ticker_step_unfold, HT.
    destruct (price_values _ _ _ _ _ _) as [[d2 o]|] eqn:Hv; [|done].
    destruct (price_values_row d0 b d2 T df row_idx price_date ticker cols o Hb Hv)
      as [Hd2 Hrow].
    destruct o as [r|]; intros [= <- <-]; [|done].
    split; [|done].
    apply (rows_ok_ignore _ _ prices_lens); [done|].
    destruct (Hrow r eq_refl) as (? & ? & ? & ? & ?).
    eapply HQ; try done. congruence. }
  unfold bind at 1.
  destruct (row_idx mod 200 =? 0); unfold commit, ret; by intros [= <- <-].
Qed.

Lemma import_prices_weekly_inv (fs : filesystem) (d d' : gmap string nat)
    (c c1 : connection) :
  dict_exact d (companies (cur c)) →
  import_prices_weekly fs d c = (Return d', c1) →
  ∃ df ticker_row field_row ticker_cols,
    fs !! "price_weekly.xlsx.xlsx" = Some (ExcelSheet df) ∧
    iloc_row df 3 = Return ticker_row ∧ iloc_row df 4 = Return field_row ∧
    build_ticker_cols ticker_row field_row = Return ticker_cols ∧
    cache_ok d (companies (cur c)) d' ∧
    companies (cur c1) = companies (cur c) ∧
    ∀ r, r ∈ prices_weekly (cur c1) →
      r ∈ prices_weekly (cur c) ∨
      ∃ row_idx ticker cols,
        6 ≤ row_idx < nrows df ∧ (ticker, cols) ∈ ticker_cols ∧
        select_company_id ticker (companies (cur c)) = Some (p_company_id r) ∧
        parse_bloomberg_date (at_ df row_idx 0) = Some (p_price_date r) ∧
        p_close_price r = clean_value (at_ df row_idx (price_col cols)) ∧
        p_close_price r ≠ CNone ∧
        p_total_return r =
          (if (0 <? return_col cols) && (return_col cols <? ncols df)
           then clean_value (at_ df row_idx (return_col cols)) else CNone).
Proof.
  intros Hd. unfold import_prices_weekly, bind at 1, lift, read_excel.
  destruct (fs !! "price_weekly.xlsx.xlsx") as [[| df | | |]|]; try done.
  unfold bind at 1. destruct (iloc_row df 3) as [ticker_row|] eqn:H3; [|done].
  unfold bind at 1. destruct (iloc_row df 4) as [field_row|] eqn:H4; [|done].
  unfold bind at 1.
  destruct (build_ticker_cols ticker_row field_row) as [ticker_cols|] eqn:Hh; [|done].
  intros Hrun. exists df, ticker_row, field_row, ticker_cols.
  do 4 (split; [done|]).
  set (Q := λ r : price_row, r ∈ prices_weekly (cur c) ∨
      ∃ row_idx ticker cols,
        6 ≤ row_idx < nrows df ∧ (ticker, cols) ∈ ticker_cols ∧
        select_company_id ticker (companies (cur c)) = Some (p_company_id r) ∧
        parse_bloomberg_date (at_ df row_idx 0) = Some (p_price_date r) ∧
        p_close_price r = clean_value (at_ df row_idx (price_col cols)) ∧
        p_close_price r ≠ CNone ∧
        p_total_return r =
          (if (0 <? return_col cols) && (return_col cols <? ncols df)
           then clean_value (at_ df row_idx (return_col cols)) else CNone)).
  enough (rows_ok prices_weekly (companies (cur c)) Q c1 ∧
          cache_ok d (companies (cur c)) d') as [[HT HQ] Hc].
  { split; [done|]. split; [done|]. intros r Hr. by eapply Forall_forall in HQ. }
  revert Hrun. unfold bind at 1.
  destruct (for_each _ _ _ c) as [[d1|e] c2] eqn:Hloop; [|done].
  unfold bind, commit, ret. intros [= <- <-]. cbn [cur].
  revert Hloop.
  apply (for_each_inv (λ d1 c0, rows_ok prices_weekly (companies (cur c)) Q c0 ∧
                                cache_ok d (companies (cur c)) d1)).
  - intros b row_idx c0 b1 c3 [Hlo Hhi]%elem_of_seq Hok.
    apply price_row_step_ok; [|done].
    intros r ticker cols Hr Hin Hs Hp Hcp Hne Htr.
    right. exists row_idx, ticker, cols. repeat split; try done; lia.
  - split; [|by apply cache_ok_refl].
    split; [done|]. apply Forall_forall. intros r Hr. by left.
Qed.

End LoaderRows.
(** ** The header and the rows of [import_financials] *)

Section Dicts.
Context {V : Type}.

Lemma dict_set_fresh (k : string) (v : V) (d : list (string * V)) :
  k ∉ d.*1 → dict_set k v d = d ++ [(k, v)].
Proof.
  induction d as [|[k' v'] d IH]; [done|]. cbn.
  intros [Hne Hd]%not_elem_of_cons.
  destruct (String.eqb_spec k k'); [done|]. by rewrite IH.
Qed.

Lemma dict_set_keys (k : string) (v : V) (d : list (string * V)) :
  (dict_set k v d).*1 = if bool_decide (k ∈ d.*1) then d.*1 else d.*1 ++ [k].
Proof.
  induction d as [|[k' v'] d IH]; [done|]. cbn.
  destruct (String.eqb_spec k k') as [->|Hne].
  - rewrite bool_decide_eq_true_2; [done|left].
  - cbn. rewrite IH. case_bool_decide as Hin.
    + rewrite bool_decide_eq_true_2; [done|by right].
    + rewrite bool_decide_eq_false_2; [done|].
      by intros [?|?]%elem_of_cons.
Qed.

Lemma dict_set_NoDup (k : string) (v : V) (d : list (string * V)) :
  NoDup d.*1 → NoDup (dict_set k v d).*1.
Proof.
  intros Hd. rewrite dict_set_keys. case_bool_decide as Hin; [done|].
  apply NoDup_app. split; [done|]. split; [|apply NoDup_singleton].
  intros x Hx ->%list_elem_of_singleton. done.
Qed.

Lemma dict_set_elem (k : string) (v : V) (d : list (string * V)) (x : string * V) :
  x ∈ dict_set k v d → x = (k, v) ∨ x ∈ d.
Proof.
  induction d as [|[k' v'] d IH]; cbn.
  - intros ->%list_elem_of_singleton. by left.
  - destruct (String.eqb_spec k k') as [->|Hne].
    + intros [->|Hx]%elem_of_cons; [by left|]. right. by right.
    + intros [->|Hx]%elem_of_cons; [right; left|].
      destruct (IH Hx) as [->|?]; [by left|]. right. by right.
Qed.

Lemma dict_get_elem (k : string) (v : V) (d : list (string * V)) :
  dict_get k d = Some v → (k, v) ∈ d.
Proof.
  induction d as [|[k' v'] d IH]; [done|]. cbn.
  destruct (String.eqb_spec k k') as [->|Hne].
  - intros [= ->]. left.
  - intros Hk. right. by apply IH.
Qed.

Lemma dict_get_NoDup (k : string) (v : V) (d : list (string * V)) :
  NoDup d.*1 → (k, v) ∈ d → dict_get k d = Some v.
Proof.
  induction d as [|[k' v'] d IH]; [by intros _ ?%elem_of_nil|]. cbn.
  intros [Hk' Hd]%NoDup_cons [[= -> ->]|Hin]%elem_of_cons.
  - by rewrite String.eqb_refl.
  - destruct (String.eqb_spec k k') as [->|Hne]; [|by apply IH].
    destruct Hk'. apply list_elem_of_fmap. by exists (k', v).
Qed.

Lemma dict_get_fmap {W} (f : V → W) (k : string) (d : list (string * V)) :
  dict_get k ((λ kv, (kv.1, f kv.2)) <$> d) = f <$> dict_get k d.
Proof.
  induction d as [|[k' v'] d IH]; [done|]. cbn.
  by destruct (String.eqb k k').
Qed.

End Dicts.

Section FoldO.

Lemma foldO_inv {A B} (P : B → Prop) (body : B → A → outcome B)
    (xs : list A) (acc b' : B) :
  (∀ b x b1, x ∈ xs → P b → body b x = Return b1 → P b1) →
  P acc → foldO body acc xs = Return b' → P b'.
Proof.
  revert acc. induction xs as [|x xs IH]; intros acc Hbody Hacc.
  - cbn. by intros [= <-].
  - cbn [foldO]. destruct (body acc x) as [b1|] eqn:Hx; [|done]. cbn [bindO].
    apply IH.
    + intros b y b2 Hy. apply Hbody. by right.
    + eapply Hbody; [left|done|done].
Qed.

Lemma foldO_returns {A B} (P : B → Prop) (body : B → A → outcome B)
    (xs : list A) (acc : B) :
  (∀ b x, x ∈ xs → P b → ∃ b1, body b x = Return b1 ∧ P b1) →
  P acc → ∃ b', foldO body acc xs = Return b' ∧ P b'.
Proof.
  revert acc. induction xs as [|x xs IH]; intros acc Hbody Hacc.
  - cbn. eauto.
  - cbn [foldO]. destruct (Hbody acc x) as (b1 & -> & Hb1); [left|done|].
    cbn [bindO]. apply IH; [|done]. intros b y Hy. apply Hbody. by right.
Qed.

End FoldO.

Section FinancialHeader.
Context {PN : PyNumber}.

Lemma financial_field_spec (field_row : list cell) (base_col f_idx : nat)
    (field_cols : list (string * nat)) :
  f_idx < fields_per_ticker →
  Forall (λ nc, mapped_field field_row base_col nc.1 nc.2) field_cols →
  NoDup field_cols.*1 →
  ∃ field_cols',
    financial_field field_row base_col field_cols f_idx = Return field_cols' ∧
    Forall (λ nc, mapped_field field_row base_col nc.1 nc.2) field_cols' ∧
    NoDup field_cols'.*1.
Proof.
  intros Hf Hall Hnd. unfold financial_field.
  destruct (Nat.ltb_spec (base_col + f_idx) (length field_row)) as [Hlt|]; [|eauto].
  unfold series_iloc.
  destruct (lookup_lt_is_Some_2 field_row (base_col + f_idx) Hlt) as [v Hv].
  rewrite Hv. cbn [bindO].
  destruct (label_of v) as [field|] eqn:Hl; [|eauto].
  case_bool_decide; [eauto|].
  destruct (dict_get field field_map) as [name|] eqn:Hm; [|eauto].
  eexists. split; [done|]. split; [|by apply dict_set_NoDup].
  apply Forall_forall. intros nc [->|Hin]%dict_set_elem.
  - cbn [fst snd]. split; [lia|]. split; [done|]. eauto.
  - by eapply Forall_forall in Hall.
Qed.

Lemma financial_fields_spec (field_row : list cell) (base_col : nat) :
  ∃ field_cols,
    foldO (financial_field field_row base_col) [] (seq 0 fields_per_ticker)
    = Return field_cols ∧
    Forall (λ nc, mapped_field field_row base_col nc.1 nc.2) field_cols ∧
    NoDup field_cols.*1.
Proof.
  apply (foldO_returns
    (λ fc, Forall (λ nc, mapped_field field_row base_col nc.1 nc.2) fc ∧ NoDup fc.*1)).
  - intros b f_idx [_ Hf]%elem_of_seq [Hall Hnd].
    apply financial_field_spec; [lia|done..].
  - split; [constructor|apply NoDup_nil_2].
Qed.

Lemma financial_block_spec (ticker_row field_row : list cell) (t_idx : nat)
    (ticker_fields : list (string * list (string * nat))) :
  t_idx < (length ticker_row - 1) / fields_per_ticker →
  Forall (λ tf, header_entry ticker_row field_row tf.1 tf.2) ticker_fields →
  ∃ ticker_fields',
    financial_block ticker_row field_row ticker_fields t_idx = Return ticker_fields' ∧
    Forall (λ tf, header_entry ticker_row field_row tf.1 tf.2) ticker_fields'.
Proof.
  intros Ht Hall. unfold financial_block, series_iloc.
  assert (Hlen : 1 + t_idx * fields_per_ticker + fields_per_ticker ≤ length ticker_row).
  { pose proof (Nat.div_mod_eq (length ticker_row - 1) fields_per_ticker).
    pose proof (Nat.mod_upper_bound (length ticker_row - 1) fields_per_ticker).
    unfold fields_per_ticker in *. nia. }
  destruct (lookup_lt_is_Some_2 ticker_row (1 + t_idx * fields_per_ticker)) as [v Hv].
  { unfold fields_per_ticker in *. lia. }
  rewrite Hv. cbn [bindO].
  destruct (label_of v) as [ticker|] eqn:Hl; [|eauto].
  case_bool_decide as He; [eauto|]. case_bool_decide as Hn; [eauto|]. cbn [negb andb].
  destruct (financial_fields_spec field_row (1 + t_idx * fields_per_ticker))
    as (field_cols & -> & Hfc & Hnd).
  cbn [bindO]. eexists. split; [done|].
  apply Forall_forall. intros tf [->|Hin]%dict_set_elem.
  - cbn [fst snd]. exists t_idx, v. repeat split; try done.
  - by eapply Forall_forall in Hall.
Qed.

Lemma build_ticker_fields_spec (ticker_row field_row : list cell) :
  ∃ ticker_fields,
    build_ticker_fields ticker_row field_row = Return ticker_fields ∧
    Forall (λ tf, header_entry ticker_row field_row tf.1 tf.2) ticker_fields.
Proof.
  apply (foldO_returns
    (λ tfs, Forall (λ tf, header_entry ticker_row field_row tf.1 tf.2) tfs)).
  - intros b t_idx [_ Ht]%elem_of_seq Hall.
    apply financial_block_spec; [lia|done].
  - constructor.
Qed.

End FinancialHeader.

Section FinancialRows.
Context {PN : PyNumber} {SC : Schema}.

Local Abbreviation rows_ok get T Q c :=
  (companies (cur c) = T ∧ Forall Q (get (cur c))).
Local Abbreviation dict_exact d T :=
  (∀ ticker n, d !! ticker = Some (S n) → select_company_id ticker T = Some (S n)).
Local Abbreviation cache_ok d T d' :=
  (dict_exact d' T ∧
   (∀ t n, d !! t = Some (S n) → d' !! t = Some (S n)) ∧
   (∀ t id, d' !! t = Some id → d !! t = Some id ∨ select_company_id t T = Some id)).

Lemma forallb_false {A} (f : A → bool) (l : list A) :
  forallb f l = false → ∃ x, x ∈ l ∧ f x = false.
Proof.
  induction l as [|x l IH]; [done|]. cbn. destruct (f x) eqn:Hx.
  - intros (y & Hy & Hfy)%IH. exists y. split; [by right|done].
  - intros _. exists x. split; [left|done].
Qed.

Lemma financial_cells_go (df : sheet) (row_idx : nat)
    (field_cols : list (string * nat)) (acc values : list (string * cleaned)) :
  NoDup (acc.*1 ++ field_cols.*1) →
  foldO (λ values fc,
           try v <- iloc df row_idx fc.2;
           Return (dict_set fc.1 (clean_value v) values)) acc field_cols
  = Return values →
  values = acc ++ ((λ fc, (fc.1, clean_value (at_ df row_idx fc.2))) <$> field_cols).
Proof.
  revert acc. induction field_cols as [|[name col] field_cols IH]; intros acc Hnd.
  - cbn. intros [= <-]. by rewrite app_nil_r.
  - cbn [foldO fst snd]. unfold iloc at 1.
    destruct (_ && _); [|done]. cbn [bindO].
    rewrite dict_set_fresh.
    + intros Hrest. apply IH in Hrest.
      * rewrite Hrest, <- app_assoc. done.
      * rewrite fmap_app, <- app_assoc. exact Hnd.
    + apply NoDup_app in Hnd as (_ & Hnd & _). intros Hin.
      apply (Hnd _ Hin). left.
Qed.

Lemma financial_cells_spec (df : sheet) (row_idx : nat)
    (field_cols : list (string * nat)) (values : list (string * cleaned)) :
  NoDup field_cols.*1 →
  financial_cells df row_idx field_cols = Return values →
  values = (λ fc, (fc.1, clean_value (at_ df row_idx fc.2))) <$> field_cols.
Proof. intros Hnd. by apply (financial_cells_go df row_idx field_cols []). Qed.

Lemma value_of_cells (df : sheet) (row_idx : nat)
    (field_cols : list (string * nat)) (name : string) :
  value_of ((λ fc, (fc.1, clean_value (at_ df row_idx fc.2))) <$> field_cols) name
  = measure_cell df row_idx field_cols name.
Proof.
  unfold value_of, measure_cell.
  rewrite (dict_get_fmap (λ col, clean_value (at_ df row_idx col))).
  by destruct (dict_get name field_cols).
Qed.

Lemma financial_values_row (d0 d d' : gmap string nat)
    (T : list (nat * company_record)) (df : sheet) (row_idx : nat)
    (period_end_date period_type ticker : string)
    (field_cols : list (string * nat)) (o : option financial_row) :
  cache_ok d0 T d → NoDup field_cols.*1 →
  financial_values df row_idx period_end_date period_type d T (ticker, field_cols)
  = Return (d', o) →
  cache_ok d0 T d' ∧
  ∀ r, o = Some r →
    select_company_id ticker T = Some (f_company_id r) ∧
    r = {| f_company_id := f_company_id r;
           f_period_end_date := period_end_date;
           f_period_type := period_type;
           f_revenue := measure_cell df row_idx field_cols "revenue";
           f_ebitda := measure_cell df row_idx field_cols "ebitda";
           f_interest_expense := measure_cell df row_idx field_cols "interest_expense";
           f_free_cash_flow := measure_cell df row_idx field_cols "free_cash_flow";
           f_gross_profit := measure_cell df row_idx field_cols "gross_profit";
           f_total_debt := measure_cell df row_idx field_cols "total_debt";
           f_cost_of_goods_sold :=
             measure_cell df row_idx field_cols "cost_of_goods_sold";
           f_currency := CNone |} ∧
    ∃ name col, (name, col) ∈ field_cols ∧ clean_value (at_ df row_idx col) ≠ CNone.
Proof.
  intros Hd Hnd. unfold financial_values.
  destruct (resolve_and_cache d T ticker) as [d1 [company_id|]] eqn:Hr.
  - destruct (cache_ok_step d0 d d1 T ticker _ Hd Hr) as [Hd1 Hid].
    destruct (financial_cells df row_idx field_cols) as [values|] eqn:Hc; [|done].
    apply financial_cells_spec in Hc; [|done]. subst values. cbn [bindO].
    destruct (forallb _ _) eqn:Hall; intros [= <- <-]; (split; [done|]); [done|].
    intros r [= <-]. cbn [f_company_id]. split; [by apply Hid|].
    rewrite !value_of_cells. split; [done|].
    apply forallb_false in Hall as ([name v] & Hin & Hv).
    apply list_elem_of_fmap in Hin as ([name' col] & [= -> ->] & Hin).
    exists name', col. split; [done|]. cbn in Hv. by destruct (clean_value _).
  - destruct (cache_ok_step d0 d d1 T ticker _ Hd Hr) as [Hd1 Hid].
    intros [= <- <-]. split; [done|]. done.
Qed.

Lemma financial_ticker_step_unfold (df : sheet) (row_idx : nat)
    (period_end_date period_type : string) (d : gmap string nat)
    (item : string * list (string * nat)) (c : connection) :
  financial_ticker_step df row_idx period_end_date period_type d item c =
  match financial_values df row_idx period_end_date period_type d
          (companies (cur c)) item with
  | Return (d', Some r) => (Return d', (insert_financial r c).2)
  | Return (d', None) => (Return d', c)
  | Raise e => (Raise e, c)
  end.
Proof.
  unfold financial_ticker_step, bind at 1, companies_now. unfold bind at 1, lift.
  by destruct (financial_values _ _ _ _ _ _ _) as [[d' [r|]]|].
Qed.

(** A field stored for a ticker is one of the seven the table has. *)
Lemma mapped_field_name (field_row : list cell) (base_col : nat)
    (name : string) (col : nat) :
  mapped_field field_row base_col name col →
  name ∈ ["revenue"; "ebitda"; "interest_expense"; "free_cash_flow";
          "gross_profit"; "total_debt"; "cost_of_goods_sold"].
Proof.
  intros (_ & _ & v & field & _ & _ & Hm).
  apply dict_get_elem in Hm.
  change (name ∈ field_map.*2).
  apply list_elem_of_fmap. by exists (field, name).
Qed.

Lemma financial_row_step_ok (T : list (nat * company_record))
    (Q : financial_row → Prop) (df : sheet) (period_type : string)
    (ticker_fields : list (string * list (string * nat)))
    (d0 d d' : gmap string nat) (row_idx : nat) (c c1 : connection) :
  Forall (λ tf, NoDup tf.2.*1) ticker_fields →
  (∀ r ticker field_cols period_end_date,
     row_idx < nrows df → (ticker, field_cols) ∈ ticker_fields →
     select_company_id ticker T = Some (f_company_id r) →
     parse_bloomberg_date (at_ df row_idx 0) = Some period_end_date →
     r = {| f_company_id := f_company_id r;
            f_period_end_date := period_end_date;
            f_period_type := period_type;
            f_revenue := measure_cell df row_idx field_cols "revenue";
            f_ebitda := measure_cell df row_idx field_cols "ebitda";
            f_interest_expense := measure_cell df row_idx field_cols "interest_expense";
            f_free_cash_flow := measure_cell df row_idx field_cols "free_cash_flow";
            f_gross_profit := measure_cell df row_idx field_cols "gross_profit";
            f_total_debt := measure_cell df row_idx field_cols "total_debt";
            f_cost_of_goods_sold :=
              measure_cell df row_idx field_cols "cost_of_goods_sold";
            f_currency := CNone |} →
     (∃ name col, (name, col) ∈ field_cols ∧
                  clean_value (at_ df row_idx col) ≠ CNone) →
     Q r) →
  rows_ok financials T Q c ∧ cache_ok d0 T d →
  financial_row_step df period_type ticker_fields d row_idx c = (Return d', c1) →
  rows_ok financials T Q c1 ∧ cache_ok d0 T d'.
Proof.
  intros Hnd HQ Hok. unfold financial_row_step, bind at 1, lift, iloc.
  destruct (Nat.ltb_spec row_idx (nrows df)) as [Hr|]; [|done].
  destruct (0 <? ncols df); [|done]. cbn [andb].
  destruct (parse_bloomberg_date (at_ df row_idx 0)) as [period_end_date|] eqn:Hd;
    [|unfold ret; by intros [= <- <-]].
  apply (for_each_inv (λ d c0, rows_ok financials T Q c0 ∧ cache_ok d0 T d));
    [|done].
  intros b [ticker field_cols] c0 b1 c3 Hin [[HT HQ0] Hb].
  rewrite financial_ticker_step_unfold, HT.
  destruct (financial_values _ _ _ _ _ _ _) as [[d2 o]|] eqn:Hv; [|done].
  assert (Hfc : NoDup field_cols.*1).
  { by eapply Forall_forall in Hnd; [|exact Hin]. }
  destruct (financial_values_row d0 b d2 T df row_idx period_end_date period_type
              ticker field_cols o Hb Hfc Hv) as [Hd2 Hrow].
  destruct o as [r|]; intros [= <- <-]; [|done].
  split; [|done].
  apply (rows_ok_replace _ _ financials_lens); [done|].
  destruct (Hrow r eq_refl) as (? & ? & ?).
  by eapply HQ.
Qed.

Lemma measure_cell_some (df : sheet) (row_idx : nat) (field_row : list cell)
    (base_col : nat) (field_cols : list (string * nat)) :
  Forall (λ nc, mapped_field field_row base_col nc.1 nc.2) field_cols →
  NoDup field_cols.*1 →
  (∃ name col, (name, col) ∈ field_cols ∧ clean_value (at_ df row_idx col) ≠ CNone) →
  ¬ (measure_cell df row_idx field_cols "revenue" = CNone ∧
     measure_cell df row_idx field_cols "ebitda" = CNone ∧
     measure_cell df row_idx field_cols "interest_expense" = CNone ∧
     measure_cell df row_idx field_cols "free_cash_flow" = CNone ∧
     measure_cell df row_idx field_cols "gross_profit" = CNone ∧
     measure_cell df row_idx field_cols "total_debt" = CNone ∧
     measure_cell df row_idx field_cols "cost_of_goods_sold" = CNone).
Proof.
  intros Hall Hnd (name & col & Hin & Hv) (H1 & H2 & H3 & H4 & H5 & H6 & H7).
  assert (Hm : measure_cell df row_idx field_cols name = clean_value (at_ df row_idx col)).
  { unfold measure_cell. by rewrite (dict_get_NoDup name col field_cols). }
  eapply Forall_forall in Hall; [|exact Hin]. cbn [fst snd] in Hall.
  apply mapped_field_name in Hall.
  repeat (apply elem_of_cons in Hall as [->|Hall]); try congruence.
  by apply elem_of_nil in Hall.
Qed.

Lemma import_financials_inv (fs : filesystem) (d d' : gmap string nat)
    (filename period_type : string) (c c1 : connection) :
  dict_exact d (companies (cur c)) →
  import_financials fs d filename period_type c = (Return d', c1) →
  ∃ df ticker_row field_row ticker_fields,
    fs !! filename = Some (ExcelSheet df) ∧
    iloc_row df 3 = Return ticker_row ∧ iloc_row df 5 = Return field_row ∧
    build_ticker_fields ticker_row field_row = Return ticker_fields ∧
    cache_ok d (companies (cur c)) d' ∧
    companies (cur c1) = companies (cur c) ∧
    ∀ r, r ∈ financials (cur c1) →
      r ∈ financials (cur c) ∨
      ∃ row_idx ticker field_cols period_end_date,
        6 ≤ row_idx < nrows df ∧ (ticker, field_cols) ∈ ticker_fields ∧
        select_company_id ticker (companies (cur c)) = Some (f_company_id r) ∧
        parse_bloomberg_date (at_ df row_idx 0) = Some period_end_date ∧
        r = {| f_company_id := f_company_id r;
               f_period_end_date := period_end_date;
               f_period_type := period_type;
               f_revenue := measure_cell df row_idx field_cols "revenue";
               f_ebitda := measure_cell df row_idx field_cols "ebitda";
               f_interest_expense :=
                 measure_cell df row_idx field_cols "interest_expense";
               f_free_cash_flow := measure_cell df row_idx field_cols "free_cash_flow";
               f_gross_profit := measure_cell df row_idx field_cols "gross_profit";
               f_total_debt := measure_cell df row_idx field_cols "total_debt";
               f_cost_of_goods_sold :=
                 measure_cell df row_idx field_cols "cost_of_goods_sold";
               f_currency := CNone |} ∧
        ¬ (f_revenue r = CNone ∧ f_ebitda r = CNone ∧ f_interest_expense r = CNone ∧
           f_free_cash_flow r = CNone ∧ f_gross_profit r = CNone ∧
           f_total_debt r = CNone ∧ f_cost_of_goods_sold r = CNone).
Proof.
  intros Hd. unfold import_financials, bind at 1, lift, read_excel.
  destruct (fs !! filename) as [[| df | | |]|]; try done.
  unfold bind at 1. destruct (iloc_row df 3) as [ticker_row|] eqn:H3; [|done].
  unfold bind at 1. destruct (iloc_row df 5) as [field_row|] eqn:H5; [|done].
  unfold bind at 1.
  destruct (build_ticker_fields_spec ticker_row field_row) as (ticker_fields & Hh & Hhead).
  rewrite Hh.
  intros Hrun. exists df, ticker_row, field_row, ticker_fields.
  do 4 (split; [done|]).
  set (Q := λ r : financial_row, r ∈ financials (cur c) ∨
      ∃ row_idx ticker field_cols period_end_date,
        6 ≤ row_idx < nrows df ∧ (ticker, field_cols) ∈ ticker_fields ∧
        select_company_id ticker (companies (cur c)) = Some (f_company_id r) ∧
        parse_bloomberg_date (at_ df row_idx 0) = Some period_end_date ∧
        r = {| f_company_id := f_company_id r;
               f_period_end_date := period_end_date;
               f_period_type := period_type;
               f_revenue := measure_cell df row_idx field_cols "revenue";
               f_ebitda := measure_cell df row_idx field_cols "ebitda";
               f_interest_expense :=
                 measure_cell df row_idx field_cols "interest_expense";
               f_free_cash_flow := measure_cell df row_idx field_cols "free_cash_flow";
               f_gross_profit := measure_cell df row_idx field_cols "gross_profit";
               f_total_debt := measure_cell df row_idx field_cols "total_debt";
               f_cost_of_goods_sold :=
                 measure_cell df row_idx field_cols "cost_of_goods_sold";
               f_currency := CNone |} ∧
        ¬ (f_revenue r = CNone ∧ f_ebitda r = CNone ∧ f_interest_expense r = CNone ∧
           f_free_cash_flow r = CNone ∧ f_gross_profit r = CNone ∧
           f_total_debt r = CNone ∧ f_cost_of_goods_sold r = CNone)).
  enough (rows_ok financials (companies (cur c)) Q c1 ∧
          cache_ok d (companies (cur c)) d') as [[HT HQ] Hc].
  { split; [done|]. split; [done|]. intros r Hr. by eapply Forall_forall in HQ. }
  revert Hrun. unfold bind at 1.
  destruct (for_each _ _ _ c) as [[d1|e] c2] eqn:Hloop; [|done].
  unfold bind, commit, ret. intros [= <- <-]. cbn [cur].
  revert Hloop.
  apply (for_each_inv (λ d1 c0, rows_ok financials (companies (cur c)) Q c0 ∧
                                cache_ok d (companies (cur c)) d1)).
  - intros b row_idx c0 b1 c3 [Hlo Hhi]%elem_of_seq Hok.
    apply financial_row_step_ok; [| |done].
    + eapply Forall_impl; [exact Hhead|].
      intros [ticker field_cols] (? & ? & ? & ? & ? & ? & ? & ? & Hnd). exact Hnd.
    + intros r ticker field_cols period_end_date Hr Hin Hs Hp Hrow Hsome.
      right. exists row_idx, ticker, field_cols, period_end_date.
      split; [lia|]. do 4 (split; [done|]).
      eapply Forall_forall in Hhead; [|exact Hin].
      destruct Hhead as (t_idx & v & _ & _ & _ & _ & _ & Hmapped & Hnd).
      rewrite Hrow. cbn. by eapply measure_cell_some.
  - split; [|by apply cache_ok_refl].
    split; [done|]. apply Forall_forall. intros r Hr. by left.
Qed.

End FinancialRows.
(** ** Sheets on which the importers return *)

Section SheetSafety.
Context {PN : PyNumber} {SC : Schema}.

Lemma iloc_row_Return (df : sheet) (r : nat) :
  r < nrows df → iloc_row df r = Return (at_ df r <$> seq 0 (ncols df)).
Proof. intros Hr. unfold iloc_row. by destruct (Nat.ltb_spec r (nrows df)); [|lia]. Qed.

Lemma iloc_row_length (df : sheet) (r : nat) (row : list cell) :
  iloc_row df r = Return row → length row = ncols df.
Proof.
  unfold iloc_row. destruct (r <? nrows df); [|done]. intros [= <-].
  by rewrite length_fmap, length_seq.
Qed.

Lemma iloc_row_Raise (df : sheet) (r : nat) :
  nrows df ≤ r → iloc_row df r = Raise IndexError.
Proof. intros Hr. unfold iloc_row. by destruct (Nat.ltb_spec r (nrows df)); [lia|]. Qed.

Lemma guarded_value_returns (df : sheet) (row_idx col : nat) :
  row_idx < nrows df → ∃ v, guarded_value df row_idx col = Return v.
Proof.
  intros Hr. unfold guarded_value.
  destruct (0 <? col); [|cbn; eauto].
  destruct (Nat.ltb_spec col (ncols df)); [|cbn; eauto]. cbn [andb].
  unfold iloc. destruct (Nat.ltb_spec row_idx (nrows df)); [|lia].
  destruct (Nat.ltb_spec col (ncols df)); [|lia]. cbn. eauto.
Qed.

Lemma price_ticker_step_returns (df : sheet) (row_idx : nat) (price_date : string)
    (d : gmap string nat) (item : string * price_cols) (c : connection) :
  row_idx < nrows df →
  ∃ d' c1, price_ticker_step df row_idx price_date d item c = (Return d', c1).
Proof.
  intros Hr. rewrite price_ticker_step_unfold.
  destruct item as [ticker cols]. unfold price_values.
  destruct (resolve_and_cache _ _ _) as [d1 [company_id|]]; [|eauto].
  destruct (guarded_value_returns df row_idx (price_col cols) Hr) as [v1 ->].
  destruct (guarded_value_returns df row_idx (return_col cols) Hr) as [v2 ->].
  cbn [bindO]. destruct v1; eauto.
Qed.

Lemma price_row_step_returns (df : sheet) (ticker_cols : list (string * price_cols))
    (d : gmap string nat) (row_idx : nat) (c : connection) :
  row_idx < nrows df → 0 < ncols df →
  ∃ d' c1, price_row_step df ticker_cols d row_idx c = (Return d', c1).
Proof.
  intros Hr Hc. unfold price_row_step, bind at 1, lift, iloc.
  destruct (Nat.ltb_spec row_idx (nrows df)); [|lia].
  destruct (Nat.ltb_spec 0 (ncols df)); [|lia]. cbn [andb].
  destruct (parse_bloomberg_date _) as [price_date|]; [|unfold ret; eauto].
  unfold bind at 1.
  destruct (for_each_returns (λ _ _, True) (price_ticker_step df row_idx price_date)
              ticker_cols d c) as (d1 & c1 & -> & _); [|done|].
  - intros b item c0 _ _.
    destruct (price_ticker_step_returns df row_idx price_date b item c0)
      as (d1 & c1 & ->); eauto.
  - unfold bind. destruct (row_idx mod 200 =? 0); unfold commit, ret; eauto.
Qed.

Lemma import_prices_weekly_returns (fs : filesystem) (df : sheet)
    (d : gmap string nat) (c : connection) :
  fs !! "price_weekly.xlsx.xlsx" = Some (ExcelSheet df) →
  (5 ≤ nrows df ∧ (0 < ncols df ∨ nrows df ≤ 6) →
   ∃ d' c1, import_prices_weekly fs d c = (Return d', c1) ∧ disk c1 = cur c1) ∧
  (nrows df < 5 → import_prices_weekly fs d c = (Raise IndexError, c)).
Proof.
  intros Hfile. unfold import_prices_weekly, bind at 1, lift, read_excel.
  rewrite Hfile. split.
  - intros [Hrows Hshape].
    unfold bind at 1. rewrite iloc_row_Return by lia.
    unfold bind at 1. rewrite iloc_row_Return by lia.
    unfold bind at 1. rewrite build_ticker_cols_total.
    match goal with
    | |- context [price_row_step df ?tc] => generalize tc; intros ticker_cols
    end.
    unfold bind at 1.
    destruct (for_each_returns (λ _ _, True) (price_row_step df ticker_cols)
                (seq 6 (nrows df - 6)) d c) as (d1 & c1 & -> & _); [|done|].
    + intros b row_idx c0 [Hlo Hhi]%elem_of_seq _.
      destruct (price_row_step_returns df ticker_cols b row_idx c0)
        as (d1 & c1 & ->); [lia..|eauto].
    + unfold bind, commit, ret. eauto.
  - intros Hrows. unfold bind at 1.
    destruct (Nat.le_gt_cases (nrows df) 3).
    + by rewrite iloc_row_Raise.
    + rewrite iloc_row_Return by lia. unfold bind at 1.
      by rewrite iloc_row_Raise by lia.
Qed.

Lemma financial_cells_returns (df : sheet) (row_idx : nat)
    (field_cols : list (string * nat)) :
  row_idx < nrows df → Forall (λ nc, nc.2 < ncols df) field_cols →
  ∃ values, financial_cells df row_idx field_cols = Return values.
Proof.
  intros Hr Hall. unfold financial_cells.
  destruct (foldO_returns (λ _, True)
    (λ values fc, try v <- iloc df row_idx fc.2;
                  Return (dict_set fc.1 (clean_value v) values)) field_cols [])
    as (values & -> & _); [|done|eauto].
  intros b fc Hin _. eapply Forall_forall in Hall; [|exact Hin].
  unfold iloc. destruct (Nat.ltb_spec row_idx (nrows df)); [|lia].
  destruct (Nat.ltb_spec fc.2 (ncols df)); [|lia]. cbn. eauto.
Qed.

Lemma financial_row_step_returns (df : sheet) (period_type : string)
    (ticker_fields : list (string * list (string * nat)))
    (d : gmap string nat) (row_idx : nat) (c : connection) :
  row_idx < nrows df → 0 < ncols df →
  Forall (λ tf, Forall (λ nc, nc.2 < ncols df) tf.2) ticker_fields →
  ∃ d' c1, financial_row_step df period_type ticker_fields d row_idx c = (Return d', c1).
Proof.
  intros Hr Hc Hall. unfold financial_row_step, bind at 1, lift, iloc.
  destruct (Nat.ltb_spec row_idx (nrows df)); [|lia].
  destruct (Nat.ltb_spec 0 (ncols df)); [|lia]. cbn [andb].
  destruct (parse_bloomberg_date _) as [period_end_date|]; [|unfold ret; eauto].
  destruct (for_each_returns (λ _ _, True)
              (financial_ticker_step df row_idx period_end_date period_type)
              ticker_fields d c) as (d1 & c1 & -> & _); [|done|eauto].
  intros b [ticker field_cols] c0 Hin _.
  rewrite financial_ticker_step_unfold. unfold financial_values.
  destruct (resolve_and_cache _ _ _) as [d1 [company_id|]]; [|eauto].
  eapply Forall_forall in Hall; [|exact Hin]. cbn [snd] in Hall.
  destruct (financial_cells_returns df row_idx field_cols Hr Hall) as [values ->].
  cbn [bindO]. destruct (forallb _ _); eauto.
Qed.

(** X12.  On a sheet of at least six rows with a first column (or of six
    rows exactly) [import_financials] returns with everything committed,
    whatever the header and the cells hold; on a sheet of fewer than six
    rows it raises [IndexError] and leaves the connection as it was. *)
Theorem import_financials_returns (fs : filesystem) (df : sheet)
    (d : gmap string nat) (filename period_type : string) (c : connection) :
  fs !! filename = Some (ExcelSheet df) →
  (6 ≤ nrows df ∧ (0 < ncols df ∨ nrows df = 6) →
   ∃ d' c1, import_financials fs d filename period_type c = (Return d', c1) ∧
            disk c1 = cur c1) ∧
  (nrows df < 6 → import_financials fs d filename period_type c = (Raise IndexError, c)).
Proof.
  intros Hfile. unfold import_financials, bind at 1, lift, read_excel.
  rewrite Hfile. split.
  - intros [Hrows Hshape].
    unfold bind at 1. rewrite iloc_row_Return by lia.
    unfold bind at 1. rewrite iloc_row_Return by lia.
    unfold bind at 1.
    destruct (build_ticker_fields_spec (at_ df 3 <$> seq 0 (ncols df))
                (at_ df 5 <$> seq 0 (ncols df))) as (ticker_fields & -> & Hhead).
    unfold bind at 1.
    destruct (for_each_returns (λ _ _, True)
                (financial_row_step df period_type ticker_fields)
                (seq 6 (nrows df - 6)) d c) as (d1 & c1 & -> & _); [|done|].
    + intros b row_idx c0 [Hlo Hhi]%elem_of_seq _.
      destruct (financial_row_step_returns df period_type ticker_fields b row_idx c0)
        as (d1 & c1 & ->); [lia..| |eauto].
      eapply Forall_impl; [exact Hhead|].
      intros [ticker field_cols] (t_idx & v & _ & _ & _ & _ & _ & Hmapped & _).
      eapply Forall_impl; [exact Hmapped|].
      intros [name col] (_ & Hlen & _). cbn [snd] in *.
      by rewrite length_fmap, length_seq in Hlen.
    + unfold bind, commit, ret. eauto.
  - intros Hrows. unfold bind at 1.
    destruct (Nat.le_gt_cases (nrows df) 3).
    + by rewrite iloc_row_Raise.
    + rewrite iloc_row_Return by lia. unfold bind at 1.
      by rewrite iloc_row_Raise by lia.
Qed.

End SheetSafety.
(** ** The records of [import_companies] *)

Section CompanyRecords.
Context {PN : PyNumber} {SC : Schema}.

(** The ticker [import_companies] keeps a row under, [None] for a row it
    skips. *)
Lemma company_record_of_ticker (cols row : list cell) (o : option company_record) :
  company_record_of cols row = Return o →
  c_ticker <$> o =
    match label_of (nth 0 row Missing) with
    | Some ticker =>
        if bool_decide (ticker = "") || bool_decide (ticker = "#N/A")
        then None else Some ticker
    | None => None
    end.
Proof.
  unfold company_record_of, company_ticker, label_of.
  destruct cols as [|c0 cols]; [done|]. cbn [bindO].
  destruct (notna (nth 0 row Missing)); [|by intros [= <-]].
  destruct (_ || _); [by intros [= <-]|].
  destruct (country_of _); [|done]. cbn [bindO]. by intros [= <-].
Qed.

(** X5.  The records [import_companies] builds are, in the order of the
    file, the rows whose first cell is present and, stripped, neither empty
    nor [#N/A]; each record has a stripped ticker, is active, and takes its
    name, currency and market capitalisation from one row. *)
Theorem company_records_tickers (cols : list cell) (rows : list (list cell))
    (records : list company_record) :
  company_records cols rows = Return records →
  c_ticker <$> records =
    filter (λ ticker, ticker ≠ "" ∧ ticker ≠ "#N/A")
      (omap (λ row, label_of (nth 0 row Missing)) rows) ∧
  Forall (λ r, strip (c_ticker r) = c_ticker r ∧ c_is_active r = true ∧
               ∃ row, row ∈ rows ∧
                 c_company_name r = row_get cols row "NAME" ∧
                 c_currency r = row_get cols row "CRNCY" ∧
                 c_current_market_cap r = clean_value (row_get cols row "CUR_MKT_CAP"))
    records.
Proof.
  revert records. induction rows as [|row rows IH]; intros records.
  - cbn. intros [= <-]. split; [done|constructor].
  - cbn [company_records].
    destruct (company_record_of cols row) as [o|] eqn:Ho; [|done]. cbn [bindO].
    destruct (company_records cols rows) as [rs|]; [|done]. cbn [bindO].
    intros [= <-]. destruct (IH rs eq_refl) as [IH1 IH2].
    pose proof (company_record_of_ticker cols row o Ho) as Ht.
    assert (Hrest : Forall (λ r, strip (c_ticker r) = c_ticker r ∧ c_is_active r = true ∧
               ∃ row0, row0 ∈ row :: rows ∧
                 c_company_name r = row_get cols row0 "NAME" ∧
                 c_currency r = row_get cols row0 "CRNCY" ∧
                 c_current_market_cap r = clean_value (row_get cols row0 "CUR_MKT_CAP"))
              rs).
    { eapply Forall_impl; [exact IH2|].
      intros r (? & ? & row0 & ? & ?). repeat split; try done.
      exists row0. split; [by right|done]. }
    change (omap (λ row, label_of (nth 0 row Missing)) (row :: rows))
      with (match label_of (nth 0 row Missing) with
            | Some y => y :: omap (λ row, label_of (nth 0 row Missing)) rows
            | None => omap (λ row, label_of (nth 0 row Missing)) rows
            end).
    destruct (label_of (nth 0 row Missing)) as [ticker|] eqn:Hl.
    + case_bool_decide as He; [|case_bool_decide as Hn]; cbn [orb] in Ht.
      * destruct o; [done|]. split; [|done].
        rewrite filter_cons_False; [done|]. intros [? _]. done.
      * destruct o; [done|]. split; [|done].
        rewrite filter_cons_False; [done|]. intros [_ ?]. done.
      * destruct o as [r|]; [|done]. injection Ht as Ht.
        split.
        -- rewrite filter_cons_True by done. cbn. by rewrite Ht, IH1.
        -- constructor; [|done].
           revert Ho. unfold company_record_of, company_ticker.
           destruct cols as [|c0 cols]; [done|]. cbn [bindO].
           fold (label_of (nth 0 row Missing)). rewrite Hl.
           rewrite bool_decide_eq_false_2, bool_decide_eq_false_2 by done.
           cbn [orb]. destruct (country_of _); [|done]. cbn [bindO].
           intros [= <-]. cbn.
           unfold label_of in Hl. destruct (notna _); [|done].
           injection Hl as <-. split; [apply strip_idem|]. split; [done|].
           exists row. split; [left|done].
    + destruct o; [done|]. split; done.
Qed.

End CompanyRecords.

Section RepeatedTicker.
Context {PN : PyNumber} {SC : Schema}.

Lemma insert_companies_prefix (rs : list company_record)
    (t : list (nat * company_record)) :
  ∃ ext, foldl (λ t r, insert_company r t) t rs = t ++ ext.
Proof.
  revert t. induction rs as [|r rs IH]; intros t.
  - exists []. by rewrite app_nil_r.
  - cbn [foldl]. unfold insert_company at 2. case_bool_decide.
    + apply IH.
    + destruct (IH (t ++ [(next_rowid t, r)])) as [ext ->].
      eexists. by rewrite <- app_assoc.
Qed.

Lemma enumerate_ids_last (pre post : list company_record) (r : company_record) :
  c_ticker r ∉ c_ticker <$> post →
  enumerate_ids (pre ++ r :: post) !! c_ticker r = Some (length pre + 1).
Proof.
  induction post as [|r' post IH] using rev_ind; intros Hnot.
  - rewrite enumerate_ids_snoc. apply lookup_insert_eq.
  - rewrite fmap_app in Hnot. apply not_elem_of_app in Hnot as [Hpost Hr'].
    rewrite app_comm_cons, app_assoc, enumerate_ids_snoc.
    rewrite lookup_insert_ne; [by apply IH|].
    intros Heq. apply Hr'. rewrite <- Heq. cbn. left.
Qed.

(** X6.  When a ticker comes twice in the company master and the table is
    empty, the dictionary [import_companies] returns gives the ticker the
    position of its second row, while the table holds it under the id of
    the first: for a repeated ticker the dictionary and the table
    disagree. *)
Theorem import_companies_repeated_ticker (fs : filesystem) (df : frame)
    (l1 l2 l3 : list company_record) (r1 r2 : company_record) (c : connection) :
  fs !! "company_master.csv" = Some (CsvFile df) →
  company_records (columns df) (rows df) = Return (l1 ++ r1 :: l2 ++ r2 :: l3) →
  c_ticker r2 = c_ticker r1 →
  NoDup (c_ticker <$> (l1 ++ [r1])) →
  c_ticker r1 ∉ c_ticker <$> l3 →
  companies (cur c) = [] →
  ∃ d c',
    import_companies fs c = (Return d, c') ∧
    d !! c_ticker r1 = Some (length l1 + length l2 + 2) ∧
    select_company_id (c_ticker r1) (companies (cur c')) = Some (length l1 + 1).
Proof.
  intros Hfile Hrecords Hsame Hnd Hlast Hempty.
  assert (Hread : read_csv fs "company_master.csv" = Return df).
  { unfold read_csv. by rewrite Hfile. }
  eexists _, _. split; [|split].
  - unfold import_companies.
    rewrite (bind_lift_return _ _ _ _ Hread).
    rewrite (bind_lift_return _ _ _ _ Hrecords).
    unfold bind at 1. rewrite for_each_execute. reflexivity.
  - change (l1 ++ r1 :: l2 ++ r2 :: l3) with (l1 ++ (r1 :: l2) ++ r2 :: l3).
    rewrite app_assoc, <- Hsame.
    rewrite enumerate_ids_last by (by rewrite Hsame).
    f_equal. rewrite length_app. cbn. lia.
  - cbn [cur]. rewrite companies_foldl, Hempty.
    change (l1 ++ r1 :: l2 ++ r2 :: l3) with (l1 ++ [r1] ++ (l2 ++ r2 :: l3)).
    rewrite app_assoc, foldl_app, insert_companies_numbered by done.
    destruct (insert_companies_prefix (l2 ++ r2 :: l3) (numbered (l1 ++ [r1])))
      as [ext ->].
    rewrite numbered_snoc, <- app_assoc, select_company_id_app.
    rewrite select_company_id_absent.
    + cbn. unfold select_company_id. cbn. by rewrite String.eqb_refl.
    + rewrite numbered_tickers. rewrite fmap_app in Hnd.
      apply NoDup_app in Hnd as (_ & Hnd & _). intros Hin.
      apply (Hnd _ Hin). cbn. left.
Qed.

End RepeatedTicker.
(** ** The tables after an import *)

Section LoaderTheorems.
Context {PN : PyNumber} {SC : Schema}.

(** X9.  With a dictionary whose ids agree with the companies table, after
    [import_prices_weekly] has returned every row of the price table was
    there before or comes from one data row and one ticker of the header:
    its company is the one the table has for the ticker, its date the
    parsed first cell, its close price the cleaned cell of the price
    column, which is not [None], and its return the cleaned cell of the
    return column, [None] when that column is outside the sheet. *)
Theorem import_prices_weekly_rows (fs : filesystem) (d d' : gmap string nat)
    (c c1 : connection) :
  (∀ ticker n, d !! ticker = Some (S n) →
               select_company_id ticker (companies (cur c)) = Some (S n)) →
  import_prices_weekly fs d c = (Return d', c1) →
  ∃ df ticker_row field_row ticker_cols,
    fs !! "price_weekly.xlsx.xlsx" = Some (ExcelSheet df) ∧
    iloc_row df 3 = Return ticker_row ∧ iloc_row df 4 = Return field_row ∧
    build_ticker_cols ticker_row field_row = Return ticker_cols ∧
    ∀ r, r ∈ prices_weekly (cur c1) →
      r ∈ prices_weekly (cur c) ∨
      ∃ row_idx ticker cols,
        6 ≤ row_idx < nrows df ∧ (ticker, cols) ∈ ticker_cols ∧
        select_company_id ticker (companies (cur c1)) = Some (p_company_id r) ∧
        parse_bloomberg_date (at_ df row_idx 0) = Some (p_price_date r) ∧
        p_close_price r = clean_value (at_ df row_idx (price_col cols)) ∧
        p_close_price r ≠ CNone ∧
        p_total_return r =
          (if (0 <? return_col cols) && (return_col cols <? ncols df)
           then clean_value (at_ df row_idx (return_col cols)) else CNone).
Proof.
  intros Hd Hrun.
  destruct (import_prices_weekly_inv fs d d' c c1 Hd Hrun)
    as (df & ticker_row & field_row & ticker_cols & ? & ? & ? & ? & _ & HT & Hrows).
  exists df, ticker_row, field_row, ticker_cols. do 4 (split; [done|]).
  rewrite HT. exact Hrows.
Qed.

(** X11.  With a dictionary whose ids agree with the companies table, after
    [import_financials] has returned every row of the financials table was
    there before or comes from one data row and one ticker of the header:
    its company is the one the table has for the ticker, its period end
    the parsed first cell, its period type the one passed, each measure the
    cleaned cell of the column stored for it ([None] when none is stored),
    the currency [None], and not all measures are [None]. *)
Theorem import_financials_rows (fs : filesystem) (d d' : gmap string nat)
    (filename period_type : string) (c c1 : connection) :
  (∀ ticker n, d !! ticker = Some (S n) →
               select_company_id ticker (companies (cur c)) = Some (S n)) →
  import_financials fs d filename period_type c = (Return d', c1) →
  ∃ df ticker_row field_row ticker_fields,
    fs !! filename = Some (ExcelSheet df) ∧
    iloc_row df 3 = Return ticker_row ∧ iloc_row df 5 = Return field_row ∧
    build_ticker_fields ticker_row field_row = Return ticker_fields ∧
    ∀ r, r ∈ financials (cur c1) →
      r ∈ financials (cur c) ∨
      ∃ row_idx ticker field_cols period_end_date,
        6 ≤ row_idx < nrows df ∧ (ticker, field_cols) ∈ ticker_fields ∧
        select_company_id ticker (companies (cur c1)) = Some (f_company_id r) ∧
        parse_bloomberg_date (at_ df row_idx 0) = Some period_end_date ∧
        r = {| f_company_id := f_company_id r;
               f_period_end_date := period_end_date;
               f_period_type := period_type;
               f_revenue := measure_cell df row_idx field_cols "revenue";
               f_ebitda := measure_cell df row_idx field_cols "ebitda";
               f_interest_expense :=
                 measure_cell df row_idx field_cols "interest_expense";
               f_free_cash_flow := measure_cell df row_idx field_cols "free_cash_flow";
               f_gross_profit := measure_cell df row_idx field_cols "gross_profit";
               f_total_debt := measure_cell df row_idx field_cols "total_debt";
               f_cost_of_goods_sold :=
                 measure_cell df row_idx field_cols "cost_of_goods_sold";
               f_currency := CNone |} ∧
        ¬ (f_revenue r = CNone ∧ f_ebitda r = CNone ∧ f_interest_expense r = CNone ∧
           f_free_cash_flow r = CNone ∧ f_gross_profit r = CNone ∧
           f_total_debt r = CNone ∧ f_cost_of_goods_sold r = CNone).
Proof.
  intros Hd Hrun.
  destruct (import_financials_inv fs d d' filename period_type c c1 Hd Hrun)
    as (df & ticker_row & field_row & ticker_fields & ? & ? & ? & ? & _ & HT & Hrows).
  exists df, ticker_row, field_row, ticker_fields. do 4 (split; [done|]).
  rewrite HT. exact Hrows.
Qed.

(** X20.  The price and financials importers keep the dictionary they are
    given in agreement with the companies table: the ids of the dictionary
    returned are those of the table, every entry with an id is kept, and an
    entry is one of the dictionary given or the id the table has for the
    ticker. *)
Theorem ticker_cache (fs : filesystem) (d d' : gmap string nat)
    (filename period_type : string) (c c1 : connection) :
  (∀ ticker n, d !! ticker = Some (S n) →
               select_company_id ticker (companies (cur c)) = Some (S n)) →
  import_prices_weekly fs d c = (Return d', c1) ∨
  import_financials fs d filename period_type c = (Return d', c1) →
  (∀ ticker n, d' !! ticker = Some (S n) →
               select_company_id ticker (companies (cur c1)) = Some (S n)) ∧
  (∀ ticker n, d !! ticker = Some (S n) → d' !! ticker = Some (S n)) ∧
  (∀ ticker id, d' !! ticker = Some id →
     d !! ticker = Some id ∨
     select_company_id ticker (companies (cur c1)) = Some id).
Proof.
  intros Hd [Hrun|Hrun].
  - destruct (import_prices_weekly_inv fs d d' c c1 Hd Hrun)
      as (_ & _ & _ & _ & _ & _ & _ & _ & Hc & HT & _).
    rewrite HT. exact Hc.
  - destruct (import_financials_inv fs d d' filename period_type c c1 Hd Hrun)
      as (_ & _ & _ & _ & _ & _ & _ & _ & Hc & HT & _).
    rewrite HT. exact Hc.
Qed.

(** X21.  Each of the six importers, when it returns, has changed no table
    but its own. *)
Theorem loaders_frame (fs : filesystem) (d : gmap string nat)
    (filename period_type country_id : string) (c c1 : connection) :
  (∀ d', import_companies fs c = (Return d', c1) →
     index_membership (cur c1) = index_membership (cur c) ∧
     prices_weekly (cur c1) = prices_weekly (cur c) ∧
     financials (cur c1) = financials (cur c) ∧
     macro_indicators (cur c1) = macro_indicators (cur c) ∧
     interest_rates (cur c1) = interest_rates (cur c)) ∧
  (∀ u, import_index_membership fs d c = (Return u, c1) →
     companies (cur c1) = companies (cur c) ∧
     prices_weekly (cur c1) = prices_weekly (cur c) ∧
     financials (cur c1) = financials (cur c) ∧
     macro_indicators (cur c1) = macro_indicators (cur c) ∧
     interest_rates (cur c1) = interest_rates (cur c)) ∧
  (∀ d', import_prices_weekly fs d c = (Return d', c1) →
     companies (cur c1) = companies (cur c) ∧
     index_membership (cur c1) = index_membership (cur c) ∧
     financials (cur c1) = financials (cur c) ∧
     macro_indicators (cur c1) = macro_indicators (cur c) ∧
     interest_rates (cur c1) = interest_rates (cur c)) ∧
  (∀ d', import_financials fs d filename period_type c = (Return d', c1) →
     companies (cur c1) = companies (cur c) ∧
     index_membership (cur c1) = index_membership (cur c) ∧
     prices_weekly (cur c1) = prices_weekly (cur c) ∧
     macro_indicators (cur c1) = macro_indicators (cur c) ∧
     interest_rates (cur c1) = interest_rates (cur c)) ∧
  (∀ u, import_macro fs filename country_id c = (Return u, c1) →
     companies (cur c1) = companies (cur c) ∧
     index_membership (cur c1) = index_membership (cur c) ∧
     prices_weekly (cur c1) = prices_weekly (cur c) ∧
     financials (cur c1) = financials (cur c) ∧
     interest_rates (cur c1) = interest_rates (cur c)) ∧
  (∀ u, import_interest_rates fs c = (Return u, c1) →
     companies (cur c1) = companies (cur c) ∧
     index_membership (cur c1) = index_membership (cur c) ∧
     prices_weekly (cur c1) = prices_weekly (cur c) ∧
     financials (cur c1) = financials (cur c) ∧
     macro_indicators (cur c1) = macro_indicators (cur c)).
Proof.
  split; [|split; [|split; [|split; [|split]]]].
  - intros d' Hrun.
    destruct (import_companies_run fs c c1 d' Hrun) as (df & records & _ & _ & _ & _ & ->).
    done.
  - intros u Hrun.
    destruct (effect_table _ _ _ _ _ _ _
                (import_index_membership_inserts fs d) Hrun) as [rs ->]. done.
  - intros d' Hrun.
    destruct (effect_table _ _ _ _ _ _ _
                (import_prices_weekly_inserts fs d) Hrun) as [rs ->]. done.
  - intros d' Hrun.
    destruct (effect_table _ _ _ _ _ _ _
                (import_financials_inserts fs d filename period_type) Hrun) as [rs ->].
    done.
  - intros u Hrun.
    destruct (effect_table _ _ _ _ _ _ _
                (import_macro_inserts fs filename country_id) Hrun) as [rs ->]. done.
  - intros u Hrun.
    destruct (effect_table _ _ _ _ _ _ _
                (import_interest_rates_inserts fs) Hrun) as [rs ->]. done.
Qed.

End LoaderTheorems.
(** ** The period types of the financials table *)

Section OtherPeriods.
Context {PN : PyNumber} {SC : Schema}.

Lemma financial_values_period (df : sheet) (row_idx : nat)
    (period_end_date period_type : string) (d d' : gmap string nat)
    (T : list (nat * company_record)) (item : string * list (string * nat))
    (r : financial_row) :
  financial_values df row_idx period_end_date period_type d T item
  = Return (d', Some r) →
  f_period_type r = period_type.
Proof.
  unfold financial_values. destruct item as [ticker field_cols].
  destruct (resolve_and_cache d T ticker) as [d1 [company_id|]]; [|done].
  destruct (financial_cells _ _ _); [|done]. cbn [bindO].
  destruct (forallb _ _); [done|]. by intros [= _ <-].
Qed.

Lemma insert_or_replace_other_period (r : financial_row) (t : list financial_row) :
  filter (λ x, f_period_type x ≠ f_period_type r) (insert_or_replace financial_key r t)
  = filter (λ x, f_period_type x ≠ f_period_type r) t.
Proof.
  unfold insert_or_replace. rewrite filter_app.
  rewrite (filter_cons_False _ r) by (intros H; by apply H).
  rewrite filter_nil, app_nil_r.
  induction t as [|x t IH]; [done|].
  destruct (decide (financial_key x = financial_key r)) as [Heq|Hne].
  - rewrite (filter_cons_False _ x t) by (intros H; by apply H).
    rewrite (filter_cons_False _ x t); [done|].
    intros H. apply H. unfold financial_key in Heq. congruence.
  - rewrite (filter_cons_True _ x (t)) by done.
    destruct (decide (f_period_type x = f_period_type r)) as [Hp|Hp].
    + rewrite !filter_cons_False by (intros H; by apply H). exact IH.
    + rewrite !filter_cons_True by done. by rewrite IH.
Qed.

(** X13.  [import_financials] leaves the rows of every other period type as
    they were, in their order: [INSERT OR REPLACE] replaces rows of the
    period type imported only. *)
Theorem import_financials_other_periods (fs : filesystem) (d d' : gmap string nat)
    (filename period_type : string) (c c1 : connection) :
  import_financials fs d filename period_type c = (Return d', c1) →
  filter (λ r, f_period_type r ≠ period_type) (financials (cur c1))
  = filter (λ r, f_period_type r ≠ period_type) (financials (cur c)).
Proof.
  unfold import_financials, bind at 1, lift.
  destruct (read_excel fs filename) as [df|]; [|done].
  unfold bind at 1. destruct (iloc_row df 3) as [ticker_row|]; [|done].
  unfold bind at 1. destruct (iloc_row df 5) as [field_row|]; [|done].
  unfold bind at 1. destruct (build_ticker_fields _ _) as [ticker_fields|]; [|done].
  unfold bind at 1.
  destruct (for_each _ _ _ c) as [[d1|e] c2] eqn:Hloop; [|done].
  unfold bind, commit, ret. intros [= <- <-]. cbn [cur].
  revert Hloop.
  apply (for_each_inv (λ _ c0,
    filter (λ r, f_period_type r ≠ period_type) (financials (cur c0))
    = filter (λ r, f_period_type r ≠ period_type) (financials (cur c)))); [|done].
  intros b row_idx c0 b1 c3 _ Hc0.
  unfold financial_row_step, bind at 1, lift.
  destruct (iloc df row_idx 0) as [date_val|]; [|done].
  destruct (parse_bloomberg_date date_val) as [period_end_date|];
    [|unfold ret; by intros [= _ <-]].
  apply (for_each_inv (λ _ c4,
    filter (λ r, f_period_type r ≠ period_type) (financials (cur c4))
    = filter (λ r, f_period_type r ≠ period_type) (financials (cur c)))); [|done].
  intros b2 item c4 b3 c5 _ Hc4.
  rewrite financial_ticker_step_unfold.
  destruct (financial_values _ _ _ _ _ _ _) as [[d2 [r|]]|] eqn:Hv; [| |done].
  - apply financial_values_period in Hv. intros [= _ <-]. cbn.
    rewrite <- Hc4, <- Hv. apply insert_or_replace_other_period.
  - by intros [= _ <-].
Qed.

End OtherPeriods.
(** ** The consolidator, run again *)

Section ConsolidatorFiles.
Context {PN : PyNumber}.

Lemma StronglySorted_filter {A} (R : relation A) (P : A → Prop)
    `{!∀ x, Decision (P x)} (l : list A) :
  StronglySorted R l → StronglySorted R (filter P l).
Proof.
  induction 1 as [|x l Hl IH Hx]; [constructor|].
  destruct (decide (P x)).
  - rewrite filter_cons_True by done. constructor; [done|].
    apply Forall_forall. intros y [_ Hy]%list_elem_of_filter.
    by eapply Forall_forall in Hx.
  - by rewrite filter_cons_False.
Qed.

Lemma prefix_app (p s : string) :
  String.prefix p s = true → ∃ r, s = p +:+ r.
Proof.
  revert s. induction p as [|a p IH]; intros s; [by exists s|].
  destruct s as [|b s]; [done|]. cbn [String.prefix].
  destruct (ascii_dec a b) as [->|]; [|done].
  intros [r ->]%IH. by exists r.
Qed.

Lemma glob_match_index (index name : string) :
  glob_match index name = true → ∃ r, name = (index +:+ " as of") +:+ r.
Proof.
  unfold glob_match, startswith.
  intros [[Hp _]%andb_true_iff _]%andb_true_iff.
  by apply prefix_app in Hp.
Qed.

Lemma glob_match_exclusive (name : string) :
  glob_match "SPX" name = true → glob_match "UKX" name = true → False.
Proof.
  intros [r1 ->]%glob_match_index [r2 Heq]%glob_match_index.
  cbn in Heq. discriminate.
Qed.

Lemma membership_files_sorted_aux (fs : filesystem) :
  NoDup (membership_files fs) ∧ StronglySorted String.le (membership_files fs).
Proof.
  unfold membership_files. split.
  - apply NoDup_filter. rewrite merge_sort_Permutation.
    apply NoDup_app. split; [|split].
    + apply NoDup_filter, NoDup_fst_map_to_list.
    + intros name [Hspx _]%list_elem_of_filter [Hukx _]%list_elem_of_filter.
      apply Is_true_true in Hspx, Hukx. by eapply glob_match_exclusive.
    + apply NoDup_filter, NoDup_fst_map_to_list.
  - apply StronglySorted_filter, StronglySorted_merge_sort; apply _.
Qed.

Lemma membership_files_insert (fs : filesystem) (f : file) :
  membership_files (<["index_membership_snapshot.csv" := f]> fs) = membership_files fs.
Proof.
  destruct (membership_files_sorted_aux fs) as [Hnd Hs].
  destruct (membership_files_sorted_aux (<["index_membership_snapshot.csv" := f]> fs))
    as [Hnd' Hs'].
  apply (StronglySorted_unique String.le); [done..|].
  apply NoDup_Permutation; [done..|]. intros name.
  rewrite !membership_files_elem.
  destruct (decide (name = "index_membership_snapshot.csv")) as [->|Hne].
  - split; intros (_ & [H|H] & _); discriminate.
  - by rewrite lookup_insert_ne.
Qed.

Lemma snapshots_insert (fs : filesystem) (f : file) (files : list string) :
  "index_membership_snapshot.csv" ∉ files →
  snapshots (<["index_membership_snapshot.csv" := f]> fs) files = snapshots fs files.
Proof.
  induction files as [|name files IH]; [done|].
  intros [Hne Hrest]%not_elem_of_cons. cbn [snapshots].
  rewrite IH by done. f_equal.
  unfold snapshot_of_file, read_excel_table. by rewrite lookup_insert_ne.
Qed.

(** X23.  The consolidator can be run again: the table it wrote is not one of
    its inputs, and a second run writes the same table. *)
Theorem combine_memb_rerun (fs fs' : filesystem) :
  combine_memb fs = Return fs' → combine_memb fs' = Return fs'.
Proof.
  unfold combine_memb. destruct (combined fs) as [out|] eqn:Hout; [|done].
  cbn [bindO]. intros [= <-].
  assert (Hsame : combined (<["index_membership_snapshot.csv" := CsvFile out]> fs)
                  = Return out).
  { revert Hout. unfold combined. rewrite membership_files_insert.
    rewrite snapshots_insert; [done|].
    intros (_ & [H|H] & _)%membership_files_elem; discriminate. }
  rewrite Hsame. cbn [bindO]. by rewrite insert_insert_eq.
Qed.

End ConsolidatorFiles.
(** ** The rows of the consolidated table *)

Section ConsolidatorRows.
Context {PN : PyNumber}.

Lemma digit_val_bound (c : ascii) (x : nat) : digit_val c = Some x → x ≤ 9.
Proof.
  unfold digit_val. destruct (_ && _) eqn:H; [|done]. intros [= <-].
  apply andb_true_iff in H as [_ H%Nat.leb_le]. lia.
Qed.

Lemma year_at_bounds (s : string) (y : nat) :
  year_at s = Some y → 2000 ≤ y ≤ 2099.
Proof.
  intros H. destruct s as [|c1 s1]; [discriminate H|].
  destruct c1 as [[] [] [] [] [] [] [] []]; try discriminate H.
  destruct s1 as [|c2 s2]; [discriminate H|].
  destruct c2 as [[] [] [] [] [] [] [] []]; try discriminate H.
  destruct s2 as [|a [|b r]]; [discriminate H..|].
  revert H. unfold year_at.
  destruct (digit_val a) as [x1|] eqn:Ha; [|done].
  destruct (digit_val b) as [x2|] eqn:Hb; [|done]. intros [= Hy].
  apply digit_val_bound in Ha, Hb. lia.
Qed.

Lemma search_year_bounds (name : string) (y : nat) :
  search_year name = Some y → 2000 ≤ y ≤ 2099.
Proof.
  induction name as [|c name IH]; cbn [search_year].
  - destruct (year_at "") eqn:H; [|done]. intros [= <-]. by apply year_at_bounds in H.
  - destruct (year_at (String c name)) eqn:H; [|done || exact IH].
    intros [= <-]. by apply year_at_bounds in H.
Qed.

(** The date the consolidator writes for a year is one the importer reads
    as itself. *)
Lemma year_end_parses (y : nat) :
  2000 ≤ y ≤ 2099 →
  parse_bloomberg_date (Text (str_nat y +:+ "-12-31")) = Some (str_nat y +:+ "-12-31").
Proof.
  intros Hy.
  change (str_nat y +:+ "-12-31") with (isoformat (mkdate y 12 31)).
  apply parse_bloomberg_date_iso; [|cbn [d_year]; lia].
  unfold valid_date. cbn [d_year d_month d_day].
  destruct (Nat.leb_spec 1 y); [|lia].
  destruct (Z.leb_spec (Z.of_nat y) 9999); [|lia]. done.
Qed.

Lemma index_of_is_Some (key : cell) (l : list cell) :
  key ∈ l → is_Some (index_of key l).
Proof.
  intros Hin. destruct (index_of key l) eqn:H; [done|].
  by apply index_of_None in H.
Qed.

Lemma search_year_elem (fs : filesystem) (name : string) :
  name ∈ membership_files fs →
  take_chars 3 name = "SPX" ∨ take_chars 3 name = "UKX".
Proof.
  intros (_ & [H|H] & _)%membership_files_elem;
    apply glob_match_index in H as [r ->]; [by left|by right].
Qed.

Lemma combined_rows (fs : filesystem) (out : frame) :
  combined fs = Return out →
  Text "index_id" ∈ columns out ∧ Text "as_of_date" ∈ columns out ∧
  Text "Ticker" ∈ columns out ∧
  ∀ row, row ∈ rows out →
    (row_get (columns out) row "index_id" = Text "SPX" ∨
     row_get (columns out) row "index_id" = Text "UKX") ∧
    (∃ year, 2000 ≤ year ≤ 2099 ∧
       row_get (columns out) row "as_of_date" = Text (str_nat year +:+ "-12-31") ∧
       parse_bloomberg_date (row_get (columns out) row "as_of_date")
       = Some (str_nat year +:+ "-12-31")) ∧
    (∃ ticker, row_get (columns out) row "Ticker" = Text ticker ∧
               strip ticker = ticker).
Proof.
  intros Hout.
  destruct (combined_columns fs out Hout) as ((name0 & df0 & Hname0 & Hfile0) & Hcols & _).
  destruct (snapshot_of_file_shape fs name0 df0 Hfile0) as (H1 & H2 & H3 & _).
  split; [apply Hcols; eauto|]. split; [apply Hcols; eauto|].
  split; [apply Hcols; eauto|].
  intros row Hrow.
  destruct (combined_from fs out row Hout Hrow)
    as (_ & name & year & f & src & Hname & Hyear & _ & _ & _ & Hid & Hdate & Ht & _).
  rewrite Hid, Hdate, Ht. split; [|split].
  - destruct (search_year_elem fs name Hname) as [-> | ->]; auto.
  - apply search_year_bounds in Hyear. exists year. split; [done|].
    split; [done|]. by apply year_end_parses.
  - eexists. split; [done|]. apply strip_idem.
Qed.

(** X24.  Every row of the consolidated table is one the importer can take:
    its index is SPX or UKX, its date is the 31 December of a year from
    2000 to 2099, a string that [parse_bloomberg_date] returns unchanged,
    and its ticker is a stripped string. *)
Theorem combined_rows_importable (fs : filesystem) (out : frame) :
  combined fs = Return out →
  Text "index_id" ∈ columns out ∧ Text "as_of_date" ∈ columns out ∧
  Text "Ticker" ∈ columns out ∧
  ∀ row, row ∈ rows out →
    (row_get (columns out) row "index_id" = Text "SPX" ∨
     row_get (columns out) row "index_id" = Text "UKX") ∧
    (∃ year, 2000 ≤ year ≤ 2099 ∧
       row_get (columns out) row "as_of_date" = Text (str_nat year +:+ "-12-31") ∧
       parse_bloomberg_date (row_get (columns out) row "as_of_date")
       = Some (str_nat year +:+ "-12-31")) ∧
    (∃ ticker, row_get (columns out) row "Ticker" = Text ticker ∧
               strip ticker = ticker).
Proof. apply combined_rows. Qed.

End ConsolidatorRows.
(** ** The shape of the consolidated table *)

Section ConsolidatorShape.
Context {PN : PyNumber}.

(** X25.  The labels of the consolidated table are among the seven the
    script knows, and every row has one cell for each label.  The labels
    are distinct when no consolidated export has a kept label on two
    columns; an export with the headers [Weight] and [Weight ] gives a
    table with two columns [Weight]. *)
Theorem combined_shape (fs : filesystem) (out : frame) :
  combined fs = Return out →
  (∀ c, c ∈ columns out →
        c ∈ [Text "index_id"; Text "as_of_date"; Text "Ticker"; Text "Name";
             Text "Weight"; Text "Shares"; Text "Price"]) ∧
  Forall (λ row, length row = length (columns out)) (rows out) ∧
  ((∀ name f, name ∈ membership_files fs → fs !! name = Some (ExcelTable f) →
              plain_export f) →
   NoDup (columns out)).
Proof.
  intros Hout. destruct (combined_columns fs out Hout) as (_ & Hcols & Hnd).
  split; [|split; [|done]].
  - intros c (name & df & _ & Hfile & Hc)%Hcols.
    destruct (snapshot_of_file_shape fs name df Hfile) as (_ & _ & _ & Hlabels & _).
    destruct (Hlabels c Hc) as [->|[->|(label & -> & Hl)]]; [elem_tac..|].
    unfold kept_labels in Hl.
    repeat (apply elem_of_cons in Hl as [->|Hl]); [elem_tac..|by apply elem_of_nil in Hl].
  - apply Forall_forall. intros row Hrow.
    by destruct (combined_from fs out row Hout Hrow) as [Hlen _].
Qed.

(** X26.  [drop_duplicates] keeps rows in their order, changes nothing in a
    table whose keys are distinct, and does nothing when applied again. *)
Theorem drop_duplicates_first (df : frame) :
  columns (drop_duplicates df) = columns df ∧
  rows (drop_duplicates df) `sublist_of` rows df ∧
  (NoDup (snapshot_key (columns df) <$> rows df) → drop_duplicates df = df) ∧
  drop_duplicates (drop_duplicates df) = drop_duplicates df.
Proof.
  assert (Hsub : ∀ (key : list cell → cell * cell * cell) l acc,
            ∃ ext, foldl (λ acc row, insert_or_ignore key row acc) acc l = acc ++ ext ∧
                   ext `sublist_of` l).
  { intros key. induction l as [|row l IH]; intros acc.
    - exists []. by rewrite app_nil_r.
    - cbn [foldl]. unfold insert_or_ignore at 2. case_bool_decide.
      + destruct (IH acc) as (ext & -> & Hext). exists ext. split; [done|].
        by apply sublist_cons.
      + destruct (IH (acc ++ [row])) as (ext & -> & Hext). exists (row :: ext).
        split; [by rewrite <- app_assoc|]. by apply sublist_skip. }
  assert (Hid : ∀ (key : list cell → cell * cell * cell) l acc,
            NoDup (key <$> acc ++ l) →
            foldl (λ acc row, insert_or_ignore key row acc) acc l = acc ++ l).
  { intros key. induction l as [|row l IH]; intros acc Hnd.
    - by rewrite app_nil_r.
    - cbn [foldl]. unfold insert_or_ignore at 2.
      rewrite bool_decide_eq_false_2.
      + rewrite IH; [by rewrite <- app_assoc|]. by rewrite <- app_assoc.
      + rewrite fmap_app in Hnd. apply NoDup_app in Hnd as (_ & Hnd & _).
        intros Hin. apply (Hnd _ Hin). cbn. left. }
  assert (Hfix : NoDup (snapshot_key (columns df) <$> rows df) → drop_duplicates df = df).
  { intros Hnd. destruct df as [cols rs]. unfold drop_duplicates. cbn [columns rows] in *.
    f_equal. by apply (Hid _ rs []). }
  split; [done|]. split; [|split; [exact Hfix|]].
  - unfold drop_duplicates. cbn [rows].
    destruct (Hsub (snapshot_key (columns df)) (rows df) []) as (ext & -> & Hext).
    done.
  - unfold drop_duplicates at 1. cbn [columns rows drop_duplicates].
    unfold drop_duplicates. f_equal. apply (Hid _ _ []). cbn [app].
    apply insert_all_NoDup. cbn. apply NoDup_nil_2.
Qed.

End ConsolidatorShape.
(** ** [fix_dates], run again *)

Section FixDatesAgain.
Context {PN : PyNumber}.

Lemma fix_sheet_idem (period_type : string) (ws : gmap (nat * nat) cell) :
  fix_sheet period_type (fix_sheet period_type ws) = fix_sheet period_type ws.
Proof.
  unfold fix_sheet. case_bool_decide; [|case_bool_decide; [|done]].
  - apply map_eq. intros [r c]. rewrite !annual_loop_lookup.
    by case_bool_decide.
  - apply map_eq. intros [r c]. rewrite !quarterly_loop_lookup.
    by case_bool_decide.
Qed.

(** X27.  [fix_date_column] can be run again on the file it saved: the file
    stays as the first run left it.  A period type other than ANNUAL and
    QUARTERLY changes no cell: the workbook is saved as it was loaded. *)
Theorem fix_date_column_rerun (fs fs' : filesystem) (filename period_type : string) :
  fix_date_column fs filename period_type = Return fs' →
  fix_date_column fs' filename period_type = Return fs' ∧
  (period_type ≠ "ANNUAL" → period_type ≠ "QUARTERLY" → fs' = fs).
Proof.
  unfold fix_date_column, load_workbook.
  destruct (fs !! filename) as [[| | |ws|]|] eqn:Hf; try done. cbn [bindO].
  intros [= <-]. split.
  - rewrite lookup_insert_eq. cbn [bindO].
    by rewrite fix_sheet_idem, insert_insert_eq.
  - intros Ha Hq. unfold fix_sheet.
    rewrite !bool_decide_eq_false_2 by done. by apply insert_id.
Qed.

(** X28.  The driver creates and deletes no file, leaves every file other
    than the four it names as it was, and leaves a file it names as it was
    when that file is not a workbook; it prints at most four errors, and
    none when the four files are workbooks. *)
Theorem fix_dates_main_files (fs : filesystem) :
  dom (fix_dates_main fs).1 = dom fs ∧
  (∀ name, name ∉ fix_files.*1 → (fix_dates_main fs).1 !! name = fs !! name) ∧
  (∀ name, (∀ ws, fs !! name ≠ Some (Workbook ws)) →
           (fix_dates_main fs).1 !! name = fs !! name) ∧
  length (fix_dates_main fs).2 ≤ 4 ∧
  ((∀ name, name ∈ fix_files.*1 → ∃ ws, fs !! name = Some (Workbook ws)) →
   (fix_dates_main fs).2 = []).
Proof.
  assert (Hstep : ∀ (st : filesystem * list exn) (fp : string * string),
            let st' := match fix_date_column st.1 fp.1 fp.2 with
                       | Return fs' => (fs', st.2)
                       | Raise e => (st.1, st.2 ++ [e])
                       end in
            (∀ name, st'.1 !! name =
               if decide (fp.1 = name) then
                 match st.1 !! name with
                 | Some (Workbook ws') => Some (Workbook (fix_sheet fp.2 ws'))
                 | other => other
                 end
               else st.1 !! name) ∧
            length st'.2 ≤ S (length st.2) ∧
            ((∃ ws, st.1 !! fp.1 = Some (Workbook ws)) → st'.2 = st.2)).
  { intros [fs0 es] [f p]. cbn [fst snd]. unfold fix_date_column, load_workbook.
    split; [|split].
    - intros name. destruct (decide (f = name)) as [->|Hne].
      + destruct (fs0 !! name) as [[]|] eqn:Hf; cbn [bindO fst]; try done.
        by rewrite lookup_insert_eq.
      + destruct (fs0 !! f) as [[]|]; cbn [bindO fst]; try done.
        by rewrite lookup_insert_ne.
    - destruct (fs0 !! f) as [[]|]; cbn [bindO snd]; rewrite ?length_app; cbn; lia.
    - intros [ws ->]. done. }
  assert (Hlookup : ∀ name, (fix_dates_main fs).1 !! name =
            match fs !! name with
            | Some (Workbook ws) =>
                Some (Workbook
                  (if decide ("financials_annual.xlsx" = name) then fix_sheet "ANNUAL" ws
                   else if decide ("financials_quarterly.xlsx" = name)
                        then fix_sheet "QUARTERLY" ws
                   else if decide ("financials_fiscal_annual.xlsx" = name)
                        then fix_sheet "ANNUAL" ws
                   else if decide ("financials_fiscal_quarterly.xlsx" = name)
                        then fix_sheet "QUARTERLY" ws
                   else ws))
            | other => other
            end).
  { intros name. unfold fix_dates_main, fix_files. cbn [foldl].
    rewrite !(λ st fp, proj1 (Hstep st fp)). cbn [fst snd].
    destruct (fs !! name) as [[| | |ws|]|] eqn:Hf;
      repeat (case_decide; try (subst name; discriminate)); try done. }
  assert (Hloop : ∀ files (st : filesystem * list exn),
            let st' := foldl (λ st fp,
                                match fix_date_column st.1 fp.1 fp.2 with
                                | Return fs' => (fs', st.2)
                                | Raise e => (st.1, st.2 ++ [e])
                                end) st files in
            length st'.2 ≤ length st.2 + length files ∧
            ((∀ name, name ∈ files.*1 → ∃ ws, st.1 !! name = Some (Workbook ws)) →
             st'.2 = st.2)).
  { induction files as [|fp files IH]; intros st; cbn [foldl]; [split; [lia|done]|].
    destruct (Hstep st fp) as (H1 & H2 & H3).
    destruct (IH (match fix_date_column st.1 fp.1 fp.2 with
                  | Return fs' => (fs', st.2)
                  | Raise e => (st.1, st.2 ++ [e])
                  end)) as [IH1 IH2].
    split; [cbn [length]; lia|].
    intros Hall. rewrite IH2.
    - apply H3, Hall. left.
    - intros name Hname. rewrite H1.
      destruct (Hall name) as [ws ->]; [by right|].
      case_decide; eauto. }
  split; [|split; [|split; [|split]]].
  - apply set_eq. intros name. rewrite !elem_of_dom, Hlookup.
    destruct (fs !! name) as [[| | |ws|]|]; split; intros [? ?]; eauto; done.
  - intros name Hname. rewrite Hlookup.
    destruct (fs !! name) as [[| | |ws|]|]; try done.
    repeat (case_decide; [subst name; exfalso; apply Hname; elem_tac|]). done.
  - intros name Hname. rewrite Hlookup.
    destruct (fs !! name) as [[| | |ws|]|] eqn:Hf; try done. by destruct (Hname ws).
  - pose proof (Hloop fix_files (fs, [])) as [Hlen _]. exact Hlen.
  - intros Hall. pose proof (Hloop fix_files (fs, [])) as [_ Hnone].
    by apply Hnone.
Qed.

End FixDatesAgain.
(** ** The ticker list *)

Section TickerListProofs.
Context {PN : PyNumber}.

Lemma unique_values_spec (l : list string) :
  NoDup (unique_values l) ∧ ∀ t, t ∈ unique_values l ↔ t ∈ l.
Proof.
  unfold unique_values. split.
  - rewrite <- (list_fmap_id (foldl _ _ _)).
    apply (insert_all_NoDup (λ x : string, x)). cbn. apply NoDup_nil_2.
  - intros t. rewrite <- (list_fmap_id (foldl _ _ _)).
    rewrite (insert_all_keys (λ x : string, x)), list_fmap_id.
    rewrite elem_of_nil. tauto.
Qed.

Lemma column_elem (df : frame) (label : string) (cells : list cell) (v : cell) :
  column df label = Return cells →
  v ∈ cells ↔ ∃ row, row ∈ rows df ∧ v = row_get (columns df) row label.
Proof.
  unfold column, row_get. destruct (index_of _ _) as [i|]; [|done].
  intros [= <-]. rewrite list_elem_of_fmap. split.
  - intros (row & -> & Hrow). eauto.
  - intros (row & Hrow & ->). eauto.
Qed.

Lemma ticker_list_result (df : frame) (label : string) :
  label = (if bool_decide (Text "Ticker" ∈ columns df) then "Ticker" else "ticker") →
  Text label ∈ columns df →
  ∃ tickers,
    ticker_list df = Return tickers ∧
    NoDup tickers ∧ StronglySorted String.le tickers ∧
    ∀ t, t ∈ tickers ↔
         ∃ row, row ∈ rows df ∧
                notna (row_get (columns df) row label) = true ∧
                t = strip (str (row_get (columns df) row label)).
Proof.
  intros Hlabel Hin. unfold ticker_list. rewrite <- Hlabel.
  destruct (column df label) as [cells|] eqn:Hcol.
  2:{ revert Hcol. unfold column.
      destruct (index_of_is_Some _ _ Hin) as [i ->]. done. }
  cbn [bindO]. eexists. split; [done|].
  destruct (unique_values_spec ((λ c, strip (str c)) <$> filter (λ c, notna c) cells))
    as [Hnd Helem].
  split; [by rewrite merge_sort_Permutation|].
  split; [apply StronglySorted_merge_sort; apply _|].
  intros t. rewrite merge_sort_Permutation, Helem, list_elem_of_fmap. split.
  - intros (v & -> & [Hv Hcell]%list_elem_of_filter).
    apply (column_elem df label cells v Hcol) in Hcell as (row & Hrow & ->).
    exists row. split; [done|]. split; [by apply Is_true_true|done].
  - intros (row & Hrow & Hna & ->).
    exists (row_get (columns df) row label). split; [done|].
    apply list_elem_of_filter. split; [by apply Is_true_true|].
    apply (column_elem df label cells _ Hcol). eauto.
Qed.

(** X29.  The ticker list holds, sorted and each once, the stripped string of
    every cell of the ticker column that is not missing; the column read is
    [Ticker] when the table has one and [ticker] otherwise, and a table with
    neither ends the script with [KeyError]. *)
Theorem ticker_list_spec (df : frame) :
  (Text "Ticker" ∉ columns df → Text "ticker" ∉ columns df →
   ticker_list df = Raise (KeyError "ticker")) ∧
  ∀ label,
    label = (if bool_decide (Text "Ticker" ∈ columns df) then "Ticker" else "ticker") →
    Text label ∈ columns df →
    ∃ tickers,
      ticker_list df = Return tickers ∧
      NoDup tickers ∧ StronglySorted String.le tickers ∧
      ∀ t, t ∈ tickers ↔
           ∃ row, row ∈ rows df ∧
                  notna (row_get (columns df) row label) = true ∧
                  t = strip (str (row_get (columns df) row label)).
Proof.
  split.
  - intros H1 H2. unfold ticker_list, column.
    rewrite bool_decide_eq_false_2 by done.
    destruct (index_of (Text "ticker") (columns df)) as [i|] eqn:Hi; [|done].
    apply index_of_Some, list_elem_of_lookup_2 in Hi. done.
  - intros label. apply ticker_list_result.
Qed.

(** X30.  The ticker script runs on what the consolidator wrote: it finds the
    column [Ticker], writes [tickers_unique.csv] and changes no other file,
    and the tickers it writes are distinct, sorted and stripped. *)
Theorem make_ticker_list_after_combine (fs fs' : filesystem) :
  combine_memb fs = Return fs' →
  ∃ tickers,
    make_ticker_list fs'
    = Return (<["tickers_unique.csv" :=
                  CsvFile {| columns := [Text "ticker"];
                             rows := (λ t, [Text t]) <$> tickers |}]> fs') ∧
    NoDup tickers ∧ StronglySorted String.le tickers ∧
    Forall (λ t, strip t = t) tickers.
Proof.
  unfold combine_memb. destruct (combined fs) as [out|] eqn:Hout; [|done].
  cbn [bindO]. intros [= <-].
  destruct (combined_rows fs out Hout) as (_ & _ & Hticker & Hrows).
  destruct (ticker_list_result out "Ticker") as (tickers & Htickers & Hnd & Hs & Helem);
    [by rewrite bool_decide_eq_true_2|done|].
  exists tickers. split; [|split; [done|split; [done|]]].
  - unfold make_ticker_list, read_csv. rewrite lookup_insert_eq. cbn [bindO].
    by rewrite Htickers.
  - apply Forall_forall. intros t (row & Hrow & _ & ->)%Helem.
    destruct (Hrows row Hrow) as (_ & _ & ticker & -> & Hstrip).
    cbn [str]. by rewrite strip_idem.
Qed.

End TickerListProofs.
(** ** The months of the macro columns *)

Section MacroColumns.

Lemma digit_char_inj (n m : nat) : n < 10 → m < 10 → digit_char n = digit_char m → n = m.
Proof.
  intros Hn Hm Heq. apply (f_equal digit_val) in Heq.
  rewrite !digit_val_digit_char in Heq by done. by injection Heq.
Qed.

Lemma pad4_inj (y1 y2 : nat) (r1 r2 : string) :
  (Z.of_nat y1 <= 9999)%Z → (Z.of_nat y2 <= 9999)%Z →
  pad4 y1 +:+ r1 = pad4 y2 +:+ r2 → y1 = y2 ∧ r1 = r2.
Proof.
  intros H1 H2. rewrite !pad4_app. intros [= E1 E2 E3 E4 Er].
  destruct (year_digit_bounds y1 H1) as (? & ? & ? & ?).
  destruct (year_digit_bounds y2 H2) as (? & ? & ? & ?).
  apply digit_char_inj in E1, E2, E3, E4; try done.
  split; [|done].
  pose proof (Nat.div_mod_eq y1 10). pose proof (Nat.div_mod_eq y2 10).
  pose proof (Nat.div_mod_eq (y1 / 10) 10). pose proof (Nat.div_mod_eq (y2 / 10) 10).
  pose proof (Nat.div_mod_eq (y1 / 10 / 10) 10).
  pose proof (Nat.div_mod_eq (y2 / 10 / 10) 10).
  rewrite !Nat.Div0.div_div in *. cbn in *. lia.
Qed.

Lemma pad2_inj (m1 m2 : nat) (r1 r2 : string) :
  m1 ≤ 99 → m2 ≤ 99 → pad2 m1 +:+ r1 = pad2 m2 +:+ r2 → m1 = m2 ∧ r1 = r2.
Proof.
  intros H1 H2. rewrite !pad2_app.
  destruct (digit_bounds m1 H1). destruct (digit_bounds m2 H2).
  pose proof (Nat.div_mod_eq m1 10). pose proof (Nat.div_mod_eq m2 10).
  remember (m1 / 10) as q1. remember (m1 mod 10) as u1.
  remember (m2 / 10) as q2. remember (m2 mod 10) as u2.
  intros [= E1 E2 Er].
  apply digit_char_inj in E1, E2; try done.
  split; [|done]. lia.
Qed.

Lemma string_cons_inj (a : ascii) (r1 r2 : string) :
  String a r1 = String a r2 → r1 = r2.
Proof. by intros [= ->]. Qed.

Lemma macro_date_pad (k : nat) :
  (Z.of_nat k < 12300)%Z →
  macro_date k = pad4 (2024 - k / 12) +:+ ("-" +:+ (pad2 (12 - k mod 12) +:+ "-01")).
Proof.
  intros Hk. rewrite macro_date_closed.
  pose proof (Nat.div_mod_eq k 12).
  pose proof (Nat.mod_upper_bound k 12 ltac:(lia)).
  replace (2024 - Z.of_nat (k / 12))%Z with (Z.of_nat (2024 - k / 12)) by lia.
  replace (12 - Z.of_nat (k mod 12))%Z with (Z.of_nat (12 - k mod 12)) by lia.
  rewrite str_int_pad4 by lia. by rewrite fmt_02d_pad2 by lia.
Qed.

(** X17.  On a macro sheet of at most 12302 columns, two different value
    columns get two different dates: no two cells of a row share the key
    (country, date, indicator). *)
Theorem macro_dates_distinct (ncols k1 k2 : nat) :
  (Z.of_nat ncols <= 12302)%Z →
  k1 < ncols - 2 → k2 < ncols - 2 → k1 ≠ k2 →
  build_date_map ncols !! (2 + k1) ≠ build_date_map ncols !! (2 + k2).
Proof.
  intros Hn H1 H2 Hne. rewrite !build_date_map_lookup by done. intros [= Heq].
  rewrite !macro_date_pad in Heq by lia.
  pose proof (Nat.div_mod_eq k1 12). pose proof (Nat.div_mod_eq k2 12).
  pose proof (Nat.mod_upper_bound k1 12 ltac:(lia)).
  pose proof (Nat.mod_upper_bound k2 12 ltac:(lia)).
  apply pad4_inj in Heq as [Hy Heq]; [|lia..].
  assert (Heq' : pad2 (12 - k1 mod 12) +:+ "-01" = pad2 (12 - k2 mod 12) +:+ "-01").
  { exact (string_cons_inj "-" _ _ Heq). }
  apply pad2_inj in Heq' as [Hm _]; [|lia..]. lia.
Qed.

End MacroColumns.

Lemma macro_dates_distinct_witness :
  build_date_map 242 !! (2 + 0) ≠ build_date_map 242 !! (2 + 12).
Proof.
  apply (macro_dates_distinct 242 0 12); lia.
Defined.
(** ** The imports of [main], run again *)

Section Rerun.
Context {PN : PyNumber} {R : Type}.
Variable get : database → list R.
Variable set : list R → database → database.
Variable ins : R → list R → list R.
Hypothesis lens : table_lens get set.

(** A statement that inserts rows computed from the companies table, with
    an insertion that absorbs a repetition of the same rows, and leaves what
    it did committed, does nothing when it is run again on a committed
    state where the companies and its table are as it left them. *)
Lemma inserts_rerun {A} (m : M A) :
  (∀ rs t, let t' := foldl (λ t r, ins r t) t rs in
           foldl (λ t r, ins r t) t' rs = t') →
  inserts get set ins m →
  (∀ c a c1, disk c = cur c → m c = (Return a, c1) → disk c1 = cur c1) →
  ∀ c a c1, m c = (Return a, c1) →
  ∀ c2, disk c2 = cur c2 → companies (cur c2) = companies (cur c) →
        get (cur c2) = get (cur c1) →
        m c2 = (Return a, c2).
Proof.
  intros Hins [f Hf] Hsettled c a c1 Hrun c2 Hdisk Hcomp Hget.
  pose proof (Hf c) as Hc. pose proof (Hf c2) as Hc2.
  rewrite Hcomp in Hc2.
  destruct (f (companies (cur c))) as [[a' rs]|e] eqn:Hfc.
  - destruct Hc as [dsk Hc]. rewrite Hc in Hrun. injection Hrun as <- <-.
    cbn [cur] in Hget. rewrite (lens_get_set _ _ lens) in Hget.
    destruct Hc2 as [dsk2 Hc2].
    rewrite Hget, Hins, <- Hget, (lens_set_get _ _ lens) in Hc2.
    pose proof (Hsettled _ _ _ Hdisk Hc2) as Hd. cbn [disk cur] in Hd.
    rewrite Hc2, Hd. destruct c2 as [dsk0 cur0]. cbn [disk cur] in *. by subst.
  - destruct Hc as [c' Hc]. by rewrite Hc in Hrun.
Qed.

End Rerun.

Section WholeRun.
Context {PN : PyNumber} {SC : Schema}.

Lemma load_all_unfold (fs : filesystem) (c : connection) :
  load_all fs c =
  (do ticker_to_id <- import_companies fs;
   do _ <- import_index_membership fs ticker_to_id;
   do ticker_to_id <- import_prices_weekly fs ticker_to_id;
   do _ <- load_financials fs ticker_to_id;
   do _ <- load_macro fs;
   import_interest_rates fs) c.
Proof.
  unfold load_all, load_financials, load_macro, bind.
  destruct (import_companies fs c) as [[d|] c1]; [|done].
  destruct (import_index_membership fs d c1) as [[u|] c2]; [|done].
  destruct (import_prices_weekly fs d c2) as [[d2|] c3]; [|done].
  destruct (import_financials fs d2 _ _ c3) as [[d3|] c4]; [|done].
  by destruct ((if file_exists fs "financials_quarterly.xlsx"
                then import_financials fs d3 "financials_quarterly.xlsx" "QUARTERLY"
                else ret d3) c4) as [[d4|] c5].
Qed.

Lemma run_imports_load_all (fs : filesystem) :
  run_imports fs = (do _ <- create_database fs; load_all fs).
Proof. reflexivity. Qed.

Lemma load_financials_inserts (fs : filesystem) (d : gmap string nat) :
  inserts financials set_financials (insert_or_replace financial_key)
    (load_financials fs d).
Proof.
  unfold load_financials.
  apply (inserts_bind _ _ _ financials_lens); [apply import_financials_inserts|].
  intros d3. destruct (file_exists _ _);
    [apply import_financials_inserts|apply (inserts_ret _ _ _ financials_lens)].
Qed.

Lemma load_financials_settled (fs : filesystem) (d d' : gmap string nat)
    (c c1 : connection) :
  load_financials fs d c = (Return d', c1) → disk c1 = cur c1.
Proof.
  unfold load_financials, bind.
  destruct (import_financials fs d _ _ c) as [[d3|] c4] eqn:Ha; [|done].
  apply import_financials_commits in Ha.
  destruct (file_exists _ _).
  - apply import_financials_commits.
  - unfold ret. by intros [= _ <-].
Qed.

Lemma load_macro_inserts (fs : filesystem) :
  inserts macro_indicators set_macro_indicators (insert_or_ignore macro_key)
    (load_macro fs).
Proof.
  unfold load_macro. apply (inserts_for_each _ _ _ macro_lens). intros [] fc.
  destruct (file_exists _ _);
    [apply import_macro_inserts|apply (inserts_ret _ _ _ macro_lens)].
Qed.

Lemma load_macro_settled (fs : filesystem) (c c1 : connection) (u : unit) :
  disk c = cur c → load_macro fs c = (Return u, c1) → disk c1 = cur c1.
Proof.
  intros Hc. unfold load_macro.
  apply (for_each_inv (λ _ c0, disk c0 = cur c0)); [|done].
  intros b fc c0 b1 c2 _ Hc0. destruct (file_exists _ _).
  - apply import_macro_commits.
  - unfold ret. by intros [= _ <-].
Qed.

Lemma import_companies_rerun (fs : filesystem) (c c1 c2 : connection)
    (d : gmap string nat) :
  import_companies fs c = (Return d, c1) →
  disk c2 = cur c2 → companies (cur c2) = companies (cur c1) →
  import_companies fs c2 = (Return d, c2).
Proof.
  intros Hrun Hdisk Hcomp.
  destruct (import_companies_run fs c c1 d Hrun)
    as (df & records & Hread & Hrec & -> & _ & Hcur).
  unfold import_companies.
  rewrite (bind_lift_return _ _ _ _ Hread), (bind_lift_return _ _ _ _ Hrec).
  unfold bind at 1. rewrite for_each_execute. cbn [commit bind ret].
  rewrite insert_companies_foldl.
  assert (Hsame : foldl (λ t r, insert_company r t) (companies (cur c2)) records
                  = companies (cur c2)).
  { apply insert_companies_present, Forall_forall. intros r Hr.
    rewrite Hcomp, Hcur. destruct (cur c) as [t0 ? ? ? ? ?].
    cbn [companies set_companies].
    apply insert_companies_tickers. left. by apply list_elem_of_fmap_2. }
  rewrite Hsame.
  assert (Hid : set_companies (companies (cur c2)) (cur c2) = cur c2)
    by (by destruct (cur c2)).
  rewrite Hid. destruct c2 as [dsk2 cur2]. cbn [disk cur] in *. by subst.
Qed.

(** X22.  The imports of [main] can be run again: after a run of all of them
    that returned, a second run on the same files returns and leaves the
    database, file and transaction, as the first run left it. *)
Theorem load_all_rerun (fs : filesystem) (c c1 : connection) :
  load_all fs c = (Return tt, c1) → load_all fs c1 = (Return tt, c1).
Proof.
  rewrite !load_all_unfold. unfold bind at 1.
  destruct (import_companies fs c) as [[d|] k1] eqn:H1; [|done].
  unfold bind at 1.
  destruct (import_index_membership fs d k1) as [[u2|] k2] eqn:H2; [|done].
  unfold bind at 1.
  destruct (import_prices_weekly fs d k2) as [[d3|] k3] eqn:H3; [|done].
  unfold bind at 1.
  destruct (load_financials fs d3 k3) as [[d4|] k4] eqn:H4; [|done].
  unfold bind at 1.
  destruct (load_macro fs k4) as [[u5|] k5] eqn:H5; [|done].
  intros H6.
  destruct (import_companies_run fs c k1 d H1) as (df & records & _ & _ & _ & D1 & E1).
  destruct (effect_table _ _ _ _ _ _ _ (import_index_membership_inserts fs d) H2)
    as [rs2 E2].
  destruct (effect_table _ _ _ _ _ _ _ (import_prices_weekly_inserts fs d) H3)
    as [rs3 E3].
  destruct (effect_table _ _ _ _ _ _ _ (load_financials_inserts fs d3) H4) as [rs4 E4].
  destruct (effect_table _ _ _ _ _ _ _ (load_macro_inserts fs) H5) as [rs5 E5].
  destruct (effect_table _ _ _ _ _ _ _ (import_interest_rates_inserts fs) H6)
    as [rs6 E6].
  pose proof (import_index_membership_commits _ _ _ _ _ H2) as D2.
  pose proof (import_prices_weekly_commits _ _ _ _ _ H3) as D3.
  pose proof (load_financials_settled _ _ _ _ _ H4) as D4.
  pose proof (load_macro_settled _ _ _ _ D4 H5) as D5.
  pose proof (import_interest_rates_commits _ _ _ _ H6) as D6.
  assert (R1 : import_companies fs c1 = (Return d, c1)).
  { apply (import_companies_rerun fs c k1); [done|done|].
    rewrite E6, E5, E4, E3, E2. done. }
  assert (R2 : import_index_membership fs d c1 = (Return u2, c1)).
  { apply (inserts_rerun _ _ _ membership_lens _
             (insert_all_idempotent membership_key)
             (import_index_membership_inserts fs d)
             (λ c a c1 _, import_index_membership_commits fs d c a c1) k1 u2 k2);
      [done|done| |].
    - rewrite E6, E5, E4, E3, E2. done.
    - rewrite E6, E5, E4, E3. done. }
  assert (R3 : import_prices_weekly fs d c1 = (Return d3, c1)).
  { apply (inserts_rerun _ _ _ prices_lens _
             (insert_all_idempotent price_key)
             (import_prices_weekly_inserts fs d)
             (λ c a c1 _, import_prices_weekly_commits fs d c a c1) k2 d3 k3);
      [done|done| |].
    - rewrite E6, E5, E4, E3. done.
    - rewrite E6, E5, E4. done. }
  assert (R4 : load_financials fs d3 c1 = (Return d4, c1)).
  { apply (inserts_rerun _ _ _ financials_lens _
             (replace_all_idempotent financial_key)
             (load_financials_inserts fs d3)
             (λ c a c1 _, load_financials_settled fs d3 a c c1) k3 d4 k4);
      [done|done| |].
    - rewrite E6, E5, E4. done.
    - rewrite E6, E5. done. }
  assert (R5 : load_macro fs c1 = (Return u5, c1)).
  { apply (inserts_rerun _ _ _ macro_lens _
             (insert_all_idempotent macro_key)
             (load_macro_inserts fs)
             (λ c a c1, load_macro_settled fs c c1 a) k4 u5 k5);
      [done|done| |].
    - rewrite E6, E5. done.
    - rewrite E6. done. }
  assert (R6 : import_interest_rates fs c1 = (Return tt, c1)).
  { apply (inserts_rerun _ _ _ rates_lens _
             (insert_all_idempotent rate_key)
             (import_interest_rates_inserts fs)
             (λ c a c1 _, import_interest_rates_commits fs c a c1) k5 tt c1);
      [done|done| |done].
    rewrite E6. done. }
  unfold bind. by rewrite R1, R2, R3, R4, R5, R6.
Qed.

End WholeRun.
(** ** Cells the importers do not lose *)

Section Reaches.
Context {PN : PyNumber}.

(** What one turn of a loop establishes, and every later turn keeps, holds
    after the loop. *)
Lemma for_each_reaches {A B} (J : B → connection → Prop) (G : connection → Prop)
    (body : B → A → M B) (xs : list A) (x : A) (acc : B) (c : connection)
    (b' : B) (c' : connection) :
  (∀ b y c0 b1 c1, J b c0 → body b y c0 = (Return b1, c1) → J b1 c1) →
  (∀ b y c0 b1 c1, J b c0 → G c0 → body b y c0 = (Return b1, c1) → G c1) →
  (∀ b c0 b1 c1, J b c0 → body b x c0 = (Return b1, c1) → G c1) →
  x ∈ xs → J acc c →
  for_each body acc xs c = (Return b', c') → G c'.
Proof.
  intros HJ Hkeep Hx. revert acc c.
  induction xs as [|y xs IH]; intros acc c Hin Hacc; [by apply elem_of_nil in Hin|].
  cbn [for_each]. unfold bind at 1.
  destruct (body acc y c) as [[b1|e] c1] eqn:Hy; [|done].
  apply elem_of_cons in Hin as [->|Hin].
  - intros Hrest.
    assert (J b' c' ∧ G c') as [_ HG]; [|done].
    revert Hrest. apply (for_each_inv (λ b c0, J b c0 ∧ G c0)).
    + intros b z c0 b2 c2 _ [Hb HG0] Hz. split; [by eapply HJ|by eapply Hkeep].
    + split; [by eapply HJ|by eapply Hx].
  - apply IH; [done|]. by eapply HJ.
Qed.

End Reaches.

Section Complete.
Context {PN : PyNumber} {SC : Schema}.

Lemma insert_or_ignore_old {R K} `{EqDecision K} (key : R → K) (r r' : R) (t : list R) :
  r' ∈ t → r' ∈ insert_or_ignore key r t.
Proof.
  intros Hin. unfold insert_or_ignore. case_bool_decide; [done|].
  apply elem_of_app. by left.
Qed.

(** X8.  The membership import loses nothing: a row of the table stays, and
    every row of the snapshot for which the loop reaches its [INSERT] has
    its key (index, company, date) in the table afterwards. *)
Theorem import_index_membership_complete (fs : filesystem) (d : gmap string nat)
    (df : frame) (c c1 : connection) (u : unit) :
  fs !! "index_membership_snapshot.csv" = Some (CsvFile df) →
  import_index_membership fs d c = (Return u, c1) →
  (∀ r, r ∈ index_membership (cur c) → r ∈ index_membership (cur c1)) ∧
  (∀ row r, row ∈ rows df →
     membership_values d (companies (cur c)) (columns df) row = Return (Some r) →
     membership_key r ∈ membership_key <$> index_membership (cur c1)).
Proof.
  intros Hfile. unfold import_index_membership, bind at 1, lift, read_csv.
  rewrite Hfile. unfold bind at 1.
  destruct (for_each _ _ _ c) as [[u'|e] c2] eqn:Hloop; [|done].
  unfold commit. intros [= _ <-]. cbn [cur].
  assert (Hstep : ∀ row c0 b1 c3,
            companies (cur c0) = companies (cur c) →
            membership_step d (columns df) tt row c0 = (Return b1, c3) →
            companies (cur c3) = companies (cur c) ∧
            (∀ r, r ∈ index_membership (cur c0) → r ∈ index_membership (cur c3)) ∧
            (∀ k, k ∈ membership_key <$> index_membership (cur c0) →
                  k ∈ membership_key <$> index_membership (cur c3)) ∧
            (∀ r, membership_values d (companies (cur c)) (columns df) row
                  = Return (Some r) →
                  membership_key r ∈ membership_key <$> index_membership (cur c3))).
  { intros row c0 b1 c3 HT.
    unfold membership_step, bind at 1, companies_now. unfold bind at 1, lift.
    rewrite HT.
    destruct (membership_values d _ (columns df) row) as [[r|]|]; [| |done].
    - intros [= _ <-]. cbn. split; [done|]. split; [|split].
      + intros r'. apply insert_or_ignore_old.
      + intros k Hk. apply insert_or_ignore_keys. by right.
      + intros r' [= <-]. apply insert_or_ignore_keys. by left.
    - unfold ret. intros [= _ <-]. by repeat split. }
  split.
  - revert Hloop.
    apply (for_each_inv (λ _ c0, companies (cur c0) = companies (cur c) ∧
             ∀ r, r ∈ index_membership (cur c) → r ∈ index_membership (cur c0)));
      [|done].
    intros [] row c0 b1 c3 _ [HT Hold] Hrow.
    destruct (Hstep row c0 b1 c3 HT Hrow) as (? & Hkeep & _). split; [done|].
    intros r Hr. by apply Hkeep, Hold.
  - intros row r Hrow Hv. revert Hloop.
    apply (for_each_reaches (λ _ c0, companies (cur c0) = companies (cur c))
             (λ c0, membership_key r ∈ membership_key <$> index_membership (cur c0))
             _ _ row); [| | |done|done].
    + intros [] y c0 b1 c3 HT Hy. by destruct (Hstep y c0 b1 c3 HT Hy).
    + intros [] y c0 b1 c3 HT HG Hy.
      destruct (Hstep y c0 b1 c3 HT Hy) as (_ & _ & Hkeys & _). by apply Hkeys.
    + intros [] c0 b1 c3 HT Hy.
      destruct (Hstep row c0 b1 c3 HT Hy) as (_ & _ & _ & Hnew). by apply Hnew.
Qed.

Lemma rate_cell_step_grows (df : sheet) (rate_date : string) (row_idx : nat)
    (entry : nat * (string * string * string)) (c0 c3 : connection) (u u1 : unit) :
  rate_cell_step df rate_date row_idx u entry c0 = (Return u1, c3) →
  (∀ r, r ∈ interest_rates (cur c0) → r ∈ interest_rates (cur c3)) ∧
  (∀ k, k ∈ rate_key <$> interest_rates (cur c0) →
        k ∈ rate_key <$> interest_rates (cur c3)) ∧
  (entry.1 < ncols df → clean_value (at_ df row_idx entry.1) ≠ CNone →
   rate_key {| r_country_id := entry.2.1.1; r_rate_date := rate_date;
               r_rate_type := entry.2.1.2; r_bloomberg_ticker := entry.2.2;
               r_rate_value := clean_value (at_ df row_idx entry.1) |}
   ∈ rate_key <$> interest_rates (cur c3)).
Proof.
  destruct entry as [col [[country_id rate_type] ticker]]. cbn [fst snd].
  unfold rate_cell_step.
  destruct (Nat.leb_spec (ncols df) col) as [Hge|Hlt].
  { unfold ret. intros [= _ <-]. repeat split; try done. lia. }
  unfold bind, lift, iloc.
  destruct (row_idx <? nrows df); [|done].
  destruct (Nat.ltb_spec col (ncols df)); [|lia]. cbn [andb].
  destruct (clean_value (at_ df row_idx col)) as [|x|s] eqn:Hv.
  - unfold ret. intros [= _ <-]. by repeat split.
  - intros [= _ <-]. cbn. split; [|split].
    + intros r. apply insert_or_ignore_old.
    + intros k Hk. apply insert_or_ignore_keys. by right.
    + intros _ _. apply insert_or_ignore_keys. by left.
  - intros [= _ <-]. cbn. split; [|split].
    + intros r. apply insert_or_ignore_old.
    + intros k Hk. apply insert_or_ignore_keys. by right.
    + intros _ _. apply insert_or_ignore_keys. by left.
Qed.

Lemma rate_row_step_grows (df : sheet) (row_idx : nat) (c0 c3 : connection)
    (u u1 : unit) :
  rate_row_step df u row_idx c0 = (Return u1, c3) →
  (∀ r, r ∈ interest_rates (cur c0) → r ∈ interest_rates (cur c3)) ∧
  (∀ k, k ∈ rate_key <$> interest_rates (cur c0) →
        k ∈ rate_key <$> interest_rates (cur c3)) ∧
  (∀ rate_date col country_id rate_type ticker,
     parse_bloomberg_date (at_ df row_idx 0) = Some rate_date →
     (col, (country_id, rate_type, ticker)) ∈ col_map → col < ncols df →
     clean_value (at_ df row_idx col) ≠ CNone →
     rate_key {| r_country_id := country_id; r_rate_date := rate_date;
                 r_rate_type := rate_type; r_bloomberg_ticker := ticker;
                 r_rate_value := clean_value (at_ df row_idx col) |}
     ∈ rate_key <$> interest_rates (cur c3)).
Proof.
  unfold rate_row_step, bind at 1, lift, iloc.
  destruct ((row_idx <? nrows df) && (0 <? ncols df)); [|done].
  destruct (parse_bloomberg_date (at_ df row_idx 0)) as [rate_date|] eqn:Hd.
  2:{ unfold ret. intros [= _ <-]. by repeat split. }
  intros Hloop. split; [|split].
  - revert Hloop.
    apply (for_each_inv (λ _ c4, ∀ r, r ∈ interest_rates (cur c0) →
                                      r ∈ interest_rates (cur c4))); [|done].
    intros b entry c4 b1 c5 _ Hold Hstep r Hr.
    by apply (rate_cell_step_grows _ _ _ _ _ _ _ _ Hstep), Hold.
  - revert Hloop.
    apply (for_each_inv (λ _ c4, ∀ k, k ∈ rate_key <$> interest_rates (cur c0) →
                                      k ∈ rate_key <$> interest_rates (cur c4)));
      [|done].
    intros b entry c4 b1 c5 _ Hold Hstep k Hk.
    by apply (rate_cell_step_grows _ _ _ _ _ _ _ _ Hstep), Hold.
  - intros rate_date' col country_id rate_type ticker [= <-] Hin Hcol Hv.
    revert Hloop.
    apply (for_each_reaches (λ _ _, True)
             (λ c4, rate_key {| r_country_id := country_id; r_rate_date := rate_date;
                                r_rate_type := rate_type; r_bloomberg_ticker := ticker;
                                r_rate_value := clean_value (at_ df row_idx col) |}
                    ∈ rate_key <$> interest_rates (cur c4))
             _ _ (col, (country_id, rate_type, ticker))); [done| | |done|done].
    + intros b entry c4 b1 c5 _ HG Hstep.
      destruct (rate_cell_step_grows _ _ _ _ _ _ _ _ Hstep) as (_ & Hkeys & _).
      by apply Hkeys.
    + intros b c4 b1 c5 _ Hstep.
      destruct (rate_cell_step_grows _ _ _ _ _ _ _ _ Hstep) as (_ & _ & Hnew).
      by apply Hnew.
Qed.

Lemma import_interest_rates_grows (fs : filesystem) (df : sheet)
    (c c1 : connection) (u : unit) :
  fs !! "5 countries 10y yield and policy rate.xlsx" = Some (ExcelSheet df) →
  import_interest_rates fs c = (Return u, c1) →
  (∀ r, r ∈ interest_rates (cur c) → r ∈ interest_rates (cur c1)) ∧
  (∀ row_idx rate_date col country_id rate_type ticker,
     6 ≤ row_idx < nrows df →
     parse_bloomberg_date (at_ df row_idx 0) = Some rate_date →
     (col, (country_id, rate_type, ticker)) ∈ col_map → col < ncols df →
     clean_value (at_ df row_idx col) ≠ CNone →
     rate_key {| r_country_id := country_id; r_rate_date := rate_date;
                 r_rate_type := rate_type; r_bloomberg_ticker := ticker;
                 r_rate_value := clean_value (at_ df row_idx col) |}
     ∈ rate_key <$> interest_rates (cur c1)).
Proof.
  intros Hfile. unfold import_interest_rates, bind at 1, lift, read_excel.
  rewrite Hfile. unfold bind at 1.
  destruct (for_each _ _ _ c) as [[u'|e] c2] eqn:Hloop; [|done].
  unfold commit. intros [= _ <-]. cbn [cur]. split.
  - revert Hloop.
    apply (for_each_inv (λ _ c4, ∀ r, r ∈ interest_rates (cur c) →
                                      r ∈ interest_rates (cur c4))); [|done].
    intros b row_idx c4 b1 c5 _ Hold Hstep r Hr.
    by apply (rate_row_step_grows _ _ _ _ _ _ Hstep), Hold.
  - intros row_idx rate_date col country_id rate_type ticker Hrow Hd Hin Hcol Hv.
    revert Hloop.
    apply (for_each_reaches (λ _ _, True)
             (λ c4, rate_key {| r_country_id := country_id; r_rate_date := rate_date;
                                r_rate_type := rate_type; r_bloomberg_ticker := ticker;
                                r_rate_value := clean_value (at_ df row_idx col) |}
                    ∈ rate_key <$> interest_rates (cur c4))
             _ _ row_idx); [done| | | |done].
    + intros b y c4 b1 c5 _ HG Hstep.
      destruct (rate_row_step_grows _ _ _ _ _ _ Hstep) as (_ & Hkeys & _).
      by apply Hkeys.
    + intros b c4 b1 c5 _ Hstep.
      destruct (rate_row_step_grows _ _ _ _ _ _ Hstep) as (_ & _ & Hnew).
      by apply Hnew.
    + apply elem_of_seq. lia.
Qed.

Lemma macro_cell_step_grows (df : sheet) (country_id indicator_name : string)
    (bloomberg_ticker : option string) (category : string) (row_idx col : nat)
    (c0 c3 : connection) (u u1 : unit) :
  macro_cell_step df (build_date_map (ncols df)) country_id indicator_name
    bloomberg_ticker category row_idx u col c0 = (Return u1, c3) →
  (∀ r, r ∈ macro_indicators (cur c0) → r ∈ macro_indicators (cur c3)) ∧
  (∀ k, k ∈ macro_key <$> macro_indicators (cur c0) →
        k ∈ macro_key <$> macro_indicators (cur c3)) ∧
  (∀ k, col = 2 + k → k < ncols df - 2 →
     clean_value (at_ df row_idx (2 + k)) ≠ CNone →
     macro_key {| i_country_id := country_id; i_indicator_date := macro_date k;
                  i_indicator_name := indicator_name;
                  i_bloomberg_ticker := bloomberg_ticker;
                  i_indicator_value := clean_value (at_ df row_idx (2 + k));
                  i_indicator_category := category |}
     ∈ macro_key <$> macro_indicators (cur c3)).
Proof.
  unfold macro_cell_step.
  destruct (build_date_map (ncols df) !! col) as [indicator_date|] eqn:Hdate.
  2:{ unfold ret. intros [= _ <-]. repeat split; try done.
      intros k -> Hk. by rewrite build_date_map_lookup in Hdate. }
  unfold bind, lift, iloc.
  destruct ((row_idx <? nrows df) && (col <? ncols df)); [|done].
  destruct (clean_value (at_ df row_idx col)) as [|x|s] eqn:Hv.
  - unfold ret. intros [= _ <-]. repeat split; try done.
    intros k -> _ Hne. done.
  - intros [= _ <-].
    cbn [insert_macro execute cur snd macro_indicators set_macro_indicators].
    split; [|split].
    + intros r. apply insert_or_ignore_old.
    + intros k Hk. apply insert_or_ignore_keys. by right.
    + intros k -> Hk _. apply insert_or_ignore_keys. left.
      rewrite build_date_map_lookup in Hdate by done. injection Hdate as <-.
      by rewrite Hv.
  - intros [= _ <-].
    cbn [insert_macro execute cur snd macro_indicators set_macro_indicators].
    split; [|split].
    + intros r. apply insert_or_ignore_old.
    + intros k Hk. apply insert_or_ignore_keys. by right.
    + intros k -> Hk _. apply insert_or_ignore_keys. left.
      rewrite build_date_map_lookup in Hdate by done. injection Hdate as <-.
      by rewrite Hv.
Qed.

Lemma macro_row_step_grows (df : sheet) (country_id : string) (row_idx : nat)
    (c0 c3 : connection) (u u1 : unit) :
  macro_row_step df (build_date_map (ncols df)) country_id u row_idx c0
  = (Return u1, c3) →
  (∀ r, r ∈ macro_indicators (cur c0) → r ∈ macro_indicators (cur c3)) ∧
  (∀ k, k ∈ macro_key <$> macro_indicators (cur c0) →
        k ∈ macro_key <$> macro_indicators (cur c3)) ∧
  (∀ indicator_name k,
     label_of (at_ df row_idx 0) = Some indicator_name →
     indicator_name ≠ "" → indicator_name ≠ "nan" → k < ncols df - 2 →
     clean_value (at_ df row_idx (2 + k)) ≠ CNone →
     macro_key {| i_country_id := country_id; i_indicator_date := macro_date k;
                  i_indicator_name := indicator_name;
                  i_bloomberg_ticker := label_of (at_ df row_idx 1);
                  i_indicator_value := clean_value (at_ df row_idx (2 + k));
                  i_indicator_category := macro_category (lower indicator_name) |}
     ∈ macro_key <$> macro_indicators (cur c3)).
Proof.
  unfold macro_row_step, bind at 1, lift, iloc.
  destruct ((row_idx <? nrows df) && (0 <? ncols df)); [|done].
  unfold bind at 1.
  destruct ((row_idx <? nrows df) && (1 <? ncols df)); [|done].
  destruct (label_of (at_ df row_idx 0)) as [indicator_name|] eqn:Hname.
  2:{ unfold ret. intros [= _ <-]. by repeat split. }
  case_bool_decide as He.
  { unfold ret. cbn [orb]. intros [= _ <-]. repeat split; try done.
    intros ? ? [= <-]. done. }
  case_bool_decide as Hn.
  { unfold ret. cbn [orb]. intros [= _ <-]. repeat split; try done.
    intros ? ? [= <-]. done. }
  cbn [orb]. intros Hloop. split; [|split].
  - revert Hloop.
    apply (for_each_inv (λ _ c4, ∀ r, r ∈ macro_indicators (cur c0) →
                                      r ∈ macro_indicators (cur c4))); [|done].
    intros b col c4 b1 c5 _ Hold Hstep r Hr.
    by apply (macro_cell_step_grows _ _ _ _ _ _ _ _ _ _ _ Hstep), Hold.
  - revert Hloop.
    apply (for_each_inv (λ _ c4, ∀ k, k ∈ macro_key <$> macro_indicators (cur c0) →
                                      k ∈ macro_key <$> macro_indicators (cur c4)));
      [|done].
    intros b col c4 b1 c5 _ Hold Hstep k Hk.
    by apply (macro_cell_step_grows _ _ _ _ _ _ _ _ _ _ _ Hstep), Hold.
  - intros name' k [= <-] _ _ Hk Hv. revert Hloop.
    apply (for_each_reaches (λ _ _, True)
             (λ c4, macro_key
                      {| i_country_id := country_id; i_indicator_date := macro_date k;
                         i_indicator_name := indicator_name;
                         i_bloomberg_ticker := label_of (at_ df row_idx 1);
                         i_indicator_value := clean_value (at_ df row_idx (2 + k));
                         i_indicator_category :=
                           macro_category (lower indicator_name) |}
                    ∈ macro_key <$> macro_indicators (cur c4))
             _ _ (2 + k)); [done| | | |done].
    + intros b col c4 b1 c5 _ HG Hstep.
      destruct (macro_cell_step_grows _ _ _ _ _ _ _ _ _ _ _ Hstep) as (_ & Hkeys & _).
      by apply Hkeys.
    + intros b c4 b1 c5 _ Hstep.
      destruct (macro_cell_step_grows _ _ _ _ _ _ _ _ _ _ _ Hstep) as (_ & _ & Hnew).
      by apply Hnew.
    + apply elem_of_seq. lia.
Qed.

Lemma import_macro_grows (fs : filesystem) (filename country_id : string)
    (df : sheet) (c c1 : connection) (u : unit) :
  fs !! filename = Some (ExcelSheet df) →
  import_macro fs filename country_id c = (Return u, c1) →
  (∀ r, r ∈ macro_indicators (cur c) → r ∈ macro_indicators (cur c1)) ∧
  (∀ row_idx indicator_name k,
     2 ≤ row_idx < nrows df →
     label_of (at_ df row_idx 0) = Some indicator_name →
     indicator_name ≠ "" → indicator_name ≠ "nan" → k < ncols df - 2 →
     clean_value (at_ df row_idx (2 + k)) ≠ CNone →
     macro_key {| i_country_id := country_id; i_indicator_date := macro_date k;
                  i_indicator_name := indicator_name;
                  i_bloomberg_ticker := label_of (at_ df row_idx 1);
                  i_indicator_value := clean_value (at_ df row_idx (2 + k));
                  i_indicator_category := macro_category (lower indicator_name) |}
     ∈ macro_key <$> macro_indicators (cur c1)).
Proof.
  intros Hfile. unfold import_macro, bind at 1, lift, read_excel.
  rewrite Hfile. unfold bind at 1.
  destruct (for_each _ _ _ c) as [[u'|e] c2] eqn:Hloop; [|done].
  unfold commit. intros [= _ <-]. cbn [cur]. split.
  - revert Hloop.
    apply (for_each_inv (λ _ c4, ∀ r, r ∈ macro_indicators (cur c) →
                                      r ∈ macro_indicators (cur c4))); [|done].
    intros b row_idx c4 b1 c5 _ Hold Hstep r Hr.
    by apply (macro_row_step_grows _ _ _ _ _ _ _ Hstep), Hold.
  - intros row_idx indicator_name k Hrow Hname He Hn Hk Hv.
    revert Hloop.
    apply (for_each_reaches (λ _ _, True)
             (λ c4, macro_key
                      {| i_country_id := country_id; i_indicator_date := macro_date k;
                         i_indicator_name := indicator_name;
                         i_bloomberg_ticker := label_of (at_ df row_idx 1);
                         i_indicator_value := clean_value (at_ df row_idx (2 + k));
                         i_indicator_category :=
                           macro_category (lower indicator_name) |}
                    ∈ macro_key <$> macro_indicators (cur c4))
             _ _ row_idx); [done| | | |done].
    + intros b y c4 b1 c5 _ HG Hstep.
      destruct (macro_row_step_grows _ _ _ _ _ _ _ Hstep) as (_ & Hkeys & _).
      by apply Hkeys.
    + intros b c4 b1 c5 _ Hstep.
      destruct (macro_row_step_grows _ _ _ _ _ _ _ Hstep) as (_ & _ & Hnew).
      by apply Hnew.
    + apply elem_of_seq. lia.
Qed.

(** The id the price loop uses for a ticker: the one of the dictionary,
    and the one of the companies table when the dictionary has none.  A
    [SELECT] that is stored changes the dictionary, not this id. *)
Lemma resolve_and_cache_resolve (d : gmap string nat) (T : list (nat * company_record))
    (ticker : string) :
  (resolve_and_cache d T ticker).2 = resolve_company d T ticker ∧
  ∀ t, resolve_company (resolve_and_cache d T ticker).1 T t = resolve_company d T t.
Proof.
  unfold resolve_and_cache, resolve_company.
  destruct (d !! ticker) as [[|n]|] eqn:Hl; cbn [fst snd].
  - destruct (select_company_id ticker T) as [id|] eqn:Hs; cbn [fst snd]; [|done].
    split; [done|]. intros t. destruct (decide (t = ticker)) as [->|Hne].
    + rewrite lookup_insert_eq, Hl, Hs. by destruct id.
    + by rewrite lookup_insert_ne.
  - done.
  - destruct (select_company_id ticker T) as [id|] eqn:Hs; cbn [fst snd]; [|done].
    split; [done|]. intros t. destruct (decide (t = ticker)) as [->|Hne].
    + rewrite lookup_insert_eq, Hl, Hs. by destruct id.
    + by rewrite lookup_insert_ne.
Qed.

(** The row the price loop inserts for a data row and a ticker of the
    header. *)
Local Abbreviation price_row_of df row_idx price_date id cols :=
  {| p_company_id := id; p_price_date := price_date;
     p_close_price := clean_value (at_ df row_idx (price_col cols));
     p_total_return :=
       if (0 <? return_col cols) && (return_col cols <? ncols df)
       then clean_value (at_ df row_idx (return_col cols)) else CNone |}.

(** What the loops over the tickers keep: the companies table, and the id
    each ticker resolves to. *)
Local Abbreviation cache_inv d0 T d c0 :=
  (companies (cur c0) = T%list ∧
   ∀ t, resolve_company d T t = resolve_company d0 T t).

Lemma price_ticker_step_grows (T : list (nat * company_record))
    (df : sheet) (row_idx : nat) (price_date : string)
    (d0 d d' : gmap string nat) (item : string * price_cols) (c0 c3 : connection) :
  cache_inv d0 T d c0 →
  price_ticker_step df row_idx price_date d item c0 = (Return d', c3) →
  cache_inv d0 T d' c3 ∧
  (∀ r, r ∈ prices_weekly (cur c0) → r ∈ prices_weekly (cur c3)) ∧
  (∀ k, k ∈ price_key <$> prices_weekly (cur c0) →
        k ∈ price_key <$> prices_weekly (cur c3)) ∧
  (∀ id, resolve_company d0 T item.1 = Some id →
     0 < price_col item.2 < ncols df →
     clean_value (at_ df row_idx (price_col item.2)) ≠ CNone →
     price_key (price_row_of df row_idx price_date id item.2)
     ∈ price_key <$> prices_weekly (cur c3)).
Proof.
  intros [HT Hd]. destruct item as [ticker cols]. cbn [fst snd].
  rewrite price_ticker_step_unfold, HT.
  destruct (price_values _ _ _ _ _ _) as [[d2 o]|] eqn:Hv; [|done].
  destruct (resolve_and_cache_resolve d T ticker) as [Hres Hkeep].
  assert (Hd2 : d2 = (resolve_and_cache d T ticker).1).
  { revert Hv. unfold price_values.
    destruct (resolve_and_cache d T ticker) as [d1 [company_id|]]; [|by intros [= <-]].
    destruct (guarded_value df row_idx (price_col cols)); [|done].
    destruct (guarded_value df row_idx (return_col cols)); [|done].
    cbn [bindO]. by intros [= <-]. }
  assert (Hnew : ∀ id, resolve_company d0 T ticker = Some id →
            0 < price_col cols < ncols df →
            clean_value (at_ df row_idx (price_col cols)) ≠ CNone →
            o = Some (price_row_of df row_idx price_date id cols)).
  { intros id Hs [Hlo Hhi] Hne. revert Hv. unfold price_values.
    rewrite <- Hd, <- Hres in Hs.
    destruct (resolve_and_cache d T ticker) as [d1 r]. cbn [snd] in Hs. subst r.
    destruct (guarded_value df row_idx (price_col cols)) as [v1|] eqn:H1; [|done].
    apply guarded_value_Return in H1.
    destruct (guarded_value df row_idx (return_col cols)) as [v2|] eqn:H2; [|done].
    apply guarded_value_Return in H2. cbn [bindO].
    destruct (Nat.ltb_spec 0 (price_col cols)); [|lia].
    destruct (Nat.ltb_spec (price_col cols) (ncols df)); [|lia].
    cbn [andb] in H1. subst v1 v2. intros [= _ <-].
    by destruct (clean_value (at_ df row_idx (price_col cols))). }
  assert (Hinv : ∀ t, resolve_company d2 T t = resolve_company d0 T t).
  { intros t. by rewrite Hd2, Hkeep. }
  destruct o as [r|]; intros [= <- <-].
  - cbn [insert_price execute cur snd prices_weekly set_prices_weekly companies].
    split; [|split; [|split]].
    + split; [|done]. by destruct (cur c0).
    + intros r'. apply insert_or_ignore_old.
    + intros k Hk. apply insert_or_ignore_keys. by right.
    + intros id Hs Hcol Hne. apply insert_or_ignore_keys. left.
      by injection (Hnew id Hs Hcol Hne) as ->.
  - split; [done|]. split; [done|]. split; [done|].
    intros id Hs Hcol Hne. by specialize (Hnew id Hs Hcol Hne).
Qed.

Lemma price_row_step_grows (T : list (nat * company_record))
    (df : sheet) (ticker_cols : list (string * price_cols)) (row_idx : nat)
    (d0 d d' : gmap string nat) (c0 c3 : connection) :
  cache_inv d0 T d c0 →
  price_row_step df ticker_cols d row_idx c0 = (Return d', c3) →
  cache_inv d0 T d' c3 ∧
  (∀ r, r ∈ prices_weekly (cur c0) → r ∈ prices_weekly (cur c3)) ∧
  (∀ k, k ∈ price_key <$> prices_weekly (cur c0) →
        k ∈ price_key <$> prices_weekly (cur c3)) ∧
  (∀ price_date ticker cols id,
     parse_bloomberg_date (at_ df row_idx 0) = Some price_date →
     (ticker, cols) ∈ ticker_cols →
     resolve_company d0 T ticker = Some id →
     0 < price_col cols < ncols df →
     clean_value (at_ df row_idx (price_col cols)) ≠ CNone →
     price_key (price_row_of df row_idx price_date id cols)
     ∈ price_key <$> prices_weekly (cur c3)).
Proof.
  intros HJ. unfold price_row_step, bind at 1, lift, iloc.
  destruct ((row_idx <? nrows df) && (0 <? ncols df)); [|done].
  destruct (parse_bloomberg_date (at_ df row_idx 0)) as [price_date|] eqn:Hd.
  2:{ unfold ret. intros [= <- <-]. split; [done|]. repeat split; done. }
  unfold bind at 1.
  destruct (for_each _ _ _ c0) as [[d1|e] c2] eqn:Hloop; [|done].
  intros Hend.
  assert (cur c3 = cur c2 ∧ d' = d1) as [Hcur ->].
  { revert Hend. unfold bind at 1.
    destruct (row_idx mod 200 =? 0); unfold commit, ret; by intros [= <- <-]. }
  rewrite Hcur. clear Hend Hcur.
  split; [|split; [|split]].
  - revert Hloop. apply (for_each_inv (λ d c4, cache_inv d0 T d c4)); [|done].
    intros b item c4 b1 c5 _ Hb Hstep.
    by apply (price_ticker_step_grows T _ _ _ d0 _ _ _ _ _ Hb Hstep).
  - revert Hloop.
    apply (for_each_inv (λ d c4, cache_inv d0 T d c4 ∧
             ∀ r, r ∈ prices_weekly (cur c0) → r ∈ prices_weekly (cur c4))); [|done].
    intros b item c4 b1 c5 _ [Hb Hold] Hstep.
    destruct (price_ticker_step_grows T _ _ _ d0 _ _ _ _ _ Hb Hstep)
      as (Hb1 & Hrows & _).
    split; [done|]. intros r Hr. by apply Hrows, Hold.
  - revert Hloop.
    apply (for_each_inv (λ d c4, cache_inv d0 T d c4 ∧
             ∀ k, k ∈ price_key <$> prices_weekly (cur c0) →
                  k ∈ price_key <$> prices_weekly (cur c4))); [|done].
    intros b item c4 b1 c5 _ [Hb Hold] Hstep.
    destruct (price_ticker_step_grows T _ _ _ d0 _ _ _ _ _ Hb Hstep)
      as (Hb1 & _ & Hkeys & _).
    split; [done|]. intros k Hk. by apply Hkeys, Hold.
  - intros price_date' ticker cols id [= <-] Hin Hs Hcol Hv.
    revert Hloop.
    apply (for_each_reaches (λ d c4, cache_inv d0 T d c4)
             (λ c4, price_key (price_row_of df row_idx price_date id cols)
                    ∈ price_key <$> prices_weekly (cur c4))
             _ _ (ticker, cols)); [| | |done|done].
    + intros b item c4 b1 c5 Hb Hstep.
      by apply (price_ticker_step_grows T _ _ _ d0 _ _ _ _ _ Hb Hstep).
    + intros b item c4 b1 c5 Hb HG Hstep.
      destruct (price_ticker_step_grows T _ _ _ d0 _ _ _ _ _ Hb Hstep)
        as (_ & _ & Hkeys & _).
      by apply Hkeys.
    + intros b c4 b1 c5 Hb Hstep.
      destruct (price_ticker_step_grows T _ _ _ d0 _ _ _ _ _ Hb Hstep)
        as (_ & _ & _ & Hnew).
      by apply Hnew.
Qed.

Lemma import_prices_weekly_grows (fs : filesystem) (df : sheet)
    (ticker_row field_row : list cell) (ticker_cols : list (string * price_cols))
    (d d' : gmap string nat) (c c1 : connection) :
  fs !! "price_weekly.xlsx.xlsx" = Some (ExcelSheet df) →
  iloc_row df 3 = Return ticker_row → iloc_row df 4 = Return field_row →
  build_ticker_cols ticker_row field_row = Return ticker_cols →
  import_prices_weekly fs d c = (Return d', c1) →
  (∀ r, r ∈ prices_weekly (cur c) → r ∈ prices_weekly (cur c1)) ∧
  (∀ row_idx price_date ticker cols id,
     6 ≤ row_idx < nrows df →
     parse_bloomberg_date (at_ df row_idx 0) = Some price_date →
     (ticker, cols) ∈ ticker_cols →
     resolve_company d (companies (cur c)) ticker = Some id →
     0 < price_col cols < ncols df →
     clean_value (at_ df row_idx (price_col cols)) ≠ CNone →
     price_key (price_row_of df row_idx price_date id cols)
     ∈ price_key <$> prices_weekly (cur c1)).
Proof.
  intros Hfile H3 H4 Hh.
  unfold import_prices_weekly, bind at 1, lift, read_excel.
  rewrite Hfile. unfold bind at 1. rewrite H3. unfold bind at 1. rewrite H4.
  unfold bind at 1. rewrite Hh. unfold bind at 1.
  destruct (for_each _ _ _ c) as [[d1|e] c2] eqn:Hloop; [|done].
  unfold bind, commit, ret. intros [= <- <-]. cbn [cur].
  assert (cache_inv d (companies (cur c)) d c) as Hstart by done.
  split.
  - revert Hloop.
    apply (for_each_inv (λ b c4, cache_inv d (companies (cur c)) b c4 ∧
             ∀ r, r ∈ prices_weekly (cur c) → r ∈ prices_weekly (cur c4))); [|done].
    intros b row_idx c4 b1 c5 _ [Hb Hold] Hstep.
    destruct (price_row_step_grows _ _ _ _ d _ _ _ _ Hb Hstep) as (Hb1 & Hrows & _).
    split; [done|]. intros r Hr. by apply Hrows, Hold.
  - intros row_idx price_date ticker cols id Hrow Hdate Hin Hs Hcol Hv.
    revert Hloop.
    apply (for_each_reaches (λ b c4, cache_inv d (companies (cur c)) b c4)
             (λ c4, price_key (price_row_of df row_idx price_date id cols)
                    ∈ price_key <$> prices_weekly (cur c4))
             _ _ row_idx); [| | | |done].
    + intros b y c4 b1 c5 Hb Hstep.
      by apply (price_row_step_grows _ _ _ _ d _ _ _ _ Hb Hstep).
    + intros b y c4 b1 c5 Hb HG Hstep.
      destruct (price_row_step_grows _ _ _ _ d _ _ _ _ Hb Hstep)
        as (_ & _ & Hkeys & _).
      by apply Hkeys.
    + intros b c4 b1 c5 Hb Hstep.
      destruct (price_row_step_grows _ _ _ _ d _ _ _ _ Hb Hstep)
        as (_ & _ & _ & Hnew).
      by eapply Hnew.
    + apply elem_of_seq. lia.
Qed.

End Complete.
(** ** What an import stores *)

Section Stores.
Context {PN : PyNumber} {SC : Schema}.

(** X19.  On a rates sheet with a first column (or with no data row)
    [import_interest_rates] returns with everything committed; the rows the
    table had are still there, and every cell of a data row with a date
    that parses, in a column of [col_map], whose value is not [None], has
    its key in the table. *)
Theorem import_interest_rates_stores (fs : filesystem) (df : sheet) (c : connection) :
  fs !! "5 countries 10y yield and policy rate.xlsx" = Some (ExcelSheet df) →
  0 < ncols df ∨ nrows df ≤ 6 →
  ∃ c1, import_interest_rates fs c = (Return tt, c1) ∧ disk c1 = cur c1 ∧
    (∀ r, r ∈ interest_rates (cur c) → r ∈ interest_rates (cur c1)) ∧
    (∀ row_idx rate_date col country_id rate_type ticker,
       6 ≤ row_idx < nrows df →
       parse_bloomberg_date (at_ df row_idx 0) = Some rate_date →
       (col, (country_id, rate_type, ticker)) ∈ col_map → col < ncols df →
       clean_value (at_ df row_idx col) ≠ CNone →
       rate_key {| r_country_id := country_id; r_rate_date := rate_date;
                   r_rate_type := rate_type; r_bloomberg_ticker := ticker;
                   r_rate_value := clean_value (at_ df row_idx col) |}
       ∈ rate_key <$> interest_rates (cur c1)).
Proof.
  intros Hfile Hshape.
  destruct (import_interest_rates_returns fs df c Hfile Hshape) as (c1 & Hrun & Hdisk).
  exists c1. split; [done|]. split; [done|].
  exact (import_interest_rates_grows fs df c c1 tt Hfile Hrun).
Qed.

(** X16.  On a macro sheet with the two label columns (or with no data row)
    [import_macro] returns with everything committed; the rows the table
    had are still there, and every value cell that is not [None], in a row
    with an indicator name, has its key in the table, under the month of
    its column. *)
Theorem import_macro_stores (fs : filesystem) (filename country_id : string)
    (df : sheet) (c : connection) :
  fs !! filename = Some (ExcelSheet df) →
  2 ≤ ncols df ∨ nrows df ≤ 2 →
  ∃ c1, import_macro fs filename country_id c = (Return tt, c1) ∧ disk c1 = cur c1 ∧
    (∀ r, r ∈ macro_indicators (cur c) → r ∈ macro_indicators (cur c1)) ∧
    (∀ row_idx indicator_name k,
       2 ≤ row_idx < nrows df →
       label_of (at_ df row_idx 0) = Some indicator_name →
       indicator_name ≠ "" → indicator_name ≠ "nan" → k < ncols df - 2 →
       clean_value (at_ df row_idx (2 + k)) ≠ CNone →
       macro_key {| i_country_id := country_id; i_indicator_date := macro_date k;
                    i_indicator_name := indicator_name;
                    i_bloomberg_ticker := label_of (at_ df row_idx 1);
                    i_indicator_value := clean_value (at_ df row_idx (2 + k));
                    i_indicator_category := macro_category (lower indicator_name) |}
       ∈ macro_key <$> macro_indicators (cur c1)).
Proof.
  intros Hfile Hshape.
  destruct (import_macro_returns fs filename country_id df c Hfile Hshape)
    as (c1 & Hrun & Hdisk).
  exists c1. split; [done|]. split; [done|].
  exact (import_macro_grows fs filename country_id df c c1 tt Hfile Hrun).
Qed.

(** X10.  On a price sheet with the two header rows and a first column
    [import_prices_weekly] returns with everything committed, whatever the
    dictionary and the header hold; the rows the table had are still there,
    and for every data row with a date that parses and every ticker of the
    header that resolves to an id (the one of the dictionary, and failing
    that the one of the companies table), a close price that is not [None]
    has its key in the table.  A sheet of fewer than five rows raises
    [IndexError]. *)
Theorem import_prices_weekly_stores (fs : filesystem) (df : sheet)
    (d : gmap string nat) (c : connection) :
  fs !! "price_weekly.xlsx.xlsx" = Some (ExcelSheet df) →
  (5 ≤ nrows df ∧ (0 < ncols df ∨ nrows df ≤ 6) →
   ∃ d' c1 ticker_cols,
     import_prices_weekly fs d c = (Return d', c1) ∧ disk c1 = cur c1 ∧
     build_ticker_cols (at_ df 3 <$> seq 0 (ncols df)) (at_ df 4 <$> seq 0 (ncols df))
     = Return ticker_cols ∧
     (∀ r, r ∈ prices_weekly (cur c) → r ∈ prices_weekly (cur c1)) ∧
     (∀ row_idx price_date ticker cols id,
        6 ≤ row_idx < nrows df →
        parse_bloomberg_date (at_ df row_idx 0) = Some price_date →
        (ticker, cols) ∈ ticker_cols →
        resolve_company d (companies (cur c)) ticker = Some id →
        0 < price_col cols < ncols df →
        clean_value (at_ df row_idx (price_col cols)) ≠ CNone →
        price_key
          {| p_company_id := id; p_price_date := price_date;
             p_close_price := clean_value (at_ df row_idx (price_col cols));
             p_total_return :=
               if (0 <? return_col cols) && (return_col cols <? ncols df)
               then clean_value (at_ df row_idx (return_col cols)) else CNone |}
        ∈ price_key <$> prices_weekly (cur c1))) ∧
  (nrows df < 5 → import_prices_weekly fs d c = (Raise IndexError, c)).
Proof.
  intros Hfile.
  destruct (import_prices_weekly_returns fs df d c Hfile) as [Hret Hraise].
  split; [|done]. intros Hshape.
  destruct (Hret Hshape) as (d' & c1 & Hrun & Hdisk).
  pose proof (build_ticker_cols_total (at_ df 3 <$> seq 0 (ncols df))
                (at_ df 4 <$> seq 0 (ncols df))) as Hh.
  eexists d', c1, _. split; [done|]. split; [done|]. split; [exact Hh|].
  apply (import_prices_weekly_grows fs df (at_ df 3 <$> seq 0 (ncols df))
           (at_ df 4 <$> seq 0 (ncols df)) _ d d' c c1 Hfile); try done.
  - apply iloc_row_Return. lia.
  - apply iloc_row_Return. lia.
Qed.

(** X14.  The header loop of [import_financials] never raises.  Every ticker
    it stores heads a block of seven columns that lies inside the ticker
    row; every field stored for it has a column of that block whose label
    [field_map] maps to the field, each field once; and no ticker is stored
    twice. *)
Theorem financial_header (ticker_row field_row : list cell) :
  ∃ ticker_fields,
    build_ticker_fields ticker_row field_row = Return ticker_fields ∧
    NoDup ticker_fields.*1 ∧
    Forall (λ tf, header_entry ticker_row field_row tf.1 tf.2) ticker_fields.
Proof.
  enough (∃ ticker_fields,
    build_ticker_fields ticker_row field_row = Return ticker_fields ∧
    (NoDup ticker_fields.*1 ∧
     Forall (λ tf, header_entry ticker_row field_row tf.1 tf.2) ticker_fields))
    as (tfs & ? & ? & ?) by eauto.
  apply (foldO_returns
    (λ tfs, NoDup tfs.*1 ∧
            Forall (λ tf, header_entry ticker_row field_row tf.1 tf.2) tfs)).
  - intros b t_idx [_ Ht]%elem_of_seq [Hnd Hall].
    destruct (financial_block_spec ticker_row field_row t_idx b) as (b' & Hb & Hall');
      [lia|done|].
    exists b'. split; [done|]. split; [|done].
    revert Hb. unfold financial_block.
    destruct (series_iloc _ _) as [v|]; [|done]. cbn [bindO].
    destruct (label_of v); [|by intros [= <-]].
    destruct (_ && _); [|by intros [= <-]].
    destruct (foldO _ _ _); [|done]. intros [= <-]. by apply dict_set_NoDup.
  - split; [apply NoDup_nil_2|constructor].
Qed.

End Stores.
(** ** The theorems on the sample files *)

Lemma run_result {PN : PyNumber} {A} (m : M A) (c : connection) (a : A) :
  (m c).1 = Return a → m c = (Return a, (m c).2).
Proof. destruct (m c) as [o c1]. cbn. by intros ->. Qed.

Lemma sample_dict_exact :
  ∀ ticker n, sample_dict !! ticker = Some (S n) →
    select_company_id ticker (companies (cur (connect sample_database))) = Some (S n).
Proof.
  intros ticker n Hd. unfold sample_dict in Hd.
  apply lookup_singleton_Some in Hd as [<- [= <-]]. reflexivity.
Qed.

Lemma company_records_tickers_witness :
  c_ticker <$> sample_records =
    filter (λ ticker, ticker ≠ "" ∧ ticker ≠ "#N/A")
      (omap (λ row, label_of (nth 0 row Missing)) (rows sample_company_master)) ∧
  Forall (λ r, strip (c_ticker r) = c_ticker r ∧ c_is_active r = true ∧
               ∃ row, row ∈ rows sample_company_master ∧
                 c_company_name r = row_get (columns sample_company_master) row "NAME" ∧
                 c_currency r = row_get (columns sample_company_master) row "CRNCY" ∧
                 c_current_market_cap r
                 = clean_value (row_get (columns sample_company_master) row "CUR_MKT_CAP"))
    sample_records.
Proof.
  apply (company_records_tickers (columns sample_company_master)
           (rows sample_company_master) sample_records).
  reflexivity.
Defined.

Lemma import_companies_repeated_ticker_witness :
  ∃ d c',
    import_companies sample_repeated_files (connect empty_database) = (Return d, c') ∧
    d !! "AAPL US Equity" = Some 3 ∧
    select_company_id "AAPL US Equity" (companies (cur c')) = Some 1.
Proof.
  apply (import_companies_repeated_ticker
           sample_repeated_files sample_repeated_master
           [] [sample_vodafone] [] sample_apple sample_apple (connect empty_database)).
  - reflexivity.
  - reflexivity.
  - reflexivity.
  - apply NoDup_singleton.
  - apply not_elem_of_nil.
  - reflexivity.
Defined.

Lemma import_index_membership_rows_witness :
  ∃ df,
    sample_run_files !! "index_membership_snapshot.csv" = Some (CsvFile df) ∧
    ∀ r, r ∈ index_membership (cur sample_membership_run) →
      r ∈ index_membership (cur (connect sample_database)) ∨
      ∃ row,
        row ∈ rows df ∧
        select_company_id (strip (str (row_get (columns df) row "Ticker")))
          (companies (cur sample_membership_run)) = Some (m_company_id r) ∧
        m_index_id r = row_get (columns df) row "index_id" ∧
        parse_bloomberg_date (row_get (columns df) row "as_of_date")
          = Some (m_as_of_date r) ∧
        m_weight r = clean_value (row_get (columns df) row "Weight") ∧
        m_shares_outstanding r = clean_value (row_get (columns df) row "Shares") ∧
        m_price r = clean_value (row_get (columns df) row "Price").
Proof.
  apply (import_index_membership_rows sample_run_files sample_dict
           (connect sample_database) sample_membership_run tt).
  - exact sample_dict_exact.
  - apply run_result. reflexivity.
Defined.

Lemma import_index_membership_complete_witness :
  (∀ r, r ∈ index_membership (cur (connect sample_database)) →
        r ∈ index_membership (cur sample_membership_run)) ∧
  (∀ row r, row ∈ rows sample_snapshot →
     membership_values sample_dict (companies (cur (connect sample_database)))
       (columns sample_snapshot) row = Return (Some r) →
     membership_key r ∈ membership_key <$> index_membership (cur sample_membership_run)).
Proof.
  apply (import_index_membership_complete sample_run_files sample_dict sample_snapshot
           (connect sample_database) sample_membership_run tt).
  - reflexivity.
  - apply run_result. reflexivity.
Defined.

Lemma import_prices_weekly_rows_witness :
  ∃ df ticker_row field_row ticker_cols,
    sample_run_files !! "price_weekly.xlsx.xlsx" = Some (ExcelSheet df) ∧
    iloc_row df 3 = Return ticker_row ∧ iloc_row df 4 = Return field_row ∧
    build_ticker_cols ticker_row field_row = Return ticker_cols ∧
    ∀ r, r ∈ prices_weekly (cur sample_prices_run) →
      r ∈ prices_weekly (cur (connect sample_database)) ∨
      ∃ row_idx ticker cols,
        6 ≤ row_idx < nrows df ∧ (ticker, cols) ∈ ticker_cols ∧
        select_company_id ticker (companies (cur sample_prices_run))
        = Some (p_company_id r) ∧
        parse_bloomberg_date (at_ df row_idx 0) = Some (p_price_date r) ∧
        p_close_price r = clean_value (at_ df row_idx (price_col cols)) ∧
        p_close_price r ≠ CNone ∧
        p_total_return r =
          (if (0 <? return_col cols) && (return_col cols <? ncols df)
           then clean_value (at_ df row_idx (return_col cols)) else CNone).
Proof.
  apply (import_prices_weekly_rows sample_run_files sample_dict sample_dict
           (connect sample_database) sample_prices_run).
  - exact sample_dict_exact.
  - apply run_result. reflexivity.
Defined.

Lemma import_prices_weekly_stores_witness :
  ∃ d' c1 ticker_cols,
    import_prices_weekly sample_run_files ∅ (connect sample_database)
    = (Return d', c1) ∧ disk c1 = cur c1 ∧
    build_ticker_cols (at_ sample_price_sheet 3 <$> seq 0 (ncols sample_price_sheet))
      (at_ sample_price_sheet 4 <$> seq 0 (ncols sample_price_sheet))
    = Return ticker_cols ∧
    (∀ r, r ∈ prices_weekly (cur (connect sample_database)) →
          r ∈ prices_weekly (cur c1)) ∧
    (∀ row_idx price_date ticker cols id,
       6 ≤ row_idx < nrows sample_price_sheet →
       parse_bloomberg_date (at_ sample_price_sheet row_idx 0) = Some price_date →
       (ticker, cols) ∈ ticker_cols →
       resolve_company ∅ (companies (cur (connect sample_database))) ticker = Some id →
       0 < price_col cols < ncols sample_price_sheet →
       clean_value (at_ sample_price_sheet row_idx (price_col cols)) ≠ CNone →
       price_key
         {| p_company_id := id; p_price_date := price_date;
            p_close_price := clean_value (at_ sample_price_sheet row_idx (price_col cols));
            p_total_return :=
              if (0 <? return_col cols) && (return_col cols <? ncols sample_price_sheet)
              then clean_value (at_ sample_price_sheet row_idx (return_col cols))
              else CNone |}
       ∈ price_key <$> prices_weekly (cur c1)).
Proof.
  apply (import_prices_weekly_stores sample_run_files sample_price_sheet ∅
           (connect sample_database)).
  - reflexivity.
  - cbn. lia.
Defined.

Lemma import_financials_rows_witness :
  ∃ df ticker_row field_row ticker_fields,
    sample_run_files !! "financials_annual.xlsx" = Some (ExcelSheet df) ∧
    iloc_row df 3 = Return ticker_row ∧ iloc_row df 5 = Return field_row ∧
    build_ticker_fields ticker_row field_row = Return ticker_fields ∧
    ∀ r, r ∈ financials (cur sample_financials_run) →
      r ∈ financials (cur (connect sample_database)) ∨
      ∃ row_idx ticker field_cols period_end_date,
        6 ≤ row_idx < nrows df ∧ (ticker, field_cols) ∈ ticker_fields ∧
        select_company_id ticker (companies (cur sample_financials_run))
        = Some (f_company_id r) ∧
        parse_bloomberg_date (at_ df row_idx 0) = Some period_end_date ∧
        r = {| f_company_id := f_company_id r;
               f_period_end_date := period_end_date;
               f_period_type := "ANNUAL";
               f_revenue := measure_cell df row_idx field_cols "revenue";
               f_ebitda := measure_cell df row_idx field_cols "ebitda";
               f_interest_expense :=
                 measure_cell df row_idx field_cols "interest_expense";
               f_free_cash_flow := measure_cell df row_idx field_cols "free_cash_flow";
               f_gross_profit := measure_cell df row_idx field_cols "gross_profit";
               f_total_debt := measure_cell df row_idx field_cols "total_debt";
               f_cost_of_goods_sold :=
                 measure_cell df row_idx field_cols "cost_of_goods_sold";
               f_currency := CNone |} ∧
        ¬ (f_revenue r = CNone ∧ f_ebitda r = CNone ∧ f_interest_expense r = CNone ∧
           f_free_cash_flow r = CNone ∧ f_gross_profit r = CNone ∧
           f_total_debt r = CNone ∧ f_cost_of_goods_sold r = CNone).
Proof.
  apply (import_financials_rows sample_run_files sample_dict sample_dict
           "financials_annual.xlsx" "ANNUAL" (connect sample_database)
           sample_financials_run).
  - exact sample_dict_exact.
  - apply run_result. reflexivity.
Defined.

Lemma import_financials_returns_witness :
  ∃ d' c1,
    import_financials sample_run_files sample_dict "financials_annual.xlsx" "ANNUAL"
      (connect sample_database) = (Return d', c1) ∧
    disk c1 = cur c1.
Proof.
  apply (import_financials_returns sample_run_files sample_financial_sheet sample_dict
           "financials_annual.xlsx" "ANNUAL" (connect sample_database)).
  - reflexivity.
  - cbn. lia.
Defined.

Lemma import_financials_other_periods_witness :
  filter (λ r, f_period_type r ≠ "ANNUAL") (financials (cur sample_financials_run))
  = filter (λ r, f_period_type r ≠ "ANNUAL")
      (financials (cur (connect sample_database))).
Proof.
  apply (import_financials_other_periods sample_run_files sample_dict sample_dict
           "financials_annual.xlsx" "ANNUAL" (connect sample_database)
           sample_financials_run).
  apply run_result. reflexivity.
Defined.

Lemma ticker_cache_witness :
  (∀ ticker n, sample_dict !! ticker = Some (S n) →
     select_company_id ticker (companies (cur sample_prices_run)) = Some (S n)) ∧
  (∀ ticker n, sample_dict !! ticker = Some (S n) →
               sample_dict !! ticker = Some (S n)) ∧
  (∀ ticker id, sample_dict !! ticker = Some id →
     sample_dict !! ticker = Some id ∨
     select_company_id ticker (companies (cur sample_prices_run)) = Some id).
Proof.
  apply (ticker_cache sample_run_files sample_dict sample_dict
           "financials_annual.xlsx" "ANNUAL" (connect sample_database)
           sample_prices_run).
  - exact sample_dict_exact.
  - left. apply run_result. reflexivity.
Defined.

Lemma import_macro_rows_witness :
  ∃ df,
    sample_run_files !! "usa_macros_2024~2005.xlsx" = Some (ExcelSheet df) ∧
    ∀ r, r ∈ macro_indicators (cur sample_macro_run) →
      r ∈ macro_indicators (cur (connect sample_database)) ∨
      ∃ row_idx k,
        2 ≤ row_idx < nrows df ∧ k < ncols df - 2 ∧
        i_country_id r = "US" ∧
        i_indicator_date r = macro_date k ∧
        label_of (at_ df row_idx 0) = Some (i_indicator_name r) ∧
        i_indicator_name r ≠ "" ∧ i_indicator_name r ≠ "nan" ∧
        i_bloomberg_ticker r = label_of (at_ df row_idx 1) ∧
        i_indicator_value r = clean_value (at_ df row_idx (2 + k)) ∧
        i_indicator_value r ≠ CNone ∧
        i_indicator_category r = macro_category (lower (i_indicator_name r)).
Proof.
  apply (import_macro_rows sample_run_files "usa_macros_2024~2005.xlsx" "US"
           (connect sample_database) sample_macro_run tt).
  apply run_result. reflexivity.
Defined.

Lemma import_macro_stores_witness :
  ∃ c1,
    import_macro sample_run_files "usa_macros_2024~2005.xlsx" "US"
      (connect sample_database) = (Return tt, c1) ∧
    disk c1 = cur c1 ∧
    (∀ r, r ∈ macro_indicators (cur (connect sample_database)) →
          r ∈ macro_indicators (cur c1)) ∧
    (∀ row_idx indicator_name k,
       2 ≤ row_idx < nrows sample_macro_sheet →
       label_of (at_ sample_macro_sheet row_idx 0) = Some indicator_name →
       indicator_name ≠ "" → indicator_name ≠ "nan" →
       k < ncols sample_macro_sheet - 2 →
       clean_value (at_ sample_macro_sheet row_idx (2 + k)) ≠ CNone →
       macro_key {| i_country_id := "US"; i_indicator_date := macro_date k;
                    i_indicator_name := indicator_name;
                    i_bloomberg_ticker := label_of (at_ sample_macro_sheet row_idx 1);
                    i_indicator_value :=
                      clean_value (at_ sample_macro_sheet row_idx (2 + k));
                    i_indicator_category := macro_category (lower indicator_name) |}
       ∈ macro_key <$> macro_indicators (cur c1)).
Proof.
  apply (import_macro_stores sample_run_files "usa_macros_2024~2005.xlsx" "US"
           sample_macro_sheet (connect sample_database)).
  - reflexivity.
  - left. cbn. lia.
Defined.

Lemma import_interest_rates_rows_witness :
  ∃ df,
    sample_run_files !! "5 countries 10y yield and policy rate.xlsx"
    = Some (ExcelSheet df) ∧
    ∀ r, r ∈ interest_rates (cur sample_rates_run) →
      r ∈ interest_rates (cur (connect sample_database)) ∨
      ∃ row_idx col,
        6 ≤ row_idx < nrows df ∧ col < ncols df ∧
        (col, (r_country_id r, r_rate_type r, r_bloomberg_ticker r)) ∈ col_map ∧
        parse_bloomberg_date (at_ df row_idx 0) = Some (r_rate_date r) ∧
        r_rate_value r = clean_value (at_ df row_idx col) ∧
        r_rate_value r ≠ CNone.
Proof.
  apply (import_interest_rates_rows sample_run_files (connect sample_database)
           sample_rates_run tt).
  apply run_result. reflexivity.
Defined.

Lemma import_interest_rates_stores_witness :
  ∃ c1,
    import_interest_rates sample_run_files (connect sample_database) = (Return tt, c1) ∧
    disk c1 = cur c1 ∧
    (∀ r, r ∈ interest_rates (cur (connect sample_database)) →
          r ∈ interest_rates (cur c1)) ∧
    (∀ row_idx rate_date col country_id rate_type ticker,
       6 ≤ row_idx < nrows sample_rates_table →
       parse_bloomberg_date (at_ sample_rates_table row_idx 0) = Some rate_date →
       (col, (country_id, rate_type, ticker)) ∈ col_map →
       col < ncols sample_rates_table →
       clean_value (at_ sample_rates_table row_idx col) ≠ CNone →
       rate_key {| r_country_id := country_id; r_rate_date := rate_date;
                   r_rate_type := rate_type; r_bloomberg_ticker := ticker;
                   r_rate_value := clean_value (at_ sample_rates_table row_idx col) |}
       ∈ rate_key <$> interest_rates (cur c1)).
Proof.
  apply (import_interest_rates_stores sample_run_files sample_rates_table
           (connect sample_database)).
  - reflexivity.
  - left. cbn. lia.
Defined.

Lemma load_all_rerun_witness :
  load_all sample_run_files sample_run = (Return tt, sample_run).
Proof.
  apply (load_all_rerun sample_run_files (connect empty_database) sample_run).
  exact (run_result (load_all sample_run_files) (connect empty_database) tt eq_refl).
Defined.

Lemma combine_memb_rerun_witness :
  combine_memb sample_combined_files = Return sample_combined_files.
Proof.
  apply (combine_memb_rerun sample_exports sample_combined_files). reflexivity.
Defined.

Lemma combined_rows_importable_witness :
  Text "index_id" ∈ columns sample_combined ∧
  Text "as_of_date" ∈ columns sample_combined ∧
  Text "Ticker" ∈ columns sample_combined ∧
  ∀ row, row ∈ rows sample_combined →
    (row_get (columns sample_combined) row "index_id" = Text "SPX" ∨
     row_get (columns sample_combined) row "index_id" = Text "UKX") ∧
    (∃ year, 2000 ≤ year ≤ 2099 ∧
       row_get (columns sample_combined) row "as_of_date"
       = Text (str_nat year +:+ "-12-31") ∧
       parse_bloomberg_date (row_get (columns sample_combined) row "as_of_date")
       = Some (str_nat year +:+ "-12-31")) ∧
    (∃ ticker, row_get (columns sample_combined) row "Ticker" = Text ticker ∧
               strip ticker = ticker).
Proof.
  apply (combined_rows_importable sample_exports sample_combined). reflexivity.
Defined.

Lemma combined_shape_witness :
  (∀ c, c ∈ columns sample_combined →
        c ∈ [Text "index_id"; Text "as_of_date"; Text "Ticker"; Text "Name";
             Text "Weight"; Text "Shares"; Text "Price"]) ∧
  Forall (λ row, length row = length (columns sample_combined)) (rows sample_combined) ∧
  ((∀ name f, name ∈ membership_files sample_exports →
              sample_exports !! name = Some (ExcelTable f) → plain_export f) →
   NoDup (columns sample_combined)).
Proof.
  apply (combined_shape sample_exports sample_combined). reflexivity.
Defined.

(** An export with the headers [Weight] and [Weight ]: both columns are
    kept, under the same label. *)
Example combined_repeated_label :
  combined sample_repeated_export =
  Return {| columns := [Text "index_id"; Text "as_of_date"; Text "Ticker";
                        Text "Weight"; Text "Weight"];
            rows := [[Text "SPX"; Text "2005-12-31"; Text "AAPL US Equity";
                      Num 5%Z; Num 6%Z]] |}.
Proof. reflexivity. Qed.

Lemma fix_date_column_rerun_witness :
  fix_date_column sample_fixed_files "financials_quarterly.xlsx" "QUARTERLY"
  = Return sample_fixed_files.
Proof.
  exact (proj1 (fix_date_column_rerun sample_fix_files sample_fixed_files
                  "financials_quarterly.xlsx" "QUARTERLY" eq_refl)).
Defined.

Lemma make_ticker_list_after_combine_witness :
  ∃ tickers,
    make_ticker_list sample_combined_files
    = Return (<["tickers_unique.csv" :=
                  CsvFile {| columns := [Text "ticker"];
                             rows := (λ t, [Text t]) <$> tickers |}]>
                sample_combined_files) ∧
    NoDup tickers ∧ StronglySorted String.le tickers ∧
    Forall (λ t, strip t = t) tickers.
Proof.
  apply (make_ticker_list_after_combine sample_exports sample_combined_files).
  reflexivity.
Defined.

Example make_ticker_list_sample :
  ticker_list sample_snapshot = Return ["AAPL US Equity"; "VOD LN Equity"; "ZZZZ US Equity"].
Proof. reflexivity. Qed.
